(* ===== verification/_CoqProject ===== *)
-Q . S2P
Prelude.v
Strings.v
Time.v
Domain.v
Json.v
World.v
Metrics.v
Db.v
Repository.v
Schema.v
Tenancy.v
Inbox.v
Queue.v
Realtime.v
Provider.v
RateLimit.v
Preference.v
Template.v
Notification.v
Webhook.v
Processor.v
Pipeline.v
WebhookWorker.v
Loops.v
Pool.v
Ordering.v
Http.v
Config.v
Dlq.v
Access.v
Requests.v
Handlers.v
SendApi.v
WsToken.v
Stream.v
Health.v
Router.v
Isolation.v
Logging.v
Wiring.v
Loader.v
Seed.v
System.v
Tracing.v
History.v
Ledger.v
Integrity.v
Closed.v
Consumers.v
Shutdown.v
Keyed.v
Resources.v
