(* ===== verification/Prelude.v ===== *)
(** * NotifyHub: a verification of the notification service

    NotifyHub accepts notifications over HTTP, stores them in PostgreSQL, queues them
    in Kafka and delivers them by e-mail, push, SMS or an in-app inbox.  Two binaries
    share the database, the broker and Redis: the API ([cmd/api]) and the worker
    ([cmd/worker]).  This library models the code under [src/internal], the start-up of
    the two binaries and the seed script, and proves what makes it correct, under every
    schedule of faults and delays of the services it talks to.

    ** How the parts interact

    [main] loads the configuration ([config/config.go]), builds providers, consumers and
    the router and serves.  A request passes the chain of [api/router.go]: request id,
    logging, recovery and metrics, then, by its route's group, the admin token or the key
    check of [middleware/auth.go] and the client limit of [middleware/ratelimit.go]; its
    handler decodes it and calls a service.  [service/notification.go]
    stores a notification and publishes a [queue.Message] on the channel's topic; a
    notification scheduled for later is published by [service/scheduler.go].
    [worker/pool.go] fetches the records and hands each to [worker/processor.go],
    which looks the notification up, checks preference and rate limit, renders the
    template, sends through a provider with retries, and then writes the delivery
    log, the final status, a dead letter on failure and the webhook events.
    [worker/webhook_worker.go] posts those events; [worker/dlq_consumer.go] stores
    dead letters, which [api/handler/dlq.go] can replay.  In-app messages are stored
    and pushed through Redis to the WebSocket hub of [realtime/hub.go], from which
    [Stream] of [api/handler/inbox.go] forwards them to a client that shows a signed token
    ([auth/jwt.go]).

    ** The model

    A Go function that touches the outside is a computation [ST world]: a state
    passing function with a Go error or a value ([result]).  [world] holds the
    PostgreSQL tables, the Kafka log, the Redis sorted sets and publications, the
    clock, the number of external calls made and the Prometheus counters.  [Env]
    gives for each external call its duration, a generated uuid and a fault: none, a
    failure before the effect, or a failure after it (a lost answer).  All theorems
    hold for every [Env] unless they say that no call fails.  Integers keep their
    width where the code converts ([int32], the nanoseconds of a [Duration]);
    float64 scores are rounded as IEEE 754 does.  Strings are byte strings, uuids
    are numbers below 2^128 with their text as a parameter.

    ** Files

    - [Prelude]: JSON values, errors, the computation type and its weakest
      preconditions ([wp]), frames ([Frame f m]: [m] leaves [f] alone) and invariants
      ([Keeps I m]) as classes that proof search composes; list and integer lemmas.
    - [Strings]: what the code uses of Go's [strings] package.
    - [Time], [Json]: the civil calendar and RFC 3339 text; struct codecs as a class
      with a round-trip law.
    - [Domain]: [internal/domain], [service/validate.go].
    - [World], [Db], [Repository]: the rows and tables, one definition per SQL query
      of [internal/db], one per method of [internal/repository].
    - [Metrics]: the collectors of [observability/metrics.go] and what makes an update
      of one safe.
    - [Schema], [Tenancy], [Inbox]: the constraints of [migrations/] as an invariant,
      isolation of tenants, paging and gap replay of the inbox.
    - [Queue], [Realtime], [Provider]: [internal/queue] (envelopes, producer),
      [internal/realtime], [internal/provider] with its five backends.
    - [RateLimit], [Preference], [Template], [Notification], [Webhook], [Access]: the
      services of [internal/service] and, in [Access], the authentication, admin and
      rate-limit middleware.
    - [Processor], [Pipeline]: [worker/processor.go] and what one run of it
      guarantees, proved against contracts of the providers and the dispatcher
      ([ProviderContract], [DispatcherContract]) that [Provider] and [Pipeline]
      discharge for the real ones.
    - [WebhookWorker], [Pool], [Dlq]: the rest of [internal/worker], the consumer of
      [internal/queue] and the dead-letter handlers; [Loops]: the two retry loops as the
      code writes them, without a bound; [Ordering]: what [NewProducer] configures, the
      partitions of a topic and the order in which a pool processes one.
    - [Http], [Requests], [Handlers], [SendApi]: [api/response], the request structs with
      their JSON, the handlers of [api/handler], and a send request from body to queue.
    - [Keyed], [Resources]: tables as keyed stores, an interface with one lemma per form of
      statement; templates, webhook endpoints, preferences and device tokens over HTTP as
      its four instances.
    - [WsToken], [Stream], [Health], [Router], [Isolation]: WebSocket tokens, a stream as a
      state machine beside the hub, the health checks, the route table with its middleware
      as one function [ServeHTTP], and what a whole request can touch.
    - [Config], [Logging], [Wiring], [Loader], [Seed]: [internal/config],
      [observability/logging.go], the start-up of [cmd/worker] and [cmd/api] with
      [observability/tracing.go], [template/loader.go] and [scripts/seed.go].
    - [System]: requests, stream replays and closes, scheduler ticks and consumer turns of the two
      started processes over one world.  [Invariant] lists what an invariant has to keep
      statement by statement; the schema and the metrics are instances.
    - [Tracing]: the spans of [Send] and [Process] ([observability/span.go], [tracing.go]) as
      a second state beside the world, and the trace context in the records' headers.
    - [History]: the tables that only grow, over every run.
    - [Ledger], [Integrity], [Closed]: an abstract ledger that all those runs refine; what
      each record of the queue and each stored dead letter is about; the started processes
      as a closed system, whose tasks take the records the program published.
    - [Consumers], [Shutdown]: [Run] of the dead-letter consumer and of the webhook worker
      as one loop over a handler interface; the tasks of the worker beside its [main], and
      both [main] functions from the signal to their last deferred call.

    ** What the theorems show

    - Delivery: a message that [Process] accepts ends in one verdict, with at most
      one log row, dead letter and status change that agree with it; an error leaves
      no trace but the status "processing" and the time; retries are bounded and
      spaced; every backend classifies its errors; the pool loses no record and
      drains; the retry loops terminate.
    - From acceptance to verdict: the queue's integrity is an invariant of the closed
      system, so a notification that was accepted can be found, decoded and settled in
      every later state.
    - Requests: every request is answered and none reads a client that was not
      authenticated; a request changes only rows of the tenant whose key it carries, webhook
      deliveries included; a send request in any member order is answered by what was stored and
      queued; requests on templates, endpoints, preferences and device tokens are commands
      on a store per tenant and resource.
    - Streams: nothing falls between the replayed gap and the live frames (what Redis loses
      while a client is connected, its pub/sub being at most once, is lost); tokens verify to what they were issued for, for their lifetime.
    - Start-up: a configuration that loads holds what the environment says; every worker
      that starts has the providers, caps and pools its contracts need and consumes only
      topics it asked for; every metric series has its collector's labels and no counter
      falls; template files round trip.
    - Running and stopping: the sequential consumers run their handler over the log in
      order; a worker whose pools all have workers shuts down completely, in order, and
      closes nothing under a running task; so does the API, but for streams and requests
      that [Shutdown] gave up on.
    - Sending: each outcome of [Send], its idempotency, bulk accounting, cancelling,
      the scheduler's batch; replayed dead letters; webhook fan-out and delivery.
    - State: the schema is an invariant of all runs of the started system, and the runs
      refine a ledger that only grows and never returns to "pending"; methods acting
      for a tenant leave other tenants' rows alone; reads return what is stored; pages
      and gap replay follow one total order; JSON envelopes and trace headers round
      trip; tenants, clients, templates, device tokens and in-app messages are never lost,
      so an issued API key authenticates ever after, and nothing but a stored key does.
    - Order and traces: a recipient's records share a partition and one worker keeps their
      order (several do not); a span changes nothing, ends once and names the call that
      failed; where a collector is configured, what is published carries the span to the
      worker that continues the trace, and where none is, it carries nothing.
    - Limits: the limiter refines an abstract log of attempts and caps a window;
      quiet hours follow the local clock where the zone keeps its offset; a stored
      preference decides the next check; hub buffers are bounded and private.
    - Defects: what the code does against its intention, as theorems
      ([scheduled_message_never_settles], [failed_publish_is_never_rescued],
      [failed_message_can_be_passed], [left_record_is_passed], [hub_publish_cancel_panics],
      [workerless_pool_hangs],
      [rate_limiter_members_collide], [cancelled_notification_is_delivered],
      [unset_secrets], [seed_overwrites_by_name]).

    ** Fuel

    The only loops that are not structural are the retry loops of the processor and
    of the webhook worker.  They carry [Z.to_nat (MaxAttempts - Attempt)] retries; as
    the loop's own test stops at [Attempt >= MaxAttempts], this never runs out before
    the loop does: [Loops] proves them equal to the unbounded loops of the code, which
    therefore terminate.  The civil calendar, the decoders and the batch loops are
    structural.  The loops that run until a signal ([Pool], [Consumers], [Shutdown],
    [Stream]) are step relations without fuel; a run sees finitely many records and
    ticks, as many as one likes, which makes "closer to the end" a measure.

    ** Parameters

    Code outside the repository is an argument: the text of uuids ([UuidText]),
    [text/template] ([TextTemplate]), the time-zone database ([TimeZones]), Redis
    sorted-set commands ([RedisCommands]), the HTTP client and HMAC ([HttpClient]),
    the SES, Twilio and FCM clients, Kafka's committed offset ([CommitOffset]),
    SHA-256 and the random source ([KeySource]), OpenTelemetry's tracer and propagator
    ([Otel], [Propagator]), kafka-go's hash balancer ([HashBalancer]), the validator's url
    tag, golang-jwt ([Jwt]), the WebSocket handshake ([WsAccept]), chi's choice of a route
    ([ChiMux]), the Prometheus text format ([PromText]), [strconv.ParseFloat]
    ([Floats]), [slog]'s JSON handler ([JsonHandler]) and what drivers and SDK
    constructors answer at start-up ([Infra]).  The laws used of them are classes of their
    own ([UuidTextLaws], [RedisLaws], [CommitLaws], [KeyLaws], [JwtLaws], [InfraLaws],
    [OtelLaws], [JsonHandlerLaws]) with an instance each.

    ** Idealisations

    - A request, a [Process] of one message and a turn of a consumer are atomic steps of
      [System] and [Closed]: the theorems about runs cover every order, repetition and
      fault of those steps, not statements of two of them interleaved.  The hub's calls
      are atomic in [Stream]; [Realtime] interleaves them.
    - A number in a [map[string]any] is the exact integer or decimal text of the document,
      where [encoding/json] rounds to float64 (integers above 2^53), and [fmt]'s %v of a
      large one is plain decimal instead of exponent form.
    - The version of a template is unbounded, where the INT column fails after 2^31 - 1.
    - Of the panics of a metric update the UTF-8 check of label values is left out; of the
      panics of a handler only the missing client is modelled, and a stream's handler up to
      the upgrade (its connection is [Stream], the hub's own panic [Realtime]).
    - Whether the broker created the topics it was asked for is a logged answer
      ([wk_created]) that nothing depends on.

    ** Not modelled

    The log lines of each component (the handler all lines go through is); the durations of
    the servers' time-outs; the middleware [RealIP] and [otelhttp], whose span only gives
    [Send] its parent; the scanning of bytes into JSON values; consumers of more than one
    partition at a time (the program creates topics with one; [Ordering] says what goes
    where); the load-test scripts, which drive a running server from outside; the interface
    declarations and constructors that only copy their arguments.  Context deadlines appear
    as faults and as cancelled waits only.  Memory-model data races are not modelled beyond
    the interleavings of [Realtime], [Stream] and [Pool].  What is left of the sources is
    imports, interfaces and such constructors. *)

From Stdlib Require Export Ascii ZArith Lia.
From stdpp Require Export prelude strings gmap list list_numbers sorting pretty.

#[global] Open Scope Z_scope.

(** ** Untyped JSON values: Go's [any] as [encoding/json] produces it

    An integer is kept exact; as a float64 it would be rounded above 2^53. *)

Inductive any :=
  | ANull
  | ABool (b : bool)
  | AInt (z : Z)
  | AFloat (lit : string)
  | AStr (s : string)
  | AArr (l : list any)
  | AObj (kvs : list (string * any)).

(** A Go [map[string]any]: [None] is the nil map. *)
Abbreviation gomap := (option (gmap string any)).

(** ** Go errors *)

(** The dynamic types of [error] the code creates or inspects.  [EPlain] is an
    opaque library error or [errors.New]; [EWrap p e] is
    [fmt.Errorf("p: %w", e)]; [EWrapSuffix e s] is [fmt.Errorf("%w: s", e)];
    [EApp] is [*domain.AppError].  [EValidation] (validator.ValidationErrors as
    its field/tag pairs), [ESmithy] (smithy.APIError), [ETwilio]
    (a [client.TwilioRestError]) and [EFcm] (a Firebase error and its kind) are the
    library errors the code takes apart; each carries the library's text. *)
Inductive error :=
  | EPlain (msg : string)
  | ENoRows
  | ENoProvider
  | ECtxCanceled
  | EValidation (fields : list (string * string)) (msg : string)
  | ESmithy (code : string) (fault_client : bool) (msg : string)
  | ETwilio (code : Z) (msg : string)
  | EFcm (kind : string) (msg : string)
  | EWrap (pre : string) (e : error)
  | EWrapSuffix (e : error) (suf : string)
  | ETemporary (e : error)
  | EPermanent (e : error)
  | EApp (code msg : string) (details : gomap) (cause : option error).

(** A Go [(value, error)] pair of which exactly one half is meaningful. *)
Inductive result (A : Type) :=
  | Ok (a : A)
  | Err (e : error).
Arguments Ok {A} a.
Arguments Err {A} e.

Definition is_ok {A} (r : result A) : bool :=
  match r with Ok _ => true | Err _ => false end.

(** Pure fallible code threads [result] as a monad of its own. *)
#[global] Instance result_ret : MRet result := @Ok.
#[global] Instance result_bind : MBind result := fun _ _ f r =>
  match r with Ok a => f a | Err e => Err e end.

(** ** The state-and-error monad

    A Go function that mutates shared state and returns [(A, error)] is a
    computation [W -> result A * W]: an error does not undo the effects that
    came before it. *)

Definition ST (W A : Type) : Type := W -> result A * W.

Section Monad.
Context {W : Type}.

#[global] Instance ST_ret : MRet (ST W) := fun _ a w => (Ok a, w).
#[global] Instance ST_bind : MBind (ST W) := fun _ _ f m w =>
  match m w with
  | (Ok a, w') => f a w'
  | (Err e, w') => (Err e, w')
  end.

(** [return _, err] *)
Definition throw {A} (e : error) : ST W A := fun w => (Err e, w).

(** [v, err := f()] without an early return: the caller inspects [err]. *)
Definition try {A} (m : ST W A) : ST W (result A) := fun w =>
  let '(r, w') := m w in (Ok r, w').

(** The outcome of a pure fallible call, inside a computation. *)
Definition lift {A} (r : result A) : ST W A := fun w => (r, w).

(** [_ = f()]: the error is dropped. *)
Definition ignore {A} (m : ST W A) : ST W unit := fun w =>
  let '(_, w') := m w in (Ok tt, w').

Definition gets {A} (f : W -> A) : ST W A := fun w => (Ok (f w), w).
Definition modify (f : W -> W) : ST W unit := fun w => (Ok tt, f w).

(** [if err := f(); err != nil { return h(err) }] *)
Definition or_else {A} (m : ST W A) (h : error -> error) : ST W A := fun w =>
  match m w with
  | (Ok a, w') => (Ok a, w')
  | (Err e, w') => (Err (h e), w')
  end.

(** [for _, x := range l { body(x) }] with a body that cannot fail. *)
Fixpoint for_each {A} (l : list A) (body : A -> ST W unit) : ST W unit :=
  match l with
  | [] => mret tt
  | x :: l' => _ ← body x; for_each l' body
  end.
End Monad.

(** ** Weakest preconditions *)

Section Wp.
Context {W : Type}.

(** Every Go computation of the model terminates, so the weakest
    precondition is the postcondition of the one outcome. *)
Definition wp {A} (m : ST W A) (Q : result A -> W -> Prop) (w : W) : Prop :=
  Q (m w).1 (m w).2.

Lemma wp_ret {A} (a : A) Q w : Q (Ok a) w -> wp (mret a) Q w.
Proof. done. Qed.

Lemma wp_throw {A} e (Q : result A -> W -> Prop) w : Q (Err e) w -> wp (throw e) Q w.
Proof. done. Qed.

Lemma wp_bind {A B} (m : ST W A) (f : A -> ST W B) Q w :
  wp m (fun r w' => match r with Ok a => wp (f a) Q w' | Err e => Q (Err e) w' end) w ->
  wp (m ≫= f) Q w.
Proof. unfold wp, mbind, ST_bind. by destruct (m w) as [[] ?]. Qed.

Lemma wp_try {A} (m : ST W A) Q w : wp m (fun r w' => Q (Ok r) w') w -> wp (try m) Q w.
Proof. unfold wp, try. by destruct (m w). Qed.

Lemma wp_ignore {A} (m : ST W A) Q w : wp m (fun _ w' => Q (Ok tt) w') w -> wp (ignore m) Q w.
Proof. unfold wp, ignore. by destruct (m w). Qed.

Lemma wp_or_else {A} (m : ST W A) h Q w :
  wp m (fun r w' => match r with Ok a => Q (Ok a) w' | Err e => Q (Err (h e)) w' end) w ->
  wp (or_else m h) Q w.
Proof. unfold wp, or_else. by destruct (m w) as [[] ?]. Qed.

Lemma wp_lift {A} (r : result A) Q w : Q r w -> wp (lift r) Q w.
Proof. done. Qed.

Lemma wp_gets {A} (f : W -> A) Q w : Q (Ok (f w)) w -> wp (gets f) Q w.
Proof. done. Qed.

Lemma wp_modify (f : W -> W) Q w : Q (Ok tt) (f w) -> wp (modify f) Q w.
Proof. done. Qed.

Lemma wp_mono {A} (m : ST W A) (P Q : result A -> W -> Prop) w :
  wp m P w -> (forall r w', P r w' -> Q r w') -> wp m Q w.
Proof. unfold wp. eauto. Qed.

Lemma wp_and {A} (m : ST W A) (P Q : result A -> W -> Prop) w :
  wp m P w -> wp m Q w -> wp m (fun r w' => P r w' /\ Q r w') w.
Proof. done. Qed.

(** A postcondition that forgets what the first step did. *)
Lemma wp_bind_any {A B} (m : ST W A) (k : A -> ST W B) Q w :
  (forall e w', Q (Err e) w') -> (forall a w', wp (k a) Q w') -> wp (m ≫= k) Q w.
Proof. intros He Hk. apply wp_bind. unfold wp in *. destruct (m w) as [[a|e] w']; simpl; auto. Qed.

Lemma wp_run {A} (m : ST W A) Q w r w' : wp m Q w -> m w = (r, w') -> Q r w'.
Proof. unfold wp. intros H E. by rewrite E in H. Qed.

(** The run itself, as a postcondition. *)
Lemma wp_eq {A} (m : ST W A) w : wp m (fun r w' => m w = (r, w')) w.
Proof. unfold wp. by destruct (m w). Qed.

Lemma wp_fst {A} (m : ST W A) (Q : result A -> Prop) w : wp m (fun r _ => Q r) w -> Q (m w).1.
Proof. done. Qed.

Lemma wp_pair {A} (m : ST W A) (Q : result A -> W -> Prop) w :
  wp m Q w -> let '(r, w') := m w in Q r w'.
Proof. unfold wp. by destruct (m w). Qed.

(** A loop keeps an invariant its body keeps. *)
Lemma wp_for_each {A} (l : list A) (body : A -> ST W unit) (I : W -> Prop) w :
  I w ->
  (forall x w', x ∈ l -> I w' -> wp (body x) (fun r w'' => r = Ok tt /\ I w'') w') ->
  wp (for_each l body) (fun r w' => r = Ok tt /\ I w') w.
Proof.
  revert w. induction l as [|x l IH]; intros w HI Hb; simpl; [done|].
  apply wp_bind. eapply wp_mono; [apply Hb; [set_solver|done]|].
  intros ? w' [-> ?]. apply IH; [done|]. intros. apply Hb; [set_solver|done].
Qed.

(** The same with an invariant that follows the elements visited. *)
Lemma wp_for_each_prefix {A} (l : list A) (body : A -> ST W unit) (I : list A -> W -> Prop) w :
  I [] w ->
  (forall seen x rest w', l = seen ++ x :: rest -> I seen w' ->
     wp (body x) (fun r w'' => r = Ok tt /\ I (seen ++ [x]) w'') w') ->
  wp (for_each l body) (fun r w' => r = Ok tt /\ I l w') w.
Proof.
  intros H0 Hb. assert (forall todo seen w', l = seen ++ todo -> I seen w' ->
    wp (for_each todo body) (fun r w'' => r = Ok tt /\ I l w'') w') as Hgen; [|by apply (Hgen l [])].
  induction todo as [|x todo IH]; intros seen w' Hl HI; cbn [for_each].
  - apply wp_ret. split; [done|]. by rewrite Hl, app_nil_r.
  - apply wp_bind. eapply wp_mono; [by eapply Hb|]. intros r w'' [-> HI'].
    apply (IH (seen ++ [x])); [by rewrite <-app_assoc|done].
Qed.
End Wp.

(** Read a goal about the outcome of [m] as a weakest precondition. *)
Ltac wp_outcome m w := pattern (m w).1; apply wp_fst.

(** ** Observation frames

    [Frame f m]: running [m] does not change the observation [f] of the state,
    whatever the outcome.  The instances compose along the program text, so a
    frame fact about a handler is found by instance search. *)

Class Frame {W A B} (f : W -> B) (m : ST W A) : Prop :=
  frame : forall w, f (m w).2 = f w.

Section Frames.
Context {W B : Type} (f : W -> B).

#[global] Instance frame_ret {A} (a : A) : Frame f (mret a).
Proof. done. Qed.
#[global] Instance frame_throw {A} e : Frame f (@throw W A e).
Proof. done. Qed.
#[global] Instance frame_gets {A} (g : W -> A) : Frame f (gets g).
Proof. done. Qed.
#[global] Instance frame_lift {A} (r : result A) : Frame f (@lift W A r).
Proof. done. Qed.
#[global] Instance frame_bind {A C} (m : ST W A) (k : A -> ST W C) :
  Frame f m -> (forall a, Frame f (k a)) -> Frame f (m ≫= k).
Proof.
  intros Hm Hk w. specialize (Hm w). unfold mbind, ST_bind.
  destruct (m w) as [[a|e] w']; simpl in *; [|done]. by rewrite Hk.
Qed.
#[global] Instance frame_try {A} (m : ST W A) : Frame f m -> Frame f (try m).
Proof. intros Hm w. specialize (Hm w). unfold try. by destruct (m w). Qed.
#[global] Instance frame_ignore {A} (m : ST W A) : Frame f m -> Frame f (ignore m).
Proof. intros Hm w. specialize (Hm w). unfold ignore. by destruct (m w). Qed.
#[global] Instance frame_or_else {A} (m : ST W A) h : Frame f m -> Frame f (or_else m h).
Proof. intros Hm w. specialize (Hm w). unfold or_else. by destruct (m w) as [[] ?]. Qed.
#[global] Instance frame_for_each {A} (l : list A) (body : A -> ST W unit) :
  (forall x, Frame f (body x)) -> Frame f (for_each l body).
Proof. intros Hb. induction l; simpl; [apply _|]. apply frame_bind; [apply Hb|done]. Qed.
End Frames.

Lemma wp_frame {W A B} (f : W -> B) (m : ST W A) w :
  Frame f m -> wp m (fun _ w' => f w' = f w) w.
Proof. intros H. apply H. Qed.

(** ** Kept invariants

    [Keeps I m]: running [m] preserves the invariant [I] of the state, whatever
    the outcome; like frames, found by instance search. *)

Class Keeps {W A} (I : W -> Prop) (m : ST W A) : Prop :=
  keeps : forall w, I w -> I (m w).2.

Section Keeping.
Context {W : Type} (I : W -> Prop).

#[global] Instance keeps_ret {A} (a : A) : Keeps I (mret a).
Proof. by intros w. Qed.
#[global] Instance keeps_throw {A} e : Keeps I (@throw W A e).
Proof. by intros w. Qed.
#[global] Instance keeps_gets {A} (g : W -> A) : Keeps I (gets g).
Proof. by intros w. Qed.
#[global] Instance keeps_lift {A} (r : result A) : Keeps I (@lift W A r).
Proof. by intros w. Qed.
#[global] Instance keeps_bind {A C} (m : ST W A) (k : A -> ST W C) :
  Keeps I m -> (forall a, Keeps I (k a)) -> Keeps I (m ≫= k).
Proof.
  intros Hm Hk w Hw. specialize (Hm w Hw). unfold mbind, ST_bind.
  destruct (m w) as [[a|e] w']; simpl in *; [|done]. by apply Hk.
Qed.
#[global] Instance keeps_try {A} (m : ST W A) : Keeps I m -> Keeps I (try m).
Proof. intros Hm w Hw. specialize (Hm w Hw). unfold try. by destruct (m w). Qed.
#[global] Instance keeps_ignore {A} (m : ST W A) : Keeps I m -> Keeps I (ignore m).
Proof. intros Hm w Hw. specialize (Hm w Hw). unfold ignore. by destruct (m w). Qed.
#[global] Instance keeps_or_else {A} (m : ST W A) h : Keeps I m -> Keeps I (or_else m h).
Proof. intros Hm w Hw. specialize (Hm w Hw). unfold or_else. by destruct (m w) as [[] ?]. Qed.
#[global] Instance keeps_for_each {A} (l : list A) (body : A -> ST W unit) :
  (forall x, Keeps I (body x)) -> Keeps I (for_each l body).
Proof. intros Hb. induction l; simpl; [apply _|]. apply keeps_bind; [apply Hb|done]. Qed.
End Keeping.

Lemma wp_keeps {W A} (I : W -> Prop) (m : ST W A) w :
  Keeps I m -> I w -> wp m (fun _ w' => I w') w.
Proof. intros H Hw. by apply H. Qed.

(** ** Computations without an error outcome

    [Total m]: [m] ends in a value from every state; found by instance search too. *)

Class Total {W A} (m : ST W A) : Prop := total : forall w, is_ok (m w).1 = true.

Section Totality.
Context {W : Type}.

#[global] Instance total_ret {A} (a : A) : Total (mret a : ST W A).
Proof. done. Qed.
#[global] Instance total_gets {A} (g : W -> A) : Total (gets g).
Proof. done. Qed.
#[global] Instance total_modify (g : W -> W) : Total (modify g).
Proof. done. Qed.
#[global] Instance total_try {A} (m : ST W A) : Total (try m).
Proof. intros w. unfold try. by destruct (m w). Qed.
#[global] Instance total_ignore {A} (m : ST W A) : Total (ignore m).
Proof. intros w. unfold ignore. by destruct (m w). Qed.
#[global] Instance total_bind {A C} (m : ST W A) (k : A -> ST W C) :
  Total m -> (forall a, Total (k a)) -> Total (m ≫= k).
Proof.
  intros Hm Hk w. specialize (Hm w). unfold mbind, ST_bind. destruct (m w) as [[a|e] w']; simpl in *; [|done]. apply Hk.
Qed.
End Totality.

Lemma total_run {W A} (m : ST W A) w : Total m -> exists a w', m w = (Ok a, w').
Proof. intros H. specialize (H w). destruct (m w) as [[a|e] w']; [eauto|done]. Qed.

(** Instance search goes through conditionals. *)
#[export] Hint Extern 3 (Frame _ (match ?x with _ => _ end)) => destruct x : typeclass_instances.
#[export] Hint Extern 3 (Keeps _ (match ?x with _ => _ end)) => destruct x : typeclass_instances.
#[export] Hint Extern 3 (Total (match ?x with _ => _ end)) => destruct x : typeclass_instances.

(** A sublist of full length is the list. *)
Lemma sublist_full {A} (l k : list A) : l `sublist_of` k -> (length k <= length l)%nat -> l = k.
Proof.
  induction 1 as [|x l k Hs IH|x l k Hs IH]; simpl; intros Hl; [done|f_equal; apply IH; lia|].
  apply sublist_length in Hs. lia.
Qed.

(** ** Machine integers *)

(** [int32(x)]: two's-complement truncation. *)
Definition int32 (x : Z) : Z := (x + 2^31) mod 2^32 - 2^31.
(** Arithmetic on [int] and [time.Duration] wraps at 64 bits. *)
Definition int64 (x : Z) : Z := (x + 2^63) mod 2^64 - 2^63.

Lemma int32_id x : - 2^31 <= x < 2^31 -> int32 x = x.
Proof. intros. unfold int32. rewrite Z.mod_small; lia. Qed.
Lemma int64_id x : - 2^63 <= x < 2^63 -> int64 x = x.
Proof. intros. unfold int64. rewrite Z.mod_small; lia. Qed.
Lemma int32_range x : - 2^31 <= int32 x < 2^31.
Proof. unfold int32. pose proof (Z.mod_pos_bound (x + 2^31) (2^32)). lia. Qed.

(** ** Strings *)

(** [utf8.RuneCountInString] on valid UTF-8: the bytes that are not
    continuation bytes. *)
Definition is_continuation (c : ascii) : bool :=
  let n := Ascii.N_of_ascii c in (128 <=? n)%N && (n <? 192)%N.
Fixpoint rune_count (s : string) : Z :=
  match s with
  | "" => 0
  | String c s' => (if is_continuation c then 0 else 1) + rune_count s'
  end.

(** [strings.HasPrefix] and [strings.TrimPrefix] *)
Definition HasPrefix (s p : string) : bool := String.prefix p s.
Definition TrimPrefix (s p : string) : string :=
  if String.prefix p s then String.substring (String.length p) (String.length s - String.length p) s
  else s.

(** [strings.IndexByte]: split at the first occurrence of [c]. *)
Fixpoint cut_byte (c : ascii) (s : string) : option (string * string) :=
  match s with
  | "" => None
  | String d s' =>
      if decide (d = c) then Some ("", s')
      else '(a, b) ← cut_byte c s'; Some (String d a, b)
  end.

Fixpoint str_mem (c : ascii) (s : string) : bool :=
  match s with
  | "" => false
  | String d s' => bool_decide (d = c) || str_mem c s'
  end.

Lemma cut_byte_app c a b :
  str_mem c a = false -> cut_byte c (a +:+ String c b) = Some (a, b).
Proof.
  induction a as [|d a IH]; simpl; intros Hm.
  - by rewrite decide_True.
  - apply orb_false_iff in Hm as [Hd Hm]. apply bool_decide_eq_false in Hd.
    rewrite decide_False by done. by rewrite IH.
Qed.

Lemma substring_0_all s : String.substring 0 (String.length s) s = s.
Proof. induction s; simpl; congruence. Qed.

Lemma prefix_app p s : String.prefix p (p +:+ s) = true.
Proof.
  induction p as [|c p IH]; simpl; [by destruct s|].
  by destruct (ascii_dec c c).
Qed.

Lemma TrimPrefix_app p s : TrimPrefix (p +:+ s) p = s.
Proof.
  unfold TrimPrefix. rewrite prefix_app.
  induction p as [|c p IH]; simpl; [|exact IH].
  rewrite Nat.sub_0_r. apply substring_0_all.
Qed.

(** ** Lists *)

(** [ORDER BY .. LIMIT n OFFSET k] over a list already in order. *)
Definition page {A} (limit offset : Z) (l : list A) : list A :=
  take (Z.to_nat limit) (drop (Z.to_nat offset) l).

(** Insertion sort by a boolean order; stable, so rows the query does not
    order keep their table order. *)
Section Sort.
Context {A : Type} (leb : A -> A -> bool).
Fixpoint sort_insert (x : A) (l : list A) : list A :=
  match l with
  | [] => [x]
  | y :: l' => if leb x y then x :: y :: l' else y :: sort_insert x l'
  end.
Definition sort_by (l : list A) : list A := foldr sort_insert [] l.

Lemma sort_insert_perm x l : sort_insert x l ≡ₚ x :: l.
Proof.
  induction l as [|y l IH]; simpl; [done|]. destruct (leb x y); [done|].
  rewrite IH. constructor.
Qed.
Lemma sort_by_perm l : sort_by l ≡ₚ l.
Proof. induction l as [|x l IH]; simpl; [done|]. by rewrite sort_insert_perm, IH. Qed.

Lemma sort_by_elem x l : x ∈ sort_by l <-> x ∈ l.
Proof. by rewrite sort_by_perm. Qed.

Hypothesis leb_total : forall x y, leb x y = false -> leb y x = true.
Lemma sort_insert_sorted x l :
  Sorted (fun a b => leb a b = true) l -> Sorted (fun a b => leb a b = true) (sort_insert x l).
Proof using leb_total.
  induction 1 as [|y l Hs IH Hhd]; simpl; [by repeat constructor|].
  destruct (leb x y) eqn:E; [by repeat constructor|].
  constructor; [done|]. destruct l as [|z l]; simpl in *.
  - constructor. auto.
  - destruct (leb x z); constructor; [auto|by inversion Hhd].
Qed.
Lemma sort_by_sorted l : Sorted (fun a b => leb a b = true) (sort_by l).
Proof using leb_total. induction l; simpl; [constructor|]. by apply sort_insert_sorted. Qed.
End Sort.

(** Rows of a table selected, changed and removed by a boolean predicate
    (an SQL [WHERE] clause). *)
Definition where_ {A} (P : A -> bool) (t : list A) : list A := List.filter P t.
Definition update_where {A} (P : A -> bool) (f : A -> A) (t : list A) : list A :=
  (fun r => if P r then f r else r) <$> t.
Definition delete_where {A} (P : A -> bool) (t : list A) : list A :=
  List.filter (fun r => negb (P r)) t.

Lemma elem_of_where {A} (P : A -> bool) t x : x ∈ where_ P t <-> P x = true /\ x ∈ t.
Proof. unfold where_. rewrite !list_elem_of_In, filter_In. tauto. Qed.

Lemma where_nil {A} (P : A -> bool) t : where_ P t = [] <-> forall x, x ∈ t -> P x = false.
Proof.
  split.
  - intros H x Hx. destruct (P x) eqn:E; [|done].
    assert (x ∈ where_ P t) as Hin by by apply elem_of_where. rewrite H in Hin. set_solver.
  - intros H. destruct (where_ P t) as [|x l] eqn:E; [done|].
    assert (x ∈ where_ P t) as Hin by (rewrite E; set_solver).
    apply elem_of_where in Hin as [? Hx%H]. congruence.
Qed.

Lemma where_app {A} (P : A -> bool) t1 t2 : where_ P (t1 ++ t2) = where_ P t1 ++ where_ P t2.
Proof. apply List.filter_app. Qed.

Lemma fmap_update_where {A B} (g : A -> B) P f t :
  (forall r, P r = true -> g (f r) = g r) -> g <$> update_where P f t = g <$> t.
Proof.
  intros H. unfold update_where. rewrite <-list_fmap_compose. apply list_fmap_ext.
  intros i x _. simpl. destruct (P x) eqn:E; auto.
Qed.

Lemma elem_of_update_where {A} (P : A -> bool) f t x :
  x ∈ update_where P f t <-> exists y, y ∈ t /\ x = if P y then f y else y.
Proof. unfold update_where. rewrite list_elem_of_fmap. naive_solver. Qed.

(** A table whose key column has no duplicates has at most one row per key. *)
Lemma NoDup_key_unique {A K} (key : A -> K) (t : list A) x y :
  NoDup (key <$> t) -> x ∈ t -> y ∈ t -> key x = key y -> x = y.
Proof.
  induction t as [|z t IH]; [set_solver|]. simpl.
  intros [Hz Hnd]%NoDup_cons Hx Hy Hk.
  apply elem_of_cons in Hx as [->|Hx], Hy as [->|Hy]; [done| | |auto].
  - destruct Hz. rewrite Hk. by apply list_elem_of_fmap_2.
  - destruct Hz. rewrite <-Hk. by apply list_elem_of_fmap_2.
Qed.

Lemma NoDup_fmap_snoc {A K} (key : A -> K) (t : list A) x :
  NoDup (key <$> t) -> key x ∉ key <$> t -> NoDup (key <$> t ++ [x]).
Proof.
  intros Hnd Hx. rewrite fmap_app. apply NoDup_app. split; [done|]. split; [|apply NoDup_singleton].
  intros k Hk ->%list_elem_of_singleton. done.
Qed.

Lemma delete_where_sublist {A} (P : A -> bool) (t : list A) : delete_where P t `sublist_of` t.
Proof.
  induction t as [|x t IH]; simpl; [done|]. destruct (P x); simpl; by constructor.
Qed.

Lemma NoDup_fmap_delete {A K} (key : A -> K) P (t : list A) :
  NoDup (key <$> t) -> NoDup (key <$> delete_where P t).
Proof. intros Hnd. apply (sublist_NoDup _ _ Hnd), fmap_sublist, delete_where_sublist. Qed.

Lemma elem_of_delete_where {A} (P : A -> bool) t x : x ∈ delete_where P t <-> P x = false /\ x ∈ t.
Proof. unfold delete_where. rewrite !list_elem_of_In, filter_In, negb_true_iff. tauto. Qed.

Lemma where_key_unique {A K} (key : A -> K) (P : A -> bool) (t : list A) x :
  NoDup (key <$> t) -> x ∈ t -> P x = true ->
  (forall y, y ∈ t -> P y = true -> key y = key x) -> where_ P t = [x].
Proof.
  intros Hnd Hx HP Huniq.
  apply list_elem_of_split in Hx as (t1 & t2 & ->).
  rewrite fmap_app in Hnd. apply NoDup_app in Hnd as (Hn1 & Hdisj & Hn2).
  simpl in Hn2. apply NoDup_cons in Hn2 as [Hx2 Hn2].
  rewrite where_app. unfold where_ at 2. simpl. rewrite HP. fold (where_ P t2).
  assert (where_ P t1 = []) as ->.
  { apply where_nil. intros y Hy. destruct (P y) eqn:E; [|done]. exfalso.
    apply (Hdisj (key y)); [by apply list_elem_of_fmap_2|].
    rewrite (Huniq y) by set_solver. simpl. set_solver. }
  assert (where_ P t2 = []) as ->; [|done].
  apply where_nil. intros y Hy. destruct (P y) eqn:E; [|done]. exfalso.
  apply Hx2. rewrite <-(Huniq y) by set_solver. by apply list_elem_of_fmap_2.
Qed.
