(* ===== verification/Strings.v ===== *)
(** * Go's [strings] package, as far as the program uses it *)

From S2P Require Import Prelude.

(** ** Concatenation *)

Lemma append_cons d v s : String d v +:+ s = String d (v +:+ s).
Proof. done. Qed.
Lemma append_nil s : "" +:+ s = s.
Proof. done. Qed.
Lemma append_nil_r s : s +:+ "" = s.
Proof. induction s as [|d s IH]; [done|]. by rewrite append_cons, IH. Qed.
Lemma append_assoc a b c : (a +:+ b) +:+ c = a +:+ b +:+ c.
Proof. induction a as [|d a IH]; [done|]. by rewrite !append_cons, IH. Qed.

(** ** Split and Join by one byte *)

Fixpoint Split (c : ascii) (s : string) : list string :=
  match s with
  | "" => [""]
  | String d s' =>
      if decide (d = c) then "" :: Split c s'
      else match Split c s' with h :: t => String d h :: t | [] => [String d ""] end
  end.
Fixpoint Join (c : ascii) (l : list string) : string :=
  match l with
  | [] => ""
  | [s] => s
  | s :: l' => s +:+ String c (Join c l')
  end.

Lemma Split_nonempty c s : Split c s <> [].
Proof. destruct s as [|d s]; simpl; [done|]. destruct (decide _); [done|]. by destruct (Split c s). Qed.

Lemma Split_none c s : str_mem c s = false -> Split c s = [s].
Proof.
  induction s as [|d s IH]; simpl; [done|]. intros [Hd%bool_decide_eq_false Hs]%orb_false_iff.
  rewrite decide_False by done. by rewrite IH.
Qed.

Lemma Split_app c a b : str_mem c a = false -> Split c (a +:+ String c b) = a :: Split c b.
Proof.
  induction a as [|d a IH]; simpl; [by rewrite decide_True|]. intros [Hd%bool_decide_eq_false Ha]%orb_false_iff.
  rewrite decide_False by done. by rewrite IH.
Qed.

Lemma Split_Join c l : l <> [] -> Forall (fun s => str_mem c s = false) l -> Split c (Join c l) = l.
Proof.
  induction l as [|a l IH]; [done|]. intros _ [Ha Hl]%Forall_cons. destruct l as [|b l]; [by apply Split_none|].
  cbn [Join]. rewrite Split_app by done. f_equal. by apply IH.
Qed.

Lemma Join_Split c s : Join c (Split c s) = s.
Proof.
  induction s as [|d s IH]; [done|]. cbn [Split]. pose proof (Split_nonempty c s) as Hne. destruct (decide (d = c)) as [->|].
  - destruct (Split c s) as [|h t] eqn:E; [done|]. rewrite <-IH. done.
  - destruct (Split c s) as [|h t] eqn:E; [done|]. rewrite <-IH. by destruct t.
Qed.

(** ** Cutting at the first occurrence of a separator ([strings.Index]) *)

Fixpoint Cut (sep s : string) : option (string * string) :=
  if String.prefix sep s then Some ("", TrimPrefix s sep)
  else match s with
       | "" => None
       | String d s' => '(a, b) ← Cut sep s'; Some (String d a, b)
       end.

(** [strings.HasSuffix] *)
Fixpoint HasSuffix (s suf : string) : bool :=
  String.eqb s suf || match s with "" => false | String _ s' => HasSuffix s' suf end.

(** ** TrimSpace *)

Definition code (a : ascii) : N := Ascii.N_of_ascii a.
(** The bytes of the space characters: ASCII, U+0085 and U+00A0, and those of three
    bytes (U+1680, U+2000 to U+200A, U+2028, U+2029, U+202F, U+205F, U+3000). *)
Definition space1 (a : ascii) : bool := ((9 <=? code a) && (code a <=? 13) || (code a =? 32))%N.
Definition space2 (a b : ascii) : bool := ((code a =? 194) && ((code b =? 133) || (code b =? 160)))%N.
Definition space3 (a b c : ascii) : bool :=
  ((code a =? 225) && (code b =? 154) && (code c =? 128)
   || (code a =? 226) && (code b =? 128) &&
        ((128 <=? code c) && (code c <=? 138) || (code c =? 168) || (code c =? 169) || (code c =? 175))
   || (code a =? 226) && (code b =? 129) && (code c =? 159)
   || (code a =? 227) && (code b =? 128) && (code c =? 128))%N.

Section Trim.
Variables (s2 : ascii -> ascii -> bool) (s3 : ascii -> ascii -> ascii -> bool).

Fixpoint trim (l : list ascii) : list ascii :=
  match l with
  | [] => []
  | a :: t1 =>
      if space1 a then trim t1
      else match t1 with
           | [] => l
           | b :: t2 =>
               if s2 a b then trim t2
               else match t2 with
                    | [] => l
                    | c :: t3 => if s3 a b c then trim t3 else l
                    end
           end
  end.

Lemma trim_length l : (length (trim l) <= length l)%nat.
Proof.
  assert (forall n l, (length l <= n)%nat -> (length (trim l) <= length l)%nat) as Hgen; [|by apply (Hgen (length l))].
  induction n as [|n IH]; intros [|a t1] Hn; simpl in *; try lia. destruct (space1 a).
  { specialize (IH t1 ltac:(lia)). lia. }
  destruct t1 as [|b t2]; [done|]. simpl in *. destruct (s2 a b); [specialize (IH t2 ltac:(lia)); lia|].
  destruct t2 as [|c t3]; [done|]. simpl in *. destruct (s3 a b c); [specialize (IH t3 ltac:(lia)); lia|done].
Qed.

(** What starts with no space keeps its start in front of a blank. *)
Hypothesis s2_blank : forall a, s2 a " " = false.
Hypothesis s3_blank2 : forall a c, s3 a " " c = false.
Hypothesis s3_blank3 : forall a b, s3 a b " " = false.

Lemma trim_before_blank l x : l <> [] -> trim l = l -> trim (l ++ " "%char :: x) = l ++ " "%char :: x.
Proof using All.
  destruct l as [|a t1]; [done|]. intros _ Hl. assert (forall t, trim (a :: t1) = trim t -> (length t <= length t1)%nat -> False)
    as Hshort by (intros t Ht Hle; pose proof (trim_length t); rewrite <-Ht, Hl in *; simpl in *; lia).
  simpl in Hl, Hshort |- *. destruct (space1 a); [exfalso; by apply (Hshort t1)|].
  destruct t1 as [|b t2]; simpl; [rewrite s2_blank; destruct x as [|d x]; [done|]; by rewrite s3_blank2|].
  destruct (s2 a b); [exfalso; apply (Hshort t2); [done|simpl; lia]|].
  destruct t2 as [|c t3]; simpl; [by rewrite s3_blank3|].
  destruct (s3 a b c); [exfalso; apply (Hshort t3); [done|simpl; lia]|done].
Qed.
End Trim.

Definition trim_left (l : list ascii) : list ascii := trim space2 space3 l.
Definition trim_right (l : list ascii) : list ascii :=
  reverse (trim (fun b a => space2 a b) (fun c b a => space3 a b c) (reverse l)).
Definition TrimSpace (s : string) : string :=
  String.string_of_list_ascii (trim_right (trim_left (String.list_ascii_of_string s))).

Lemma trim_right_after_blank l x : l <> [] -> trim_right l = l -> trim_right (x ++ " "%char :: l) = x ++ " "%char :: l.
Proof.
  unfold trim_right. intros Hne Hl. rewrite reverse_app, reverse_cons, <-app_assoc. cbn [app].
  rewrite trim_before_blank; [by rewrite reverse_app, reverse_cons, !reverse_involutive, <-app_assoc| | | | |].
  - done.
  - intros a c. unfold space3. simpl. by rewrite !andb_false_r.
  - done.
  - intros Hr. apply Hne. by rewrite <-(reverse_involutive l), Hr.
  - by rewrite <-Hl at 2; rewrite reverse_involutive.
Qed.

Lemma list_ascii_app a b :
  String.list_ascii_of_string (a +:+ b) = String.list_ascii_of_string a ++ String.list_ascii_of_string b.
Proof. induction a as [|c a IH]; simpl; [done|]. by rewrite IH. Qed.

Lemma trimmed_right s : TrimSpace s = s ->
  trim_left (String.list_ascii_of_string s) = String.list_ascii_of_string s /\
  trim_right (String.list_ascii_of_string s) = String.list_ascii_of_string s.
Proof.
  unfold TrimSpace. intros Hs. set (l := String.list_ascii_of_string s) in *.
  apply (f_equal String.list_ascii_of_string) in Hs. rewrite String.list_ascii_of_string_of_list_ascii in Hs. fold l in Hs.
  assert (length (trim_right (trim_left l)) <= length (trim_left l))%nat as H1.
  { unfold trim_right. rewrite length_reverse. pose proof (trim_length (fun b a => space2 a b) (fun c b a => space3 a b c)
      (reverse (trim_left l))) as Ht. by rewrite length_reverse in Ht. }
  assert (trim_left l = l \/ (length (trim_left l) < length l)%nat) as [He|Hlt].
  { clear. unfold trim_left. destruct l as [|a t1]; [by left|]. simpl. pose proof (trim_length space2 space3).
    destruct (space1 a); [right; specialize (H t1); lia|]. destruct t1 as [|b t2]; [by left|].
    destruct (space2 a b); [right; specialize (H t2); simpl; lia|]. destruct t2 as [|c t3]; [by left|].
    destruct (space3 a b c); [right; specialize (H t3); simpl; lia|by left]. }
  - rewrite He in *. done.
  - rewrite Hs in H1. lia.
Qed.

(** A line "key: value" with a trimmed value. *)
Lemma TrimSpace_value s : TrimSpace s = s -> TrimSpace (String " " s) = s.
Proof. intros Hs. rewrite <-Hs at 2. done. Qed.

Lemma TrimSpace_prefixed p s :
  trim_left (String.list_ascii_of_string p ++ " "%char :: String.list_ascii_of_string s)
    = String.list_ascii_of_string p ++ " "%char :: String.list_ascii_of_string s ->
  s <> "" -> TrimSpace s = s -> TrimSpace (p +:+ String " " s) = p +:+ String " " s.
Proof.
  intros Hp Hne Hs. destruct (trimmed_right s Hs) as [_ Hr]. unfold TrimSpace. rewrite list_ascii_app.
  cbn [String.list_ascii_of_string]. rewrite Hp, trim_right_after_blank; [|by destruct s|done].
  change (" "%char :: String.list_ascii_of_string s) with (String.list_ascii_of_string (String " " s)).
  by rewrite <-list_ascii_app, String.string_of_list_ascii_of_string.
Qed.
