(* ===== verification/Time.v ===== *)
(** * Instants, the civil calendar and their JSON text

    What the program uses of Go's [time] package in UTC: the calendar date and
    wall clock of an instant, and the text [time.Time] has in a JSON document
    (RFC 3339 with nanoseconds), printed and parsed.  An instant is its Unix
    nanosecond; the text exists for the years 0 to 9999 only, as in
    [Time.MarshalJSON]. *)

From S2P Require Import Prelude.

Definition ns_per_s : Z := 1000000000.
Definition Second : Z := ns_per_s.
Definition Minute : Z := 60 * Second.
Definition Hour : Z := 60 * Minute.
Definition day_s : Z := 86400.

(** ** The proleptic Gregorian calendar *)

(** A 400-year era has 146097 days and starts on March 1st. *)
Definition era_days : Z := 146097.

(** (year of era, month, day) of the [doe]-th day of an era; a month of January
    or February belongs to the next calendar year. *)
Definition civil_of_doe (doe : Z) : Z * Z * Z :=
  let yoe := (doe - doe / 1460 + doe / 36524 - doe / 146096) / 365 in
  let doy := doe - (365 * yoe + yoe / 4 - yoe / 100) in
  let mp := (5 * doy + 2) / 153 in
  let d := doy - (153 * mp + 2) / 5 + 1 in
  let m := if mp <? 10 then mp + 3 else mp - 9 in
  (yoe + (if m <=? 2 then 1 else 0), m, d).

Definition doe_of_civil (yoe_c m d : Z) : Z :=
  let yoe := yoe_c - (if m <=? 2 then 1 else 0) in
  let mp := (m + 9) mod 12 in
  let doy := (153 * mp + 2) / 5 + d - 1 in
  yoe * 365 + yoe / 4 - yoe / 100 + doy.

(** Days since 1970-01-01 to (year, month, day) and back. *)
Definition civil_from_days (days : Z) : Z * Z * Z :=
  let z := days + 719468 in
  let '(y, m, d) := civil_of_doe (z mod era_days) in
  (z / era_days * 400 + y, m, d).

Definition days_from_civil (y m d : Z) : Z :=
  let y' := y - (if m <=? 2 then 1 else 0) in
  let era := y' / 400 in
  era * era_days + doe_of_civil (y - era * 400) m d - 719468.

(** The days of a month: what [time.Parse] accepts as a day. *)
Definition days_in (m y : Z) : Z :=
  if m =? 2 then
    (if (y mod 4 =? 0) && (negb (y mod 100 =? 0) || (y mod 400 =? 0)) then 29 else 28)
  else if (m =? 4) || (m =? 6) || (m =? 9) || (m =? 11) then 30 else 31.

(** ** Wall clock *)

Definition unix_s (t : Z) : Z := t / ns_per_s.
Definition nanosecond (t : Z) : Z := t mod ns_per_s.
Definition Hour_of (t : Z) : Z := unix_s t mod day_s / 3600.
Definition Minute_of (t : Z) : Z := unix_s t mod 3600 / 60.
Definition Second_of (t : Z) : Z := unix_s t mod 60.
Definition Date_of (t : Z) : Z * Z * Z := civil_from_days (unix_s t / day_s).
Definition Year_of (t : Z) : Z := (Date_of t).1.1.

(** ** Decimal text *)

Definition digit_char (n : Z) : ascii := Ascii.ascii_of_N (Z.to_N (48 + n)).
Definition digit_val (c : ascii) : option Z :=
  let n := Z.of_N (Ascii.N_of_ascii c) in
  if (48 <=? n) && (n <=? 57) then Some (n - 48) else None.

(** The low [k] decimal digits of [n], zero padded. *)
Fixpoint put_digits (k : nat) (n : Z) (rest : string) : string :=
  match k with
  | O => rest
  | S k' => String (digit_char (n / 10 ^ Z.of_nat k' mod 10)) (put_digits k' n rest)
  end.

Fixpoint get_digits (k : nat) (acc : Z) (s : string) : option (Z * string) :=
  match k with
  | O => Some (acc, s)
  | S k' =>
      match s with
      | String c s' => d ← digit_val c; get_digits k' (10 * acc + d) s'
      | "" => None
      end
  end.

Definition get_char (c : ascii) (s : string) : option string :=
  match s with
  | String c' s' => if decide (c' = c) then Some s' else None
  | "" => None
  end.

(** The digits of [n < 10^k] after a decimal point, trailing zeros trimmed. *)
Fixpoint put_frac (k : nat) (n : Z) (rest : string) : string :=
  match k with
  | O => rest
  | S k' =>
      if n =? 0 then rest
      else String (digit_char (n / 10 ^ Z.of_nat k')) (put_frac k' (n mod 10 ^ Z.of_nat k') rest)
  end.

(** Digits after the point, each at its weight; digits past the ninth are read
    and dropped. *)
Fixpoint get_frac (k : nat) (acc : Z) (s : string) : Z * string :=
  match s with
  | String c s' =>
      match digit_val c with
      | Some d =>
          match k with
          | O => get_frac O acc s'
          | S k' => get_frac k' (acc + d * 10 ^ Z.of_nat k') s'
          end
      | None => (acc, s)
      end
  | "" => (acc, s)
  end.

(** ** RFC 3339 *)

(** [t.UTC().Format(time.RFC3339Nano)] *)
Definition format_rfc3339 (t : Z) : string :=
  let '(y, m, d) := Date_of t in
  put_digits 4 y (String "-" (put_digits 2 m (String "-" (put_digits 2 d (String "T"
    (put_digits 2 (Hour_of t) (String ":" (put_digits 2 (Minute_of t) (String ":"
      (put_digits 2 (Second_of t)
        (if nanosecond t =? 0 then "Z" else String "." (put_frac 9 (nanosecond t) "Z")))))))))))).

(** [Time.MarshalJSON]: years outside [0,9999] have no text. *)
Definition time_MarshalJSON (t : Z) : result any :=
  if (0 <=? Year_of t) && (Year_of t <=? 9999) then Ok (AStr (format_rfc3339 t))
  else Err (EPlain "Time.MarshalJSON: year outside of range [0,9999]").

(** The instants that have a text. *)
Definition printable (t : Z) : Prop := is_ok (time_MarshalJSON t) = true.

(** The zone suffix: [Z], or a signed [hh:mm] offset, in seconds. *)
Definition get_zone (s : string) : option Z :=
  match s with
  | String "Z" "" => Some 0
  | String c r =>
      sign ← (if decide (c = "+"%char) then Some 1
              else if decide (c = "-"%char) then Some (-1) else None);
      '(h, r) ← get_digits 2 0 r; r ← get_char ":" r; '(m, r) ← get_digits 2 0 r;
      match r with
      | "" => if (h <=? 23) && (m <=? 59) then Some (sign * (h * 3600 + m * 60)) else None
      | _ => None
      end
  | "" => None
  end.

Definition parse_rfc3339 (s : string) : option Z :=
  '(y, s) ← get_digits 4 0 s; s ← get_char "-" s;
  '(mo, s) ← get_digits 2 0 s; s ← get_char "-" s;
  '(d, s) ← get_digits 2 0 s; s ← get_char "T" s;
  '(h, s) ← get_digits 2 0 s; s ← get_char ":" s;
  '(mi, s) ← get_digits 2 0 s; s ← get_char ":" s;
  '(sec, s) ← get_digits 2 0 s;
  let '(ns, s) :=
    match s with
    | String "." (String c _ as s') =>
        match digit_val c with Some _ => get_frac 9 0 s' | None => (0, s) end
    | _ => (0, s)
    end in
  off ← get_zone s;
  if (1 <=? mo) && (mo <=? 12) && (1 <=? d) && (d <=? days_in mo y)
     && (h <=? 23) && (mi <=? 59) && (sec <=? 59)
  then Some ((days_from_civil y mo d * day_s + h * 3600 + mi * 60 + sec - off) * ns_per_s + ns)
  else None.

(** [Time.UnmarshalJSON]: [null] leaves the zero value alone. *)
Definition time_UnmarshalJSON (zero : Z) (v : any) : result Z :=
  match v with
  | ANull => Ok zero
  | AStr s => match parse_rfc3339 s with
              | Some t => Ok t
              | None => Err (EPlain "parsing time")
              end
  | _ => Err (EPlain "Time.UnmarshalJSON: input is not a JSON string")
  end.

(** ** The calendar inverts *)

(** The year of era and the day of (March-based) year of a day of the era. *)
Lemma year_of_doe doe :
  0 <= doe < era_days ->
  let yoe := (doe - doe / 1460 + doe / 36524 - doe / 146096) / 365 in
  let doy := doe - (365 * yoe + yoe / 4 - yoe / 100) in
  0 <= yoe <= 399 /\ 0 <= doy <= 365 /\
  (doy = 365 -> (yoe + 1) mod 4 = 0 /\ ((yoe + 1) mod 100 <> 0 \/ (yoe + 1) mod 400 = 0)).
Proof.
  unfold era_days. intros H. cbv zeta.
  assert (0 <= doe / 146096 <= 1 /\ (doe / 146096 = 1 <-> doe = 146096))
    by (Z.to_euclidean_division_equations; lia).
  set (yoe := (doe - doe / 1460 + doe / 36524 - doe / 146096) / 365).
  assert (0 <= yoe <= 399) by (subst yoe; Z.to_euclidean_division_equations; lia).
  split; [done|]. split; [subst yoe; Z.to_euclidean_division_equations; lia|].
  intros E.
  assert (yoe * 365 <= doe - doe / 1460 + doe / 36524 - doe / 146096 < yoe * 365 + 365)
    by (subst yoe; Z.to_euclidean_division_equations; lia).
  clearbody yoe. split; Z.to_euclidean_division_equations; lia.
Qed.

(** The month and day of a day of year. *)
Lemma month_of_doy doy y mp :
  0 <= doy <= 365 -> mp = (5 * doy + 2) / 153 ->
  (doy = 365 -> (y + 1) mod 4 = 0 /\ ((y + 1) mod 100 <> 0 \/ (y + 1) mod 400 = 0)) ->
  let d := doy - (153 * mp + 2) / 5 + 1 in
  let m := if mp <? 10 then mp + 3 else mp - 9 in
  (m + 9) mod 12 = mp /\ 1 <= m <= 12
  /\ 1 <= d <= days_in m (y + (if m <=? 2 then 1 else 0)).
Proof.
  intros Hdoy Hmp Hleap.
  assert (153 * mp <= 5 * doy + 2 < 153 * mp + 153) as Hb
    by (subst mp; Z.to_euclidean_division_equations; lia).
  assert (mp = 0 \/ mp = 1 \/ mp = 2 \/ mp = 3 \/ mp = 4 \/ mp = 5 \/ mp = 6 \/ mp = 7 \/ mp = 8
          \/ mp = 9 \/ mp = 10 \/ mp = 11) as Hn by lia.
  clear Hmp.
  do 11 (destruct Hn as [->|Hn]; [simpl; unfold days_in; simpl; Z.to_euclidean_division_equations; lia|]). subst mp. simpl.
  change ((153 * 11 + 2) / 5) with 337.
  split; [done|]. split; [lia|]. unfold days_in. simpl.
  destruct (decide (doy = 365)) as [->|].
  - destruct (Hleap eq_refl) as [-> [Hc|Hc]]; simpl.
    + apply Z.eqb_neq in Hc. rewrite Hc. simpl. lia.
    + rewrite Hc. simpl. rewrite orb_true_r. lia.
  - destruct (_ && _); lia.
Qed.

Lemma doe_roundtrip doe y m d :
  0 <= doe < era_days -> civil_of_doe doe = (y, m, d) ->
  doe_of_civil y m d = doe /\ 1 <= m <= 12 /\ 1 <= d <= days_in m y
  /\ 0 <= y - (if m <=? 2 then 1 else 0) < 400.
Proof.
  intros Hdoe. unfold civil_of_doe, doe_of_civil.
  destruct (year_of_doe doe Hdoe) as (Hy & Hdoy & Hleap).
  set (yoe := (doe - doe / 1460 + doe / 36524 - doe / 146096) / 365) in *.
  set (doy := doe - (365 * yoe + yoe / 4 - yoe / 100)) in *.
  destruct (month_of_doy doy yoe _ Hdoy eq_refl Hleap) as (Hmp & Hm & Hd).
  set (mp := (5 * doy + 2) / 153) in *. intros [= <- <- <-].
  rewrite Hmp. set (c := if _ <=? 2 then 1 else 0) in *. set (q := (153 * mp + 2) / 5) in *.
  replace (yoe + c - c) with yoe by lia. split; [subst doy; lia|]. repeat split; lia.
Qed.

Lemma days_in_era m y k : days_in m (k * 400 + y) = days_in m y.
Proof.
  unfold days_in.
  replace ((k * 400 + y) mod 400) with (y mod 400) by (rewrite Z.add_comm, Z.mod_add; lia).
  replace ((k * 400 + y) mod 100) with (y mod 100).
  2: { replace (k * 400) with (k * 4 * 100) by lia. rewrite Z.add_comm, Z.mod_add; lia. }
  replace ((k * 400 + y) mod 4) with (y mod 4); [done|].
  replace (k * 400) with (k * 100 * 4) by lia. rewrite Z.add_comm, Z.mod_add; lia.
Qed.

(** The date of a day is a date, and its day number is the day. *)
Lemma civil_roundtrip days y m d :
  civil_from_days days = (y, m, d) ->
  days_from_civil y m d = days /\ 1 <= m <= 12 /\ 1 <= d <= days_in m y.
Proof.
  unfold civil_from_days. set (z := days + 719468).
  pose proof (Z.mod_pos_bound z era_days ltac:(done)) as Hb.
  destruct (civil_of_doe (z mod era_days)) as [[y0 m0] d0] eqn:E.
  destruct (doe_roundtrip _ _ _ _ Hb E) as (Hdoe & Hm & Hd & Hy). intros [= <- <- <-].
  rewrite days_in_era. split; [|lia].
  unfold days_from_civil. set (c := if m0 <=? 2 then 1 else 0) in *.
  assert ((z / era_days * 400 + y0 - c) / 400 = z / era_days) as He.
  { symmetry. apply (Z.div_unique _ _ _ (y0 - c)); lia. }
  rewrite He. replace (z / era_days * 400 + y0 - z / era_days * 400) with y0 by lia.
  rewrite Hdoe. subst z.
  pose proof (Z.div_mod (days + 719468) era_days ltac:(done)). lia.
Qed.

(** ** The text inverts *)

Lemma digit_val_char n : 0 <= n < 10 -> digit_val (digit_char n) = Some n.
Proof.
  intros Hn. assert (n ∈ seqZ 0 10) as Hin by (apply elem_of_seqZ; lia). vm_compute in Hin.
  by repeat (apply elem_of_cons in Hin as [->|Hin]; [reflexivity|]); apply elem_of_nil in Hin.
Qed.

Lemma get_put_digits k acc n s :
  get_digits k acc (put_digits k n s) = Some (acc * 10 ^ Z.of_nat k + n mod 10 ^ Z.of_nat k, s).
Proof.
  revert acc. induction k as [|k IH]; intros acc; [by rewrite Z.mod_1_r, Z.mul_1_r, Z.add_0_r|].
  cbn [get_digits put_digits].
  rewrite digit_val_char by (apply Z.mod_pos_bound; lia). simpl. rewrite IH. do 2 f_equal.
  rewrite Nat2Z.inj_succ, Z.pow_succ_r by lia.
  rewrite (Z.mul_comm 10 (10 ^ _)), Z.rem_mul_r by lia. ring.
Qed.

Lemma get_put_small k n s :
  0 <= n < 10 ^ Z.of_nat k -> get_digits k 0 (put_digits k n s) = Some (n, s).
Proof. intros. rewrite get_put_digits, Z.mod_small by done. done. Qed.

Lemma get_put_frac k acc n :
  0 <= n < 10 ^ Z.of_nat k -> get_frac k acc (put_frac k n "Z") = (acc + n, "Z").
Proof.
  revert acc n. induction k as [|k IH]; intros acc n Hn.
  { assert (n = 0) as -> by (simpl in Hn; lia). by rewrite Z.add_0_r. }
  cbn [put_frac]. destruct (Z.eqb_spec n 0) as [->|Hn0].
  { rewrite Z.add_0_r. by destruct k. }
  rewrite Nat2Z.inj_succ, Z.pow_succ_r in Hn by lia.
  assert (0 < 10 ^ Z.of_nat k) as Hp by lia.
  cbn [get_frac]. rewrite digit_val_char.
  2: { split; [apply Z.div_pos; lia|]. apply Z.div_lt_upper_bound; lia. }
  rewrite IH by (apply Z.mod_pos_bound; lia). f_equal.
  pose proof (Z.div_mod n (10 ^ Z.of_nat k)). lia.
Qed.

Lemma put_frac_head n s : 0 < n < 10 ^ 9 -> exists c s', put_frac 9 n s = String c s'
  /\ is_Some (digit_val c).
Proof.
  intros Hn. cbn [put_frac]. rewrite (proj2 (Z.eqb_neq n 0)) by lia. do 2 eexists. split; [done|].
  rewrite digit_val_char; [eauto|]. split; [apply Z.div_pos; lia|].
  apply Z.div_lt_upper_bound; lia.
Qed.

Lemma clock_bounds t :
  0 <= Hour_of t <= 23 /\ 0 <= Minute_of t <= 59 /\ 0 <= Second_of t <= 59
  /\ unix_s t mod day_s = Hour_of t * 3600 + Minute_of t * 60 + Second_of t.
Proof.
  unfold Hour_of, Minute_of, Second_of, day_s. set (s := unix_s t).
  assert (s mod 86400 mod 3600 = s mod 3600) as H1.
  { replace 86400 with (3600 * 24) by lia. rewrite Z.rem_mul_r by lia.
    rewrite Z.mul_comm, Z.mod_add, Z.mod_mod; lia. }
  assert (s mod 3600 mod 60 = s mod 60) as H2.
  { replace 3600 with (60 * 60) by lia. rewrite Z.rem_mul_r by lia.
    rewrite Z.mul_comm, Z.mod_add, Z.mod_mod; lia. }
  pose proof (Z.mod_pos_bound s 86400). pose proof (Z.mod_pos_bound s 3600).
  pose proof (Z.mod_pos_bound s 60).
  pose proof (Z.div_mod (s mod 86400) 3600). pose proof (Z.div_mod (s mod 3600) 60).
  assert (0 <= s mod 86400 / 3600 < 24) by (split; [apply Z.div_pos|apply Z.div_lt_upper_bound]; lia).
  assert (0 <= s mod 3600 / 60 < 60) by (split; [apply Z.div_pos|apply Z.div_lt_upper_bound]; lia).
  lia.
Qed.

Lemma parse_format t : 0 <= Year_of t <= 9999 -> parse_rfc3339 (format_rfc3339 t) = Some t.
Proof.
  unfold Year_of. unfold format_rfc3339.
  destruct (Date_of t) as [[y m] d] eqn:HD. cbn [fst]. intros Hy.
  destruct (civil_roundtrip _ _ _ _ HD) as (Hdays & Hm & Hd).
  destruct (clock_bounds t) as (Hh & Hmi & Hs & Hclock).
  assert (days_in m y <= 31) as H31.
  { unfold days_in. repeat case_match; lia. }
  unfold parse_rfc3339.
  repeat (rewrite get_put_small by (simpl; lia); cbn [mbind option_bind get_char];
          try (rewrite decide_True by done); cbn [mbind option_bind]).
  assert (forall ns, ns = nanosecond t ->
    (days_from_civil y m d * day_s + Hour_of t * 3600 + Minute_of t * 60 + Second_of t - 0) * ns_per_s + ns = t) as Ht.
  { intros ns ->. rewrite Hdays. unfold nanosecond.
    pose proof (Z.div_mod t ns_per_s ltac:(done)). pose proof (Z.div_mod (unix_s t) day_s ltac:(done)).
    unfold unix_s in *. lia. }
  assert ((1 <=? m) && (m <=? 12) && (1 <=? d) && (d <=? days_in m y)
     && (Hour_of t <=? 23) && (Minute_of t <=? 59) && (Second_of t <=? 59) = true) as Hrange.
  { rewrite !andb_true_iff, !Z.leb_le. lia. }
  destruct (Z.eqb_spec (nanosecond t) 0) as [E0|Hn0].
  - cbn [get_zone mbind option_bind]. rewrite Hrange. f_equal. by apply Ht.
  - pose proof (Z.mod_pos_bound t ns_per_s ltac:(done)) as Hnb. fold (nanosecond t) in Hnb.
    assert (nanosecond t < 10 ^ 9) as Hn9 by (revert Hnb; unfold ns_per_s; lia).
    destruct (put_frac_head (nanosecond t) "Z") as (c & s' & Hput & [dv Hdv]); [lia|].
    pose proof (get_put_frac 9 0 (nanosecond t)) as Hget. rewrite Hput in *. rewrite Hdv.
    rewrite Hget by (simpl; lia).
    cbn [get_zone mbind option_bind]. rewrite Hrange. f_equal. by apply Ht.
Qed.

(** A marshalled instant unmarshals to itself. *)
Lemma time_json_roundtrip t v zero : time_MarshalJSON t = Ok v -> time_UnmarshalJSON zero v = Ok t.
Proof.
  unfold time_MarshalJSON. case_match eqn:E; [|done]. intros [= <-].
  apply andb_true_iff in E as [?%Z.leb_le ?%Z.leb_le]. simpl. by rewrite parse_format.
Qed.
