(* ===== verification/Domain.v ===== *)
(** * Domain types, errors and request validation ([internal/domain])

    The structs of [internal/domain] with Go's string-typed enumerations kept as
    strings (a [Channel] read from a URL or a database row need not be one of
    the constants), the unified [AppError] with the error-chain walks of the
    [errors] package, and the validator tags of the request structs. *)

From S2P Require Import Prelude Time.

(** Identifiers and instants.  A UUID is its 128-bit value (the order on
    [uuid] columns is the numeric order); a [time.Time] is its Unix
    nanosecond. *)
Abbreviation uuid := N.
Abbreviation gotime := Z.
Definition uuid_nil : uuid := 0%N.

(** ** internal/domain/notification.go *)

Abbreviation Channel := string.
Definition ChannelEmail : Channel := "email".
Definition ChannelPush : Channel := "push".
Definition ChannelSMS : Channel := "sms".
Definition ChannelInApp : Channel := "inapp".
Definition all_channels : list Channel := [ChannelEmail; ChannelPush; ChannelSMS; ChannelInApp].

Definition IsValid (c : Channel) : bool :=
  bool_decide (c = ChannelEmail) || bool_decide (c = ChannelPush)
  || bool_decide (c = ChannelSMS) || bool_decide (c = ChannelInApp).

Abbreviation NotificationStatus := string.
Definition StatusPending : NotificationStatus := "pending".
Definition StatusQueued : NotificationStatus := "queued".
Definition StatusProcessing : NotificationStatus := "processing".
Definition StatusDelivered : NotificationStatus := "delivered".
Definition StatusFailed : NotificationStatus := "failed".
Definition StatusDropped : NotificationStatus := "dropped".

Definition PriorityNormal : Z := 5.

Record Notification := MkNotification {
  n_ID : uuid;
  n_TenantID : uuid;
  n_IdempotencyKey : option string;
  n_Type : string;
  n_Channel : Channel;
  n_RecipientID : string;
  n_RecipientAddress : string;
  n_TemplateID : option uuid;
  n_Payload : gomap;
  n_Priority : Z;
  n_Status : NotificationStatus;
  n_ScheduledAt : option gotime;
  n_CreatedAt : gotime;
  n_UpdatedAt : gotime;
}.

Record SendRequest := MkSendRequest {
  sr_Type : string;
  sr_Channel : Channel;
  sr_RecipientID : string;
  sr_RecipientAddress : string;
  sr_TemplateID : option uuid;
  sr_Payload : gomap;
  sr_Priority : Z;
  sr_IdempotencyKey : option string;
  sr_ScheduledAt : option gotime;
}.

Record Recipient := MkRecipient {
  rc_RecipientID : string;
  rc_RecipientAddress : string;
  rc_Payload : gomap;
}.

Record BulkSendRequest := MkBulkSendRequest {
  br_Type : string;
  br_Channel : Channel;
  br_TemplateID : option uuid;
  br_Payload : gomap;
  br_Priority : Z;
  br_Recipients : option (list Recipient);  (* None: the nil slice *)
}.

Record ListNotificationsFilter := MkListFilter {
  lf_RecipientID : string;
  lf_Channel : Channel;
  lf_Status : NotificationStatus;
  lf_Page : Z;
  lf_PerPage : Z;
}.

(** ** The other domain structs *)

Definition DeliverySuccess : string := "success".
Definition DeliveryFailed : string := "failed".

Record DeliveryLog := MkDeliveryLog {
  dl_ID : uuid;
  dl_NotificationID : uuid;
  dl_Channel : Channel;
  dl_Provider : string;
  dl_Status : string;
  dl_ProviderMessageID : option string;
  dl_ErrorMessage : option string;
  dl_ErrorCode : option string;
  dl_RetryCount : Z;
  dl_AttemptedAt : gotime;
  dl_DeliveredAt : option gotime;
}.

Definition DLQReasonRetriesExhausted : string := "retries_exhausted".
Definition DLQReasonPermanent : string := "permanent".
Definition DLQReasonTemplateRender : string := "template_render".
Definition DLQReasonNoProvider : string := "no_provider".

Record DeadLetterMessage := MkDeadLetterMessage {
  dm_ID : uuid;
  dm_TenantID : uuid;
  dm_NotificationID : uuid;
  dm_Channel : Channel;
  dm_OriginalTopic : string;
  dm_Payload : option any;
  dm_FailureReason : string;
  dm_ErrorMessage : string;
  dm_Attempts : Z;
  dm_ReplayedAt : option gotime;
  dm_CreatedAt : gotime;
}.

Record DeadLetterListParams := MkDeadLetterListParams {
  dp_TenantID : uuid;
  dp_Channel : string;
  dp_Unreplayed : option bool;
  dp_Limit : Z;
  dp_Offset : Z;
}.

Record Preference := MkPreference {
  p_ID : uuid;
  p_UserID : string;
  p_Channel : Channel;
  p_Enabled : bool;
  p_QuietHoursStart : option string;
  p_QuietHoursEnd : option string;
  p_FrequencyCap : option Z;
  p_FrequencyWindowMinutes : Z;
  p_Timezone : string;
  p_CreatedAt : gotime;
  p_UpdatedAt : gotime;
}.

Record UpsertPreferenceRequest := MkUpsertPreferenceRequest {
  up_Enabled : bool;
  up_QuietHoursStart : option string;
  up_QuietHoursEnd : option string;
  up_FrequencyCap : option Z;
  up_FrequencyWindowMinutes : option Z;
  up_Timezone : option string;
}.

Record Template := MkTemplate {
  t_ID : uuid;
  t_Name : string;
  t_Channel : Channel;
  t_SubjectTemplate : option string;
  t_BodyTemplate : string;
  t_Metadata : gomap;
  t_Version : Z;
  t_IsActive : bool;
  t_CreatedAt : gotime;
  t_UpdatedAt : gotime;
}.

Record CreateTemplateRequest := MkCreateTemplateRequest {
  ct_Name : string;
  ct_Channel : Channel;
  ct_SubjectTemplate : option string;
  ct_BodyTemplate : string;
  ct_Metadata : gomap;
}.

Record UpdateTemplateRequest := MkUpdateTemplateRequest {
  ut_SubjectTemplate : option string;
  ut_BodyTemplate : option string;
  ut_Metadata : gomap;
  ut_IsActive : option bool;
}.

Definition WebhookEventDelivered : string := "notification.delivered".
Definition WebhookEventFailed : string := "notification.failed".
Definition WebhookEventDropped : string := "notification.dropped".
Definition WebhookEventTokenDeactivated : string := "device_token.deactivated".
Definition AllWebhookEvents : list string :=
  [WebhookEventDelivered; WebhookEventFailed; WebhookEventDropped; WebhookEventTokenDeactivated].

Definition WebhookDeliveryPending : string := "pending".
Definition WebhookDeliveryDelivered : string := "delivered".
Definition WebhookDeliveryFailed : string := "failed".

Record WebhookEndpoint := MkWebhookEndpoint {
  we_ID : uuid;
  we_TenantID : uuid;
  we_URL : string;
  we_Secret : string;
  we_Events : list string;
  we_IsActive : bool;
  we_CreatedAt : gotime;
  we_UpdatedAt : gotime;
}.

Record WebhookDelivery := MkWebhookDelivery {
  wd_ID : uuid;
  wd_EndpointID : uuid;
  wd_NotificationID : option uuid;
  wd_Event : string;
  wd_Payload : gomap;
  wd_Status : string;
  wd_Attempt : Z;
  wd_NextRetryAt : option gotime;
  wd_LastError : option string;
  wd_ResponseStatus : option Z;
  wd_CreatedAt : gotime;
  wd_UpdatedAt : gotime;
}.

Record CreateWebhookEndpointRequest := MkCreateWebhookEndpointRequest {
  cw_URL : string;
  cw_Secret : string;
  cw_Events : list string;
}.

Record UpdateWebhookEndpointRequest := MkUpdateWebhookEndpointRequest {
  uw_URL : string;
  uw_Events : list string;
  uw_IsActive : bool;
}.

Record InAppMessage := MkInAppMessage {
  im_ID : uuid;
  im_TenantID : uuid;
  im_NotificationID : option uuid;
  im_RecipientID : string;
  im_Title : string;
  im_Body : string;
  im_Payload : gomap;
  im_ReadAt : option gotime;
  im_CreatedAt : gotime;
}.

Record InboxQuery := MkInboxQuery {
  iq_TenantID : uuid;
  iq_RecipientID : string;
  iq_UnreadOnly : bool;
  iq_Limit : Z;
  iq_Offset : Z;
  iq_AfterID : option uuid;
}.

Record DeviceToken := MkDeviceToken {
  dt_ID : uuid;
  dt_TenantID : uuid;
  dt_UserID : string;
  dt_Token : string;
  dt_Platform : string;
  dt_IsActive : bool;
  dt_CreatedAt : gotime;
  dt_UpdatedAt : gotime;
}.

Record RegisterDeviceTokenRequest := MkRegisterDeviceTokenRequest {
  rd_UserID : string;
  rd_Token : string;
  rd_Platform : string;
}.

Record Tenant := MkTenant {
  tn_ID : uuid;
  tn_Name : string;
  tn_IsActive : bool;
  tn_CreatedAt : gotime;
  tn_UpdatedAt : gotime;
}.

Record CreateAPIKeyResponse := MkCreateAPIKeyResponse {
  ak_ID : uuid;
  ak_TenantID : uuid;
  ak_Name : string;
  ak_APIKey : string;
}.

Record APIClient := MkAPIClient {
  ac_ID : uuid;
  ac_TenantID : uuid;
  ac_Name : string;
  ac_IsActive : bool;
}.

(** ** internal/domain/errors.go *)

Definition ErrCodeNotFound : string := "NOT_FOUND".
Definition ErrCodeConflict : string := "CONFLICT".
Definition ErrCodeValidation : string := "VALIDATION_ERROR".
Definition ErrCodeUnauthorized : string := "UNAUTHORIZED".
Definition ErrCodeForbidden : string := "FORBIDDEN".
Definition ErrCodeRateLimited : string := "RATE_LIMITED".
Definition ErrCodeInternal : string := "INTERNAL_ERROR".

Definition NewNotFoundError (msg : string) : error := EApp ErrCodeNotFound msg None None.
Definition NewConflictError (msg : string) : error := EApp ErrCodeConflict msg None None.
Definition NewValidationError (msg : string) (details : gomap) : error :=
  EApp ErrCodeValidation msg details None.
Definition NewUnauthorizedError (msg : string) : error := EApp ErrCodeUnauthorized msg None None.
Definition NewForbiddenError (msg : string) : error := EApp ErrCodeForbidden msg None None.
Definition NewRateLimitedError (msg : string) : error := EApp ErrCodeRateLimited msg None None.
Definition NewInternalError (msg : string) (cause : error) : error :=
  EApp ErrCodeInternal msg None (Some (EWrap msg cause)).

(** The [Error() string] methods. *)
Fixpoint Error (e : error) : string :=
  match e with
  | EPlain msg | EValidation _ msg | ESmithy _ _ msg | ETwilio _ msg | EFcm _ msg => msg
  | ENoRows => "sql: no rows in result set"
  | ENoProvider => "no provider registered for channel"
  | ECtxCanceled => "context canceled"
  | EWrap pre e => pre +:+ ": " +:+ Error e
  | EWrapSuffix e suf => Error e +:+ ": " +:+ suf
  | ETemporary e => "temporary delivery error: " +:+ Error e
  | EPermanent e => "permanent delivery error: " +:+ Error e
  | EApp _ msg _ _ => msg
  end.

(** The [Unwrap() error] methods, and the walk of [errors.Is] / [errors.As]
    along them: the error itself first, then what it wraps. *)
Definition Unwrap (e : error) : option error :=
  match e with
  | EWrap _ e | EWrapSuffix e _ | ETemporary e | EPermanent e => Some e
  | EApp _ _ _ c => c
  | _ => None
  end.

Fixpoint chain (e : error) : list error :=
  e :: match e with
       | EWrap _ e' | EWrapSuffix e' _ | ETemporary e' | EPermanent e' => chain e'
       | EApp _ _ _ (Some e') => chain e'
       | _ => []
       end.

Definition is_app (e : error) : bool := match e with EApp _ _ _ _ => true | _ => false end.
Definition errors_Is_NoRows (e : error) : bool :=
  existsb (fun x => match x with ENoRows => true | _ => false end) (chain e).
Definition errors_As_App (e : error) : option error := List.find is_app (chain e).

Lemma chain_unwrap e :
  chain e = e :: match Unwrap e with Some e' => chain e' | None => [] end.
Proof. by destruct e as [| | | | | | | | | | | |? ? ? []]. Qed.

(** ** Validator tags of the request structs

    [tag_violations r] lists the (field, tag) pairs that fail, in field order,
    by the documented meaning of the tags in the struct definitions:
    [required] is "not the zero value", [oneof] membership, [min]/[max] a bound
    on an integer's value or a string's rune count or a slice's length,
    [omitempty] skips a nil pointer, [datetime=15:04] is [time.Parse]. *)

Class Tagged (A : Type) := tag_violations : A -> list (string * string).

(** The first failing tag of one field. *)
Definition field_tags (name : string) (checks : list (string * bool)) : list (string * string) :=
  match List.find (fun c => negb c.2) checks with
  | Some (tag, _) => [(name, tag)]
  | None => []
  end.

Definition nonempty (s : string) : bool := negb (bool_decide (s = "")).

(** [time.Parse("15:04", s)]: a one- or two-digit hour below 24, a colon, and a
    two-digit minute below 60. *)
Definition parse_15_04 (s : string) : option (Z * Z) :=
  let minute (h : Z) (r : string) : option (Z * Z) :=
    match r with
    | String ":" (String m1 (String m2 "")) =>
        a ← digit_val m1; b ← digit_val m2;
        let m := 10 * a + b in
        if (h <? 24) && (m <? 60) then Some (h, m) else None
    | _ => None
    end in
  match s with
  | String c1 (String c2 r as r1) =>
      a ← digit_val c1;
      match digit_val c2 with
      | Some b => minute (10 * a + b) r
      | None => minute a r1
      end
  | _ => None
  end.

#[global] Instance SendRequest_tags : Tagged SendRequest := fun r =>
  field_tags "Type" [("required", nonempty (sr_Type r))]
  ++ field_tags "Channel" [("required", nonempty (sr_Channel r)); ("oneof", IsValid (sr_Channel r))]
  ++ field_tags "RecipientID" [("required", nonempty (sr_RecipientID r))]
  ++ field_tags "RecipientAddress" [("required", nonempty (sr_RecipientAddress r))]
  ++ field_tags "Priority" [("min", 1 <=? sr_Priority r); ("max", sr_Priority r <=? 10)].

(** [len] of a slice, [None] being the nil slice. *)
Definition slice_len {A} (o : option (list A)) : Z := Z.of_nat (length (default [] o)).

#[global] Instance BulkSendRequest_tags : Tagged BulkSendRequest := fun r =>
  field_tags "Type" [("required", nonempty (br_Type r))]
  ++ field_tags "Channel" [("required", nonempty (br_Channel r)); ("oneof", IsValid (br_Channel r))]
  ++ field_tags "Priority" [("min", 1 <=? br_Priority r); ("max", br_Priority r <=? 10)]
  ++ field_tags "Recipients"
       [("required", bool_decide (is_Some (br_Recipients r)));
        ("min", 1 <=? slice_len (br_Recipients r));
        ("max", slice_len (br_Recipients r) <=? 1000)].

Definition omitempty {A} (o : option A) (check : A -> bool) : bool :=
  match o with Some a => check a | None => true end.

#[global] Instance UpsertPreferenceRequest_tags : Tagged UpsertPreferenceRequest := fun r =>
  field_tags "QuietHoursStart" [("datetime", omitempty (up_QuietHoursStart r) (fun s => bool_decide (is_Some (parse_15_04 s))))]
  ++ field_tags "QuietHoursEnd" [("datetime", omitempty (up_QuietHoursEnd r) (fun s => bool_decide (is_Some (parse_15_04 s))))]
  ++ field_tags "FrequencyCap" [("min", omitempty (up_FrequencyCap r) (fun c => 1 <=? c))]
  ++ field_tags "FrequencyWindowMinutes" [("min", omitempty (up_FrequencyWindowMinutes r) (fun c => 1 <=? c))].

#[global] Instance CreateTemplateRequest_tags : Tagged CreateTemplateRequest := fun r =>
  field_tags "Name" [("required", nonempty (ct_Name r)); ("max", rune_count (ct_Name r) <=? 255)]
  ++ field_tags "Channel" [("required", nonempty (ct_Channel r)); ("oneof", IsValid (ct_Channel r))]
  ++ field_tags "BodyTemplate" [("required", nonempty (ct_BodyTemplate r))].

(** [UpdateTemplateRequest] carries no validate tags. *)
#[global] Instance UpdateTemplateRequest_tags : Tagged UpdateTemplateRequest := fun _ => [].

#[global] Instance RegisterDeviceTokenRequest_tags : Tagged RegisterDeviceTokenRequest := fun r =>
  field_tags "UserID" [("required", nonempty (rd_UserID r))]
  ++ field_tags "Token" [("required", nonempty (rd_Token r))]
  ++ field_tags "Platform"
       [("required", nonempty (rd_Platform r));
        ("oneof", bool_decide (rd_Platform r = "ios") || bool_decide (rd_Platform r = "android")
                  || bool_decide (rd_Platform r = "web"))].

(** [validator.Struct]: nil, or a [ValidationErrors] with the failing fields. *)
Definition validate_Struct {A} `{Tagged A} (r : A) : option error :=
  match tag_violations r with
  | [] => None
  | l => Some (EValidation l "validation failed")
  end.

(** internal/service/validate.go *)
Definition toValidationError (err : error) : error :=
  match err with
  | EValidation ve _ =>
      NewValidationError "validation failed"
        (Some (foldl (fun m fe => <[fe.1 := AStr fe.2]> m) ∅ ve))
  | _ => NewValidationError "invalid request" None
  end.
