(* ===== verification/Json.v ===== *)
(** * JSON documents of the program's structs ([encoding/json])

    A document is a value of [any].  [Marshal] and [Unmarshal] of a struct follow
    its field tags: members in declaration order, [omitempty] pointers left out
    when nil; on reading, an absent member or a [null] leaves the field's zero
    value, a member of the wrong kind is an error, and of two members for one
    field the later one wins.  A Go [map[string]any] prints its keys sorted. *)

From S2P Require Import Prelude Time Domain.

(** What the program uses of github.com/google/uuid: its text and its parser. *)
Class UuidText := {
  uuid_String : uuid -> string;
  uuid_Parse : string -> option uuid;
}.

(** The documented round trip of the canonical text. *)
Class UuidTextLaws `{UuidText} : Prop :=
  uuid_parse_string : forall u, uuid_Parse (uuid_String u) = Some u.

(** The instant of [time.Time{}]. *)
Definition zero_time : gotime := -62135596800 * ns_per_s.

(** ** Objects *)

Definition lower_char (c : ascii) : ascii :=
  let n := Ascii.N_of_ascii c in
  if (65 <=? n)%N && (n <=? 90)%N then Ascii.ascii_of_N (n + 32) else c.
Fixpoint to_lower (s : string) : string :=
  match s with
  | "" => ""
  | String c s' => String (lower_char c) (to_lower s')
  end.

(** The member a struct field reads: names match up to case, the last wins. *)
Definition field_member (kvs : list (string * any)) (name : string) : option any :=
  snd <$> last (List.filter (fun kv => String.eqb (to_lower kv.1) name) kvs).

(** The JSON of a Go map, and the map of a JSON object. *)
Definition obj_of_map (m : gmap string any) : any :=
  AObj (sort_by (fun a b => String.leb a.1 b.1) (map_to_list m)).
Definition map_of_obj (kvs : list (string * any)) : gmap string any :=
  list_to_map (reverse kvs).

Definition json_of_gomap (m : gomap) : any :=
  match m with Some m => obj_of_map m | None => ANull end.
Definition gomap_of_json (v : any) : result gomap :=
  match v with
  | ANull => Ok None
  | AObj kvs => Ok (Some (map_of_obj kvs))
  | _ => Err (EPlain "json: cannot unmarshal into Go value of type map[string]interface {}")
  end.

(** ** Fields *)

Definition cannot_unmarshal {A} : result A := Err (EPlain "json: cannot unmarshal").

Definition get_field {A} (zero : A) (dec : any -> result A) (kvs : list (string * any))
    (name : string) : result A :=
  match field_member kvs name with
  | None | Some ANull => Ok zero
  | Some v => dec v
  end.

Definition dec_string (v : any) : result string :=
  match v with AStr s => Ok s | _ => cannot_unmarshal end.
Definition dec_int (v : any) : result Z :=
  match v with
  | AInt z => if (- 2^63 <=? z) && (z <? 2^63) then Ok z else cannot_unmarshal
  | _ => cannot_unmarshal
  end.
Definition dec_object {A} (dec : list (string * any) -> result A) (v : any) : result A :=
  match v with AObj kvs => dec kvs | _ => cannot_unmarshal end.

Section Uuid.
Context `{UuidText}.
Definition dec_uuid (v : any) : result uuid :=
  match v with
  | AStr s => match uuid_Parse s with Some u => Ok u | None => Err (EPlain "invalid UUID") end
  | _ => cannot_unmarshal
  end.
Definition json_uuid (u : uuid) : any := AStr (uuid_String u).
(** A [*uuid.UUID] tagged [omitempty]. *)
Definition opt_uuid (name : string) (o : option uuid) : list (string * any) :=
  match o with Some u => [(name, json_uuid u)] | None => [] end.

Lemma dec_uuid_json `{!UuidTextLaws} u : dec_uuid (json_uuid u) = Ok u.
Proof. simpl. by rewrite uuid_parse_string. Qed.
End Uuid.

(** ** Codecs *)

(** A struct that [json.Marshal] prints and [json.Unmarshal] reads; printing
    fails only on an instant that has no text. *)
Class JsonCodec (A : Type) := {
  Marshal : A -> result any;
  Unmarshal_object : list (string * any) -> result A;
  zero_value : A;
}.

Definition Unmarshal {A} `{JsonCodec A} (b : any) : result A :=
  match b with
  | ANull => Ok zero_value
  | AObj kvs => Unmarshal_object kvs
  | _ => cannot_unmarshal
  end.

(** A codec keeps what it prints. *)
Class JsonRoundtrip (A : Type) `{JsonCodec A} (wf : A -> Prop) : Prop :=
  json_roundtrip : forall a j, wf a -> Marshal a = Ok j -> Unmarshal j = Ok a.

(** ** Maps survive *)

Lemma map_of_obj_sorted (m : gmap string any) :
  map_of_obj (sort_by (fun a b => String.leb a.1 b.1) (map_to_list m)) = m.
Proof.
  unfold map_of_obj. rewrite <-(list_to_map_to_list m) at 2.
  assert (reverse (sort_by (fun a b => String.leb a.1 b.1) (map_to_list m)) ≡ₚ map_to_list m) as Hp
    by (rewrite reverse_Permutation; apply sort_by_perm).
  apply list_to_map_proper; [|done].
  rewrite Hp. apply NoDup_fst_map_to_list.
Qed.

Lemma gomap_roundtrip (m : gomap) : gomap_of_json (json_of_gomap m) = Ok m.
Proof. destruct m; simpl; [|done]. by rewrite map_of_obj_sorted. Qed.

(** ** An instance of the uuid text, for evaluation *)

Fixpoint bits_text (p : positive) : string :=
  match p with
  | xH => "1"
  | xO p' => String "0" (bits_text p')
  | xI p' => String "1" (bits_text p')
  end.
Fixpoint parse_bits (s : string) : option positive :=
  match s with
  | String "1" "" => Some xH
  | String "0" s' => xO <$> parse_bits s'
  | String "1" s' => xI <$> parse_bits s'
  | _ => None
  end.

Lemma bits_text_nonempty p : bits_text p <> "".
Proof. by destruct p. Qed.
Lemma parse_bits_text p : parse_bits (bits_text p) = Some p.
Proof.
  induction p as [p IH|p IH|]; simpl; [|by rewrite IH|done].
  pose proof (bits_text_nonempty p). rewrite IH. by destruct (bits_text p).
Qed.

Definition bits_uuid : UuidText := {|
  uuid_String u := match u with N0 => "nil" | Npos p => bits_text p end;
  uuid_Parse s := if decide (s = "nil") then Some 0%N else Npos <$> parse_bits s |}.
Lemma bits_uuid_laws : @UuidTextLaws bits_uuid.
Proof.
  intros [|p]; simpl; [done|]. rewrite decide_False; [by rewrite parse_bits_text|].
  by destruct p.
Qed.
