(* ===== verification/World.v ===== *)
(** * The world the processes share

    The state behind the Go interfaces: the PostgreSQL tables (the row structs
    of [internal/db/models.go], the schema of [migrations/]), the Kafka log, the
    Redis sorted sets and pub/sub publications, the clock and the Prometheus
    counters; and the environment that decides, call by call, how much time an
    external call takes and whether it fails before or after its effect. *)

From S2P Require Import Prelude Time Domain.

(** ** The environment *)

(** Whether one external call fails: not at all, before its effect, or after
    it (a lost acknowledgement). *)
Inductive fault := NoFault | FailBefore (msg : string) | FailAfter (msg : string).

Record event := Event {
  ev_dt : Z;          (* nanoseconds that pass *)
  ev_fault : fault;
  ev_uuid : uuid;     (* the value of the server's uuid generator *)
  ev_done : bool;     (* whether ctx.Done() fires during a wait *)
}.

Class Env := env_event : nat -> event.

(** No external call ever fails. *)
Definition faultless `{Env} : Prop := forall i, ev_fault (env_event i) = NoFault.

(** ** Rows (internal/db/models.go); a sql.Null* column is an [option] *)

Record NotificationRow := MkNotificationRow {
  nr_ID : uuid;
  nr_IdempotencyKey : option string;
  nr_Type : string;
  nr_Channel : string;
  nr_RecipientID : string;
  nr_RecipientAddress : option string;
  nr_TemplateID : option uuid;
  nr_Payload : option any;      (* json.RawMessage; None is the empty one *)
  nr_Priority : Z;
  nr_Status : string;
  nr_ScheduledAt : option gotime;
  nr_CreatedAt : gotime;
  nr_UpdatedAt : gotime;
  nr_TenantID : option uuid;
}.

Record DeliveryLogRow := MkDeliveryLogRow {
  lr_ID : uuid;
  lr_NotificationID : uuid;
  lr_Channel : string;
  lr_Provider : string;
  lr_Status : string;
  lr_ProviderMessageID : option string;
  lr_ErrorMessage : option string;
  lr_ErrorCode : option string;
  lr_RetryCount : Z;
  lr_AttemptedAt : gotime;
  lr_DeliveredAt : option gotime;
}.

Record TemplateRow := MkTemplateRow {
  tr_ID : uuid;
  tr_Name : string;
  tr_Channel : string;
  tr_SubjectTemplate : option string;
  tr_BodyTemplate : string;
  tr_Metadata : option any;     (* pqtype.NullRawMessage *)
  tr_Version : Z;
  tr_IsActive : bool;
  tr_CreatedAt : gotime;
  tr_UpdatedAt : gotime;
  tr_TenantID : option uuid;
}.

(** A TIME column: hours and minutes of day. *)
Abbreviation timeofday := (Z * Z)%type.

Record PreferenceRow := MkPreferenceRow {
  pr_ID : uuid;
  pr_UserID : string;
  pr_Channel : string;
  pr_Enabled : bool;
  pr_QuietHoursStart : option timeofday;
  pr_QuietHoursEnd : option timeofday;
  pr_FrequencyCap : option Z;
  pr_FrequencyWindowMinutes : option Z;
  pr_Timezone : option string;
  pr_CreatedAt : gotime;
  pr_UpdatedAt : gotime;
  pr_TenantID : option uuid;
}.

Record DeadLetterRow := MkDeadLetterRow {
  dr_ID : uuid;
  dr_TenantID : uuid;
  dr_NotificationID : uuid;
  dr_Channel : string;
  dr_OriginalTopic : string;
  dr_Payload : option any;
  dr_FailureReason : string;
  dr_ErrorMessage : string;
  dr_Attempts : Z;
  dr_ReplayedAt : option gotime;
  dr_CreatedAt : gotime;
}.

Record InappRow := MkInappRow {
  ir_ID : uuid;
  ir_TenantID : uuid;
  ir_NotificationID : option uuid;
  ir_RecipientID : string;
  ir_Title : string;
  ir_Body : string;
  ir_Payload : option any;
  ir_ReadAt : option gotime;
  ir_CreatedAt : gotime;
}.

Record WebhookEndpointRow := MkWebhookEndpointRow {
  er_ID : uuid;
  er_TenantID : uuid;
  er_Url : string;
  er_Secret : string;
  er_Events : any;
  er_IsActive : bool;
  er_CreatedAt : gotime;
  er_UpdatedAt : gotime;
}.

Record WebhookDeliveryRow := MkWebhookDeliveryRow {
  wr_ID : uuid;
  wr_EndpointID : uuid;
  wr_NotificationID : option uuid;
  wr_Event : string;
  wr_Payload : any;
  wr_Status : string;
  wr_Attempt : Z;
  wr_NextRetryAt : option gotime;
  wr_LastError : option string;
  wr_ResponseStatus : option Z;
  wr_CreatedAt : gotime;
  wr_UpdatedAt : gotime;
}.

Record TenantRow := MkTenantRow {
  xr_ID : uuid;
  xr_Name : string;
  xr_IsActive : bool;
  xr_CreatedAt : gotime;
  xr_UpdatedAt : gotime;
}.

Record ApiClientRow := MkApiClientRow {
  cr_ID : uuid;
  cr_Name : string;
  cr_ApiKeyHash : string;
  cr_IsActive : bool;
  cr_CreatedAt : gotime;
  cr_UpdatedAt : gotime;
  cr_TenantID : option uuid;
}.

Record DeviceTokenRow := MkDeviceTokenRow {
  kr_ID : uuid;
  kr_TenantID : uuid;
  kr_UserID : string;
  kr_Token : string;
  kr_Platform : string;
  kr_IsActive : bool;
  kr_CreatedAt : gotime;
  kr_UpdatedAt : gotime;
}.

Record db := MkDb {
  notifications : list NotificationRow;
  delivery_logs : list DeliveryLogRow;
  templates : list TemplateRow;
  preferences : list PreferenceRow;
  dead_letters : list DeadLetterRow;
  inapp_messages : list InappRow;
  webhook_endpoints : list WebhookEndpointRow;
  webhook_deliveries : list WebhookDeliveryRow;
  tenants : list TenantRow;
  api_clients : list ApiClientRow;
  device_tokens : list DeviceTokenRow;
}.

Definition set_notifications (f : list NotificationRow -> list NotificationRow) (d : db) : db :=
  let '(MkDb a b c e g h i j k l m) := d in MkDb (f a) b c e g h i j k l m.
Definition set_delivery_logs (f : list DeliveryLogRow -> list DeliveryLogRow) (d : db) : db :=
  let '(MkDb a b c e g h i j k l m) := d in MkDb a (f b) c e g h i j k l m.
Definition set_templates (f : list TemplateRow -> list TemplateRow) (d : db) : db :=
  let '(MkDb a b c e g h i j k l m) := d in MkDb a b (f c) e g h i j k l m.
Definition set_preferences (f : list PreferenceRow -> list PreferenceRow) (d : db) : db :=
  let '(MkDb a b c e g h i j k l m) := d in MkDb a b c (f e) g h i j k l m.
Definition set_dead_letters (f : list DeadLetterRow -> list DeadLetterRow) (d : db) : db :=
  let '(MkDb a b c e g h i j k l m) := d in MkDb a b c e (f g) h i j k l m.
Definition set_inapp (f : list InappRow -> list InappRow) (d : db) : db :=
  let '(MkDb a b c e g h i j k l m) := d in MkDb a b c e g (f h) i j k l m.
Definition set_endpoints (f : list WebhookEndpointRow -> list WebhookEndpointRow) (d : db) : db :=
  let '(MkDb a b c e g h i j k l m) := d in MkDb a b c e g h (f i) j k l m.
Definition set_deliveries (f : list WebhookDeliveryRow -> list WebhookDeliveryRow) (d : db) : db :=
  let '(MkDb a b c e g h i j k l m) := d in MkDb a b c e g h i (f j) k l m.
Definition set_tenants (f : list TenantRow -> list TenantRow) (d : db) : db :=
  let '(MkDb a b c e g h i j k l m) := d in MkDb a b c e g h i j (f k) l m.
Definition set_api_clients (f : list ApiClientRow -> list ApiClientRow) (d : db) : db :=
  let '(MkDb a b c e g h i j k l m) := d in MkDb a b c e g h i j k (f l) m.
Definition set_device_tokens (f : list DeviceTokenRow -> list DeviceTokenRow) (d : db) : db :=
  let '(MkDb a b c e g h i j k l m) := d in MkDb a b c e g h i j k l (f m).

Definition empty_db : db := MkDb [] [] [] [] [] [] [] [] [] [] [].

(** ** Kafka and Redis *)

(** Bytes on the wire: a JSON document, or bytes that are not JSON. *)
Inductive bytes := BJson (j : any) | BRaw (s : string).

Record KafkaRecord := MkKafkaRecord {
  k_Topic : string;
  k_Key : string;
  k_Value : bytes;
  k_Headers : list (string * string);
}.

(** A sorted set: member to score, and the instant the key expires. *)
Record zset := MkZset { z_entries : gmap Z Z; z_expire : option gotime }.

(** ** The world *)

Record world := MkWorld {
  w_db : db;
  w_kafka : list KafkaRecord;          (* every record written, oldest first *)
  w_redis : gmap string zset;
  w_pubsub : list (string * bytes);    (* Redis PUBLISH calls, oldest first *)
  w_now : gotime;
  w_tick : nat;                        (* external calls made so far *)
  w_metrics : gmap (string * list string) Z;
}.

Abbreviation M := (ST world).

Definition set_db (f : db -> db) (w : world) : world :=
  let '(MkWorld d k r p n t m) := w in MkWorld (f d) k r p n t m.
Definition set_kafka (f : list KafkaRecord -> list KafkaRecord) (w : world) : world :=
  let '(MkWorld d k r p n t m) := w in MkWorld d (f k) r p n t m.
Definition set_redis (f : gmap string zset -> gmap string zset) (w : world) : world :=
  let '(MkWorld d k r p n t m) := w in MkWorld d k (f r) p n t m.
Definition set_pubsub (f : list (string * bytes) -> list (string * bytes)) (w : world) : world :=
  let '(MkWorld d k r p n t m) := w in MkWorld d k r (f p) n t m.
Definition set_metrics (f : gmap (string * list string) Z -> gmap (string * list string) Z)
    (w : world) : world :=
  let '(MkWorld d k r p n t m) := w in MkWorld d k r p n t (f m).
(** One external call: the clock moves on and the schedule advances. *)
Definition advance (dt : Z) (w : world) : world :=
  let '(MkWorld d k r p n t m) := w in MkWorld d k r p (n + Z.max 0 dt) (S t) m.

(** ** External calls *)

Section External.
Context `{Env}.

(** Run the effect [q] of one external call under the schedule. *)
Definition external {A} (q : event -> world -> result A * world) : M A := fun w =>
  let ev := env_event (w_tick w) in
  let w1 := advance (ev_dt ev) w in
  match ev_fault ev with
  | NoFault => q ev w1
  | FailBefore msg => (Err (EPlain msg), w1)
  | FailAfter msg => (Err (EPlain msg), (q ev w1).2)
  end.

(** [NOW()]: a timestamptz has microseconds. *)
Definition pg_now (t : gotime) : gotime := t / 1000 * 1000.

(** A statement that may write: it sees the generated uuid and [NOW()]. *)
Definition sql {A} (q : uuid -> gotime -> db -> result A * db) : M A :=
  external (fun ev w =>
    let '(r, d) := q (ev_uuid ev) (pg_now (w_now w)) (w_db w) in (r, set_db (fun _ => d) w)).

(** A [SELECT]. *)
Definition sql_read {A} (q : gotime -> db -> result A) : M A :=
  external (fun _ w => (q (pg_now (w_now w)) (w_db w), w)).

(** [time.Now()] *)
Definition now : M gotime := gets w_now.

(** [select { case <-ctx.Done(): .. ; case <-time.After(d): .. }]: true when
    the context is done first; otherwise the timer runs its full time. *)
Definition wait (d : Z) : M bool := fun w =>
  let ev := env_event (w_tick w) in
  if ev_done ev then (Ok true, advance (ev_dt ev) w) else (Ok false, advance d w).

(** [uuid.New()] *)
Definition uuid_New : M uuid := fun w => (Ok (ev_uuid (env_event (w_tick w))), advance 0 w).
End External.

(** ** Prometheus collectors (internal/observability/metrics.go) *)

Definition metric_add (name : string) (labels : list string) (n : Z) : M unit :=
  modify (set_metrics (fun m => <[(name, labels) := default 0 (m !! (name, labels)) + n]> m)).
Definition Inc (name : string) (labels : list string) : M unit := metric_add name labels 1.
Definition Dec (name : string) (labels : list string) : M unit := metric_add name labels (-1).
Definition metric_set (name : string) (labels : list string) (v : Z) : M unit :=
  modify (set_metrics (fun m => <[(name, labels) := v]> m)).
(** A histogram, as the number of its observations. *)
Definition Observe (name : string) (labels : list string) : M unit := metric_add (name +:+ "_count") labels 1.
Definition metric (w : world) (name : string) (labels : list string) : Z :=
  default 0 (w_metrics w !! (name, labels)).

(** ** Observations and their frames *)

Lemma advance_obs dt w :
  w_db (advance dt w) = w_db w /\ w_kafka (advance dt w) = w_kafka w
  /\ w_redis (advance dt w) = w_redis w /\ w_pubsub (advance dt w) = w_pubsub w
  /\ w_metrics (advance dt w) = w_metrics w.
Proof. by destruct w. Qed.

(** An observation that does not depend on the clock. *)
Class Timeless {B} (f : world -> B) : Prop := timeless : forall dt w, f (advance dt w) = f w.
#[global] Instance timeless_db {B} (g : db -> B) : Timeless (fun w => g (w_db w)).
Proof. by intros ? []. Qed.
#[global] Instance timeless_w_db : Timeless w_db.
Proof. by intros ? []. Qed.
#[global] Instance timeless_kafka : Timeless w_kafka.
Proof. by intros ? []. Qed.
#[global] Instance timeless_redis : Timeless w_redis.
Proof. by intros ? []. Qed.
#[global] Instance timeless_pubsub : Timeless w_pubsub.
Proof. by intros ? []. Qed.
#[global] Instance timeless_metrics : Timeless w_metrics.
Proof. by intros ? []. Qed.
#[global] Instance timeless_metric name ls : Timeless (fun w => metric w name ls).
Proof. by intros ? []. Qed.

Section ExternalLemmas.
Context `{Env}.

(** A frame fact about an external call only needs its effect. *)
Lemma frame_external {A B} (f : world -> B) `{!Timeless f} (q : event -> world -> result A * world) :
  (forall ev w, f (q ev w).2 = f w) -> Frame f (external q).
Proof.
  intros Hq w. unfold external.
  destruct (ev_fault _); simpl; rewrite ?Hq; apply timeless.
Qed.

#[global] Instance frame_sql_read {A B} (f : world -> B) `{!Timeless f}
    (q : gotime -> db -> result A) : Frame f (sql_read q).
Proof. by apply frame_external. Qed.

(** A statement is framed by what it does not write. *)
Lemma frame_sql_db {A B} (g : db -> B) (q : uuid -> gotime -> db -> result A * db) :
  (forall u t d, g (q u t d).2 = g d) -> Frame (fun w => g (w_db w)) (sql q).
Proof.
  intros Hq. apply frame_external; [apply _|]. intros ev w. specialize (Hq (ev_uuid ev) (pg_now (w_now w)) (w_db w)).
  destruct (q _ _ _) as [r d]. by destruct w.
Qed.

#[global] Instance frame_sql_kafka {A} (q : uuid -> gotime -> db -> result A * db) :
  Frame w_kafka (sql q).
Proof. apply frame_external; [apply _|]. intros ev w. destruct (q _ _ _). by destruct w. Qed.
#[global] Instance frame_sql_redis {A} (q : uuid -> gotime -> db -> result A * db) :
  Frame w_redis (sql q).
Proof. apply frame_external; [apply _|]. intros ev w. destruct (q _ _ _). by destruct w. Qed.
#[global] Instance frame_sql_pubsub {A} (q : uuid -> gotime -> db -> result A * db) :
  Frame w_pubsub (sql q).
Proof. apply frame_external; [apply _|]. intros ev w. destruct (q _ _ _). by destruct w. Qed.
#[global] Instance frame_sql_metric {A} name ls (q : uuid -> gotime -> db -> result A * db) :
  Frame (fun w => metric w name ls) (sql q).
Proof. apply frame_external; [apply _|]. intros ev w. destruct (q _ _ _). by destruct w. Qed.

#[global] Instance frame_wait {B} (f : world -> B) `{!Timeless f} d : Frame f (wait d).
Proof. intros w. unfold wait. destruct (ev_done _); apply timeless. Qed.

(** The outcomes of one external call: either the schedule fails it, before
    or after its effect, or its effect decides. *)
Lemma wp_external {A} (q : event -> world -> result A * world) Q w :
  (forall ev dt msg, Q (Err (EPlain msg)) (advance dt w) /\
     Q (Err (EPlain msg)) (q ev (advance dt w)).2 /\
     Q (q ev (advance dt w)).1 (q ev (advance dt w)).2) ->
  wp (external q) Q w.
Proof.
  intros HQ. unfold wp, external.
  destruct (ev_fault (env_event (w_tick w))) as [|msg|msg] eqn:E; simpl.
  - by apply (HQ _ _ "").
  - by apply (HQ (env_event (w_tick w))).
  - by apply HQ.
Qed.

(** A [SELECT] answers from the tables or fails; the tables stay. *)
Lemma wp_sql_read {A} (q : gotime -> db -> result A) Q w :
  (forall dt t msg, Q (q t (w_db w)) (advance dt w) /\ Q (Err (EPlain msg)) (advance dt w)) ->
  wp (sql_read q) Q w.
Proof.
  intros HQ. apply wp_external. intros ev dt msg. simpl.
  replace (w_db (advance dt w)) with (w_db w) by (by destruct w).
  split_and!; by eapply HQ.
Qed.

(** A statement that writes either fails and leaves the tables alone, fails
    after its effect, or has its effect. *)
Lemma wp_sql {A} (q : uuid -> gotime -> db -> result A * db) Q w :
  (forall dt msg, Q (Err (EPlain msg)) (advance dt w)) ->
  (forall dt u t msg, let '(r, d) := q u t (w_db w) in
     Q (Err (EPlain msg)) (set_db (fun _ => d) (advance dt w)) /\
     Q r (set_db (fun _ => d) (advance dt w))) ->
  wp (sql q) Q w.
Proof.
  intros HE HQ. apply wp_external. intros ev dt msg. simpl. split; [done|].
  specialize (HQ dt (ev_uuid ev) (pg_now (w_now (advance dt w))) msg).
  replace (w_db (advance dt w)) with (w_db w) by (by destruct w). by destruct (q _ _ _).
Qed.

(** The same outcomes, with the uuid the call is given, and errors of the schedule
    only where there are faults. *)
Lemma wp_external_env {A} (q : event -> world -> result A * world) Q w :
  (forall dt msg, let ev := env_event (w_tick w) in
     (~ faultless -> Q (Err (EPlain msg)) (advance dt w) /\ Q (Err (EPlain msg)) (q ev (advance dt w)).2) /\
     Q (q ev (advance dt w)).1 (q ev (advance dt w)).2) ->
  wp (external q) Q w.
Proof.
  intros HQ. unfold wp, external.
  destruct (ev_fault (env_event (w_tick w))) as [|msg|msg] eqn:E; simpl.
  - by apply (HQ _ "").
  - apply (HQ (ev_dt (env_event (w_tick w))) msg). intros Hl. by rewrite Hl in E.
  - apply (HQ (ev_dt (env_event (w_tick w))) msg). intros Hl. by rewrite Hl in E.
Qed.

Lemma wp_sql_read_env {A} (q : gotime -> db -> result A) Q w :
  (forall dt t msg, Q (q t (w_db w)) (advance dt w) /\ (~ faultless -> Q (Err (EPlain msg)) (advance dt w))) ->
  wp (sql_read q) Q w.
Proof.
  intros HQ. apply wp_external_env. intros dt msg. cbv zeta. simpl.
  assert (w_db (advance dt w) = w_db w) as -> by (by destruct w).
  split; [intros Hf; split; by apply (HQ dt 0 msg)|]. by apply (HQ dt _ msg).
Qed.

(** The same with the time the statement saw. *)
Lemma wp_sql_read_clock {A} (q : gotime -> db -> result A) Q w :
  (forall dt msg, Q (q (pg_now (w_now (advance dt w))) (w_db w)) (advance dt w) /\
     (~ faultless -> Q (Err (EPlain msg)) (advance dt w))) ->
  wp (sql_read q) Q w.
Proof.
  intros HQ. apply wp_external_env. intros dt msg. cbv zeta. simpl.
  assert (w_db (advance dt w) = w_db w) as -> by (by destruct w).
  split; [intros Hf; split; by apply (HQ dt msg)|]. by apply (HQ dt msg).
Qed.

Lemma wp_sql_env {A} (q : uuid -> gotime -> db -> result A * db) Q w :
  (forall dt msg, ~ faultless -> Q (Err (EPlain msg)) (advance dt w)) ->
  (forall dt t msg, let '(r, d) := q (ev_uuid (env_event (w_tick w))) t (w_db w) in
     (~ faultless -> Q (Err (EPlain msg)) (set_db (fun _ => d) (advance dt w))) /\
     Q r (set_db (fun _ => d) (advance dt w))) ->
  wp (sql q) Q w.
Proof.
  intros HE HQ. apply wp_external_env. intros dt msg. simpl.
  specialize (HQ dt (pg_now (w_now (advance dt w))) msg).
  replace (w_db (advance dt w)) with (w_db w) by (by destruct w). destruct (q _ _ _); simpl in *.
  split; [|apply HQ]. intros Hf. split; [by apply HE|by apply HQ].
Qed.

(** The clock does not run backwards. *)
Definition after (t : gotime) (w : world) : Prop := t <= w_now w.

Lemma keeps_external_after {A} t (q : event -> world -> result A * world) :
  (forall ev w, w_now (q ev w).2 = w_now w) -> Keeps (after t) (external q).
Proof.
  intros Hq w Hw. unfold external, after in *.
  destruct (ev_fault _); simpl; rewrite ?Hq; destruct w; simpl in *; lia.
Qed.
#[global] Instance keeps_sql_read_after {A} t (q : gotime -> db -> result A) : Keeps (after t) (sql_read q).
Proof. by apply keeps_external_after. Qed.
#[global] Instance keeps_sql_after {A} t (q : uuid -> gotime -> db -> result A * db) : Keeps (after t) (sql q).
Proof. apply keeps_external_after. intros ev w. destruct (q _ _ _). by destruct w. Qed.
#[global] Instance keeps_wait_after t d : Keeps (after t) (wait d).
Proof. intros w Hw. unfold wait, after in *. destruct (ev_done _); destruct w; simpl in *; lia. Qed.

(** The clock along a computation. *)
Lemma wp_clock {A} (m : M A) Q w :
  (forall t, Keeps (after t) m) -> wp m Q w -> wp m (fun r w' => Q r w' /\ w_now w <= w_now w') w.
Proof. intros Hk Hq. split; [exact Hq|]. apply (Hk (w_now w)), Z.le_refl. Qed.

(** Without a fault the effect alone decides. *)
Lemma external_nofault {A} (q : event -> world -> result A * world) w :
  ev_fault (env_event (w_tick w)) = NoFault ->
  external q w = q (env_event (w_tick w)) (advance (ev_dt (env_event (w_tick w))) w).
Proof. unfold external. by intros ->. Qed.
End ExternalLemmas.

#[global] Instance keeps_metric_add_after t name ls n : Keeps (after t) (metric_add name ls n).
Proof. by intros []. Qed.
#[global] Instance keeps_metric_set_after t name ls n : Keeps (after t) (metric_set name ls n).
Proof. by intros []. Qed.
#[global] Instance frame_metric_add_db {B} (g : db -> B) name ls n :
  Frame (fun w => g (w_db w)) (metric_add name ls n).
Proof. by intros []. Qed.
#[global] Instance frame_metric_add_w_db name ls n : Frame w_db (metric_add name ls n).
Proof. by intros []. Qed.
#[global] Instance frame_metric_add_kafka name ls n : Frame w_kafka (metric_add name ls n).
Proof. by intros []. Qed.
#[global] Instance frame_metric_set_db {B} (g : db -> B) name ls n :
  Frame (fun w => g (w_db w)) (metric_set name ls n).
Proof. by intros []. Qed.
#[global] Instance frame_metric_set_kafka name ls n : Frame w_kafka (metric_set name ls n).
Proof. by intros []. Qed.

Lemma metric_add_eq name ls n w :
  metric (metric_add name ls n w).2 name ls = metric w name ls + n.
Proof. destruct w. unfold metric. simpl. by rewrite lookup_insert_eq. Qed.
(** One collector moves, the others stay. *)
Lemma metric_add_metric name ls n w name' ls' :
  metric (metric_add name ls n w).2 name' ls'
    = metric w name' ls' + (if decide ((name, ls) = (name', ls')) then n else 0).
Proof.
  destruct (decide _) as [[= -> ->]|Hne]; [apply metric_add_eq|].
  destruct w. unfold metric. simpl. rewrite lookup_insert_ne by done. lia.
Qed.
Lemma frame_metric_add_ne name ls n name' ls' :
  (name, ls) <> (name', ls') -> Frame (fun w => metric w name' ls') (metric_add name ls n).
Proof. intros Hne []. unfold metric. simpl. by rewrite lookup_insert_ne. Qed.
Lemma frame_metric_set_ne name ls n name' ls' :
  (name, ls) <> (name', ls') -> Frame (fun w => metric w name' ls') (metric_set name ls n).
Proof. intros Hne []. unfold metric. simpl. by rewrite lookup_insert_ne. Qed.

Lemma set_metrics_db f w : w_db (set_metrics f w) = w_db w.
Proof. by destruct w. Qed.

(** ** A schedule without faults, for evaluation *)

Definition calm : Env := fun i => Event 1000 NoFault (N.of_nat (S i)) false.
Definition empty_world : world := MkWorld empty_db [] ∅ [] 0 0 ∅.
(** One tenant. *)
Definition demo_tenants : world :=
  set_db (set_tenants (fun _ => [MkTenantRow 1 "acme" true 0 0])) empty_world.
