(* ===== verification/Metrics.v ===== *)
(** * Prometheus collectors ([internal/observability/metrics.go])

    The collectors [NewMetrics] registers, and what makes an update of one safe: a
    series of an unregistered collector, a wrong number of label values or a counter
    that goes down panics in the client library.  It also panics on a label value that is
    not valid UTF-8; that check is not modelled. *)

From S2P Require Import Prelude Time Domain Json World.

Inductive collector_kind := Counter | Gauge | Histogram.
#[global] Instance collector_kind_eq : EqDecision collector_kind.
Proof. solve_decision. Defined.

(** A collector with the field of [Metrics] that holds it. *)
Record Collector := MkCollector {
  cl_Field : string;
  cl_Kind : collector_kind;
  cl_Subsystem : string;
  cl_Name : string;
  cl_Labels : list string;
}.

Definition service_collectors : list Collector :=
  [MkCollector "HTTPRequests" Counter "http" "requests_total" ["method"; "route"; "status"];
   MkCollector "HTTPDuration" Histogram "http" "request_duration_seconds" ["method"; "route"];
   MkCollector "NotifEnqueued" Counter "notifications" "enqueued_total" ["channel"];
   MkCollector "NotifProcessed" Counter "notifications" "processed_total" ["channel"; "status"];
   MkCollector "ProviderSendTotal" Counter "provider" "send_total" ["channel"; "provider"; "outcome"];
   MkCollector "ProviderSendDur" Histogram "provider" "send_duration_seconds" ["channel"; "provider"; "outcome"];
   MkCollector "WorkerInflight" Gauge "worker" "inflight" ["channel"];
   MkCollector "QueueLagSeconds" Gauge "queue" "consume_lag_seconds" ["channel"];
   MkCollector "TemplateRenderDur" Histogram "template" "render_duration_seconds" [];
   MkCollector "RateLimitDecisions" Counter "ratelimit" "decisions_total" ["scope"; "outcome"];
   MkCollector "BuildInfo" Gauge "" "build_info" ["version"; "commit"; "env"]].
Definition channel_collectors : list Collector :=
  [MkCollector "DLQPublished" Counter "dlq" "published_total" ["channel"; "reason"];
   MkCollector "DLQPublishErrors" Counter "dlq" "publish_errors_total" ["channel"];
   MkCollector "DLQPersisted" Counter "dlq" "persisted_total" ["channel"];
   MkCollector "DLQReplayed" Counter "dlq" "replayed_total" ["channel"];
   MkCollector "DLQDepth" Gauge "dlq" "depth" ["channel"];
   MkCollector "InAppPersisted" Counter "inapp" "messages_persisted_total" ["tenant"];
   MkCollector "InAppWSConnections" Gauge "inapp" "ws_connections" [];
   MkCollector "InAppWSDropped" Counter "inapp" "ws_dropped_total" [];
   MkCollector "InAppPubSubPublished" Counter "inapp" "pubsub_published_total" [];
   MkCollector "WebhookDelivered" Counter "webhook" "delivered_total" ["event"];
   MkCollector "WebhookFailed" Counter "webhook" "failed_total" ["event"]].
Definition collectors : list Collector := service_collectors ++ channel_collectors.

(** [prometheus.BuildFQName] *)
Definition fq_name (c : Collector) : string :=
  "notifyhub_" +:+ (if decide (cl_Subsystem c = "") then "" else cl_Subsystem c +:+ "_") +:+ cl_Name c.

(** [reg.MustRegister] panics on a name that is taken. *)
Definition MustRegister (reg : result (list string)) (c : Collector) : result (list string) :=
  names ← reg;
  if decide (fq_name c ∈ names) then Err (EPlain ("panic: duplicate metrics collector " +:+ fq_name c))
  else Ok (fq_name c :: names).

(** The runtime collectors are outside the namespace. *)
Definition NewMetrics (version commit env : string) : M unit :=
  _ ← lift (foldl MustRegister (Ok []) collectors);
  metric_set "BuildInfo" [version; commit; env] 1.

(** ** Safe updates *)

(** The key a collector is counted under: a histogram by its observations. *)
Definition series (c : Collector) : string :=
  match cl_Kind c with Histogram => cl_Field c +:+ "_count" | _ => cl_Field c end.
Definition collector_of (name : string) : option Collector := List.find (fun c => bool_decide (series c = name)) collectors.

(** The number of label values [WithLabelValues] checks, and the sign [Add] checks. *)
Definition label_ok (name : string) (labels : list string) : bool :=
  match collector_of name with Some c => bool_decide (length labels = length (cl_Labels c)) | None => false end.
Definition add_ok (name : string) (labels : list string) (n : Z) : bool :=
  label_ok name labels &&
  match collector_of name with Some c => bool_decide (cl_Kind c = Gauge) || (0 <=? n) | None => false end.
Definition set_ok (name : string) (labels : list string) : bool :=
  label_ok name labels && match collector_of name with Some c => bool_decide (cl_Kind c = Gauge) | None => false end.

(** Every series belongs to a collector and has its labels; only gauges are negative. *)
Definition series_ok (k : string * list string) (v : Z) : Prop :=
  exists c, collector_of k.1 = Some c /\ length k.2 = length (cl_Labels c) /\ (cl_Kind c <> Gauge -> 0 <= v).
Definition metrics_ok (w : world) : Prop := map_Forall series_ok (w_metrics w).

Lemma label_ok_spec name labels :
  label_ok name labels = true -> exists c, collector_of name = Some c /\ length labels = length (cl_Labels c).
Proof. unfold label_ok. destruct (collector_of name) as [c|]; [|done]. intros ?%bool_decide_eq_true. eauto. Qed.

Lemma keeps_add_ok name labels n : add_ok name labels n = true -> Keeps metrics_ok (metric_add name labels n).
Proof.
  unfold add_ok. intros [Hl Hk]%andb_true_iff w Hw. destruct (label_ok_spec _ _ Hl) as (c & Hc & Hlen). rewrite Hc in Hk.
  apply orb_true_iff in Hk. destruct w as [d k rd ps t tk m]. unfold metrics_ok in *. simpl in *.
  apply map_Forall_insert_2; [|done]. exists c. split_and!; [done|done|]. intros Hg.
  assert (0 <= default 0 (m !! (name, labels))) as Hold.
  { destruct (m !! (name, labels)) as [v|] eqn:E; [|done]. destruct (Hw _ _ E) as (c' & Hc' & _ & Hv). simpl in *.
    rewrite Hc in Hc'. simplify_eq. by apply Hv. }
  destruct Hk as [Hk%bool_decide_eq_true|Hk%Z.leb_le]; [done|lia].
Qed.

Lemma keeps_set_ok name labels v : set_ok name labels = true -> Keeps metrics_ok (metric_set name labels v).
Proof.
  unfold set_ok. intros [Hl Hk]%andb_true_iff w Hw. destruct (label_ok_spec _ _ Hl) as (c & Hc & Hlen). rewrite Hc in Hk.
  apply bool_decide_eq_true in Hk. destruct w as [d k rd ps t tk m]. unfold metrics_ok in *. simpl in *.
  apply map_Forall_insert_2; [|done]. by exists c.
Qed.

(** What leaves the collectors alone keeps them. *)
Lemma keeps_metrics_frame {A} (m : M A) : Frame w_metrics m -> Keeps metrics_ok m.
Proof. intros Hf w Hw. unfold metrics_ok. by rewrite (frame (f := w_metrics)). Qed.

(** The names of the collectors are distinct, so start-up does not panic. *)
Lemma NewMetrics_ok version commit env w : w_metrics w = ∅ ->
  exists w', NewMetrics version commit env w = (Ok tt, w') /\ metrics_ok w'.
Proof.
  intros Hw. assert (foldl MustRegister (Ok []) collectors = Ok (reverse (fq_name <$> collectors))) as Hreg
    by (vm_compute; reflexivity).
  unfold NewMetrics. rewrite Hreg. eexists. split; [reflexivity|].
  apply (keeps_set_ok "BuildInfo" [version; commit; env] 1); [done|]. unfold metrics_ok. rewrite Hw. apply map_Forall_empty.
Qed.
