(* ===== verification/Db.v ===== *)
(** * The SQL statements ([internal/db/*.sql.go])

    One definition per sqlc query, from the SQL text of its constant and the
    schema of [migrations/]: a statement is a function of the generated uuid,
    [NOW()] and the tables.  Constraint violations (primary key, UNIQUE, foreign
    key, VARCHAR length, CHECK) are errors of the statement and leave the tables
    unchanged.  Rows a query does not order come back in insertion order. *)

From S2P Require Import Prelude Time Domain World.

(** [:one] without a row is [sql.ErrNoRows]. *)
Definition one {A} (l : list A) : result A :=
  match l with x :: _ => Ok x | [] => Err ENoRows end.

(** [col = $n]: a NULL column is never equal. *)
Definition null_eq {A} `{EqDecision A} (o : option A) (x : A) : bool := bool_decide (o = Some x).

(** A timestamptz parameter: PostgreSQL rounds it to the microsecond, ties to
    even. *)
Definition pg_round (t : gotime) : gotime :=
  let q := t / 1000 in
  let r := t mod 1000 in
  1000 * (if r <? 500 then q else if 500 <? r then q + 1 else if Z.even q then q else q + 1).
Definition timestamptz (o : option gotime) : option gotime := pg_round <$> o.

(** The first violated constraint, if any. *)
Fixpoint violated (cs : list (bool * string)) : option string :=
  match cs with
  | [] => None
  | (ok, msg) :: cs' => if ok then violated cs' else Some msg
  end.

Definition varchar (n : Z) (s : string) : bool := rune_count s <=? n.
Definition too_long : string := "value too long for type character varying".
Definition dup_key : string := "duplicate key value violates unique constraint".
Definition fk_violation : string := "violates foreign key constraint".

Definition insert_row {A} (cs : list (bool * string)) (row : A)
    (set : (list A -> list A) -> db -> db) (d : db) : result A * db :=
  match violated cs with
  | Some msg => (Err (EPlain msg), d)
  | None => (Ok row, set (fun t => t ++ [row]) d)
  end.

(** [UPDATE t SET .. WHERE .. RETURNING *] with [:one]. *)
Definition update_returning {A} (P : A -> bool) (f : A -> A) (t : db -> list A)
    (set : (list A -> list A) -> db -> db) (d : db) : result A * db :=
  (one (f <$> where_ P (t d)), set (update_where P f) d).

Definition fresh_id {A} (id : A -> uuid) (t : list A) (u : uuid) : bool * string :=
  (bool_decide (u ∉ id <$> t), dup_key).
Definition tenant_exists (d : db) (t : uuid) : bool := bool_decide (t ∈ xr_ID <$> tenants d).
Definition opt_fk (o : option uuid) (p : uuid -> bool) : bool :=
  match o with Some u => p u | None => true end.
Definition nonneg_page (limit offset : Z) : list (bool * string) :=
  [(0 <=? limit, "LIMIT must not be negative"); (0 <=? offset, "OFFSET must not be negative")].
Definition select_page {A} (limit offset : Z) (l : list A) : result (list A) :=
  match violated (nonneg_page limit offset) with
  | Some msg => Err (EPlain msg)
  | None => Ok (page limit offset l)
  end.

Section Queries.
Context `{Env}.

(** ** notification.sql.go *)

Definition set_status (status : string) (t : gotime) (r : NotificationRow) : NotificationRow :=
  let '(MkNotificationRow a b c d e f g h i _ k l _ n) := r in
  MkNotificationRow a b c d e f g h i status k l t n.

Definition CancelNotification (id : uuid) (tenant : option uuid) : M NotificationRow :=
  sql (fun _ t => update_returning
    (fun r => bool_decide (nr_ID r = id)
              && match tenant with Some x => null_eq (nr_TenantID r) x | None => false end
              && (bool_decide (nr_Status r = "pending") || bool_decide (nr_Status r = "queued")))
    (set_status "dropped" t) notifications set_notifications).

Definition notif_filter (tenant : option uuid) (recipient channel status : string)
    (r : NotificationRow) : bool :=
  match tenant with Some x => null_eq (nr_TenantID r) x | None => false end
  && (bool_decide (recipient = "") || bool_decide (nr_RecipientID r = recipient))
  && (bool_decide (channel = "") || bool_decide (nr_Channel r = channel))
  && (bool_decide (status = "") || bool_decide (nr_Status r = status)).

Definition CountNotifications (tenant : option uuid) (recipient channel status : string) : M Z :=
  sql_read (fun _ d =>
    Ok (Z.of_nat (length (where_ (notif_filter tenant recipient channel status) (notifications d))))).

Definition by_id_tenant (id tenant : uuid) (r : NotificationRow) : bool :=
  bool_decide (nr_ID r = id) && null_eq (nr_TenantID r) tenant.

Definition GetNotificationByID (id : uuid) (tenant : option uuid) : M NotificationRow :=
  sql_read (fun _ d => one (where_
    (fun r => match tenant with Some x => by_id_tenant id x r | None => false end) (notifications d))).

Definition by_idem_tenant (key : string) (tenant : uuid) (r : NotificationRow) : bool :=
  null_eq (nr_IdempotencyKey r) key && null_eq (nr_TenantID r) tenant.

Definition GetNotificationByIdempotencyKey (key : option string) (tenant : option uuid) : M NotificationRow :=
  sql_read (fun _ d => one (where_
    (fun r => match key, tenant with
              | Some k, Some x => by_idem_tenant k x r
              | _, _ => false
              end) (notifications d))).

Record InsertNotificationParams := MkInsertNotification {
  in_TenantID : option uuid;
  in_IdempotencyKey : option string;
  in_Type : string;
  in_Channel : string;
  in_RecipientID : string;
  in_RecipientAddress : option string;
  in_TemplateID : option uuid;
  in_Payload : option any;
  in_Priority : Z;
  in_Status : string;
  in_ScheduledAt : option gotime;
}.

(** The row an INSERT makes: [id], [created_at] and [updated_at] are defaults. *)
Definition notification_row (p : InsertNotificationParams) (u : uuid) (t : gotime) : NotificationRow :=
  {| nr_ID := u; nr_IdempotencyKey := in_IdempotencyKey p; nr_Type := in_Type p;
     nr_Channel := in_Channel p; nr_RecipientID := in_RecipientID p;
     nr_RecipientAddress := in_RecipientAddress p; nr_TemplateID := in_TemplateID p;
     nr_Payload := in_Payload p; nr_Priority := in_Priority p; nr_Status := in_Status p;
     nr_ScheduledAt := timestamptz (in_ScheduledAt p); nr_CreatedAt := t; nr_UpdatedAt := t;
     nr_TenantID := in_TenantID p |}.

Definition InsertNotification (p : InsertNotificationParams) : M NotificationRow :=
  sql (fun u t d => insert_row
    [ fresh_id nr_ID (notifications d) u;
      (from_option (varchar 255) true (in_IdempotencyKey p), too_long);
      (varchar 100 (in_Type p), too_long);
      (varchar 50 (in_Channel p), too_long);
      (varchar 255 (in_RecipientID p), too_long);
      (from_option (varchar 500) true (in_RecipientAddress p), too_long);
      (bool_decide (is_Some (in_Payload p)), "invalid input syntax for type json");
      (varchar 50 (in_Status p), too_long);
      (match in_IdempotencyKey p with
       | Some k => bool_decide (Some k ∉ nr_IdempotencyKey <$> notifications d)
       | None => true
       end, dup_key);
      (opt_fk (in_TemplateID p) (fun x => bool_decide (x ∈ tr_ID <$> templates d)), fk_violation);
      (opt_fk (in_TenantID p) (tenant_exists d), fk_violation) ]
    (notification_row p u t)
    set_notifications d).

Definition is_due (t : gotime) (r : NotificationRow) : bool :=
  bool_decide (nr_Status r = "pending")
  && match nr_ScheduledAt r with Some s => s <=? t | None => false end.

(** [ORDER BY priority ASC, scheduled_at ASC] *)
Definition due_leb (a b : NotificationRow) : bool :=
  (nr_Priority a <? nr_Priority b)
  || ((nr_Priority a =? nr_Priority b)
      && (default 0 (nr_ScheduledAt a) <=? default 0 (nr_ScheduledAt b))).

Definition due_rows (t : gotime) (d : db) : list NotificationRow :=
  sort_by due_leb (where_ (is_due t) (notifications d)).

Definition ListDueScheduledNotifications (limit : Z) : M (list NotificationRow) :=
  sql_read (fun t d => select_page limit 0 (due_rows t d)).

(** [ORDER BY created_at DESC] *)
Definition notif_newest (a b : NotificationRow) : bool := nr_CreatedAt b <=? nr_CreatedAt a.

Definition ListNotifications (tenant : option uuid) (recipient channel status : string)
    (offset limit : Z) : M (list NotificationRow) :=
  sql_read (fun _ d => select_page limit offset
    (sort_by notif_newest (where_ (notif_filter tenant recipient channel status) (notifications d)))).

Definition UpdateNotificationStatus (id : uuid) (status : string) : M NotificationRow :=
  sql (fun _ t => update_returning (fun r => bool_decide (nr_ID r = id))
    (set_status status t) notifications set_notifications).

(** ** delivery.sql.go *)

Definition by_notification (id : uuid) (r : DeliveryLogRow) : bool := bool_decide (lr_NotificationID r = id).

Definition GetLatestDeliveryLog (id : uuid) : M DeliveryLogRow :=
  sql_read (fun _ d => one (sort_by (fun a b => lr_AttemptedAt b <=? lr_AttemptedAt a)
    (where_ (by_notification id) (delivery_logs d)))).

Record InsertDeliveryLogParams := MkInsertDeliveryLog {
  il_NotificationID : uuid;
  il_Channel : string;
  il_Provider : string;
  il_Status : string;
  il_ProviderMessageID : option string;
  il_ErrorMessage : option string;
  il_ErrorCode : option string;
  il_RetryCount : Z;
  il_DeliveredAt : option gotime;
}.

Definition InsertDeliveryLog (p : InsertDeliveryLogParams) : M DeliveryLogRow :=
  sql (fun u t d => insert_row
    [ fresh_id lr_ID (delivery_logs d) u;
      (varchar 50 (il_Channel p), too_long);
      (varchar 100 (il_Provider p), too_long);
      (varchar 50 (il_Status p), too_long);
      (from_option (varchar 500) true (il_ProviderMessageID p), too_long);
      (from_option (varchar 100) true (il_ErrorCode p), too_long);
      (bool_decide (il_NotificationID p ∈ nr_ID <$> notifications d), fk_violation) ]
    {| lr_ID := u; lr_NotificationID := il_NotificationID p; lr_Channel := il_Channel p;
       lr_Provider := il_Provider p; lr_Status := il_Status p;
       lr_ProviderMessageID := il_ProviderMessageID p; lr_ErrorMessage := il_ErrorMessage p;
       lr_ErrorCode := il_ErrorCode p; lr_RetryCount := il_RetryCount p;
       lr_AttemptedAt := t; lr_DeliveredAt := timestamptz (il_DeliveredAt p) |}
    set_delivery_logs d).

Definition ListDeliveryLogsByNotification (id : uuid) : M (list DeliveryLogRow) :=
  sql_read (fun _ d => Ok (sort_by (fun a b => lr_AttemptedAt a <=? lr_AttemptedAt b)
    (where_ (by_notification id) (delivery_logs d)))).

(** ** template.sql.go *)

Definition template_filter (tenant : option uuid) (channel : string) (r : TemplateRow) : bool :=
  match tenant with Some x => null_eq (tr_TenantID r) x | None => false end
  && (bool_decide (channel = "") || bool_decide (tr_Channel r = channel)).

Definition CountTemplates (tenant : option uuid) (channel : string) : M Z :=
  sql_read (fun _ d => Ok (Z.of_nat (length (where_ (template_filter tenant channel) (templates d))))).

Definition template_by_id (id : uuid) (tenant : option uuid) (r : TemplateRow) : bool :=
  bool_decide (tr_ID r = id) && match tenant with Some x => null_eq (tr_TenantID r) x | None => false end.

Definition DeleteTemplate (id : uuid) (tenant : option uuid) : M TemplateRow :=
  sql (fun _ t => update_returning (template_by_id id tenant)
    (fun r => {| tr_ID := tr_ID r; tr_Name := tr_Name r; tr_Channel := tr_Channel r;
                 tr_SubjectTemplate := tr_SubjectTemplate r; tr_BodyTemplate := tr_BodyTemplate r;
                 tr_Metadata := tr_Metadata r; tr_Version := tr_Version r; tr_IsActive := false;
                 tr_CreatedAt := tr_CreatedAt r; tr_UpdatedAt := t; tr_TenantID := tr_TenantID r |})
    templates set_templates).

Definition GetTemplateByID (id : uuid) (tenant : option uuid) : M TemplateRow :=
  sql_read (fun _ d => one (where_ (template_by_id id tenant) (templates d))).

Definition GetTemplateByName (name : string) (tenant : option uuid) : M TemplateRow :=
  sql_read (fun _ d => one (where_
    (fun r => bool_decide (tr_Name r = name)
              && match tenant with Some x => null_eq (tr_TenantID r) x | None => false end
              && tr_IsActive r) (templates d))).

Definition InsertTemplate (tenant : option uuid) (name channel : string) (subject : option string)
    (body : string) (metadata : option any) : M TemplateRow :=
  sql (fun u t d => insert_row
    [ fresh_id tr_ID (templates d) u;
      (varchar 255 name, too_long);
      (varchar 50 channel, too_long);
      (bool_decide (name ∉ tr_Name <$> templates d), dup_key);
      (opt_fk tenant (tenant_exists d), fk_violation) ]
    {| tr_ID := u; tr_Name := name; tr_Channel := channel; tr_SubjectTemplate := subject;
       tr_BodyTemplate := body; tr_Metadata := metadata; tr_Version := 1; tr_IsActive := true;
       tr_CreatedAt := t; tr_UpdatedAt := t; tr_TenantID := tenant |}
    set_templates d).

Definition ListTemplates (tenant : option uuid) (channel : string) (offset limit : Z) : M (list TemplateRow) :=
  sql_read (fun _ d => select_page limit offset
    (sort_by (fun a b => String.leb (tr_Name a) (tr_Name b))
      (where_ (template_filter tenant channel) (templates d)))).

(** [COALESCE($n, col)]; [body] and [is_active] are never NULL. *)
Definition UpdateTemplate (id : uuid) (subject : option string) (body : string)
    (metadata : option any) (active : bool) (tenant : option uuid) : M TemplateRow :=
  sql (fun _ t => update_returning (template_by_id id tenant)
    (fun r => {| tr_ID := tr_ID r; tr_Name := tr_Name r; tr_Channel := tr_Channel r;
                 tr_SubjectTemplate := match subject with Some _ => subject | None => tr_SubjectTemplate r end;
                 tr_BodyTemplate := body;
                 tr_Metadata := match metadata with Some _ => metadata | None => tr_Metadata r end;
                 tr_Version := tr_Version r + 1; tr_IsActive := active;
                 tr_CreatedAt := tr_CreatedAt r; tr_UpdatedAt := t; tr_TenantID := tr_TenantID r |})
    templates set_templates).

(** ** preference.sql.go *)

Definition pref_key (tenant : option uuid) (user channel : string) (r : PreferenceRow) : bool :=
  match tenant with Some x => null_eq (pr_TenantID r) x | None => false end
  && bool_decide (pr_UserID r = user) && bool_decide (pr_Channel r = channel).

Definition DeletePreference (tenant : option uuid) (user channel : string) : M unit :=
  sql (fun _ _ d => (Ok tt, set_preferences (delete_where (pref_key tenant user channel)) d)).

Definition GetPreference (tenant : option uuid) (user channel : string) : M PreferenceRow :=
  sql_read (fun _ d => one (where_ (pref_key tenant user channel) (preferences d))).

Definition ListPreferencesByUser (tenant : option uuid) (user : string) : M (list PreferenceRow) :=
  sql_read (fun _ d => Ok (sort_by (fun a b => String.leb (pr_Channel a) (pr_Channel b))
    (where_ (fun r => match tenant with Some x => null_eq (pr_TenantID r) x | None => false end
                      && bool_decide (pr_UserID r = user)) (preferences d)))).

Record UpsertPreferenceParams := MkUpsertPreference {
  iu_TenantID : option uuid;
  iu_UserID : string;
  iu_Channel : string;
  iu_Enabled : bool;
  iu_QuietHoursStart : option timeofday;
  iu_QuietHoursEnd : option timeofday;
  iu_FrequencyCap : option Z;
  iu_FrequencyWindowMinutes : option Z;
  iu_Timezone : option string;
}.

Definition pref_row (p : UpsertPreferenceParams) (id : uuid) (created updated : gotime) : PreferenceRow :=
  {| pr_ID := id; pr_UserID := iu_UserID p; pr_Channel := iu_Channel p; pr_Enabled := iu_Enabled p;
     pr_QuietHoursStart := iu_QuietHoursStart p; pr_QuietHoursEnd := iu_QuietHoursEnd p;
     pr_FrequencyCap := iu_FrequencyCap p; pr_FrequencyWindowMinutes := iu_FrequencyWindowMinutes p;
     pr_Timezone := iu_Timezone p; pr_CreatedAt := created; pr_UpdatedAt := updated;
     pr_TenantID := iu_TenantID p |}.

Definition UpsertPreference (p : UpsertPreferenceParams) : M PreferenceRow :=
  sql (fun u t d =>
    let P := pref_key (iu_TenantID p) (iu_UserID p) (iu_Channel p) in
    match violated
      [ (varchar 255 (iu_UserID p), too_long);
        (varchar 50 (iu_Channel p), too_long);
        (from_option (varchar 100) true (iu_Timezone p), too_long);
        (opt_fk (iu_TenantID p) (tenant_exists d), fk_violation) ] with
    | Some msg => (Err (EPlain msg), d)
    | None =>
        match where_ P (preferences d) with
        | [] => insert_row [fresh_id pr_ID (preferences d) u] (pref_row p u t t) set_preferences d
        | _ :: _ => update_returning P (fun r => pref_row p (pr_ID r) (pr_CreatedAt r) t)
                      preferences set_preferences d
        end
    end).

(** ** dead_letter.sql.go *)

Definition dead_letter_key (id tenant : uuid) (r : DeadLetterRow) : bool :=
  bool_decide (dr_ID r = id) && bool_decide (dr_TenantID r = tenant).

(** [GROUP BY channel], the groups in order of first appearance. *)
Definition CountDeadLettersByChannel (tenant : uuid) : M (list (string * Z)) :=
  sql_read (fun _ d =>
    let rows := where_ (fun r => bool_decide (dr_TenantID r = tenant) && bool_decide (dr_ReplayedAt r = None))
                  (dead_letters d) in
    Ok ((fun ch => (ch, Z.of_nat (length (where_ (fun r => bool_decide (dr_Channel r = ch)) rows))))
          <$> remove_dups (dr_Channel <$> rows))).

Record CreateDeadLetterParams := MkCreateDeadLetter {
  id_TenantID : uuid;
  id_NotificationID : uuid;
  id_Channel : string;
  id_OriginalTopic : string;
  id_Payload : option any;
  id_FailureReason : string;
  id_ErrorMessage : string;
  id_Attempts : Z;
}.

Definition CreateDeadLetter (p : CreateDeadLetterParams) : M DeadLetterRow :=
  sql (fun u t d => insert_row
    [ fresh_id dr_ID (dead_letters d) u;
      (bool_decide (is_Some (id_Payload p)), "invalid input syntax for type json");
      (tenant_exists d (id_TenantID p), fk_violation) ]
    {| dr_ID := u; dr_TenantID := id_TenantID p; dr_NotificationID := id_NotificationID p;
       dr_Channel := id_Channel p; dr_OriginalTopic := id_OriginalTopic p; dr_Payload := id_Payload p;
       dr_FailureReason := id_FailureReason p; dr_ErrorMessage := id_ErrorMessage p;
       dr_Attempts := id_Attempts p; dr_ReplayedAt := None; dr_CreatedAt := t |}
    set_dead_letters d).

Definition DeleteDeadLetter (id tenant : uuid) : M unit :=
  sql (fun _ _ d => (Ok tt, set_dead_letters (delete_where (dead_letter_key id tenant)) d)).

Definition GetDeadLetterByID (id tenant : uuid) : M DeadLetterRow :=
  sql_read (fun _ d => one (where_ (dead_letter_key id tenant) (dead_letters d))).

(** [COALESCE(NULLIF($2, ''), channel) = channel] *)
Definition ListDeadLetters (tenant : uuid) (channel : string) (unreplayed_only : bool)
    (offset limit : Z) : M (list DeadLetterRow) :=
  sql_read (fun _ d => select_page limit offset
    (sort_by (fun a b => dr_CreatedAt b <=? dr_CreatedAt a)
      (where_ (fun r => bool_decide (dr_TenantID r = tenant)
                && bool_decide ((if bool_decide (channel = "") then dr_Channel r else channel) = dr_Channel r)
                && (negb unreplayed_only || bool_decide (dr_ReplayedAt r = None))) (dead_letters d)))).

Definition set_replayed (t : gotime) (r : DeadLetterRow) : DeadLetterRow :=
  let '(MkDeadLetterRow a b c e f g h i j _ k) := r in MkDeadLetterRow a b c e f g h i j (Some t) k.

Definition MarkDeadLetterReplayed (id tenant : uuid) : M unit :=
  sql (fun _ t d => (Ok tt, set_dead_letters (update_where (dead_letter_key id tenant) (set_replayed t)) d)).

(** ** inapp.sql.go *)

Definition inbox_of (tenant : uuid) (recipient : string) (r : InappRow) : bool :=
  bool_decide (ir_TenantID r = tenant) && bool_decide (ir_RecipientID r = recipient).
Definition unread (r : InappRow) : bool := bool_decide (ir_ReadAt r = None).

Definition CountUnread (tenant : uuid) (recipient : string) : M Z :=
  sql_read (fun _ d => Ok (Z.of_nat (length
    (where_ (fun r => inbox_of tenant recipient r && unread r) (inapp_messages d))))).

Definition GetInAppMessage (id tenant : uuid) : M InappRow :=
  sql_read (fun _ d => one (where_
    (fun r => bool_decide (ir_ID r = id) && bool_decide (ir_TenantID r = tenant)) (inapp_messages d))).

Definition InsertInAppMessage (tenant : uuid) (notification : option uuid)
    (recipient title body : string) (payload : option any) : M InappRow :=
  sql (fun u t d => insert_row
    [ fresh_id ir_ID (inapp_messages d) u;
      (bool_decide (is_Some payload), "invalid input syntax for type json");
      (tenant_exists d tenant, fk_violation);
      (opt_fk notification (fun x => bool_decide (x ∈ nr_ID <$> notifications d)), fk_violation) ]
    {| ir_ID := u; ir_TenantID := tenant; ir_NotificationID := notification; ir_RecipientID := recipient;
       ir_Title := title; ir_Body := body; ir_Payload := payload; ir_ReadAt := None; ir_CreatedAt := t |}
    set_inapp d).

Definition ListInbox (tenant : uuid) (recipient : string) (unread_only : bool)
    (offset limit : Z) : M (list InappRow) :=
  sql_read (fun _ d => select_page limit offset
    (sort_by (fun a b => ir_CreatedAt b <=? ir_CreatedAt a)
      (where_ (fun r => inbox_of tenant recipient r && (negb unread_only || unread r)) (inapp_messages d)))).

Definition set_read (t : gotime) (r : InappRow) : InappRow :=
  let '(MkInappRow a b c e f g h _ i) := r in MkInappRow a b c e f g h (Some t) i.

Definition MarkAllInAppMessagesRead (tenant : uuid) (recipient : string) : M unit :=
  sql (fun _ t d => (Ok tt,
    set_inapp (update_where (fun r => inbox_of tenant recipient r && unread r) (set_read t)) d)).

Definition MarkInAppMessageRead (id tenant : uuid) (recipient : string) : M unit :=
  sql (fun _ t d => (Ok tt,
    set_inapp (update_where (fun r => bool_decide (ir_ID r = id) && inbox_of tenant recipient r && unread r)
      (set_read t)) d)).

(** The keyset order [(created_at, id)]. *)
Definition cursor_lt (t1 : gotime) (id1 : uuid) (t2 : gotime) (id2 : uuid) : bool :=
  (t1 <? t2) || ((t1 =? t2) && (id1 <? id2)%N).
Definition older (a b : InappRow) : bool := cursor_lt (ir_CreatedAt a) (ir_ID a) (ir_CreatedAt b) (ir_ID b).

Definition ListInboxAfterCursor (tenant : uuid) (recipient : string) (unread_only : bool)
    (cursor_time : gotime) (cursor_id : uuid) (limit : Z) : M (list InappRow) :=
  sql_read (fun _ d => select_page limit 0
    (sort_by (fun a b => negb (older a b))
      (where_ (fun r => inbox_of tenant recipient r && (negb unread_only || unread r)
                        && cursor_lt (ir_CreatedAt r) (ir_ID r) cursor_time cursor_id) (inapp_messages d)))).

Definition ListInboxSince (tenant : uuid) (recipient : string)
    (cursor_time : gotime) (cursor_id : uuid) : M (list InappRow) :=
  sql_read (fun _ d => select_page 200 0
    (sort_by (fun a b => negb (older b a))
      (where_ (fun r => inbox_of tenant recipient r
                        && cursor_lt cursor_time cursor_id (ir_CreatedAt r) (ir_ID r)) (inapp_messages d)))).

(** ** webhook.sql.go *)

Definition endpoint_key (id tenant : uuid) (r : WebhookEndpointRow) : bool :=
  bool_decide (er_ID r = id) && bool_decide (er_TenantID r = tenant).

(** [ON DELETE CASCADE] removes the endpoint's deliveries. *)
Definition DeleteWebhookEndpoint (id tenant : uuid) : M unit :=
  sql (fun _ _ d =>
    let gone := er_ID <$> where_ (endpoint_key id tenant) (webhook_endpoints d) in
    (Ok tt, set_deliveries (delete_where (fun r => bool_decide (wr_EndpointID r ∈ gone)))
              (set_endpoints (delete_where (endpoint_key id tenant)) d))).

Definition GetWebhookEndpoint (id tenant : uuid) : M WebhookEndpointRow :=
  sql_read (fun _ d => one (where_ (endpoint_key id tenant) (webhook_endpoints d))).

Record InsertWebhookDeliveryParams := MkInsertWebhookDelivery {
  iw_EndpointID : uuid;
  iw_NotificationID : option uuid;
  iw_Event : string;
  iw_Payload : any;
  iw_Status : string;
  iw_Attempt : Z;
  iw_NextRetryAt : option gotime;
}.

Definition InsertWebhookDelivery (p : InsertWebhookDeliveryParams) : M WebhookDeliveryRow :=
  sql (fun u t d => insert_row
    [ fresh_id wr_ID (webhook_deliveries d) u;
      (bool_decide (iw_EndpointID p ∈ er_ID <$> webhook_endpoints d), fk_violation);
      (opt_fk (iw_NotificationID p) (fun x => bool_decide (x ∈ nr_ID <$> notifications d)), fk_violation) ]
    {| wr_ID := u; wr_EndpointID := iw_EndpointID p; wr_NotificationID := iw_NotificationID p;
       wr_Event := iw_Event p; wr_Payload := iw_Payload p; wr_Status := iw_Status p;
       wr_Attempt := iw_Attempt p; wr_NextRetryAt := timestamptz (iw_NextRetryAt p); wr_LastError := None;
       wr_ResponseStatus := None; wr_CreatedAt := t; wr_UpdatedAt := t |}
    set_deliveries d).

Definition InsertWebhookEndpoint (tenant : uuid) (url secret : string) (events : any) (active : bool)
    : M WebhookEndpointRow :=
  sql (fun u t d => insert_row
    [ fresh_id er_ID (webhook_endpoints d) u; (tenant_exists d tenant, fk_violation) ]
    {| er_ID := u; er_TenantID := tenant; er_Url := url; er_Secret := secret; er_Events := events;
       er_IsActive := active; er_CreatedAt := t; er_UpdatedAt := t |}
    set_endpoints d).

(** [events @> jsonb_build_array($2)]: the array has the string as an element. *)
Definition events_contain (events : any) (event : string) : bool :=
  match events with
  | AArr l => existsb (fun v => match v with AStr s => bool_decide (s = event) | _ => false end) l
  | _ => false
  end.

Definition subscribed (tenant : uuid) (event : string) (r : WebhookEndpointRow) : bool :=
  bool_decide (er_TenantID r = tenant) && er_IsActive r && events_contain (er_Events r) event.

Definition ListActiveWebhookEndpointsForEvent (tenant : uuid) (event : string) : M (list WebhookEndpointRow) :=
  sql_read (fun _ d => Ok (where_ (subscribed tenant event) (webhook_endpoints d))).

Definition ListWebhookEndpoints (tenant : uuid) : M (list WebhookEndpointRow) :=
  sql_read (fun _ d => Ok (sort_by (fun a b => er_CreatedAt b <=? er_CreatedAt a)
    (where_ (fun r => bool_decide (er_TenantID r = tenant)) (webhook_endpoints d)))).

Definition UpdateWebhookDelivery (id : uuid) (status : string) (attempt : Z) (next_retry : option gotime)
    (last_error : option string) (response_status : option Z) : M WebhookDeliveryRow :=
  sql (fun _ t => update_returning (fun r => bool_decide (wr_ID r = id))
    (fun r => {| wr_ID := wr_ID r; wr_EndpointID := wr_EndpointID r;
                 wr_NotificationID := wr_NotificationID r; wr_Event := wr_Event r;
                 wr_Payload := wr_Payload r; wr_Status := status; wr_Attempt := attempt;
                 wr_NextRetryAt := timestamptz next_retry; wr_LastError := last_error;
                 wr_ResponseStatus := response_status; wr_CreatedAt := wr_CreatedAt r;
                 wr_UpdatedAt := t |})
    webhook_deliveries set_deliveries).

Definition UpdateWebhookEndpoint (id tenant : uuid) (url : string) (events : any) (active : bool)
    : M WebhookEndpointRow :=
  sql (fun _ t => update_returning (endpoint_key id tenant)
    (fun r => {| er_ID := er_ID r; er_TenantID := er_TenantID r; er_Url := url;
                 er_Secret := er_Secret r; er_Events := events; er_IsActive := active;
                 er_CreatedAt := er_CreatedAt r; er_UpdatedAt := t |})
    webhook_endpoints set_endpoints).

(** ** device_token.sql.go *)

Definition token_key (tenant : uuid) (token : string) (r : DeviceTokenRow) : bool :=
  bool_decide (kr_TenantID r = tenant) && bool_decide (kr_Token r = token).

Definition set_token (user platform : option string) (active : bool) (t : gotime)
    (r : DeviceTokenRow) : DeviceTokenRow :=
  {| kr_ID := kr_ID r; kr_TenantID := kr_TenantID r; kr_UserID := default (kr_UserID r) user;
     kr_Token := kr_Token r; kr_Platform := default (kr_Platform r) platform; kr_IsActive := active;
     kr_CreatedAt := kr_CreatedAt r; kr_UpdatedAt := t |}.

Definition DeactivateDeviceToken (tenant : uuid) (token : string) : M unit :=
  sql (fun _ t d => (Ok tt,
    set_device_tokens (update_where (token_key tenant token) (set_token None None false t)) d)).

Definition GetDeviceToken (tenant : uuid) (token : string) : M DeviceTokenRow :=
  sql_read (fun _ d => one (where_ (token_key tenant token) (device_tokens d))).

Definition ListActiveDeviceTokensByUser (tenant : uuid) (user : string) : M (list DeviceTokenRow) :=
  sql_read (fun _ d => Ok (sort_by (fun a b => kr_CreatedAt b <=? kr_CreatedAt a)
    (where_ (fun r => bool_decide (kr_TenantID r = tenant) && bool_decide (kr_UserID r = user)
                      && kr_IsActive r) (device_tokens d)))).

Definition UpsertDeviceToken (tenant : uuid) (user token platform : string) : M DeviceTokenRow :=
  sql (fun u t d =>
    match violated
      [ (varchar 255 user, too_long); (varchar 20 platform, too_long);
        (bool_decide (platform ∈ ["ios"; "android"; "web"]), "violates check constraint");
        (tenant_exists d tenant, fk_violation) ] with
    | Some msg => (Err (EPlain msg), d)
    | None =>
        match where_ (token_key tenant token) (device_tokens d) with
        | [] => insert_row [fresh_id kr_ID (device_tokens d) u]
                  {| kr_ID := u; kr_TenantID := tenant; kr_UserID := user; kr_Token := token;
                     kr_Platform := platform; kr_IsActive := true; kr_CreatedAt := t; kr_UpdatedAt := t |}
                  set_device_tokens d
        | _ :: _ => update_returning (token_key tenant token)
                      (set_token (Some user) (Some platform) true t) device_tokens set_device_tokens d
        end
    end).

(** ** tenant.sql.go and api_client.sql.go *)

Definition GetTenantByID (id : uuid) : M TenantRow :=
  sql_read (fun _ d => one (where_ (fun r => bool_decide (xr_ID r = id)) (tenants d))).

Definition GetTenantByName (name : string) : M TenantRow :=
  sql_read (fun _ d => one (where_ (fun r => bool_decide (xr_Name r = name)) (tenants d))).

Definition InsertTenant (name : string) : M TenantRow :=
  sql (fun u t d => insert_row
    [ fresh_id xr_ID (tenants d) u; (varchar 255 name, too_long);
      (bool_decide (name ∉ xr_Name <$> tenants d), dup_key) ]
    {| xr_ID := u; xr_Name := name; xr_IsActive := true; xr_CreatedAt := t; xr_UpdatedAt := t |}
    set_tenants d).

Definition GetAPIClientByKeyHash (hash : string) : M ApiClientRow :=
  sql_read (fun _ d => one (where_
    (fun r => bool_decide (cr_ApiKeyHash r = hash) && cr_IsActive r) (api_clients d))).

Definition InsertAPIClient (tenant : option uuid) (name hash : string) : M ApiClientRow :=
  sql (fun u t d => insert_row
    [ fresh_id cr_ID (api_clients d) u; (varchar 255 name, too_long); (varchar 255 hash, too_long);
      (bool_decide (hash ∉ cr_ApiKeyHash <$> api_clients d), dup_key);
      (opt_fk tenant (tenant_exists d), fk_violation) ]
    {| cr_ID := u; cr_Name := name; cr_ApiKeyHash := hash; cr_IsActive := true;
       cr_CreatedAt := t; cr_UpdatedAt := t; cr_TenantID := tenant |}
    set_api_clients d).
End Queries.
