(* ===== verification/Repository.v ===== *)
(** * Repositories ([internal/repository])

    The conversions of [convert.go] between Go pointers and nullable columns, and
    one definition per repository method: the statement of [Db], the error it
    maps to, the row-to-struct conversion. *)

From S2P Require Import Prelude Time Domain Json World Db.

(** ** convert.go

    A Go pointer and a [sql.Null*] value are both an [option]; the conversions
    that change nothing else are the identity on it. *)

Definition toNullString (s : option string) : option string := s.
Definition fromNullString (s : option string) : option string := s.
Definition toNullUUID (u : option uuid) : option uuid := u.
Definition uuidToNullUUID (u : uuid) : option uuid := Some u.
Definition fromNullUUID (u : option uuid) : option uuid := u.
Definition toNullTime (t : option gotime) : option gotime := t.
Definition fromNullTime (t : option gotime) : option gotime := t.
Definition toNullInt32 (i : option Z) : option Z := int32 <$> i.
Definition fromNullInt32 (i : option Z) : option Z := i.

Definition toRawMessage (m : gomap) : option any :=
  Some (match m with None => AObj [] | Some m => obj_of_map m end).

(** The error of [json.Unmarshal] is dropped: what does not decode is nil. *)
Definition decode_map (v : any) : gomap :=
  match gomap_of_json v with Ok m => m | Err _ => None end.

Definition fromRawMessage (raw : option any) : gomap :=
  match raw with None => None | Some v => decode_map v end.

Definition toNullRawMessage (m : gomap) : option any :=
  match m with None => None | Some m => Some (obj_of_map m) end.

Definition fromNullRawMessage (nr : option any) : gomap :=
  match nr with None => None | Some v => decode_map v end.

Definition toNullTimeFromTimeStr (s : option string) : option timeofday :=
  match s with None => None | Some s => parse_15_04 s end.

(** [t.Format("15:04")] *)
Definition format_15_04 (t : timeofday) : string :=
  put_digits 2 t.1 (String ":" (put_digits 2 t.2 "")).
Definition fromNullTimeToTimeStr (nt : option timeofday) : option string := format_15_04 <$> nt.

(** The error of a [:one] query: [sql.ErrNoRows] is [nf], anything else an
    internal error. *)
Definition row_error (nf : error) (msg : string) (e : error) : error :=
  if errors_Is_NoRows e then nf else NewInternalError msg e.

Section Repositories.
Context `{Env}.

(** ** notification.go *)

Definition dbNotificationToDomain (n : NotificationRow) : Notification :=
  {| n_ID := nr_ID n;
     n_TenantID := default uuid_nil (nr_TenantID n);
     n_IdempotencyKey := fromNullString (nr_IdempotencyKey n);
     n_Type := nr_Type n;
     n_Channel := nr_Channel n;
     n_RecipientID := nr_RecipientID n;
     n_RecipientAddress := default "" (nr_RecipientAddress n);
     n_TemplateID := fromNullUUID (nr_TemplateID n);
     n_Payload := fromRawMessage (nr_Payload n);
     n_Priority := nr_Priority n;
     n_Status := nr_Status n;
     n_ScheduledAt := fromNullTime (nr_ScheduledAt n);
     n_CreatedAt := nr_CreatedAt n;
     n_UpdatedAt := nr_UpdatedAt n |}.

Definition create_params (tenantID : uuid) (req : SendRequest) : InsertNotificationParams :=
  {| in_TenantID := uuidToNullUUID tenantID;
     in_IdempotencyKey := toNullString (sr_IdempotencyKey req);
     in_Type := sr_Type req;
     in_Channel := sr_Channel req;
     in_RecipientID := sr_RecipientID req;
     in_RecipientAddress := toNullString (Some (sr_RecipientAddress req));
     in_TemplateID := toNullUUID (sr_TemplateID req);
     in_Payload := toRawMessage (sr_Payload req);
     in_Priority := int32 (if sr_Priority req =? 0 then PriorityNormal else sr_Priority req);
     in_Status := StatusPending;
     in_ScheduledAt := toNullTime (sr_ScheduledAt req) |}.

Definition NotificationRepo_Create (tenantID : uuid) (req : SendRequest) : M Notification :=
  row ← or_else (InsertNotification (create_params tenantID req))
          (NewInternalError "failed to insert notification");
  mret (dbNotificationToDomain row).

Definition NotificationRepo_GetByID (tenantID id : uuid) : M Notification :=
  row ← or_else (GetNotificationByID id (uuidToNullUUID tenantID))
          (row_error (NewNotFoundError "notification not found") "failed to get notification");
  mret (dbNotificationToDomain row).

Definition NotificationRepo_GetByIdempotencyKey (tenantID : uuid) (key : string) : M (option Notification) :=
  r ← try (GetNotificationByIdempotencyKey (toNullString (Some key)) (uuidToNullUUID tenantID));
  match r with
  | Ok row => mret (Some (dbNotificationToDomain row))
  | Err e => if errors_Is_NoRows e then mret None
             else throw (NewInternalError "idempotency check failed" e)
  end.

Definition NotificationRepo_List (tenantID : uuid) (filter : ListNotificationsFilter)
    : M (list Notification * Z) :=
  let pg := if lf_Page filter <? 1 then 1 else lf_Page filter in
  let perPage := if lf_PerPage filter <? 1 then 20 else lf_PerPage filter in
  let tID := uuidToNullUUID tenantID in
  rows ← or_else (ListNotifications tID (lf_RecipientID filter) (lf_Channel filter) (lf_Status filter)
                    (int32 (int64 (int64 (pg - 1) * perPage))) (int32 perPage))
           (NewInternalError "failed to list notifications");
  total ← or_else (CountNotifications tID (lf_RecipientID filter) (lf_Channel filter) (lf_Status filter))
            (NewInternalError "failed to count notifications");
  mret (dbNotificationToDomain <$> rows, total).

Definition NotificationRepo_Cancel (tenantID id : uuid) : M Notification :=
  row ← or_else (CancelNotification id (uuidToNullUUID tenantID))
          (row_error (NewNotFoundError "notification not found or not cancellable")
                     "failed to cancel notification");
  mret (dbNotificationToDomain row).

Definition NotificationRepo_UpdateStatus (id : uuid) (status : NotificationStatus) : M Notification :=
  row ← or_else (UpdateNotificationStatus id status)
          (row_error (NewNotFoundError "notification not found") "failed to update notification status");
  mret (dbNotificationToDomain row).

Definition NotificationRepo_ListDueScheduled (limit : Z) : M (list Notification) :=
  rows ← or_else (ListDueScheduledNotifications (int32 limit))
           (NewInternalError "failed to list due scheduled notifications");
  mret (dbNotificationToDomain <$> rows).

(** ** delivery.go *)

Definition dbDeliveryLogToDomain (d : DeliveryLogRow) : DeliveryLog :=
  {| dl_ID := lr_ID d;
     dl_NotificationID := lr_NotificationID d;
     dl_Channel := lr_Channel d;
     dl_Provider := lr_Provider d;
     dl_Status := lr_Status d;
     dl_ProviderMessageID := fromNullString (lr_ProviderMessageID d);
     dl_ErrorMessage := fromNullString (lr_ErrorMessage d);
     dl_ErrorCode := fromNullString (lr_ErrorCode d);
     dl_RetryCount := lr_RetryCount d;
     dl_AttemptedAt := lr_AttemptedAt d;
     dl_DeliveredAt := fromNullTime (lr_DeliveredAt d) |}.

Definition DeliveryRepo_Create (log : DeliveryLog) : M DeliveryLog :=
  row ← or_else (InsertDeliveryLog
          {| il_NotificationID := dl_NotificationID log;
             il_Channel := dl_Channel log;
             il_Provider := dl_Provider log;
             il_Status := dl_Status log;
             il_ProviderMessageID := toNullString (dl_ProviderMessageID log);
             il_ErrorMessage := toNullString (dl_ErrorMessage log);
             il_ErrorCode := toNullString (dl_ErrorCode log);
             il_RetryCount := int32 (dl_RetryCount log);
             il_DeliveredAt := toNullTime (dl_DeliveredAt log) |})
          (NewInternalError "failed to insert delivery log");
  mret (dbDeliveryLogToDomain row).

Definition DeliveryRepo_GetLatest (notificationID : uuid) : M DeliveryLog :=
  row ← or_else (GetLatestDeliveryLog notificationID)
          (row_error (NewNotFoundError "delivery log not found") "failed to get delivery log");
  mret (dbDeliveryLogToDomain row).

Definition DeliveryRepo_ListByNotification (notificationID : uuid) : M (list DeliveryLog) :=
  rows ← or_else (ListDeliveryLogsByNotification notificationID)
           (NewInternalError "failed to list delivery logs");
  mret (dbDeliveryLogToDomain <$> rows).

(** ** dead_letter.go *)

Definition fromDBDeadLetter (row : DeadLetterRow) : DeadLetterMessage :=
  {| dm_ID := dr_ID row;
     dm_TenantID := dr_TenantID row;
     dm_NotificationID := dr_NotificationID row;
     dm_Channel := dr_Channel row;
     dm_OriginalTopic := dr_OriginalTopic row;
     dm_Payload := dr_Payload row;
     dm_FailureReason := dr_FailureReason row;
     dm_ErrorMessage := dr_ErrorMessage row;
     dm_Attempts := dr_Attempts row;
     dm_ReplayedAt := fromNullTime (dr_ReplayedAt row);
     dm_CreatedAt := dr_CreatedAt row |}.

Definition DeadLetterRepo_Create (msg : DeadLetterMessage) : M DeadLetterMessage :=
  row ← or_else (CreateDeadLetter
          {| id_TenantID := dm_TenantID msg;
             id_NotificationID := dm_NotificationID msg;
             id_Channel := dm_Channel msg;
             id_OriginalTopic := dm_OriginalTopic msg;
             id_Payload := dm_Payload msg;
             id_FailureReason := dm_FailureReason msg;
             id_ErrorMessage := dm_ErrorMessage msg;
             id_Attempts := int32 (dm_Attempts msg) |})
          (EWrap "create dead letter");
  mret (fromDBDeadLetter row).

Definition DeadLetterRepo_GetByID (tenantID id : uuid) : M DeadLetterMessage :=
  row ← or_else (GetDeadLetterByID id tenantID) (EWrap "get dead letter");
  mret (fromDBDeadLetter row).

Definition DeadLetterRepo_List (params : DeadLetterListParams) : M (list DeadLetterMessage) :=
  let limit := if dp_Limit params <=? 0 then 50 else dp_Limit params in
  let unreplayedOnly := match dp_Unreplayed params with Some b => b | None => false end in
  rows ← or_else (ListDeadLetters (dp_TenantID params) (dp_Channel params) unreplayedOnly
                    (int32 (dp_Offset params)) (int32 limit))
           (EWrap "list dead letters");
  mret (fromDBDeadLetter <$> rows).

Definition DeadLetterRepo_MarkReplayed (tenantID id : uuid) : M unit :=
  or_else (MarkDeadLetterReplayed id tenantID) (EWrap "mark dead letter replayed").

Definition DeadLetterRepo_Delete (tenantID id : uuid) : M unit :=
  or_else (DeleteDeadLetter id tenantID) (EWrap "delete dead letter").

Definition DeadLetterRepo_CountByChannel (tenantID : uuid) : M (gmap string Z) :=
  rows ← or_else (CountDeadLettersByChannel tenantID) (EWrap "count dead letters by channel");
  mret (foldl (fun out row => <[row.1 := row.2]> out) ∅ rows).

(** ** template.go *)

Definition errTemplateNotFound : string := "template not found".

Definition dbTemplateToDomain (t : TemplateRow) : Template :=
  {| t_ID := tr_ID t;
     t_Name := tr_Name t;
     t_Channel := tr_Channel t;
     t_SubjectTemplate := fromNullString (tr_SubjectTemplate t);
     t_BodyTemplate := tr_BodyTemplate t;
     t_Metadata := fromNullRawMessage (tr_Metadata t);
     t_Version := tr_Version t;
     t_IsActive := tr_IsActive t;
     t_CreatedAt := tr_CreatedAt t;
     t_UpdatedAt := tr_UpdatedAt t |}.

Definition TemplateRepo_Create (tenantID : uuid) (req : CreateTemplateRequest) : M Template :=
  row ← or_else (InsertTemplate (uuidToNullUUID tenantID) (ct_Name req) (ct_Channel req)
                   (toNullString (ct_SubjectTemplate req)) (ct_BodyTemplate req)
                   (toNullRawMessage (ct_Metadata req)))
          (NewInternalError "failed to insert template");
  mret (dbTemplateToDomain row).

Definition TemplateRepo_GetByID (tenantID id : uuid) : M Template :=
  row ← or_else (GetTemplateByID id (uuidToNullUUID tenantID))
          (row_error (NewNotFoundError errTemplateNotFound) "failed to get template");
  mret (dbTemplateToDomain row).

Definition TemplateRepo_GetByName (tenantID : uuid) (name : string) : M Template :=
  row ← or_else (GetTemplateByName name (uuidToNullUUID tenantID))
          (row_error (NewNotFoundError errTemplateNotFound) "failed to get template by name");
  mret (dbTemplateToDomain row).

Definition TemplateRepo_List (tenantID : uuid) (channel : Channel) (pg perPage : Z)
    : M (list Template * Z) :=
  let pg := if pg <? 1 then 1 else pg in
  let perPage := if perPage <? 1 then 20 else perPage in
  let tID := uuidToNullUUID tenantID in
  rows ← or_else (ListTemplates tID channel (int32 (int64 (int64 (pg - 1) * perPage))) (int32 perPage))
           (NewInternalError "failed to list templates");
  total ← or_else (CountTemplates tID channel) (NewInternalError "failed to count templates");
  mret (dbTemplateToDomain <$> rows, total).

Definition TemplateRepo_Update (tenantID id : uuid) (req : UpdateTemplateRequest) : M Template :=
  existing ← TemplateRepo_GetByID tenantID id;
  let bodyTemplate := default (t_BodyTemplate existing) (ut_BodyTemplate req) in
  let isActive := default (t_IsActive existing) (ut_IsActive req) in
  let subjectTemplate := match ut_SubjectTemplate req with
                         | Some _ => ut_SubjectTemplate req
                         | None => t_SubjectTemplate existing
                         end in
  let metadata := match ut_Metadata req with
                  | Some _ => ut_Metadata req
                  | None => t_Metadata existing
                  end in
  row ← or_else (UpdateTemplate id (toNullString subjectTemplate) bodyTemplate
                   (toNullRawMessage metadata) isActive (uuidToNullUUID tenantID))
          (row_error (NewNotFoundError errTemplateNotFound) "failed to update template");
  mret (dbTemplateToDomain row).

Definition TemplateRepo_Delete (tenantID id : uuid) : M Template :=
  row ← or_else (DeleteTemplate id (uuidToNullUUID tenantID))
          (row_error (NewNotFoundError errTemplateNotFound) "failed to delete template");
  mret (dbTemplateToDomain row).

(** ** preference.go *)

Definition dbPreferenceToDomain (p : PreferenceRow) : Preference :=
  {| p_ID := pr_ID p;
     p_UserID := pr_UserID p;
     p_Channel := pr_Channel p;
     p_Enabled := pr_Enabled p;
     p_QuietHoursStart := fromNullTimeToTimeStr (pr_QuietHoursStart p);
     p_QuietHoursEnd := fromNullTimeToTimeStr (pr_QuietHoursEnd p);
     p_FrequencyCap := fromNullInt32 (pr_FrequencyCap p);
     p_FrequencyWindowMinutes := default 0 (pr_FrequencyWindowMinutes p);
     p_Timezone := default "UTC" (fromNullString (pr_Timezone p));
     p_CreatedAt := pr_CreatedAt p;
     p_UpdatedAt := pr_UpdatedAt p |}.

Definition PreferenceRepo_Get (tenantID : uuid) (userID : string) (channel : Channel) : M Preference :=
  row ← or_else (GetPreference (uuidToNullUUID tenantID) userID channel)
          (row_error (NewNotFoundError "preference not found") "failed to get preference");
  mret (dbPreferenceToDomain row).

Definition PreferenceRepo_ListByUser (tenantID : uuid) (userID : string) : M (list Preference) :=
  rows ← or_else (ListPreferencesByUser (uuidToNullUUID tenantID) userID)
           (NewInternalError "failed to list preferences");
  mret (dbPreferenceToDomain <$> rows).

Definition PreferenceRepo_Upsert (tenantID : uuid) (userID : string) (channel : Channel)
    (req : UpsertPreferenceRequest) : M Preference :=
  row ← or_else (UpsertPreference
          {| iu_TenantID := uuidToNullUUID tenantID;
             iu_UserID := userID;
             iu_Channel := channel;
             iu_Enabled := up_Enabled req;
             iu_QuietHoursStart := toNullTimeFromTimeStr (up_QuietHoursStart req);
             iu_QuietHoursEnd := toNullTimeFromTimeStr (up_QuietHoursEnd req);
             iu_FrequencyCap := toNullInt32 (up_FrequencyCap req);
             iu_FrequencyWindowMinutes := toNullInt32 (up_FrequencyWindowMinutes req);
             iu_Timezone := toNullString (up_Timezone req) |})
          (NewInternalError "failed to upsert preference");
  mret (dbPreferenceToDomain row).

Definition PreferenceRepo_Delete (tenantID : uuid) (userID : string) (channel : Channel) : M unit :=
  or_else (DeletePreference (uuidToNullUUID tenantID) userID channel)
    (NewInternalError "failed to delete preference").

(** ** inapp.go *)

Definition fromDBInApp (row : InappRow) : InAppMessage :=
  {| im_ID := ir_ID row;
     im_TenantID := ir_TenantID row;
     im_NotificationID := fromNullUUID (ir_NotificationID row);
     im_RecipientID := ir_RecipientID row;
     im_Title := ir_Title row;
     im_Body := ir_Body row;
     im_Payload := fromRawMessage (ir_Payload row);
     im_ReadAt := fromNullTime (ir_ReadAt row);
     im_CreatedAt := ir_CreatedAt row |}.

Definition InAppRepo_Insert (msg : InAppMessage) : M InAppMessage :=
  row ← or_else (InsertInAppMessage (im_TenantID msg) (toNullUUID (im_NotificationID msg))
                   (im_RecipientID msg) (im_Title msg) (im_Body msg) (toRawMessage (im_Payload msg)))
          (EWrap "insert inapp message");
  mret (fromDBInApp row).

Definition InAppRepo_GetByID (tenantID id : uuid) : M InAppMessage :=
  row ← or_else (GetInAppMessage id tenantID) (EWrap "get inapp message");
  mret (fromDBInApp row).

Definition InAppRepo_List (q : InboxQuery) : M (list InAppMessage) :=
  let limit := if iq_Limit q <=? 0 then 50 else iq_Limit q in
  match iq_AfterID q with
  | Some afterID =>
      cursor ← or_else (GetInAppMessage afterID (iq_TenantID q)) (EWrap "list inbox cursor lookup");
      rows ← or_else (ListInboxAfterCursor (iq_TenantID q) (iq_RecipientID q) (iq_UnreadOnly q)
                        (ir_CreatedAt cursor) (ir_ID cursor) (int32 limit))
               (EWrap "list inbox after cursor");
      mret (fromDBInApp <$> rows)
  | None =>
      rows ← or_else (ListInbox (iq_TenantID q) (iq_RecipientID q) (iq_UnreadOnly q)
                        (int32 (iq_Offset q)) (int32 limit))
               (EWrap "list inbox");
      mret (fromDBInApp <$> rows)
  end.

Definition InAppRepo_ListSince (tenantID : uuid) (recipientID : string) (sinceID : uuid)
    : M (list InAppMessage) :=
  cursor ← or_else (GetInAppMessage sinceID tenantID) (EWrap "list inbox since cursor lookup");
  rows ← or_else (ListInboxSince tenantID recipientID (ir_CreatedAt cursor) (ir_ID cursor))
           (EWrap "list inbox since");
  mret (fromDBInApp <$> rows).

Definition InAppRepo_CountUnread (tenantID : uuid) (recipientID : string) : M Z :=
  or_else (CountUnread tenantID recipientID) (EWrap "count unread").

Definition InAppRepo_MarkRead (tenantID id : uuid) (recipientID : string) : M unit :=
  or_else (MarkInAppMessageRead id tenantID recipientID) (EWrap "mark inapp read").

Definition InAppRepo_MarkAllRead (tenantID : uuid) (recipientID : string) : M unit :=
  or_else (MarkAllInAppMessagesRead tenantID recipientID) (EWrap "mark all inapp read").

(** ** webhook.go *)

Definition json_strings (l : list string) : any := AArr (AStr <$> l).

(** [json.Unmarshal] into a [[]string], its error dropped: an element of another
    kind stays the empty string. *)
Definition decode_strings (v : any) : list string :=
  match v with
  | AArr l => (fun x => match x with AStr s => s | _ => "" end) <$> l
  | _ => []
  end.

Definition dbWebhookEndpointToDomain (row : WebhookEndpointRow) : WebhookEndpoint :=
  {| we_ID := er_ID row;
     we_TenantID := er_TenantID row;
     we_URL := er_Url row;
     we_Secret := er_Secret row;
     we_Events := decode_strings (er_Events row);
     we_IsActive := er_IsActive row;
     we_CreatedAt := er_CreatedAt row;
     we_UpdatedAt := er_UpdatedAt row |}.

Definition dbWebhookDeliveryToDomain (row : WebhookDeliveryRow) : WebhookDelivery :=
  {| wd_ID := wr_ID row;
     wd_EndpointID := wr_EndpointID row;
     wd_NotificationID := wr_NotificationID row;
     wd_Event := wr_Event row;
     wd_Payload := decode_map (wr_Payload row);
     wd_Status := wr_Status row;
     wd_Attempt := wr_Attempt row;
     wd_NextRetryAt := fromNullTime (wr_NextRetryAt row);
     wd_LastError := fromNullString (wr_LastError row);
     wd_ResponseStatus := wr_ResponseStatus row;
     wd_CreatedAt := wr_CreatedAt row;
     wd_UpdatedAt := wr_UpdatedAt row |}.

Definition WebhookRepo_CreateEndpoint (ep : WebhookEndpoint) : M WebhookEndpoint :=
  row ← or_else (InsertWebhookEndpoint (we_TenantID ep) (we_URL ep) (we_Secret ep)
                   (json_strings (we_Events ep)) (we_IsActive ep))
          (NewInternalError "insert webhook endpoint");
  mret (dbWebhookEndpointToDomain row).

Definition WebhookRepo_GetEndpoint (tenantID id : uuid) : M WebhookEndpoint :=
  row ← or_else (GetWebhookEndpoint id tenantID)
          (row_error (NewNotFoundError "webhook endpoint not found") "get webhook endpoint");
  mret (dbWebhookEndpointToDomain row).

Definition WebhookRepo_ListEndpoints (tenantID : uuid) : M (list WebhookEndpoint) :=
  rows ← or_else (ListWebhookEndpoints tenantID) (NewInternalError "list webhook endpoints");
  mret (dbWebhookEndpointToDomain <$> rows).

Definition WebhookRepo_UpdateEndpoint (ep : WebhookEndpoint) : M WebhookEndpoint :=
  row ← or_else (UpdateWebhookEndpoint (we_ID ep) (we_TenantID ep) (we_URL ep)
                   (json_strings (we_Events ep)) (we_IsActive ep))
          (row_error (NewNotFoundError "webhook endpoint not found") "update webhook endpoint");
  mret (dbWebhookEndpointToDomain row).

Definition WebhookRepo_DeleteEndpoint (tenantID id : uuid) : M unit :=
  or_else (DeleteWebhookEndpoint id tenantID) (NewInternalError "delete webhook endpoint").

Definition WebhookRepo_ListActiveForEvent (tenantID : uuid) (event : string) : M (list WebhookEndpoint) :=
  rows ← or_else (ListActiveWebhookEndpointsForEvent tenantID event)
           (NewInternalError "list active webhook endpoints");
  mret (dbWebhookEndpointToDomain <$> rows).

Definition WebhookRepo_CreateDelivery (d : WebhookDelivery) : M WebhookDelivery :=
  row ← or_else (InsertWebhookDelivery
          {| iw_EndpointID := wd_EndpointID d;
             iw_NotificationID := toNullUUID (wd_NotificationID d);
             iw_Event := wd_Event d;
             iw_Payload := json_of_gomap (wd_Payload d);
             iw_Status := wd_Status d;
             iw_Attempt := int32 (wd_Attempt d);
             iw_NextRetryAt := toNullTime (wd_NextRetryAt d) |})
          (NewInternalError "insert webhook delivery");
  mret (dbWebhookDeliveryToDomain row).

Definition WebhookRepo_UpdateDelivery (d : WebhookDelivery) : M WebhookDelivery :=
  row ← or_else (UpdateWebhookDelivery (wd_ID d) (wd_Status d) (int32 (wd_Attempt d))
                   (toNullTime (wd_NextRetryAt d)) (toNullString (wd_LastError d))
                   (toNullInt32 (wd_ResponseStatus d)))
          (NewInternalError "update webhook delivery");
  mret (dbWebhookDeliveryToDomain row).

(** ** device_token.go *)

Definition toDeviceToken (row : DeviceTokenRow) : DeviceToken :=
  {| dt_ID := kr_ID row;
     dt_TenantID := kr_TenantID row;
     dt_UserID := kr_UserID row;
     dt_Token := kr_Token row;
     dt_Platform := kr_Platform row;
     dt_IsActive := kr_IsActive row;
     dt_CreatedAt := kr_CreatedAt row;
     dt_UpdatedAt := kr_UpdatedAt row |}.

Definition DeviceTokenRepo_Upsert (tenantID : uuid) (req : RegisterDeviceTokenRequest) : M DeviceToken :=
  row ← UpsertDeviceToken tenantID (rd_UserID req) (rd_Token req) (rd_Platform req);
  mret (toDeviceToken row).

Definition DeviceTokenRepo_Deactivate (tenantID : uuid) (token : string) : M unit :=
  or_else (DeactivateDeviceToken tenantID token)
    (fun e => if errors_Is_NoRows e then NewNotFoundError "device token not found" else e).

Definition DeviceTokenRepo_ListActiveByUser (tenantID : uuid) (userID : string) : M (list DeviceToken) :=
  rows ← ListActiveDeviceTokensByUser tenantID userID;
  mret (toDeviceToken <$> rows).

(** ** tenant.go and api_client.go *)

Definition dbTenantToDomain (t : TenantRow) : Tenant :=
  {| tn_ID := xr_ID t;
     tn_Name := xr_Name t;
     tn_IsActive := xr_IsActive t;
     tn_CreatedAt := xr_CreatedAt t;
     tn_UpdatedAt := xr_UpdatedAt t |}.

Definition TenantRepo_Create (name : string) : M Tenant :=
  row ← or_else (InsertTenant name) (NewInternalError "failed to insert tenant");
  mret (dbTenantToDomain row).

Definition TenantRepo_GetByID (id : uuid) : M Tenant :=
  row ← or_else (GetTenantByID id)
          (row_error (NewNotFoundError "tenant not found") "failed to get tenant");
  mret (dbTenantToDomain row).

Definition APIClientRepo_GetByKeyHash (hash : string) : M APIClient :=
  row ← or_else (GetAPIClientByKeyHash hash)
          (row_error (NewUnauthorizedError "invalid API key") "api client lookup failed");
  mret {| ac_ID := cr_ID row;
          ac_TenantID := default uuid_nil (cr_TenantID row);
          ac_Name := cr_Name row;
          ac_IsActive := cr_IsActive row |}.

Definition APIClientRepo_CreateForTenant (tenantID : uuid) (name keyHash : string) : M APIClient :=
  row ← or_else (InsertAPIClient (uuidToNullUUID tenantID) name keyHash)
          (NewInternalError "failed to create api client");
  mret {| ac_ID := cr_ID row;
          ac_TenantID := tenantID;
          ac_Name := cr_Name row;
          ac_IsActive := cr_IsActive row |}.
End Repositories.
