(* ===== verification/Schema.v ===== *)
(** * The schema invariant ([migrations/])

    Primary keys, UNIQUE constraints and foreign keys as an invariant of the
    tables that every statement of [Db] preserves, on every outcome, and hence
    every repository method and every program built from them. *)

From S2P Require Import Prelude Time Domain World Db.

Definition unique {A K} (key : A -> K) (t : list A) : Prop := NoDup (key <$> t).
(** UNIQUE on a nullable column: NULLs do not clash. *)
Definition unique_opt {A K} (key : A -> option K) (t : list A) : Prop := NoDup (omap key t).

Record db_wf (d : db) : Prop := MkDbWf {
  wf_notification_pk : unique nr_ID (notifications d);
  wf_idempotency_key : unique_opt nr_IdempotencyKey (notifications d);
  wf_delivery_pk : unique lr_ID (delivery_logs d);
  wf_template_pk : unique tr_ID (templates d);
  wf_template_name : unique tr_Name (templates d);
  wf_preference_pk : unique pr_ID (preferences d);
  wf_preference_key :
    unique_opt (fun r => (fun x => (x, pr_UserID r, pr_Channel r)) <$> pr_TenantID r) (preferences d);
  wf_dead_letter_pk : unique dr_ID (dead_letters d);
  wf_inapp_pk : unique ir_ID (inapp_messages d);
  wf_endpoint_pk : unique er_ID (webhook_endpoints d);
  wf_webhook_delivery_pk : unique wr_ID (webhook_deliveries d);
  wf_tenant_pk : unique xr_ID (tenants d);
  wf_tenant_name : unique xr_Name (tenants d);
  wf_client_pk : unique cr_ID (api_clients d);
  wf_client_hash : unique cr_ApiKeyHash (api_clients d);
  wf_token_pk : unique kr_ID (device_tokens d);
  wf_token_key : unique (fun r => (kr_TenantID r, kr_Token r)) (device_tokens d);
  wf_delivery_fk : forall l, l ∈ delivery_logs d -> lr_NotificationID l ∈ nr_ID <$> notifications d;
  wf_webhook_delivery_fk :
    forall l, l ∈ webhook_deliveries d -> wr_EndpointID l ∈ er_ID <$> webhook_endpoints d;
}.

Definition schema (w : world) : Prop := db_wf (w_db w).

Lemma empty_db_wf : db_wf empty_db.
Proof. split; try (apply NoDup_nil; done); set_solver. Qed.

(** ** Generic steps *)

Lemma unique_snoc {A K} (key : A -> K) t x : unique key t -> key x ∉ key <$> t -> unique key (t ++ [x]).
Proof. apply NoDup_fmap_snoc. Qed.

Lemma unique_update {A K} (key : A -> K) P f t :
  (forall r, P r = true -> key (f r) = key r) -> unique key t -> unique key (update_where P f t).
Proof. intros Hf. unfold unique. rewrite fmap_update_where; auto. Qed.

Lemma unique_opt_delete {A K} (key : A -> option K) P t :
  unique_opt key t -> unique_opt key (delete_where P t).
Proof.
  unfold unique_opt. intros Hnd. apply (sublist_NoDup _ _ Hnd).
  pose proof (delete_where_sublist P t) as Hs. revert Hs. generalize (delete_where P t).
  intros l. clear Hnd. induction 1 as [|x l1 l2 _ IH|x l1 l2 _ IH]; simpl; [done| |];
    destruct (key x); try constructor; done.
Qed.

Lemma unique_delete {A K} (key : A -> K) P t : unique key t -> unique key (delete_where P t).
Proof. apply NoDup_fmap_delete. Qed.

Lemma omap_update_where {A K} (key : A -> option K) P f t :
  (forall r, P r = true -> key (f r) = key r) -> omap key (update_where P f t) = omap key t.
Proof.
  intros Hf. apply list_omap_ext. unfold update_where.
  induction t as [|x t IH]; constructor; [|done]. destruct (P x) eqn:E; by rewrite ?Hf.
Qed.

Lemma unique_opt_update {A K} (key : A -> option K) P f t :
  (forall r, P r = true -> key (f r) = key r) -> unique_opt key t -> unique_opt key (update_where P f t).
Proof. intros Hf. unfold unique_opt. by rewrite omap_update_where. Qed.

Lemma unique_opt_snoc {A K} (key : A -> option K) t x :
  unique_opt key t -> (forall k, key x = Some k -> Some k ∉ key <$> t) -> unique_opt key (t ++ [x]).
Proof.
  intros Hnd Hx. unfold unique_opt. rewrite omap_app. simpl. destruct (key x) as [k|] eqn:E;
    [|by rewrite app_nil_r].
  apply NoDup_app. split; [done|]. split; [|apply NoDup_singleton].
  intros k' Hk ->%list_elem_of_singleton. apply list_elem_of_omap in Hk as (y & Hy & Hky).
  apply (Hx k eq_refl). rewrite <-Hky. by apply list_elem_of_fmap_2.
Qed.

(** The constraints of an INSERT hold when it succeeds. *)
Lemma violated_none cs : violated cs = None -> Forall (fun c => c.1 = true) cs.
Proof. induction cs as [|[[] msg] cs IH]; simpl; intros; [done|by constructor; auto|done]. Qed.

Lemma violated_all cs : Forall (fun c => c.1 = true) cs -> violated cs = None.
Proof. induction 1 as [|[b msg] cs Hb _ IH]; simpl in *; [done|by rewrite Hb]. Qed.

(** An INSERT keeps the tables well formed when the row it adds does. *)
Lemma insert_row_wf {A} cs (row : A) set d :
  db_wf d ->
  (Forall (fun c => c.1 = true) cs -> db_wf (set (fun t => t ++ [row]) d)) ->
  db_wf (insert_row cs row set d).2.
Proof.
  intros Hd Hset. unfold insert_row. destruct (violated cs) eqn:E; [done|].
  apply Hset. by apply violated_none.
Qed.

Section Keep.
Context `{Env}.

Lemma schema_advance dt w : schema w -> schema (advance dt w).
Proof. by destruct w. Qed.

(** A statement keeps the schema when its effect on the tables does. *)
Lemma keeps_sql {A} (q : uuid -> gotime -> db -> result A * db) :
  (forall u t d, db_wf d -> db_wf (q u t d).2) -> Keeps schema (sql q).
Proof.
  intros Hq w Hw. unfold sql, external.
  set (ev := env_event _). pose proof (schema_advance (ev_dt ev) w Hw) as Ha.
  specialize (Hq (ev_uuid ev) (pg_now (w_now (advance (ev_dt ev) w))) (w_db (advance (ev_dt ev) w)) Ha).
  destruct (q _ _ _) as [r d]. destruct (ev_fault ev); simpl; [|done|]; by destruct w.
Qed.

#[global] Instance keeps_sql_read {A} (q : gotime -> db -> result A) : Keeps schema (sql_read q).
Proof.
  intros w Hw. unfold sql_read, external. destruct (ev_fault _); simpl; by apply schema_advance.
Qed.

#[global] Instance keeps_wait d : Keeps schema (wait d).
Proof. intros w Hw. unfold wait. destruct (ev_done _); by apply schema_advance. Qed.
End Keep.

#[global] Instance keeps_metric_add name ls n : Keeps schema (metric_add name ls n).
Proof. by intros []. Qed.
#[global] Instance keeps_metric_set name ls n : Keeps schema (metric_set name ls n).
Proof. by intros []. Qed.

(** The constraints the successful INSERT checked, as propositions. *)
Ltac checked :=
  repeat match goal with
  | H : Forall _ (_ :: _) |- _ => apply Forall_cons in H as [? H]
  | H : Forall _ [] |- _ => clear H
  end;
  simpl in *;
  repeat match goal with
  | H : bool_decide _ = true |- _ => apply bool_decide_eq_true in H
  end.

Create HintDb schema.
#[export] Hint Resolve unique_snoc unique_delete unique_opt_delete unique_update unique_opt_snoc unique_opt_update
  insert_row_wf : schema.
#[export] Hint Extern 1 (_ ∉ _) => assumption : schema.

(** Open the invariant, close the fields the statement leaves alone. *)
Ltac wf_fields :=
  match goal with
  | H : db_wf ?d |- _ => destruct d; destruct H; simpl in *; split; simpl in *; try assumption
  end.

(** A statement that only updates rows, keeping their keys. *)
Ltac wf_update :=
  apply keeps_sql; intros ? ? ? ?; simpl; wf_fields;
  first [ apply unique_update; [by intros [] ?|done]
        | apply unique_opt_update; [by intros [] ?|done]
        | intros l Hl; rewrite fmap_update_where by (by intros []); auto
        | idtac ].

(** ** Every statement keeps the schema *)

Section Statements.
Context `{Env}.

#[global] Instance keeps_InsertNotification p : Keeps schema (InsertNotification p).
Proof.
  apply keeps_sql. intros u t d Hd. apply insert_row_wf; [done|]. intros Hc. checked.
  wf_fields; eauto with schema.
  - apply unique_opt_snoc; [done|]. simpl. intros k Hk. rewrite Hk in *. by checked.
  - intros l Hl. rewrite fmap_app. set_solver.
Qed.
#[global] Instance keeps_UpdateNotificationStatus id st : Keeps schema (UpdateNotificationStatus id st).
Proof. wf_update. Qed.
#[global] Instance keeps_CancelNotification id t : Keeps schema (CancelNotification id t).
Proof. wf_update. Qed.
#[global] Instance keeps_InsertDeliveryLog p : Keeps schema (InsertDeliveryLog p).
Proof.
  apply keeps_sql. intros u t d Hd. apply insert_row_wf; [done|]. intros Hc. checked.
  wf_fields; eauto with schema.
  intros l [Hl| ->%list_elem_of_singleton]%elem_of_app; auto.
Qed.
#[global] Instance keeps_InsertTemplate t n c s b m : Keeps schema (InsertTemplate t n c s b m).
Proof.
  apply keeps_sql. intros u t' d Hd. apply insert_row_wf; [done|]. intros Hc. checked.
  wf_fields; eauto with schema.
Qed.
#[global] Instance keeps_UpdateTemplate id s b m a t : Keeps schema (UpdateTemplate id s b m a t).
Proof. wf_update. Qed.
#[global] Instance keeps_DeleteTemplate id t : Keeps schema (DeleteTemplate id t).
Proof. wf_update. Qed.
#[global] Instance keeps_DeletePreference t u c : Keeps schema (DeletePreference t u c).
Proof. apply keeps_sql. intros ? ? d Hd. simpl. wf_fields; auto with schema. Qed.
#[global] Instance keeps_CreateDeadLetter p : Keeps schema (CreateDeadLetter p).
Proof.
  apply keeps_sql. intros u t d Hd. apply insert_row_wf; [done|]. intros Hc. checked.
  wf_fields; eauto with schema.
Qed.
#[global] Instance keeps_DeleteDeadLetter id t : Keeps schema (DeleteDeadLetter id t).
Proof. apply keeps_sql. intros ? ? d Hd. simpl. wf_fields; auto with schema. Qed.
#[global] Instance keeps_MarkDeadLetterReplayed id t : Keeps schema (MarkDeadLetterReplayed id t).
Proof. wf_update. Qed.
#[global] Instance keeps_InsertInAppMessage t n r ti b p : Keeps schema (InsertInAppMessage t n r ti b p).
Proof.
  apply keeps_sql. intros u t' d Hd. apply insert_row_wf; [done|]. intros Hc. checked.
  wf_fields; eauto with schema.
Qed.
#[global] Instance keeps_MarkAllInAppMessagesRead t r : Keeps schema (MarkAllInAppMessagesRead t r).
Proof. wf_update. Qed.
#[global] Instance keeps_MarkInAppMessageRead id t r : Keeps schema (MarkInAppMessageRead id t r).
Proof. wf_update. Qed.
#[global] Instance keeps_InsertWebhookEndpoint t u s e a : Keeps schema (InsertWebhookEndpoint t u s e a).
Proof.
  apply keeps_sql. intros u' t' d Hd. apply insert_row_wf; [done|]. intros Hc. checked.
  wf_fields; eauto with schema. intros l Hl. rewrite fmap_app. set_solver.
Qed.
#[global] Instance keeps_UpdateWebhookEndpoint id t u e a : Keeps schema (UpdateWebhookEndpoint id t u e a).
Proof. wf_update. Qed.
#[global] Instance keeps_DeleteWebhookEndpoint id t : Keeps schema (DeleteWebhookEndpoint id t).
Proof.
  apply keeps_sql. intros ? ? d Hd. simpl. wf_fields; auto with schema.
  intros l [Hl Hin]%elem_of_delete_where. apply bool_decide_eq_false in Hl.
  specialize (wf_webhook_delivery_fk0 l Hin). apply list_elem_of_fmap in wf_webhook_delivery_fk0 as (r & Hr & Hin').
  rewrite Hr in *. apply list_elem_of_fmap_2, elem_of_delete_where. split; [|done].
  destruct (endpoint_key id t r) eqn:E; [|done]. destruct Hl.
  apply list_elem_of_fmap_2, elem_of_where. done.
Qed.
#[global] Instance keeps_InsertWebhookDelivery p : Keeps schema (InsertWebhookDelivery p).
Proof.
  apply keeps_sql. intros u t d Hd. apply insert_row_wf; [done|]. intros Hc. checked.
  wf_fields; eauto with schema.
  intros l [Hl| ->%list_elem_of_singleton]%elem_of_app; auto.
Qed.
#[global] Instance keeps_UpdateWebhookDelivery id s a n l r : Keeps schema (UpdateWebhookDelivery id s a n l r).
Proof.
  wf_update. intros x (y & Hy & ->)%elem_of_update_where. specialize (wf_webhook_delivery_fk0 y Hy).
  by case_match.
Qed.
#[global] Instance keeps_DeactivateDeviceToken t k : Keeps schema (DeactivateDeviceToken t k).
Proof. wf_update. Qed.
#[global] Instance keeps_InsertTenant n : Keeps schema (InsertTenant n).
Proof.
  apply keeps_sql. intros u t d Hd. apply insert_row_wf; [done|]. intros Hc. checked.
  wf_fields; eauto with schema.
Qed.
#[global] Instance keeps_InsertAPIClient t n h : Keeps schema (InsertAPIClient t n h).
Proof.
  apply keeps_sql. intros u t' d Hd. apply insert_row_wf; [done|]. intros Hc. checked.
  wf_fields; eauto with schema.
Qed.

(** The two upserts: the row a conflicting key names keeps its keys. *)
#[global] Instance keeps_UpsertPreference p : Keeps schema (UpsertPreference p).
Proof.
  apply keeps_sql. intros u t d Hd. cbv zeta. destruct (violated _); [done|].
  destruct (where_ (pref_key _ _ _) (preferences d)) eqn:E.
  - apply insert_row_wf; [done|]. intros Hc. checked. rewrite where_nil in E.
    wf_fields; [by apply unique_snoc|]. apply unique_opt_snoc; [done|].
    destruct p as [[x|] us ch ? ? ? ? ? ?]; simpl in *; intros k [= <-].
    intros (r & Hk & Hr)%list_elem_of_fmap. specialize (E r Hr). revert E.
    destruct r as [? ? ? ? ? ? ? ? ? ? ? [y|]]; simpl in *; simplify_eq.
    unfold pref_key, null_eq. simpl. by rewrite !bool_decide_eq_true_2.
  - wf_fields; [by apply unique_update|]. apply unique_opt_update; [|done].
    intros [? us ch ? ? ? ? ? ? ? ? te] Hr. destruct p as [[x|] ? ? ? ? ? ? ? ?]; simpl in *; [|done].
    unfold pref_key, null_eq in Hr. simpl in Hr.
    rewrite !andb_true_iff, !bool_decide_eq_true in Hr. by destruct Hr as [[-> ->] ->].
Qed.
#[global] Instance keeps_UpsertDeviceToken te us to pl : Keeps schema (UpsertDeviceToken te us to pl).
Proof.
  apply keeps_sql. intros u t d Hd. cbv zeta. destruct (violated _); [done|].
  destruct (where_ (token_key _ _) (device_tokens d)) eqn:E.
  - apply insert_row_wf; [done|]. intros Hc. checked. rewrite where_nil in E.
    wf_fields; [by apply unique_snoc|]. apply unique_snoc; [done|].
    intros (r & Hk & Hr)%list_elem_of_fmap. specialize (E r Hr). destruct r; simpl in *; simplify_eq.
    revert E. unfold token_key. simpl. by rewrite !bool_decide_eq_true_2.
  - wf_fields; apply unique_update; by try intros [] ?.
Qed.
End Statements.
