(* ===== verification/Tenancy.v ===== *)
(** * Tenant isolation ([internal/repository])

    Every repository method that takes a tenant id leaves the rows of all other
    tenants untouched, whatever the arguments, the faults and the outcome; and
    what such a method returns belongs to the tenant. *)

From S2P Require Import Prelude Time Domain Json World Db Repository Schema.

(** The rows of the tenant tables that do not belong to [t], the tenants and the
    delivery log.  A webhook delivery belongs to the tenant of its endpoint. *)
Definition foreign_opt {A} (tenant : A -> option uuid) (t : uuid) (rows : list A) : list A :=
  where_ (fun r => negb (null_eq (tenant r) t)) rows.
Definition foreign_id {A} (tenant : A -> uuid) (t : uuid) (rows : list A) : list A :=
  where_ (fun r => negb (bool_decide (tenant r = t))) rows.

Definition foreign_deliveries (t : uuid) (d : db) : list WebhookDeliveryRow :=
  where_ (fun r => bool_decide (wr_EndpointID r ∈ er_ID <$> foreign_id er_TenantID t (webhook_endpoints d)))
    (webhook_deliveries d).

Definition foreign (t : uuid) (d : db) :=
  (foreign_opt nr_TenantID t (notifications d), foreign_opt tr_TenantID t (templates d),
   foreign_opt pr_TenantID t (preferences d), foreign_id dr_TenantID t (dead_letters d),
   foreign_id ir_TenantID t (inapp_messages d), foreign_id er_TenantID t (webhook_endpoints d),
   foreign_id kr_TenantID t (device_tokens d), foreign_opt cr_TenantID t (api_clients d),
   tenants d, delivery_logs d, foreign_deliveries t d).

(** The other tenants' rows are [f0], and no two endpoints share an id. *)
Definition endpoints_unique (d : db) : Prop := unique er_ID (webhook_endpoints d).
Definition untouched (t : uuid) f0 (w : world) : Prop := foreign t (w_db w) = f0 /\ endpoints_unique (w_db w).

(** ** Generic steps *)

Lemma where_snoc_false {A} (P : A -> bool) t x : P x = false -> where_ P (t ++ [x]) = where_ P t.
Proof. intros Hx. rewrite where_app. unfold where_ at 2. simpl. by rewrite Hx, app_nil_r. Qed.

Lemma where_update_disjoint_in {A} (P Q : A -> bool) f t :
  (forall r, r ∈ t -> Q r = true -> P r = false /\ P (f r) = false) ->
  where_ P (update_where Q f t) = where_ P t.
Proof.
  intros HQ. unfold where_, update_where. induction t as [|x t IH]; [done|].
  rewrite fmap_cons. cbn [List.filter]. rewrite IH by (intros; apply HQ; [set_solver|done]).
  destruct (Q x) eqn:E; [|done]. by destruct (HQ x ltac:(set_solver) E) as [-> ->].
Qed.
Lemma where_update_disjoint {A} (P Q : A -> bool) f t :
  (forall r, Q r = true -> P r = false /\ P (f r) = false) ->
  where_ P (update_where Q f t) = where_ P t.
Proof. intros HQ. apply where_update_disjoint_in. auto. Qed.

Lemma where_delete_disjoint {A} (P Q : A -> bool) t :
  (forall r, Q r = true -> P r = false) -> where_ P (delete_where Q t) = where_ P t.
Proof.
  intros HQ. unfold where_, delete_where. induction t as [|x t IH]; [done|]. simpl.
  destruct (Q x) eqn:E; simpl; [by rewrite (HQ x E), IH|]. by rewrite IH.
Qed.

(** Split a row predicate and decide membership of the tenant. *)
Ltac row_cond :=
  repeat match goal with
  | H : _ && _ = true |- _ => apply andb_true_iff in H as [? ?]
  | H : bool_decide _ = true |- _ => apply bool_decide_eq_true in H
  | H : null_eq _ _ = true |- _ => unfold null_eq in H
  end; simplify_eq.

Ltac foreign_step :=
  first [ apply where_snoc_false
        | apply where_update_disjoint; intros [] Hr
        | apply where_delete_disjoint; intros [] Hr ];
  unfold template_by_id, pref_key, dead_letter_key, inbox_of, endpoint_key, token_key, null_eq in *;
  simpl in *; row_cond; by rewrite ?bool_decide_eq_true_2.

(** Deleting an endpoint of [t] reaches no delivery of another tenant. *)
Lemma foreign_deliveries_delete t id d : endpoints_unique d ->
  let gone := er_ID <$> where_ (endpoint_key id t) (webhook_endpoints d) in
  where_ (fun r => bool_decide (wr_EndpointID r ∈ er_ID <$> foreign_id er_TenantID t (webhook_endpoints d)))
    (delete_where (fun r => bool_decide (wr_EndpointID r ∈ gone)) (webhook_deliveries d)) = foreign_deliveries t d.
Proof.
  intros Hu gone. apply where_delete_disjoint. intros r Hgone%bool_decide_eq_true. apply bool_decide_eq_false. intros Hother.
  apply list_elem_of_fmap in Hgone as (e & He & Hkey), Hother as (e' & He' & Hf).
  apply elem_of_where in Hkey as [Hkey Hin], Hf as [Hf Hin']. unfold endpoint_key in Hkey.
  rewrite (NoDup_key_unique er_ID _ e e' Hu Hin Hin') in Hkey by congruence. row_cond. by rewrite bool_decide_true in Hf.
Qed.

Section Isolation.
Context `{Env}.

Abbreviation isolated t m := (forall f0, Keeps (untouched t f0) m).

Lemma isolated_external {A} t (q : event -> world -> result A * world) :
  (forall ev w, endpoints_unique (w_db w) ->
     foreign t (w_db (q ev w).2) = foreign t (w_db w) /\ endpoints_unique (w_db (q ev w).2)) -> isolated t (external q).
Proof.
  intros Hq f0 w [Hf Hu]. unfold external. set (w1 := advance _ w).
  assert (foreign t (w_db w1) = f0 /\ endpoints_unique (w_db w1)) as [Hf1 Hu1] by by destruct w.
  destruct (ev_fault _); simpl; [|done|]; destruct (Hq (env_event (w_tick w)) w1 Hu1) as [Hq1 Hq2]; split; congruence || done.
Qed.
Lemma isolated_sql {A} t (q : uuid -> gotime -> db -> result A * db) :
  (forall u n d, endpoints_unique d -> foreign t (q u n d).2 = foreign t d /\ endpoints_unique (q u n d).2) -> isolated t (sql q).
Proof.
  intros Hq. apply isolated_external. intros ev w Hu. specialize (Hq (ev_uuid ev) (pg_now (w_now w)) (w_db w) Hu).
  destruct (q _ _ _) as [r d]. by destruct w.
Qed.
(** What leaves the tables alone. *)
Lemma isolated_frame {A} t (m : M A) : Frame w_db m -> isolated t m.
Proof. intros Hm f0 w Hw. unfold untouched. by rewrite (Hm w). Qed.
#[global] Instance isolated_read {A} t f0 (q : gotime -> db -> result A) : Keeps (untouched t f0) (sql_read q).
Proof. apply isolated_frame, _. Qed.

(** A statement that touches one table: the other components are unchanged. *)
Ltac isolate_with tac :=
  apply isolated_sql; intros ? ? [] Hu; tac; unfold insert_row, update_returning; try destruct (violated _); try done;
  (split; [unfold foreign, foreign_deliveries, foreign_opt, foreign_id; simpl;
    repeat match goal with |- (_, _) = (_, _) => apply f_equal2 end; try reflexivity|try exact Hu]).
Ltac isolate := isolate_with idtac.

Lemma isolated_InsertNotification t p :
  in_TenantID p = Some t -> isolated t (InsertNotification p).
Proof. intros Hp. isolate. destruct p; simpl in *; subst. foreign_step. Qed.
Lemma isolated_CancelNotification t id : isolated t (CancelNotification id (Some t)).
Proof. isolate. foreign_step. Qed.
Lemma isolated_InsertTemplate t n c s b m : isolated t (InsertTemplate (Some t) n c s b m).
Proof. isolate. foreign_step. Qed.
Lemma isolated_UpdateTemplate t id s b m a : isolated t (UpdateTemplate id s b m a (Some t)).
Proof. isolate. foreign_step. Qed.
Lemma isolated_DeleteTemplate t id : isolated t (DeleteTemplate id (Some t)).
Proof. isolate. foreign_step. Qed.
Lemma isolated_UpsertPreference t p : iu_TenantID p = Some t -> isolated t (UpsertPreference p).
Proof.
  destruct p; simpl; intros ->.
  isolate_with ltac:(cbv zeta; destruct (violated _); [done|]; destruct (where_ (pref_key _ _ _) _));
    foreign_step.
Qed.
Lemma isolated_DeletePreference t u c : isolated t (DeletePreference (Some t) u c).
Proof. isolate. foreign_step. Qed.
Lemma isolated_CreateDeadLetter t p : id_TenantID p = t -> isolated t (CreateDeadLetter p).
Proof. intros Hp. isolate. destruct p; simpl in *; subst. foreign_step. Qed.
Lemma isolated_MarkDeadLetterReplayed t id : isolated t (MarkDeadLetterReplayed id t).
Proof. isolate. foreign_step. Qed.
Lemma isolated_DeleteDeadLetter t id : isolated t (DeleteDeadLetter id t).
Proof. isolate. foreign_step. Qed.
Lemma isolated_InsertInAppMessage t n r ti b p : isolated t (InsertInAppMessage t n r ti b p).
Proof. isolate. foreign_step. Qed.
Lemma isolated_MarkInAppMessageRead t id r : isolated t (MarkInAppMessageRead id t r).
Proof. isolate. foreign_step. Qed.
Lemma isolated_MarkAllInAppMessagesRead t r : isolated t (MarkAllInAppMessagesRead t r).
Proof. isolate. foreign_step. Qed.
Lemma isolated_InsertWebhookEndpoint t u s e a : isolated t (InsertWebhookEndpoint t u s e a).
Proof.
  apply isolated_sql. intros u' n d Hu. unfold insert_row. destruct (violated _) eqn:Hv; [done|].
  apply violated_none, Forall_cons in Hv as [Hid%bool_decide_eq_true _]. set (row := MkWebhookEndpointRow _ _ _ _ _ _ _ _).
  assert (foreign_id er_TenantID t (webhook_endpoints d ++ [row]) = foreign_id er_TenantID t (webhook_endpoints d)) as Hrow
    by (apply where_snoc_false; simpl; by rewrite bool_decide_true).
  split; [|destruct d; by apply unique_snoc]. unfold foreign, foreign_deliveries. destruct d. simpl in *. by rewrite Hrow.
Qed.
Lemma isolated_UpdateWebhookEndpoint t id u e a : isolated t (UpdateWebhookEndpoint id t u e a).
Proof.
  apply isolated_sql. intros u' n d Hu. unfold update_returning. simpl. set (f := fun r => _).
  assert (foreign_id er_TenantID t (update_where (endpoint_key id t) f (webhook_endpoints d)) = foreign_id er_TenantID t (webhook_endpoints d))
    as Hrow by foreign_step.
  split; [|destruct d; simpl; by apply unique_update]. unfold foreign, foreign_deliveries. destruct d. simpl in *. by rewrite Hrow.
Qed.
Lemma isolated_DeleteWebhookEndpoint t id : isolated t (DeleteWebhookEndpoint id t).
Proof.
  apply isolated_sql. intros u' n d Hu.
  assert (foreign_id er_TenantID t (delete_where (endpoint_key id t) (webhook_endpoints d)) = foreign_id er_TenantID t (webhook_endpoints d))
    as Hrow by foreign_step.
  pose proof (foreign_deliveries_delete t id d Hu) as Hd. split; [|destruct d; by apply unique_delete].
  unfold foreign. unfold foreign_deliveries at 1. destruct d. simpl in *. by rewrite Hrow, Hd.
Qed.
Lemma isolated_UpsertDeviceToken t u k p : isolated t (UpsertDeviceToken t u k p).
Proof.
  isolate_with ltac:(cbv zeta; destruct (violated _); [done|]; destruct (where_ (token_key _ _) _));
    foreign_step.
Qed.
Lemma isolated_DeactivateDeviceToken t k : isolated t (DeactivateDeviceToken t k).
Proof. isolate. foreign_step. Qed.
Lemma isolated_InsertAPIClient t n h : isolated t (InsertAPIClient (Some t) n h).
Proof. isolate. foreign_step. Qed.

Create HintDb tenancy discriminated.
#[local] Hint Resolve isolated_InsertNotification isolated_CancelNotification isolated_InsertTemplate
  isolated_UpdateTemplate isolated_DeleteTemplate isolated_UpsertPreference isolated_DeletePreference
  isolated_CreateDeadLetter isolated_MarkDeadLetterReplayed isolated_DeleteDeadLetter
  isolated_InsertInAppMessage isolated_MarkInAppMessageRead isolated_MarkAllInAppMessagesRead
  isolated_InsertWebhookEndpoint isolated_UpdateWebhookEndpoint isolated_DeleteWebhookEndpoint
  isolated_UpsertDeviceToken isolated_DeactivateDeviceToken isolated_InsertAPIClient : tenancy.

(** The repository methods that act for one tenant. *)
Inductive TenantMethod (t : uuid) : forall A, M A -> Prop :=
  | TM_notification_create req : TenantMethod t _ (NotificationRepo_Create t req)
  | TM_notification_get id : TenantMethod t _ (NotificationRepo_GetByID t id)
  | TM_notification_idem key : TenantMethod t _ (NotificationRepo_GetByIdempotencyKey t key)
  | TM_notification_list f : TenantMethod t _ (NotificationRepo_List t f)
  | TM_notification_cancel id : TenantMethod t _ (NotificationRepo_Cancel t id)
  | TM_dead_letter_create msg : dm_TenantID msg = t -> TenantMethod t _ (DeadLetterRepo_Create msg)
  | TM_dead_letter_get id : TenantMethod t _ (DeadLetterRepo_GetByID t id)
  | TM_dead_letter_list p : dp_TenantID p = t -> TenantMethod t _ (DeadLetterRepo_List p)
  | TM_dead_letter_replayed id : TenantMethod t _ (DeadLetterRepo_MarkReplayed t id)
  | TM_dead_letter_delete id : TenantMethod t _ (DeadLetterRepo_Delete t id)
  | TM_dead_letter_count : TenantMethod t _ (DeadLetterRepo_CountByChannel t)
  | TM_template_create req : TenantMethod t _ (TemplateRepo_Create t req)
  | TM_template_get id : TenantMethod t _ (TemplateRepo_GetByID t id)
  | TM_template_by_name n : TenantMethod t _ (TemplateRepo_GetByName t n)
  | TM_template_list c p pp : TenantMethod t _ (TemplateRepo_List t c p pp)
  | TM_template_update id req : TenantMethod t _ (TemplateRepo_Update t id req)
  | TM_template_delete id : TenantMethod t _ (TemplateRepo_Delete t id)
  | TM_preference_get u c : TenantMethod t _ (PreferenceRepo_Get t u c)
  | TM_preference_list u : TenantMethod t _ (PreferenceRepo_ListByUser t u)
  | TM_preference_upsert u c req : TenantMethod t _ (PreferenceRepo_Upsert t u c req)
  | TM_preference_delete u c : TenantMethod t _ (PreferenceRepo_Delete t u c)
  | TM_inapp_insert msg : im_TenantID msg = t -> TenantMethod t _ (InAppRepo_Insert msg)
  | TM_inapp_get id : TenantMethod t _ (InAppRepo_GetByID t id)
  | TM_inapp_list q : iq_TenantID q = t -> TenantMethod t _ (InAppRepo_List q)
  | TM_inapp_since r id : TenantMethod t _ (InAppRepo_ListSince t r id)
  | TM_inapp_unread r : TenantMethod t _ (InAppRepo_CountUnread t r)
  | TM_inapp_read id r : TenantMethod t _ (InAppRepo_MarkRead t id r)
  | TM_inapp_all_read r : TenantMethod t _ (InAppRepo_MarkAllRead t r)
  | TM_endpoint_create ep : we_TenantID ep = t -> TenantMethod t _ (WebhookRepo_CreateEndpoint ep)
  | TM_endpoint_get id : TenantMethod t _ (WebhookRepo_GetEndpoint t id)
  | TM_endpoint_list : TenantMethod t _ (WebhookRepo_ListEndpoints t)
  | TM_endpoint_update ep : we_TenantID ep = t -> TenantMethod t _ (WebhookRepo_UpdateEndpoint ep)
  | TM_endpoint_delete id : TenantMethod t _ (WebhookRepo_DeleteEndpoint t id)
  | TM_endpoint_active e : TenantMethod t _ (WebhookRepo_ListActiveForEvent t e)
  | TM_token_upsert req : TenantMethod t _ (DeviceTokenRepo_Upsert t req)
  | TM_token_deactivate k : TenantMethod t _ (DeviceTokenRepo_Deactivate t k)
  | TM_token_list u : TenantMethod t _ (DeviceTokenRepo_ListActiveByUser t u)
  | TM_client_create n h : TenantMethod t _ (APIClientRepo_CreateForTenant t n h).

(** A method is one statement, its error mapped and its row converted. *)
Lemma isolated_convert {A B} t (m : M A) h (conv : A -> B) :
  isolated t m -> isolated t (row ← or_else m h; mret (conv row)).
Proof. intros Hm f0. apply keeps_bind; apply _. Qed.

Lemma tenant_method_isolated t A (m : M A) : TenantMethod t A m -> isolated t m.
Proof.
  destruct 1; subst; intros f0;
    first [ apply keeps_bind; [first [apply keeps_or_else; apply _ | apply _]|apply _]
          | apply keeps_or_else; apply _
          | apply isolated_convert; by auto with tenancy
          | apply keeps_or_else; by auto with tenancy
          | apply keeps_bind; [by auto with tenancy|apply _]
          | idtac ].
  - unfold TemplateRepo_Update. apply keeps_bind; [unfold TemplateRepo_GetByID; apply _|].
    intros existing. apply isolated_convert. auto with tenancy.
  - unfold InAppRepo_List. destruct (iq_AfterID q); apply _.
Qed.
End Isolation.

(** No repository method acting for a tenant creates, changes or deletes a
    row of another tenant, in any of the nine tenant tables, nor any tenant or
    delivery-log row, whether the method succeeds, fails, or fails after its effect. *)
Theorem tenant_isolation `{Env} t A (m : M A) w :
  schema w -> TenantMethod t A m -> foreign t (w_db (m w).2) = foreign t (w_db w).
Proof. intros Hs Hm. apply (tenant_method_isolated _ _ _ Hm (foreign t (w_db w)) w). split; [done|apply Hs]. Qed.

(** A template of tenant 2 survives tenant 1 deleting by its id. *)
Definition demo_template (tenant : uuid) : TemplateRow :=
  {| tr_ID := 7; tr_Name := "welcome"; tr_Channel := ChannelEmail; tr_SubjectTemplate := None;
     tr_BodyTemplate := "hi"; tr_Metadata := None; tr_Version := 1; tr_IsActive := true;
     tr_CreatedAt := 0; tr_UpdatedAt := 0; tr_TenantID := Some tenant |}.
Definition demo_templates : world := set_db (set_templates (fun _ => [demo_template 2])) empty_world.

Lemma tenant_isolation_witness :
  foreign 1 (w_db (@TemplateRepo_Delete calm 1 7 demo_templates).2) = foreign 1 (w_db demo_templates)
  /\ foreign 1 (w_db demo_templates) <> foreign 1 empty_db.
Proof.
  split; [|vm_compute; congruence].
  apply (@tenant_isolation calm 1 _ (@TemplateRepo_Delete calm 1 7)); [|apply TM_template_delete].
  destruct empty_db_wf. split; try done; apply NoDup_singleton.
Defined.

(** ** What a lookup returns *)

Section Lookup.
Context `{Env}.

Lemma one_spec {A} (l : list A) :
  match one l with Ok x => x ∈ l | Err e => e = ENoRows /\ l = [] end.
Proof. destruct l; simpl; [done|set_solver]. Qed.

Lemma row_error_plain nf msg m : row_error nf msg (EPlain m) = NewInternalError msg (EPlain m).
Proof. done. Qed.

(** [GetByID] returns a stored notification of that tenant with that id, or
    NOT_FOUND exactly when the tenant has no such notification, or an internal
    error only when the call itself fails; the world is unchanged but for the clock. *)
Theorem GetByID_correct tenant id w :
  let out := NotificationRepo_GetByID tenant id w in
  w_db out.2 = w_db w /\ w_kafka out.2 = w_kafka w /\
  match out.1 with
  | Ok n => exists r, r ∈ notifications (w_db w) /\ n = dbNotificationToDomain r
                      /\ n_ID n = id /\ n_TenantID n = tenant
  | Err e => (e = NewNotFoundError "notification not found"
              /\ forall r, r ∈ notifications (w_db w) -> nr_ID r = id -> nr_TenantID r <> Some tenant)
             \/ ~ faultless /\ exists m, e = NewInternalError "failed to get notification" (EPlain m)
  end.
Proof.
  cbv zeta. split; [apply (frame (f := w_db)); apply _|]. split; [apply frame; apply _|].
  wp_outcome (NotificationRepo_GetByID tenant id) w.
  unfold NotificationRepo_GetByID. apply wp_bind, wp_or_else, wp_sql_read_env. intros dt t msg.
  split; [|intros Hf; right; eauto].
  pose proof (one_spec (where_ (by_id_tenant id tenant) (notifications (w_db w)))) as Ho. simpl in *.
  destruct (one _) as [r|e].
  - apply elem_of_where in Ho as [Hk Hr]. exists r. split; [done|]. split; [done|].
    unfold by_id_tenant, null_eq in Hk. apply andb_true_iff in Hk as [Hi Ht].
    apply bool_decide_eq_true in Hi, Ht. simpl. by rewrite Ht.
  - destruct Ho as [-> Hnil]. left. split; [done|]. rewrite where_nil in Hnil.
    intros r Hr Hi Ht. specialize (Hnil r Hr). revert Hnil. unfold by_id_tenant, null_eq.
    by rewrite !bool_decide_eq_true_2.
Qed.
End Lookup.
