(* ===== verification/Inbox.v ===== *)
(** * The in-app inbox ([internal/repository/inapp.go])

    Paging by cursor and the gap replay of a reconnecting client: both walk the inbox
    in the order of [(created_at, id)]. *)

From S2P Require Import Prelude Time Domain Json World Db Repository Schema.

(** ** Sorting and filtering commute *)

Section SortFilter.
Context {A : Type} (leb : A -> A -> bool) (Q : A -> bool).
Hypothesis leb_total : forall x y, leb x y = false -> leb y x = true.
Hypothesis leb_trans : forall x y z, leb x y = true -> leb y z = true -> leb x z = true.

Lemma sort_by_strong l : StronglySorted (fun a b => leb a b = true) (sort_by leb l).
Proof using All.
  apply Sorted_StronglySorted; [intros x y z; apply leb_trans|]. by apply sort_by_sorted.
Qed.

Lemma sort_insert_head x l :
  (forall y, y ∈ l -> leb x y = true) -> sort_insert leb x l = x :: l.
Proof. destruct l as [|y l]; simpl; [done|]. intros H. by rewrite H by set_solver. Qed.

Lemma where_sort_insert x l :
  StronglySorted (fun a b => leb a b = true) l ->
  where_ Q (sort_insert leb x l) = if Q x then sort_insert leb x (where_ Q l) else where_ Q l.
Proof using All.
  induction 1 as [|y l Hs IH Hall]; simpl; [by destruct (Q x)|].
  destruct (leb x y) eqn:E; simpl.
  - destruct (Q x) eqn:Ex; [|done]. destruct (Q y) eqn:Ey; simpl; [by rewrite E|].
    symmetry. apply sort_insert_head. intros z Hz. apply elem_of_where in Hz as [_ Hz].
    rewrite Forall_forall in Hall. eauto.
  - rewrite IH. destruct (Q x) eqn:Ex, (Q y) eqn:Ey; simpl; by rewrite ?E.
Qed.

Lemma where_sort_by l : where_ Q (sort_by leb l) = sort_by leb (where_ Q l).
Proof using All.
  induction l as [|x l IH]; simpl; [done|]. rewrite where_sort_insert by apply sort_by_strong.
  rewrite IH. by destruct (Q x).
Qed.
End SortFilter.

(** The part of a sorted list after [c] is what is strictly beyond [c]. *)
Lemma where_after {A} (leb : A -> A -> bool) (beyond : A -> A -> bool) pre c rest :
  (forall x, beyond x x = false) ->
  (forall x y, x ∈ pre ++ c :: rest -> y ∈ pre ++ c :: rest -> leb x y = true -> x <> y ->
     beyond x y = true /\ beyond y x = false) ->
  NoDup (pre ++ c :: rest) -> StronglySorted (fun a b => leb a b = true) (pre ++ c :: rest) ->
  where_ (fun r => beyond c r) (pre ++ c :: rest) = rest.
Proof.
  intros Hirr Hstrict Hnd Hs. apply NoDup_app in Hnd as (_ & Hdis & [Hc Hnd]%NoDup_cons).
  assert (forall x, x ∈ pre -> leb x c = true) as Hpre.
  { intros x Hx. apply list_elem_of_split in Hx as (p1 & p2 & ->). rewrite <-app_assoc in Hs.
    apply StronglySorted_app_1_r in Hs. simpl in Hs. apply StronglySorted_inv in Hs as [_ Hall].
    rewrite Forall_forall in Hall. apply Hall. set_solver. }
  apply StronglySorted_app_1_r in Hs. apply StronglySorted_inv in Hs as [_ Hall]. rewrite Forall_forall in Hall.
  rewrite where_app. replace (where_ _ pre) with (@nil A).
  - unfold where_ at 1. simpl. rewrite Hirr. simpl. apply List.forallb_filter_id, List.forallb_forall.
    intros y Hy%list_elem_of_In. apply (Hstrict c y); [set_solver|set_solver|by apply Hall|]. intros ->. done.
  - symmetry. apply where_nil. intros x Hx. apply (Hstrict x c); [set_solver|set_solver|by apply Hpre|].
    intros ->. apply (Hdis c Hx). set_solver.
Qed.

(** ** The keyset order *)

Lemma older_spec a b :
  older a b = true <-> ir_CreatedAt a < ir_CreatedAt b \/ (ir_CreatedAt a = ir_CreatedAt b /\ (ir_ID a < ir_ID b)%N).
Proof. unfold older, cursor_lt. rewrite orb_true_iff, andb_true_iff, Z.ltb_lt, Z.eqb_eq, N.ltb_lt. done. Qed.
Lemma not_older_spec a b :
  older a b = false <-> ir_CreatedAt b < ir_CreatedAt a \/ (ir_CreatedAt a = ir_CreatedAt b /\ (ir_ID b <= ir_ID a)%N).
Proof. rewrite <-not_true_iff_false, older_spec. lia. Qed.

(** Newest first, and oldest first. *)
Definition newest (a b : InappRow) : bool := negb (older a b).
Definition oldest (a b : InappRow) : bool := negb (older b a).

Lemma newest_total x y : newest x y = false -> newest y x = true.
Proof. unfold newest. rewrite negb_false_iff, negb_true_iff, older_spec, not_older_spec. lia. Qed.
Lemma newest_trans x y z : newest x y = true -> newest y z = true -> newest x z = true.
Proof. unfold newest. rewrite !negb_true_iff, !not_older_spec. lia. Qed.
Lemma oldest_total x y : oldest x y = false -> oldest y x = true.
Proof. apply newest_total. Qed.
Lemma oldest_trans x y z : oldest x y = true -> oldest y z = true -> oldest x z = true.
Proof. intros Hxy Hyz. by apply (newest_trans z y x). Qed.

Definition in_inbox (tenant : uuid) (recipient : string) (unread_only : bool) (r : InappRow) : bool :=
  inbox_of tenant recipient r && (negb unread_only || unread r).

(** The inbox as a client pages it, and as it is replayed. *)
Definition inbox (tenant : uuid) (recipient : string) (unread_only : bool) (d : db) : list InappRow :=
  sort_by newest (where_ (in_inbox tenant recipient unread_only) (inapp_messages d)).
Definition inbox_history (tenant : uuid) (recipient : string) (d : db) : list InappRow :=
  sort_by oldest (where_ (inbox_of tenant recipient) (inapp_messages d)).

Lemma where_where {A} (P Q : A -> bool) l : where_ Q (where_ P l) = where_ (fun x => P x && Q x) l.
Proof.
  unfold where_. induction l as [|x l IH]; simpl; [done|]. destruct (P x); simpl; [|done].
  destruct (Q x); by rewrite IH.
Qed.

Section Cursor.
Context `{Env}.
Variables (d : db) (c : InappRow) (pre rest : list InappRow) (P : InappRow -> bool).
Hypothesis ids_unique : unique ir_ID (inapp_messages d).

(** In a sorted, duplicate-free inbox, the rows beyond [c] are those after it. *)
Lemma rows_after (leb : InappRow -> InappRow -> bool) (beyond : InappRow -> InappRow -> bool) :
  (forall x y, leb x y = false -> leb y x = true) ->
  (forall x y z, leb x y = true -> leb y z = true -> leb x z = true) ->
  (forall x, beyond x x = false) ->
  (forall x y, leb x y = true -> ir_ID x <> ir_ID y -> beyond x y = true /\ beyond y x = false) ->
  sort_by leb (where_ P (inapp_messages d)) = pre ++ c :: rest ->
  sort_by leb (where_ (fun r => P r && beyond c r) (inapp_messages d)) = rest.
Proof using ids_unique.
  intros Htot Htr Hirr Hstrict Hs. rewrite <-where_where, <-where_sort_by, Hs by done.
  assert (forall x, x ∈ pre ++ c :: rest -> x ∈ inapp_messages d) as Hin.
  { intros x Hx. rewrite <-Hs, sort_by_elem in Hx. by apply elem_of_where in Hx as [_ ?]. }
  eapply (where_after leb); [done| | |by rewrite <-Hs; apply sort_by_strong].
  - intros x y Hx Hy Hl Hne. apply Hstrict; [done|]. intros He. apply Hne.
    by eapply (NoDup_key_unique ir_ID (inapp_messages d)); auto.
  - rewrite <-Hs, sort_by_perm. apply NoDup_fmap_1 in ids_unique. unfold where_.
    by apply NoDup_ListNoDup, List.NoDup_filter, NoDup_ListNoDup.
Qed.

Lemma newest_strict x y : newest x y = true -> ir_ID x <> ir_ID y -> older y x = true /\ older x y = false.
Proof. unfold newest. rewrite negb_true_iff, older_spec, !not_older_spec. lia. Qed.

Lemma wp_cursor_lookup tenant id w Q :
  w_db w = d -> c ∈ inapp_messages d -> ir_ID c = id -> ir_TenantID c = tenant ->
  (forall w', w_db w' = d -> Q (Ok c) w') -> (forall m w', ~ faultless -> Q (Err (EPlain m)) w') ->
  wp (GetInAppMessage id tenant) Q w.
Proof using ids_unique.
  intros Hw Hc Hid Ht HQ HE. apply wp_sql_read_env. intros dt t m. split; [|apply HE]. rewrite Hw.
  rewrite (where_key_unique ir_ID _ _ c); [by apply HQ; destruct w|done|done| |].
  - by rewrite Hid, Ht, !bool_decide_true.
  - intros y _ [Hy%bool_decide_eq_true _]%andb_true_iff. congruence.
Qed.
End Cursor.

(** Cursor paging neither skips nor repeats: in the inbox ordered by time and id,
    the page after a message [c] holds exactly the next [limit] messages after it,
    unless a call itself fails. *)
Theorem inbox_page_after_cursor `{Env} q c pre rest w :
  schema w -> iq_AfterID q = Some (ir_ID c) -> iq_Limit q < 2 ^ 31 ->
  inbox (iq_TenantID q) (iq_RecipientID q) (iq_UnreadOnly q) (w_db w) = pre ++ c :: rest ->
  match (InAppRepo_List q w).1 with
  | Ok page => page = fromDBInApp <$> take (Z.to_nat (if iq_Limit q <=? 0 then 50 else iq_Limit q)) rest
  | Err e => ~ faultless /\ exists op m, e = EWrap op (EPlain m)
  end.
Proof.
  intros Hs Hafter Hlim Hinbox. wp_outcome (InAppRepo_List q) w. unfold InAppRepo_List. rewrite Hafter.
  set (limit := if _ <=? _ then _ else _).
  assert (0 < limit < 2 ^ 31) as Hl by (subst limit; destruct (Z.leb_spec (iq_Limit q) 0); lia).
  assert (c ∈ where_ (in_inbox (iq_TenantID q) (iq_RecipientID q) (iq_UnreadOnly q)) (inapp_messages (w_db w)))
    as [Hc Hin]%elem_of_where.
  { rewrite <-(sort_by_elem newest). unfold inbox in Hinbox. rewrite Hinbox. set_solver. }
  unfold in_inbox, inbox_of in Hc. rewrite !andb_true_iff, !bool_decide_eq_true in Hc. destruct Hc as [[Ht _] _].
  apply wp_bind, wp_or_else. apply (wp_cursor_lookup (w_db w) c (wf_inapp_pk _ Hs)); [done|done|done|done| |by eauto].
  intros w1 Hw1. apply wp_bind, wp_or_else, wp_sql_read_env. intros dt t m. split; [|by eauto].
  rewrite Hw1, int32_id by lia. unfold select_page, nonneg_page, violated.
  destruct (Z.leb_spec 0 limit); [|lia]. apply wp_ret. unfold page. rewrite drop_0. do 2 f_equal.
  apply (rows_after (w_db w) c pre rest _ (wf_inapp_pk _ Hs) newest (fun x y => older y x));
    [apply newest_total|apply newest_trans| |apply newest_strict|done].
  intros x. apply not_older_spec. lia.
Qed.

Lemma ListSince_gap `{Env} recipient c pre rest w :
  schema w -> inbox_history (ir_TenantID c) recipient (w_db w) = pre ++ c :: rest ->
  match (InAppRepo_ListSince (ir_TenantID c) recipient (ir_ID c) w).1 with
  | Ok missed => missed = fromDBInApp <$> take 200 rest
  | Err e => ~ faultless /\ exists op m, e = EWrap op (EPlain m)
  end.
Proof.
  intros Hs Hinbox. wp_outcome (InAppRepo_ListSince (ir_TenantID c) recipient (ir_ID c)) w.
  assert (c ∈ where_ (inbox_of (ir_TenantID c) recipient) (inapp_messages (w_db w))) as [_ Hin]%elem_of_where.
  { rewrite <-(sort_by_elem oldest). unfold inbox_history in Hinbox. rewrite Hinbox. set_solver. }
  apply wp_bind, wp_or_else. apply (wp_cursor_lookup (w_db w) c (wf_inapp_pk _ Hs)); [done|done|done|done| |by eauto].
  intros w1 Hw1. apply wp_bind, wp_or_else, wp_sql_read_env. intros dt t m. split; [|by eauto].
  rewrite Hw1. apply wp_ret. unfold page. rewrite drop_0. do 2 f_equal.
  apply (rows_after (w_db w) c pre rest _ (wf_inapp_pk _ Hs) oldest (fun x y => older x y));
    [apply oldest_total|apply oldest_trans| |by intros x y ? ?; apply newest_strict|done].
  intros x. apply not_older_spec. lia.
Qed.

(** Gap replay: for a reconnecting client that last saw message [c], [ListSince]
    returns the messages that follow [c] in the inbox, oldest first, up to 200 of them,
    unless a call itself fails. *)
Theorem inbox_since_replays_gap `{Env} recipient c pre rest w :
  schema w -> inbox_history (ir_TenantID c) recipient (w_db w) = pre ++ c :: rest ->
  match (InAppRepo_ListSince (ir_TenantID c) recipient (ir_ID c) w).1 with
  | Ok missed => missed = fromDBInApp <$> take 200 rest
  | Err e => ~ faultless /\ exists op m, e = EWrap op (EPlain m)
  end.
Proof. apply ListSince_gap. Qed.

(** Three messages, two of them at the same instant. *)
Definition demo_inapp (id : uuid) (t : gotime) : InappRow :=
  {| ir_ID := id; ir_TenantID := 1; ir_NotificationID := None; ir_RecipientID := "u1"; ir_Title := "t"; ir_Body := "b";
     ir_Payload := Some ANull; ir_ReadAt := None; ir_CreatedAt := t |}.
Definition demo_inbox : world :=
  set_db (set_inapp (fun _ => [demo_inapp 3 10; demo_inapp 1 20; demo_inapp 2 20])) empty_world.
Lemma demo_inbox_schema : schema demo_inbox.
Proof. split; try (apply NoDup_nil; done); try set_solver. apply (bool_decide_unpack _). by vm_compute. Qed.

Lemma inbox_page_after_cursor_witness :
  (@InAppRepo_List calm {| iq_TenantID := 1; iq_RecipientID := "u1"; iq_UnreadOnly := false; iq_Limit := 1;
                           iq_Offset := 0; iq_AfterID := Some 2%N |} demo_inbox).1
    = Ok [fromDBInApp (demo_inapp 1 20)].
Proof.
  pose proof (@inbox_page_after_cursor calm {| iq_TenantID := 1; iq_RecipientID := "u1"; iq_UnreadOnly := false;
    iq_Limit := 1; iq_Offset := 0; iq_AfterID := Some 2%N |} (demo_inapp 2 20) [] [demo_inapp 1 20; demo_inapp 3 10]
    demo_inbox demo_inbox_schema eq_refl) as Hp.
  destruct (InAppRepo_List _ _) as [[page|e] w'] eqn:E; [|exfalso; vm_compute in E; discriminate E].
  simpl. f_equal. apply Hp; [reflexivity|vm_compute; reflexivity].
Defined.

Lemma inbox_since_replays_gap_witness :
  (@InAppRepo_ListSince calm 1 "u1" 3 demo_inbox).1 = Ok [fromDBInApp (demo_inapp 1 20); fromDBInApp (demo_inapp 2 20)].
Proof.
  pose proof (@inbox_since_replays_gap calm "u1" (demo_inapp 3 10) [] [demo_inapp 1 20; demo_inapp 2 20]
    demo_inbox demo_inbox_schema) as Hp. cbn [demo_inapp ir_ID ir_TenantID] in Hp.
  destruct (InAppRepo_ListSince _ _ _ _) as [[page|e] w'] eqn:E; [|exfalso; vm_compute in E; discriminate E].
  simpl. f_equal. apply Hp. vm_compute. reflexivity.
Defined.
