(* ===== verification/Queue.v ===== *)
(** * The queue ([internal/queue])

    The Kafka envelopes with their JSON text, the topic names, the trace-header
    carrier and the producer.  A record the producer wrote is appended to the
    log of the world; the consumer's fetch and commit are in the worker pool. *)

From S2P Require Import Prelude Time Domain Json World.

(** ** message.go *)

Record Message := MkMessage {
  m_NotificationID : uuid;
  m_TenantID : uuid;
  m_Channel : Channel;
  m_RecipientID : string;
  m_RecipientAddress : string;
  m_TemplateID : option uuid;
  m_Payload : gomap;
  m_Priority : Z;
  m_Attempt : Z;
  m_MaxAttempts : Z;
  m_EnqueuedAt : gotime;
}.

Record DLQMessage := MkDLQMessage {
  q_Original : Message;
  q_OriginalTopic : string;
  q_FailureReason : string;
  q_ErrorMessage : string;
  q_LastAttempt : Z;
  q_DeadLetteredAt : gotime;
}.

Record WebhookMessage := MkWebhookMessage {
  wm_TenantID : uuid;
  wm_EndpointID : uuid;
  wm_DeliveryID : uuid;
  wm_NotificationID : option uuid;
  wm_Event : string;
  wm_Payload : gomap;
  wm_EndpointURL : string;
  wm_Secret : string;
  wm_Attempt : Z;
  wm_MaxAttempts : Z;
  wm_EnqueuedAt : gotime;
}.

Definition TopicForChannel (ch : Channel) : string := "notifyhub.notifications." +:+ ch.
Definition DLQTopicForChannel (ch : Channel) : string := TopicForChannel ch +:+ ".dlq".
Definition WebhookTopic : string := "notifyhub.webhooks.outbound".

(** admin.go *)
Definition allTopics : list string :=
  flat_map (fun ch => [TopicForChannel ch; DLQTopicForChannel ch])
    [ChannelEmail; ChannelPush; ChannelSMS; ChannelInApp] ++ [WebhookTopic].

(** A Go [int] field holds a 64-bit value. *)
Definition fits_int (z : Z) : Prop := - 2^63 <= z < 2^63.

Section Codecs.
Context `{UuidText}.

#[global] Instance Message_codec : JsonCodec Message := {|
  Marshal m :=
    at_ ← time_MarshalJSON (m_EnqueuedAt m);
    mret (AObj (
      [("notification_id", json_uuid (m_NotificationID m));
       ("tenant_id", json_uuid (m_TenantID m));
       ("channel", AStr (m_Channel m));
       ("recipient_id", AStr (m_RecipientID m));
       ("recipient_address", AStr (m_RecipientAddress m))]
      ++ opt_uuid "template_id" (m_TemplateID m) ++
      [("payload", json_of_gomap (m_Payload m));
       ("priority", AInt (m_Priority m));
       ("attempt", AInt (m_Attempt m));
       ("max_attempts", AInt (m_MaxAttempts m));
       ("enqueued_at", at_)]));
  Unmarshal_object kvs :=
    nid ← get_field uuid_nil dec_uuid kvs "notification_id";
    tid ← get_field uuid_nil dec_uuid kvs "tenant_id";
    ch ← get_field "" dec_string kvs "channel";
    rid ← get_field "" dec_string kvs "recipient_id";
    raddr ← get_field "" dec_string kvs "recipient_address";
    tmpl ← get_field None (fun v => u ← dec_uuid v; mret (Some u)) kvs "template_id";
    pl ← get_field None gomap_of_json kvs "payload";
    prio ← get_field 0 dec_int kvs "priority";
    att ← get_field 0 dec_int kvs "attempt";
    maxatt ← get_field 0 dec_int kvs "max_attempts";
    at_ ← get_field zero_time (time_UnmarshalJSON zero_time) kvs "enqueued_at";
    mret (MkMessage nid tid ch rid raddr tmpl pl prio att maxatt at_);
  zero_value := MkMessage uuid_nil uuid_nil "" "" "" None None 0 0 0 zero_time |}.

#[global] Instance DLQMessage_codec : JsonCodec DLQMessage := {|
  Marshal d :=
    orig ← Marshal (q_Original d);
    at_ ← time_MarshalJSON (q_DeadLetteredAt d);
    mret (AObj
      [("original", orig);
       ("original_topic", AStr (q_OriginalTopic d));
       ("failure_reason", AStr (q_FailureReason d));
       ("error_message", AStr (q_ErrorMessage d));
       ("last_attempt", AInt (q_LastAttempt d));
       ("dead_lettered_at", at_)]);
  Unmarshal_object kvs :=
    orig ← get_field zero_value Unmarshal kvs "original";
    topic ← get_field "" dec_string kvs "original_topic";
    reason ← get_field "" dec_string kvs "failure_reason";
    msg ← get_field "" dec_string kvs "error_message";
    att ← get_field 0 dec_int kvs "last_attempt";
    at_ ← get_field zero_time (time_UnmarshalJSON zero_time) kvs "dead_lettered_at";
    mret (MkDLQMessage orig topic reason msg att at_);
  zero_value := MkDLQMessage zero_value "" "" "" 0 zero_time |}.

#[global] Instance WebhookMessage_codec : JsonCodec WebhookMessage := {|
  Marshal m :=
    at_ ← time_MarshalJSON (wm_EnqueuedAt m);
    mret (AObj (
      [("tenant_id", json_uuid (wm_TenantID m));
       ("endpoint_id", json_uuid (wm_EndpointID m));
       ("delivery_id", json_uuid (wm_DeliveryID m))]
      ++ opt_uuid "notification_id" (wm_NotificationID m) ++
      [("event", AStr (wm_Event m));
       ("payload", json_of_gomap (wm_Payload m));
       ("endpoint_url", AStr (wm_EndpointURL m));
       ("secret", AStr (wm_Secret m));
       ("attempt", AInt (wm_Attempt m));
       ("max_attempts", AInt (wm_MaxAttempts m));
       ("enqueued_at", at_)]));
  Unmarshal_object kvs :=
    tid ← get_field uuid_nil dec_uuid kvs "tenant_id";
    eid ← get_field uuid_nil dec_uuid kvs "endpoint_id";
    did ← get_field uuid_nil dec_uuid kvs "delivery_id";
    nid ← get_field None (fun v => u ← dec_uuid v; mret (Some u)) kvs "notification_id";
    ev ← get_field "" dec_string kvs "event";
    pl ← get_field None gomap_of_json kvs "payload";
    url ← get_field "" dec_string kvs "endpoint_url";
    sec ← get_field "" dec_string kvs "secret";
    att ← get_field 0 dec_int kvs "attempt";
    maxatt ← get_field 0 dec_int kvs "max_attempts";
    at_ ← get_field zero_time (time_UnmarshalJSON zero_time) kvs "enqueued_at";
    mret (MkWebhookMessage tid eid did nid ev pl url sec att maxatt at_);
  zero_value := MkWebhookMessage uuid_nil uuid_nil uuid_nil None "" None "" "" 0 0 zero_time |}.
End Codecs.

(** [json.Unmarshal] of the bytes of a record. *)
Definition Unmarshal_bytes {A} `{JsonCodec A} (b : bytes) : result A :=
  match b with
  | BJson j => Unmarshal j
  | BRaw _ => Err (EPlain "invalid character")
  end.

(** ** producer.go *)

(** The trace fields the propagator (go.opentelemetry.io/otel) injects for the
    active span, in the order it sets them. *)
Class Propagator := trace_fields : list (string * string).

(** [headerCarrier] *)
Abbreviation headers := (list (string * string)).
Fixpoint carrier_Get (h : headers) (key : string) : string :=
  match h with
  | [] => ""
  | (k, v) :: h' => if decide (k = key) then v else carrier_Get h' key
  end.
Fixpoint carrier_Set (h : headers) (key value : string) : headers :=
  match h with
  | [] => [(key, value)]
  | (k, v) :: h' => if decide (k = key) then (k, value) :: h' else (k, v) :: carrier_Set h' key value
  end.
Definition carrier_Keys (h : headers) : list string := h.*1.

(** [ExtractTraceContext]: the headers as a map, later duplicates winning. *)
Definition header_map (h : headers) : gmap string string :=
  foldl (fun m kv => <[kv.1 := kv.2]> m) ∅ h.

Section Producer.
Context `{Env} `{UuidText} `{Propagator}.

Definition Publish (topic key : string) (payload : bytes) : M unit :=
  let hs := foldl (fun h kv => carrier_Set h kv.1 kv.2) [] trace_fields in
  let msg := {| k_Topic := topic; k_Key := key; k_Value := payload; k_Headers := hs |} in
  or_else (external (fun _ w => (Ok tt, set_kafka (fun l => l ++ [msg]) w)))
    (EWrap ("kafka publish to " +:+ topic)).

Definition PublishDLQ (msg : DLQMessage) : M unit :=
  payload ← or_else (lift (Marshal msg)) (EWrap "marshal dlq message");
  Publish (DLQTopicForChannel (m_Channel (q_Original msg))) (m_RecipientID (q_Original msg)) (BJson payload).
End Producer.

(** ** Envelopes survive the queue *)

Section Roundtrips.
Context `{UuidTextLaws}.

Definition message_wf (m : Message) : Prop :=
  fits_int (m_Priority m) /\ fits_int (m_Attempt m) /\ fits_int (m_MaxAttempts m).
Definition dlq_wf (d : DLQMessage) : Prop := message_wf (q_Original d) /\ fits_int (q_LastAttempt d).
Definition webhook_wf (m : WebhookMessage) : Prop := fits_int (wm_Attempt m) /\ fits_int (wm_MaxAttempts m).

Lemma dec_int_fits z : fits_int z -> dec_int (AInt z) = Ok z.
Proof.
  intros [? ?]. simpl. by rewrite (proj2 (Z.leb_le _ _)), (proj2 (Z.ltb_lt _ _)).
Qed.

(** A payload field: [null] for the nil map, an object otherwise. *)
Lemma get_payload m kvs :
  field_member kvs "payload" = Some (json_of_gomap m) -> get_field None gomap_of_json kvs "payload" = Ok m.
Proof.
  intros Hf. unfold get_field. rewrite Hf. pose proof (gomap_roundtrip m). by destruct m.
Qed.

Lemma get_time kvs name t v :
  field_member kvs name = Some v -> time_MarshalJSON t = Ok v ->
  get_field zero_time (time_UnmarshalJSON zero_time) kvs name = Ok t.
Proof.
  intros Hf Hm. unfold get_field. rewrite Hf. pose proof (time_json_roundtrip t v zero_time Hm).
  unfold time_MarshalJSON in Hm. case_match; by simplify_eq.
Qed.

Lemma get_int kvs name z :
  field_member kvs name = Some (AInt z) -> fits_int z -> get_field 0 dec_int kvs name = Ok z.
Proof. intros Hf Hz. unfold get_field. rewrite Hf. by apply dec_int_fits. Qed.

Lemma get_uuid kvs name u :
  field_member kvs name = Some (json_uuid u) -> get_field uuid_nil dec_uuid kvs name = Ok u.
Proof. intros Hf. unfold get_field. rewrite Hf. apply dec_uuid_json. Qed.

Lemma get_opt_uuid kvs name o :
  field_member kvs name = json_uuid <$> o ->
  get_field None (fun v => u ← dec_uuid v; mret (Some u)) kvs name = Ok o.
Proof.
  intros Hf. unfold get_field. rewrite Hf. destruct o as [u|]; [|done].
  pose proof (dec_uuid_json u) as Hu. simpl in *. by rewrite Hu.
Qed.

Lemma get_string kvs name s :
  field_member kvs name = Some (AStr s) -> get_field "" dec_string kvs name = Ok s.
Proof. intros Hf. unfold get_field. by rewrite Hf. Qed.

(** Read one field after the other. *)
Ltac read_fields :=
  repeat (first [ erewrite get_uuid by reflexivity | rewrite (get_opt_uuid _ _ None) by reflexivity
                | erewrite (get_opt_uuid _ _ (Some _)) by reflexivity
                | erewrite get_string by reflexivity | erewrite get_payload by reflexivity
                | erewrite get_int by (reflexivity || done)
                | erewrite get_time by (reflexivity || done) ];
          cbn [mbind result_bind]).

Lemma Message_json_roundtrip : JsonRoundtrip Message message_wf.
Proof.
  intros m j (Hp & Ha & Hm). cbn [Marshal Message_codec].
  destruct (time_MarshalJSON (m_EnqueuedAt m)) as [at_|] eqn:Ht; [|done]. intros [= <-].
  cbn [Unmarshal Unmarshal_object Message_codec]. destruct m as [? ? ? ? ? [tmpl|] ? ? ? ? ?]; simpl in *;
    by read_fields.
Qed.

Lemma Message_marshal_object (m : Message) j : Marshal m = Ok j -> exists kvs, j = AObj kvs.
Proof.
  cbn [Marshal Message_codec]. destruct (time_MarshalJSON _); [|done]. intros [= <-]. eauto.
Qed.

Lemma get_message kvs name m j :
  field_member kvs name = Some j -> message_wf m -> Marshal m = Ok j ->
  get_field zero_value Unmarshal kvs name = Ok m.
Proof.
  intros Hf Hm Hj. unfold get_field. rewrite Hf. pose proof (Message_json_roundtrip _ _ Hm Hj) as Hr.
  by destruct (Message_marshal_object _ _ Hj) as [? ->].
Qed.

Lemma DLQMessage_json_roundtrip : JsonRoundtrip DLQMessage dlq_wf.
Proof.
  intros d j (Hm & Ha). cbn [Marshal DLQMessage_codec].
  destruct (Marshal (q_Original d)) as [orig|] eqn:Ho; [|done]. cbn [mbind result_bind].
  destruct (time_MarshalJSON (q_DeadLetteredAt d)) as [at_|] eqn:Ht; [|done]. intros [= <-].
  cbn [Unmarshal Unmarshal_object DLQMessage_codec].
  erewrite get_message by (reflexivity || done). cbn [mbind result_bind]. destruct d. by read_fields.
Qed.

Lemma WebhookMessage_json_roundtrip : JsonRoundtrip WebhookMessage webhook_wf.
Proof.
  intros m j (Ha & Hm). cbn [Marshal WebhookMessage_codec].
  destruct (time_MarshalJSON (wm_EnqueuedAt m)) as [at_|] eqn:Ht; [|done]. intros [= <-].
  cbn [Unmarshal Unmarshal_object WebhookMessage_codec].
  destruct m as [? ? ? [nid|] ? ? ? ? ? ? ?]; simpl in *; by read_fields.
Qed.
End Roundtrips.

(** Every envelope the program puts on Kafka (a notification, a dead letter, a
    webhook dispatch) is read back exactly as it was written, payload map, nil
    pointers and nanosecond timestamps included. *)
Theorem envelopes_roundtrip `{UuidTextLaws} :
  (forall m j, message_wf m -> Marshal m = Ok j -> Unmarshal_bytes (BJson j) = Ok m) /\
  (forall d j, dlq_wf d -> Marshal d = Ok j -> Unmarshal_bytes (BJson j) = Ok d) /\
  (forall m j, webhook_wf m -> Marshal m = Ok j -> Unmarshal_bytes (BJson j) = Ok m).
Proof.
  split; [apply Message_json_roundtrip|]. split; [apply DLQMessage_json_roundtrip|].
  apply WebhookMessage_json_roundtrip.
Qed.

Definition demo_trace : Propagator := [("traceparent", "00-ab-cd-01")].
Definition demo_message : Message :=
  {| m_NotificationID := 11; m_TenantID := 3; m_Channel := ChannelEmail; m_RecipientID := "u1";
     m_RecipientAddress := "a@b.c"; m_TemplateID := Some 5%N;
     m_Payload := Some {["k" := AInt 1; "n" := ANull]};
     m_Priority := 5; m_Attempt := 1; m_MaxAttempts := 3; m_EnqueuedAt := 1700000000123456789 |}.

Lemma envelopes_roundtrip_witness :
  message_wf demo_message /\
  (forall j, @Marshal _ (@Message_codec bits_uuid) demo_message = Ok j ->
             @Unmarshal_bytes _ (@Message_codec bits_uuid) (BJson j) = Ok demo_message) /\
  is_ok (@Marshal _ (@Message_codec bits_uuid) demo_message) = true.
Proof.
  assert (message_wf demo_message) as Hwf by (unfold message_wf, fits_int; simpl; lia).
  split; [exact Hwf|]. split; [|vm_compute; reflexivity].
  intros j. apply (proj1 (@envelopes_roundtrip bits_uuid bits_uuid_laws)). exact Hwf.
Defined.

(** ** Trace headers *)

Lemma header_map_snoc h kv : header_map (h ++ [kv]) = <[kv.1 := kv.2]> (header_map h).
Proof. unfold header_map. by rewrite foldl_app. Qed.

Lemma header_map_list h : NoDup h.*1 -> header_map h = list_to_map h.
Proof.
  intros Hnd. rewrite <-(reverse_involutive h) in *. revert Hnd.
  generalize (reverse h). intros l. induction l as [|[k v] l IH]; [done|].
  rewrite reverse_cons, fmap_app. intros Hnd. apply NoDup_app in Hnd as (Hl & Hd & _).
  rewrite header_map_snoc, IH by done. rewrite (list_to_map_snoc (reverse l)); [done|].
  intros Hin. apply (Hd k Hin). simpl. set_solver.
Qed.

Lemma carrier_Set_keys h k v : carrier_Keys (carrier_Set h k v) =
  if decide (k ∈ carrier_Keys h) then carrier_Keys h else carrier_Keys h ++ [k].
Proof.
  unfold carrier_Keys. induction h as [|[k' v'] h IH]; [done|]. cbn [carrier_Set].
  destruct (decide (k' = k)) as [->|Hne]; rewrite !fmap_cons; simpl fst.
  - by rewrite decide_True by set_solver.
  - rewrite IH. destruct (decide (k ∈ h.*1)); [rewrite decide_True by set_solver; done|].
    by rewrite decide_False by set_solver.
Qed.

Lemma carrier_Set_NoDup h k v : NoDup (carrier_Keys h) -> NoDup (carrier_Keys (carrier_Set h k v)).
Proof.
  intros Hnd. rewrite carrier_Set_keys. destruct (decide _) as [|Hni]; [done|].
  apply NoDup_app. split; [done|]. split; [|apply NoDup_singleton].
  intros x Hx ->%list_elem_of_singleton. done.
Qed.

Lemma carrier_Set_map h k v : list_to_map (carrier_Set h k v) = <[k := v]> (list_to_map h : gmap _ _).
Proof.
  induction h as [|[k' v'] h IH]; simpl; [done|]. destruct (decide (k' = k)) as [->|Hne]; simpl.
  - by rewrite insert_insert_eq.
  - rewrite IH. by rewrite insert_insert_ne.
Qed.

(** The trace context crosses the queue: the map the worker extracts from the
    headers a publish writes holds, for each key, the last value the propagator
    set, and the carrier wrote no key twice. *)
Theorem trace_headers_roundtrip (fields : list (string * string)) :
  let hs := foldl (fun h kv => carrier_Set h kv.1 kv.2) [] fields in
  NoDup (carrier_Keys hs) /\ header_map hs = header_map fields.
Proof.
  cbv zeta. induction fields as [|kv fields IH] using rev_ind; [split; [constructor|done]|].
  rewrite foldl_app. simpl. destruct IH as [Hnd IH].
  pose proof (carrier_Set_NoDup _ kv.1 kv.2 Hnd) as Hnd'. split; [done|].
  rewrite header_map_list by done. rewrite carrier_Set_map.
  by rewrite header_map_snoc, <-IH, header_map_list.
Qed.

(** ** The producer *)

Section ProducerLemmas.
Context `{Env} `{UuidText} `{Propagator}.

(** The record a publish appends. *)
Definition published (topic key : string) (payload : bytes) : KafkaRecord :=
  {| k_Topic := topic; k_Key := key; k_Value := payload;
     k_Headers := foldl (fun h kv => carrier_Set h kv.1 kv.2) [] trace_fields |}.

(** The outcomes of a publish: success appends the record; an error may or may
    not have. *)
Lemma wp_Publish_env topic key payload Q w :
  (forall dt msg, ~ faultless -> Q (Err (EWrap ("kafka publish to " +:+ topic) (EPlain msg))) (advance dt w)) ->
  (forall dt msg, let w' := set_kafka (fun l => l ++ [published topic key payload]) (advance dt w) in
     (~ faultless -> Q (Err (EWrap ("kafka publish to " +:+ topic) (EPlain msg))) w') /\ Q (Ok tt) w') ->
  wp (Publish topic key payload) Q w.
Proof.
  intros HE HO. apply wp_or_else, wp_external_env. intros dt msg. simpl.
  split; [|apply HO; exact ""]. intros Hf. split; [by apply HE|by apply HO].
Qed.
Lemma wp_Publish topic key payload Q w :
  (forall dt msg, Q (Err (EWrap ("kafka publish to " +:+ topic) (EPlain msg))) (advance dt w)) ->
  (forall dt msg, let w' := set_kafka (fun l => l ++ [published topic key payload]) (advance dt w) in
     Q (Err (EWrap ("kafka publish to " +:+ topic) (EPlain msg))) w' /\ Q (Ok tt) w') ->
  wp (Publish topic key payload) Q w.
Proof. intros HE HO. apply wp_Publish_env; [by intros|]. intros dt msg. split; intros; apply HO. exact "". Qed.

#[global] Instance frame_Publish_db {B} (g : db -> B) topic key payload :
  Frame (fun w => g (w_db w)) (Publish topic key payload).
Proof. apply frame_or_else, frame_external; [apply _|]. by intros ? []. Qed.
#[global] Instance frame_Publish_metric name ls topic key payload :
  Frame (fun w => metric w name ls) (Publish topic key payload).
Proof. apply frame_or_else, frame_external; [apply _|]. by intros ? []. Qed.
#[global] Instance frame_Publish_redis topic key payload : Frame w_redis (Publish topic key payload).
Proof. apply frame_or_else, frame_external; [apply _|]. by intros ? []. Qed.
#[global] Instance keeps_Publish_after t topic key payload : Keeps (after t) (Publish topic key payload).
Proof. apply keeps_or_else, keeps_external_after. by intros ? []. Qed.
End ProducerLemmas.

(** Every valid channel has its notification topic and its dead-letter topic
    created at start-up, with the webhook topic, and no two of the topics are the
    same. *)
Lemma allTopics_complete :
  NoDup allTopics /\ WebhookTopic ∈ allTopics /\
  forall ch, IsValid ch = true -> TopicForChannel ch ∈ allTopics /\ DLQTopicForChannel ch ∈ allTopics.
Proof.
  split; [by apply (bool_decide_unpack _); vm_compute|].
  split; [by apply (bool_decide_unpack _); vm_compute|].
  unfold IsValid. intros ch Hv. rewrite !orb_true_iff, !bool_decide_eq_true in Hv.
  destruct Hv as [[[-> | ->]| ->]| ->]; split; by apply (bool_decide_unpack _); vm_compute.
Qed.
