(* ===== verification/Realtime.v ===== *)
(** * The WebSocket hub ([internal/realtime/hub.go])

    The hub's map from "{tenant}:{recipient}" to the inner map of subscriber
    channels, and its operations at the grain at which goroutines interleave: the
    sections under the mutex, the [close] after it, the reads of an inner map by
    [Publish] and each non-blocking send.  Inner maps and channels are objects of a
    store, because [Publish] keeps a reference to an inner map after the unlock. *)

From S2P Require Import Prelude World.

(** A Go channel with its buffer; sending on a closed one panics. *)
Record gochan := MkChan { c_buf : list bytes; c_closed : bool }.

Record hub := MkHub {
  h_conns : gmap string nat;            (* conns[key], an inner map *)
  h_maps : gmap nat (gset nat);         (* every inner map ever made, as its keys *)
  h_chans : gmap nat gochan;            (* every channel ever made *)
  h_bufSize : Z;
}.

Definition NewHub (bufSize : Z) : hub :=
  {| h_conns := ∅; h_maps := ∅; h_chans := ∅; h_bufSize := if bufSize <=? 0 then 32 else bufSize |}.

Definition hub_key (tenantID recipientID : string) : string := tenantID +:+ ":" +:+ recipientID.

(** [fmt.Sprintf("inapp:%s:%s", ..)] *)
Definition RedisChannel (tenantID recipientID : string) : string :=
  "inapp:" +:+ tenantID +:+ ":" +:+ recipientID.

(** The channel-name parsing of [Run]. *)
Definition route (channel : string) : option (string * string) :=
  cut_byte ":" (TrimPrefix channel "inapp:").

(** The channels of [conns[key]]; a nil inner map has none. *)
Definition subscribers (key : string) (h : hub) : gset nat :=
  default ∅ (m ← h_conns h !! key; h_maps h !! m).

(** [Subscribe], up to its unlock: a fresh channel joins the key's inner map, which
    is made when there is none. *)
Definition Hub_Subscribe (tenantID recipientID : string) (h : hub) : nat * hub :=
  let key := hub_key tenantID recipientID in
  let ch := fresh (dom (h_chans h)) in
  let m := default (fresh (dom (h_maps h))) (h_conns h !! key) in
  (ch, {| h_conns := <[key := m]> (h_conns h);
          h_maps := <[m := {[ch]} ∪ subscribers key h]> (h_maps h);
          h_chans := <[ch := MkChan [] false]> (h_chans h);
          h_bufSize := h_bufSize h |}).

(** The locked part of [cancel]: the channel leaves the inner map, and an inner map
    left empty leaves [conns]. *)
Definition cancel_remove (key : string) (ch : nat) (h : hub) : hub :=
  match h_conns h !! key with
  | None => h
  | Some m =>
      let rest := subscribers key h ∖ {[ch]} in
      {| h_conns := if decide (rest = ∅) then delete key (h_conns h) else h_conns h;
         h_maps := <[m := rest]> (h_maps h);
         h_chans := h_chans h; h_bufSize := h_bufSize h |}
  end.

(** [close(ch)]: closing twice panics. *)
Definition cancel_close (ch : nat) (h : hub) : option hub :=
  c ← h_chans h !! ch;
  if c_closed c then None
  else Some {| h_conns := h_conns h; h_maps := h_maps h;
               h_chans := <[ch := MkChan (c_buf c) true]> (h_chans h);
               h_bufSize := h_bufSize h |}.

(** [select { case ch <- msg: default: }]: [None] is the panic of a send on a
    closed channel; a full buffer drops the message. *)
Definition Hub_send (ch : nat) (msg : bytes) (h : hub) : option hub :=
  c ← h_chans h !! ch;
  if c_closed c then None
  else if Z.of_nat (length (c_buf c)) <? h_bufSize h
  then Some {| h_conns := h_conns h; h_maps := h_maps h;
               h_chans := <[ch := MkChan (c_buf c ++ [msg]) false]> (h_chans h);
               h_bufSize := h_bufSize h |}
  else Some h.

(** [Publish] with no other goroutine in between. *)
Fixpoint send_all (chs : list nat) (msg : bytes) (h : hub) : option hub :=
  match chs with
  | [] => Some h
  | ch :: chs' => h' ← Hub_send ch msg h; send_all chs' msg h'
  end.
Definition Hub_Publish (tenantID recipientID : string) (msg : bytes) (h : hub) : option hub :=
  send_all (elements (subscribers (hub_key tenantID recipientID) h)) msg h.

(** One iteration of [Run] on a pub/sub message. *)
Definition Run_message (channel : string) (payload : bytes) (h : hub) : option hub :=
  match route channel with
  | None => Some h
  | Some (tenantID, recipientID) => Hub_Publish tenantID recipientID payload h
  end.

(** ** Interleavings

    A thread of the hub is a [Publish] in progress, with the inner map it holds, the
    channels of it already visited and possibly one it has picked and not yet sent
    to; or a [cancel] that has released the lock and not yet closed its channel.  A
    subscriber calls [cancel] once, by [defer]. *)

Inductive thread :=
  | Publishing (key : string) (chans : option nat) (msg : bytes) (seen : gset nat) (picked : option nat)
  | Closing (ch : nat).

Record hub_state := MkHubState {
  hs_hub : hub;
  hs_threads : list thread;
  hs_log : list (string * bytes);   (* every Publish call, by key *)
  hs_owner : gmap nat string;       (* the key each channel was made for *)
  hs_mowner : gmap nat string;      (* the key each inner map was made for *)
  hs_panic : bool;
}.

Definition hub_init (bufSize : Z) : hub_state := MkHubState (NewHub bufSize) [] [] ∅ ∅ false.

Inductive hub_step : hub_state -> hub_state -> Prop :=
  | step_subscribe h ts lg ow mo t r ch m h' :
      Hub_Subscribe t r h = (ch, h') -> h_conns h' !! hub_key t r = Some m ->
      hub_step (MkHubState h ts lg ow mo false)
               (MkHubState h' ts lg (<[ch := hub_key t r]> ow) (<[m := hub_key t r]> mo) false)
  | step_cancel h ts lg ow mo key ch :
      ow !! ch = Some key -> ch ∈ subscribers key h ->
      hub_step (MkHubState h ts lg ow mo false)
               (MkHubState (cancel_remove key ch h) (ts ++ [Closing ch]) lg ow mo false)
  | step_close h ts1 ts2 lg ow mo ch h' :
      cancel_close ch h = Some h' ->
      hub_step (MkHubState h (ts1 ++ Closing ch :: ts2) lg ow mo false)
               (MkHubState h' (ts1 ++ ts2) lg ow mo false)
  | step_publish h ts lg ow mo t r msg :
      hub_step (MkHubState h ts lg ow mo false)
               (MkHubState h
                  (ts ++ [Publishing (hub_key t r) (h_conns h !! hub_key t r) msg ∅ None])
                  (lg ++ [(hub_key t r, msg)]) ow mo false)
  | step_pick h ts1 ts2 lg ow mo key m chs msg seen ch :
      h_maps h !! m = Some chs -> ch ∈ chs -> ch ∉ seen ->
      hub_step (MkHubState h (ts1 ++ Publishing key (Some m) msg seen None :: ts2) lg ow mo false)
               (MkHubState h (ts1 ++ Publishing key (Some m) msg ({[ch]} ∪ seen) (Some ch) :: ts2)
                  lg ow mo false)
  | step_send h ts1 ts2 lg ow mo key m msg seen ch h' :
      Hub_send ch msg h = Some h' ->
      hub_step (MkHubState h (ts1 ++ Publishing key m msg seen (Some ch) :: ts2) lg ow mo false)
               (MkHubState h' (ts1 ++ Publishing key m msg seen None :: ts2) lg ow mo false)
  | step_send_panic h ts1 ts2 lg ow mo key m msg seen ch :
      Hub_send ch msg h = None ->
      hub_step (MkHubState h (ts1 ++ Publishing key m msg seen (Some ch) :: ts2) lg ow mo false)
               (MkHubState h (ts1 ++ ts2) lg ow mo true)
  | step_receive h ts lg ow mo ch msg rest closed :
      h_chans h !! ch = Some (MkChan (msg :: rest) closed) ->
      hub_step (MkHubState h ts lg ow mo false)
               (MkHubState (MkHub (h_conns h) (h_maps h) (<[ch := MkChan rest closed]> (h_chans h))
                              (h_bufSize h)) ts lg ow mo false)
  | step_published h ts1 ts2 lg ow mo key m msg seen :
      default ∅ (m ≫= (h_maps h !!.)) ⊆ seen ->
      hub_step (MkHubState h (ts1 ++ Publishing key m msg seen None :: ts2) lg ow mo false)
               (MkHubState h (ts1 ++ ts2) lg ow mo false).

(** The states some interleaving of any number of goroutines leads to. *)
Definition hub_reach (bufSize : Z) : hub_state -> Prop := rtc hub_step (hub_init bufSize).

(** ** The invariant *)

(** A thread only touches the inner map and the channels of its own key. *)
Definition thread_ok (s : hub_state) (t : thread) : Prop :=
  match t with
  | Publishing key m msg _ picked =>
      (key, msg) ∈ hs_log s /\ (forall m', m = Some m' -> hs_mowner s !! m' = Some key)
      /\ forall ch, picked = Some ch -> hs_owner s !! ch = Some key
  | Closing _ => True
  end.

Record hub_inv (s : hub_state) : Prop := MkHubInv {
  inv_size : 0 < h_bufSize (hs_hub s);
  inv_owner : forall ch c, h_chans (hs_hub s) !! ch = Some c -> is_Some (hs_owner s !! ch);
  inv_made : forall ch, is_Some (hs_owner s !! ch) -> is_Some (h_chans (hs_hub s) !! ch);
  inv_conns : forall key m, h_conns (hs_hub s) !! key = Some m -> hs_mowner s !! m = Some key;
  inv_stored : forall m, is_Some (hs_mowner s !! m) -> is_Some (h_maps (hs_hub s) !! m);
  inv_maps : forall m chs ch key, h_maps (hs_hub s) !! m = Some chs -> ch ∈ chs ->
               hs_mowner s !! m = Some key -> hs_owner s !! ch = Some key;
  inv_bound : forall ch c, h_chans (hs_hub s) !! ch = Some c ->
                Z.of_nat (length (c_buf c)) <= h_bufSize (hs_hub s);
  inv_messages : forall ch c key msg, h_chans (hs_hub s) !! ch = Some c ->
                hs_owner s !! ch = Some key -> msg ∈ c_buf c -> (key, msg) ∈ hs_log s;
  inv_threads : forall t, t ∈ hs_threads s -> thread_ok s t;
}.

Lemma hub_inv_init bufSize : hub_inv (hub_init bufSize).
Proof.
  split; simpl; intros; try done; try set_solver.
  - destruct (bufSize <=? 0) eqn:E; lia.
  - by destruct H.
  - by destruct H.
Qed.

(** Replacing the content of a made channel by messages of its key. *)
Lemma hub_inv_set_chan h ts ts' lg ow mo p ch c key :
  hub_inv (MkHubState h ts lg ow mo false) -> ow !! ch = Some key ->
  Z.of_nat (length (c_buf c)) <= h_bufSize h ->
  (forall msg, msg ∈ c_buf c -> (key, msg) ∈ lg) ->
  (forall t, t ∈ ts' -> thread_ok (MkHubState h ts lg ow mo false) t) ->
  hub_inv (MkHubState (MkHub (h_conns h) (h_maps h) (<[ch := c]> (h_chans h)) (h_bufSize h)) ts' lg ow mo p).
Proof.
  intros [? Howner Hmade Hconns Hstored Hmaps Hbound Hmsgs _] Hch Hlen Hmsg Hts. split; simpl in *; [done|..].
  - intros ch' c' [[<- <-]|[? ?]]%lookup_insert_Some; eauto.
  - intros ch' Hs. destruct (decide (ch' = ch)) as [->|]; [by rewrite lookup_insert_eq|].
    rewrite lookup_insert_ne by done. auto.
  - done.
  - done.
  - done.
  - intros ch' c' [[<- <-]|[? ?]]%lookup_insert_Some; eauto.
  - intros ch' c' key' msg [[<- <-]|[? ?]]%lookup_insert_Some Hk Hin; simplify_eq; eauto.
  - done.
Qed.

(** Changing only the threads. *)
Lemma hub_inv_threads h ts ts' lg ow mo p p' :
  hub_inv (MkHubState h ts lg ow mo p) ->
  (forall t, t ∈ ts' -> thread_ok (MkHubState h ts lg ow mo p) t) ->
  hub_inv (MkHubState h ts' lg ow mo p').
Proof. by intros [] Hts; split. Qed.

Lemma inv_thread h ts1 ts2 lg ow mo t :
  hub_inv (MkHubState h (ts1 ++ t :: ts2) lg ow mo false) ->
  thread_ok (MkHubState h (ts1 ++ t :: ts2) lg ow mo false) t /\
  forall t', t' ∈ ts1 ++ ts2 -> thread_ok (MkHubState h (ts1 ++ t :: ts2) lg ow mo false) t'.
Proof. intros Hi. split; intros; apply (inv_threads _ Hi); simpl; set_solver. Qed.

(** The inner map of a key after [Subscribe] is the old one, or new. *)
Lemma subscribe_map h ts lg ow mo key m :
  hub_inv (MkHubState h ts lg ow mo false) ->
  default (fresh (dom (h_maps h))) (h_conns h !! key) = m ->
  mo !! m = Some key \/ (mo !! m = None /\ h_conns h !! key = None).
Proof.
  intros Hi <-. destruct (h_conns h !! key) as [m|] eqn:E; simpl.
  { left. apply (inv_conns _ Hi _ _ E). }
  right. split; [|done]. set (m := fresh _). apply eq_None_not_Some. intros Hs.
  pose proof (inv_stored _ Hi m Hs) as Hm. apply elem_of_dom in Hm. revert Hm. apply is_fresh.
Qed.

Lemma elem_of_subscribers h ts lg ow mo key ch :
  hub_inv (MkHubState h ts lg ow mo false) -> ch ∈ subscribers key h -> ow !! ch = Some key.
Proof.
  unfold subscribers. intros Hi. destruct (h_conns h !! key) as [m|] eqn:E; simpl; [|set_solver].
  destruct (h_maps h !! m) as [chs|] eqn:Em; simpl; [|set_solver]. intros Hin.
  apply (inv_maps _ Hi _ _ _ _ Em Hin). apply (inv_conns _ Hi _ _ E).
Qed.

Lemma hub_inv_subscribe h ts lg ow mo t r ch m h' :
  hub_inv (MkHubState h ts lg ow mo false) -> Hub_Subscribe t r h = (ch, h') ->
  h_conns h' !! hub_key t r = Some m ->
  hub_inv (MkHubState h' ts lg (<[ch := hub_key t r]> ow) (<[m := hub_key t r]> mo) false).
Proof.
  intros Hi [= Hch <-] Hm. simpl in Hm. rewrite lookup_insert_eq in Hm. injection Hm as Hm.
  pose proof (subscribe_map _ _ _ _ _ _ _ Hi Hm) as Hmap. rewrite Hm. clear Hm.
  assert (ch ∉ dom (h_chans h)) as Hfresh by (rewrite <-Hch; apply is_fresh). rewrite Hch. clear Hch.
  apply not_elem_of_dom in Hfresh.
  pose proof (fun ch => elem_of_subscribers _ _ _ _ _ (hub_key t r) ch Hi) as Hsubs.
  destruct Hi as [Hsz Howner Hmade Hconns Hstored Hmaps Hbound Hmsgs Hts]. simpl in *.
  assert (ow !! ch = None) as How.
  { destruct (ow !! ch) eqn:E; [|done]. destruct (Hmade ch); [eauto|]. congruence. }
  assert (forall m' key, mo !! m' = Some key -> <[m := hub_key t r]> mo !! m' = Some key) as Hmo.
  { intros m' key E. destruct (decide (m' = m)) as [->|]; [|by rewrite lookup_insert_ne].
    rewrite lookup_insert_eq. destruct Hmap as [|[? _]]; congruence. }
  split; simpl; [done|..].
  - intros ch' c [[<- <-]|[? ?]]%lookup_insert_Some; [by rewrite lookup_insert_eq|].
    rewrite lookup_insert_ne by done. eauto.
  - intros ch' Hs. destruct (decide (ch' = ch)) as [->|]; [by rewrite lookup_insert_eq|].
    rewrite lookup_insert_ne in Hs by done. rewrite lookup_insert_ne by done. auto.
  - intros key m' [[<- <-]|[? Hk]]%lookup_insert_Some; [by rewrite lookup_insert_eq|]. auto.
  - intros m' Hs. destruct (decide (m' = m)) as [->|]; [by rewrite lookup_insert_eq|].
    rewrite lookup_insert_ne in Hs by done. rewrite lookup_insert_ne by done. auto.
  - intros m' chs ch' key [[<- <-]|[? Hk]]%lookup_insert_Some Hin.
    + rewrite lookup_insert_eq. intros [= <-].
      apply elem_of_union in Hin as [->%elem_of_singleton|Hin]; [by rewrite lookup_insert_eq|].
      specialize (Hsubs _ Hin). rewrite lookup_insert_ne; congruence.
    + rewrite lookup_insert_ne by done. intros E. specialize (Hmaps _ _ _ _ Hk Hin E).
      rewrite lookup_insert_ne; congruence.
  - intros ch' c [[<- <-]|[? ?]]%lookup_insert_Some; [simpl; lia|eauto].
  - intros ch' c key msg [[<- <-]|[? ?]]%lookup_insert_Some Hk Hin; [simpl in Hin; set_solver|].
    rewrite lookup_insert_ne in Hk by done. eauto.
  - intros th Hth. specialize (Hts th Hth). destruct th; simpl in *; [|done].
    destruct Hts as (? & Hm' & Hp). split; [done|]. split; [auto|]. intros ch' E. specialize (Hp ch' E).
    rewrite lookup_insert_ne; congruence.
Qed.

(** The locked part of [cancel] only shrinks inner maps and [conns]. *)
Lemma hub_inv_cancel h ts lg ow mo key ch :
  hub_inv (MkHubState h ts lg ow mo false) ->
  hub_inv (MkHubState (cancel_remove key ch h) (ts ++ [Closing ch]) lg ow mo false).
Proof.
  intros Hi. pose proof (fun ch => elem_of_subscribers _ _ _ _ _ key ch Hi) as Hsubs.
  destruct Hi as [? ? ? Hconns Hstored Hmaps ? ? Hts]. simpl in *.
  assert (forall t, t ∈ ts ++ [Closing ch] ->
    thread_ok (MkHubState (cancel_remove key ch h) (ts ++ [Closing ch]) lg ow mo false) t) as Hts'.
  { intros t [Ht|Ht]%elem_of_app; [by apply Hts|]. by apply list_elem_of_singleton in Ht as ->. }
  unfold cancel_remove in *. destruct (h_conns h !! key) as [m|] eqn:E; [|by split].
  split; simpl; try done.
  - intros key' m' Hk. apply Hconns. destruct (decide _); [|done]. by apply lookup_delete_Some in Hk as [_ ?].
  - intros m' Hs. destruct (decide (m' = m)) as [->|]; [by rewrite lookup_insert_eq|].
    rewrite lookup_insert_ne by done. auto.
  - intros m' chs ch' key' [[<- <-]|[? Hk]]%lookup_insert_Some Hin; [|eauto].
    intros Hm. rewrite (Hconns _ _ E) in Hm. injection Hm as <-. apply Hsubs. set_solver.
Qed.

Lemma hub_inv_step s s' : hub_inv s -> hub_step s s' -> hub_inv s'.
Proof.
  intros Hi Hs. destruct Hs as
    [h ts lg ow mo t r ch m h' Hsub Hm|h ts lg ow mo key ch How Hin|h ts1 ts2 lg ow mo ch h' Hc
    |h ts lg ow mo t r msg|h ts1 ts2 lg ow mo key m chs msg seen ch Hm Hin Hni
    |h ts1 ts2 lg ow mo key m msg seen ch h' Hsend|h ts1 ts2 lg ow mo key m msg seen ch Hsend
    |h ts lg ow mo ch msg rest closed Hch|h ts1 ts2 lg ow mo key m msg seen Hsub].
  - by eapply hub_inv_subscribe.
  - by apply hub_inv_cancel.
  - unfold cancel_close in Hc. destruct (h_chans h !! ch) as [c|] eqn:E; simpl in Hc; [|done].
    destruct (c_closed c); simplify_eq. destruct (inv_owner _ Hi _ _ E) as [key Hk].
    eapply hub_inv_set_chan; [done|done|by apply (inv_bound _ Hi _ _ E)| |apply inv_thread; done].
    intros m Hm. by apply (inv_messages _ Hi _ _ _ _ E).
  - destruct Hi as [? ? ? Hconns ? ? ? Hmsgs Hts]. split; simpl in *; try done.
    + intros ch c key m Hc Hk Hm. apply elem_of_app. left. eauto.
    + intros th [Hth|Hth]%elem_of_app.
      * specialize (Hts th Hth). destruct th; [|done]. simpl in *. set_solver.
      * apply list_elem_of_singleton in Hth as ->. simpl. split; [set_solver|]. by split; [apply Hconns|].
  - eapply hub_inv_threads; [done|]. destruct (inv_thread _ _ _ _ _ _ _ Hi) as [Ht Hts].
    intros th Hth. assert (th ∈ ts1 ++ ts2 \/ th = Publishing key (Some m) msg ({[ch]} ∪ seen) (Some ch)) as [?| ->]
      by set_solver; [by apply Hts|].
    destruct Ht as (Hlog & Hk & _). split; [done|]. split; [done|]. intros ch' [= <-].
    apply (inv_maps _ Hi _ _ _ _ Hm Hin). by apply Hk.
  - destruct (inv_thread _ _ _ _ _ _ _ Hi) as [(Hlog & Hk & Hp) Hts]. specialize (Hp ch eq_refl). simpl in Hp.
    assert (forall th, th ∈ ts1 ++ Publishing key m msg seen None :: ts2 ->
      thread_ok (MkHubState h (ts1 ++ Publishing key m msg seen (Some ch) :: ts2) lg ow mo false) th) as Hts'.
    { intros th Hth. assert (th ∈ ts1 ++ ts2 \/ th = Publishing key m msg seen None) as [?| ->]
        by set_solver; [by apply Hts|]. by split. }
    unfold Hub_send in Hsend. destruct (h_chans h !! ch) as [c|] eqn:E; simpl in Hsend; [|done].
    destruct (c_closed c); [done|]. destruct (_ <? _) eqn:Hlt; simplify_eq; [|by eapply hub_inv_threads].
    apply Z.ltb_lt in Hlt.
    eapply hub_inv_set_chan; [done|done| | |exact Hts']; simpl; [rewrite length_app; simpl; lia|].
    intros msg' [Hm|Hm]%elem_of_app; [by apply (inv_messages _ Hi _ _ _ _ E)|].
    apply list_elem_of_singleton in Hm as ->. done.
  - eapply hub_inv_threads; [done|]. by apply inv_thread.
  - destruct (inv_owner _ Hi _ _ Hch) as [key Hk].
    eapply hub_inv_set_chan; [done|done| | |apply (inv_threads _ Hi)].
    + pose proof (inv_bound _ Hi _ _ Hch). simpl in *. lia.
    + intros m Hm. apply (inv_messages _ Hi _ _ _ _ Hch Hk). simpl in *. set_solver.
  - eapply hub_inv_threads; [done|]. by apply inv_thread.
Qed.

Lemma hub_reach_inv bufSize s : hub_reach bufSize s -> hub_inv s.
Proof.
  unfold hub_reach. generalize (hub_inv_init bufSize). generalize (hub_init bufSize).
  induction 2; eauto using hub_inv_step.
Qed.

(** C24. Under every interleaving of subscriptions, cancellations, publishes and
    reads, no subscriber's channel ever holds more than [bufSize] messages, and
    every message in it was published for the tenant and recipient it was
    subscribed for. *)
Theorem hub_bounded_and_isolated bufSize s :
  hub_reach bufSize s ->
  forall ch c, h_chans (hs_hub s) !! ch = Some c ->
    Z.of_nat (length (c_buf c)) <= (if bufSize <=? 0 then 32 else bufSize) /\
    exists key, hs_owner s !! ch = Some key /\ forall msg, msg ∈ c_buf c -> (key, msg) ∈ hs_log s.
Proof.
  intros Hr ch c Hc. pose proof (hub_reach_inv _ _ Hr) as Hi.
  assert (h_bufSize (hs_hub s) = if bufSize <=? 0 then 32 else bufSize) as <-.
  { clear Hi Hc. change (if bufSize <=? 0 then 32 else bufSize) with (h_bufSize (hs_hub (hub_init bufSize))).
    induction Hr as [|s1 s2 s3 Hstep _ IH]; [done|]. rewrite IH. clear IH.
    destruct Hstep; simpl; unfold Hub_Subscribe, cancel_remove, cancel_close, Hub_send in *;
      repeat (case_match || simplify_option_eq); done. }
  split; [by apply (inv_bound _ Hi _ _ Hc)|].
  destruct (inv_owner _ Hi _ _ Hc) as [key Hk]. exists key. split; [done|].
  intros msg. by apply (inv_messages _ Hi _ _ _ _ Hc).
Qed.

Lemma hub_demo_reach : exists s c,
  hub_reach 1 s /\ h_chans (hs_hub s) !! 0%nat = Some c /\ c_buf c = [BRaw "hello"].
Proof.
  do 2 eexists. split.
  { eapply rtc_l; [by eapply (step_subscribe _ _ _ _ _ "t" "r")|].
    eapply rtc_l; [by eapply (step_publish _ _ _ _ _ "t" "r" (BRaw "hello"))|].
    eapply rtc_l; [by eapply (step_pick _ [] [] _ _ _ _ _ _ _ _ 0%nat); vm_compute|].
    eapply rtc_l; [by eapply (step_send _ [] [])|]. apply rtc_refl. }
  split; vm_compute; reflexivity.
Qed.

Lemma hub_bounded_and_isolated_witness : exists s c,
  hub_reach 1 s /\ h_chans (hs_hub s) !! 0%nat = Some c /\ c_buf c = [BRaw "hello"]
  /\ Z.of_nat (length (c_buf c)) <= 1.
Proof.
  destruct hub_demo_reach as (s & c & Hr & Hc & Hb). exists s, c.
  split; [exact Hr|]. split; [exact Hc|]. split; [exact Hb|].
  apply (hub_bounded_and_isolated 1 s Hr 0%nat c Hc).
Defined.

(** A [Publish] that picked a subscriber's channel races with that subscriber's
    [cancel]: the channel can be closed in between, and the send on it panics. *)
Theorem hub_publish_cancel_panics : exists s, hub_reach 1 s /\ hs_panic s = true.
Proof.
  eexists. split.
  { eapply rtc_l; [by eapply (step_subscribe _ _ _ _ _ "t" "r")|].
    eapply rtc_l; [by eapply (step_publish _ _ _ _ _ "t" "r" (BRaw "hello"))|].
    eapply rtc_l; [by eapply (step_pick _ [] [] _ _ _ _ _ _ _ _ 0%nat); vm_compute|].
    eapply rtc_l; [eapply (step_cancel _ _ _ _ _ "t:r" 0%nat); vm_compute; [done|set_solver]|].
    eapply rtc_l; [by eapply (step_close _ [_] [])|].
    eapply rtc_l; [by eapply (step_send_panic _ [] [])|]. apply rtc_refl. }
  reflexivity.
Qed.

(** ** One goroutine *)

(** What a delivery does to an open channel. *)
Definition delivered_chan (size : Z) (msg : bytes) (c : gochan) : gochan :=
  if Z.of_nat (length (c_buf c)) <? size then MkChan (c_buf c ++ [msg]) false else c.

Lemma send_all_spec chs msg h :
  NoDup chs ->
  (forall ch, ch ∈ chs -> exists c, h_chans h !! ch = Some c /\ c_closed c = false) ->
  exists h', send_all chs msg h = Some h' /\ h_conns h' = h_conns h /\ h_bufSize h' = h_bufSize h /\
    forall ch, h_chans h' !! ch =
      if decide (ch ∈ chs) then delivered_chan (h_bufSize h) msg <$> h_chans h !! ch else h_chans h !! ch.
Proof.
  revert h. induction chs as [|ch chs IH]; intros h Hnd Hopen.
  { exists h. by split_and!. }
  apply NoDup_cons in Hnd as [Hni Hnd]. cbn [send_all].
  destruct (Hopen ch) as (c & Hc & Hcl); [set_solver|].
  assert (exists h1, Hub_send ch msg h = Some h1 /\ h_conns h1 = h_conns h /\ h_bufSize h1 = h_bufSize h /\
            h_chans h1 = <[ch := delivered_chan (h_bufSize h) msg c]> (h_chans h))
    as (h1 & -> & Hco & Hbs & Hch).
  { unfold Hub_send, delivered_chan. rewrite Hc. simpl. rewrite Hcl.
    destruct (_ <? _); eexists; split_and!; [done..|]. by rewrite insert_id. }
  cbn [mbind option_bind]. destruct (IH h1 Hnd) as (h' & -> & Hco' & Hbs' & Hch').
  { intros ch' Hin. rewrite Hch, lookup_insert_ne by set_solver. apply Hopen. set_solver. }
  exists h'. split; [done|]. split; [congruence|]. split; [congruence|]. intros ch'.
  rewrite Hch', Hch, Hbs. destruct (decide (ch' = ch)) as [->|Hne].
  - by rewrite decide_False, decide_True, lookup_insert_eq, Hc by set_solver.
  - rewrite lookup_insert_ne by done.
    destruct (decide (ch' ∈ chs)); [rewrite decide_True by set_solver|rewrite decide_False by set_solver]; done.
Qed.

Lemma route_RedisChannel t r : str_mem ":" t = false -> route (RedisChannel t r) = Some (t, r).
Proof. intros Ht. unfold route, RedisChannel. rewrite TrimPrefix_app. by apply cut_byte_app. Qed.

(** A message published on the Redis channel of a tenant and recipient is
    appended to the buffer of every subscriber of exactly that pair (dropped where
    the buffer is full), and no other channel changes. *)
Theorem run_delivers_to_subscribers h t r payload :
  str_mem ":" t = false ->
  (forall ch, ch ∈ subscribers (hub_key t r) h ->
     exists c, h_chans h !! ch = Some c /\ c_closed c = false) ->
  exists h', Run_message (RedisChannel t r) payload h = Some h' /\
    forall ch, h_chans h' !! ch =
      if decide (ch ∈ subscribers (hub_key t r) h)
      then delivered_chan (h_bufSize h) payload <$> h_chans h !! ch
      else h_chans h !! ch.
Proof.
  intros Ht Hopen. unfold Run_message. rewrite route_RedisChannel by done. unfold Hub_Publish.
  set (chs := subscribers (hub_key t r) h) in *.
  destruct (send_all_spec (elements chs) payload h) as (h' & Hs & _ & _ & Hch).
  - apply NoDup_elements.
  - intros ch ?%elem_of_elements. auto.
  - exists h'. split; [done|]. intros ch. rewrite Hch.
    destruct (decide (ch ∈ elements chs)) as [?%elem_of_elements|Hn];
      [by rewrite decide_True|]. rewrite decide_False; [done|]. by rewrite elem_of_elements in Hn.
Qed.

Definition demo_hub : hub := (Hub_Subscribe "t" "r" (NewHub 2)).2.
Lemma run_delivers_to_subscribers_witness : exists h',
  Run_message (RedisChannel "t" "r") (BRaw "x") demo_hub = Some h' /\
  h_chans h' !! 0%nat = Some (MkChan [BRaw "x"] false).
Proof.
  destruct (run_delivers_to_subscribers demo_hub "t" "r" (BRaw "x")) as (h' & Hr & Hc).
  - reflexivity.
  - change (subscribers (hub_key "t" "r") demo_hub) with ({[0%nat]} : gset nat).
    intros ch ->%elem_of_singleton. exists (MkChan [] false). split; reflexivity.
  - exists h'. split; [exact Hr|]. rewrite Hc. vm_compute. reflexivity.
Defined.
