(* ===== verification/Provider.v ===== *)
(** * Delivery providers ([internal/provider])

    The [Provider] interface as a record of its three methods, the registry, the
    classification of errors into temporary and permanent, and the five backends:
    [mock], [inapp], [ses], [twilio] and [fcm].  The SDK clients of the last three
    are parameters: what they answer to a request, call by call. *)

From S2P Require Import Prelude Time Domain Json World Db Repository Realtime Schema.

(** ** provider.go *)

Record Provider := MkProvider {
  pv_Channel : Channel;
  pv_Name : string;
  pv_Send : Notification -> M unit;
}.

Definition IsTemporary (err : error) : bool :=
  existsb (fun e => match e with ETemporary _ => true | _ => false end) (chain err).
Definition IsPermanent (err : error) : bool :=
  existsb (fun e => match e with EPermanent _ => true | _ => false end) (chain err).

Definition Registry : Type := gmap Channel Provider.
Definition NewRegistry : Registry := ∅.
Definition Register (r : Registry) (p : Provider) : Registry := <[pv_Channel p := p]> r.
Definition Registry_Get (r : Registry) (ch : Channel) : result Provider :=
  match r !! ch with
  | Some p => Ok p
  | None => Err (EWrapSuffix ENoProvider ch)
  end.

(** ** Reading a payload *)

Definition payload_get (m : gomap) (k : string) : option any := m ≫= fun m => m !! k.

(** The first of [keys] that holds a non-empty string. *)
Fixpoint firstString (m : gomap) (keys : list string) : string :=
  match keys with
  | [] => ""
  | k :: keys' =>
      match payload_get m k with
      | Some (AStr s) => if decide (s = "") then firstString m keys' else s
      | _ => firstString m keys'
      end
  end.

(** [strings.Contains] *)
Fixpoint str_contains (s sub : string) : bool :=
  String.prefix sub s || match s with "" => false | String _ s' => str_contains s' sub end.

Section Backends.
Context `{Env} `{UuidText}.

(** ** mock *)

Definition mock_Provider (ch : Channel) : Provider :=
  {| pv_Channel := ch; pv_Name := "mock"; pv_Send := fun _ => mret tt |}.

(** ** inapp *)

Definition extractTitleBody (payload : gomap) : string * string :=
  let pick k fallback :=
    match payload_get payload k with
    | Some (AStr v) =>
        if decide (v = "") then match payload_get payload fallback with Some (AStr v) => v | _ => "" end
        else v
    | _ => match payload_get payload fallback with Some (AStr v) => v | _ => "" end
    end in
  (pick "_subject" "title", pick "_body" "body").

(** [json.Marshal] of a [domain.InAppMessage]. *)
Definition marshal_InAppMessage (m : InAppMessage) : result any :=
  created ← time_MarshalJSON (im_CreatedAt m);
  read ← match im_ReadAt m with
         | Some t => v ← time_MarshalJSON t; mret [("read_at", v)]
         | None => mret []
         end;
  mret (AObj (
    [("id", json_uuid (im_ID m)); ("tenant_id", json_uuid (im_TenantID m))]
    ++ opt_uuid "notification_id" (im_NotificationID m) ++
    [("recipient_id", AStr (im_RecipientID m)); ("title", AStr (im_Title m)); ("body", AStr (im_Body m))]
    ++ match im_Payload m with
       | Some p => if decide (p = ∅) then [] else [("payload", obj_of_map p)]
       | None => []
       end
    ++ read ++ [("created_at", created)])).

(** [p.rdb.Publish] *)
Definition rdb_Publish (ch : string) (payload : bytes) : M unit :=
  external (fun _ w => (Ok tt, set_pubsub (fun l => l ++ [(ch, payload)]) w)).

Definition inapp_Send (n : Notification) : M unit :=
  let '(title, body) := extractTitleBody (n_Payload n) in
  if decide (title = "") then
    throw (EPermanent (EPlain "inapp notification requires title and body in payload"))
  else if decide (body = "") then
    throw (EPermanent (EPlain "inapp notification requires title and body in payload"))
  else
    saved ← or_else (InAppRepo_Insert
              {| im_ID := uuid_nil; im_TenantID := n_TenantID n; im_NotificationID := Some (n_ID n);
                 im_RecipientID := n_RecipientID n; im_Title := title; im_Body := body;
                 im_Payload := n_Payload n; im_ReadAt := None; im_CreatedAt := zero_time |})
              (fun e => ETemporary (EWrap "persist inapp message" e));
    match marshal_InAppMessage saved with
    | Err _ => mret tt
    | Ok payload =>
        ignore (rdb_Publish (RedisChannel (uuid_String (n_TenantID n)) (n_RecipientID n)) (BJson payload))
    end.

Definition inapp_Provider : Provider :=
  {| pv_Channel := ChannelInApp; pv_Name := "inapp"; pv_Send := inapp_Send |}.

(** ** ses *)

Record SendEmailInput := MkSendEmailInput {
  se_From : string;
  se_To : list string;
  se_Subject : string;
  se_Html : option string;
  se_Text : option string;
}.

(** The SES client: its answer to the request made at a given tick. *)
Context (ses_SendEmail : nat -> SendEmailInput -> result string).

Definition ses_extractContent (payload : gomap) : string * string * bool :=
  let subject := firstString payload ["_subject"; "subject"] in
  let body := firstString payload ["_body"; "body"; "html"; "text"] in
  let isHTML := str_contains (to_lower body) "<html" || str_contains body "<!DOCTYPE" in
  (subject, body,
   match payload_get payload "html" with
   | Some (AStr h) => isHTML || bool_decide (body = h)
   | _ => isHTML
   end).

Definition ses_permanentErrorCodes : list string :=
  ["MessageRejected"; "MailFromDomainNotVerifiedException"; "SendingPausedException";
   "AccountSuspendedException"; "MailFromDomainNotVerified"; "InvalidParameterValue";
   "ConfigurationSetDoesNotExist"].

(** [errors.As(err, &apiErr)] finds the first API error of the chain. *)
Definition ses_classify (err : error) : error :=
  match List.find (fun e => match e with ESmithy _ _ _ => true | _ => false end) (chain err) with
  | Some (ESmithy code fault_client _) =>
      if bool_decide (code ∈ ses_permanentErrorCodes) then EPermanent err
      else if fault_client then EPermanent err
      else ETemporary err
  | _ => ETemporary err
  end.

Definition ses_Send (fromEmail : string) (n : Notification) : M unit :=
  let '(subject, body, isHTML) := ses_extractContent (n_Payload n) in
  if decide (body = "") then throw (EPermanent (EPlain "ses: empty body"))
  else if decide (n_RecipientAddress n = "") then
    throw (EPermanent (EPlain "ses: missing recipient address"))
  else
    let input := {| se_From := fromEmail; se_To := [n_RecipientAddress n]; se_Subject := subject;
                    se_Html := if isHTML then Some body else None;
                    se_Text := if isHTML then None else Some body |} in
    _ ← or_else (external (fun _ w => (ses_SendEmail (w_tick w) input, w))) ses_classify;
    mret tt.

Definition ses_Provider (fromEmail : string) : Provider :=
  {| pv_Channel := ChannelEmail; pv_Name := "ses"; pv_Send := ses_Send fromEmail |}.

(** ** twilio *)

Record CreateMessageParams := MkCreateMessageParams {
  cm_To : string;
  cm_Body : string;
  cm_MessagingServiceSid : option string;
  cm_From : option string;
}.
Context (twilio_CreateMessage : nat -> CreateMessageParams -> result string).

Definition extractBody (payload : gomap) : string :=
  firstString payload ["_body"; "body"; "text"; "message"].

Definition twilio_permanentErrorCodes : list Z :=
  [21211; 21610; 21614; 20003; 21401; 21602; 21608; 21609].

(** The type assertion looks at the error itself, not at what it wraps. *)
Definition twilio_classify (err : error) : error :=
  match err with
  | ETwilio code _ =>
      if bool_decide (code ∈ twilio_permanentErrorCodes) then EPermanent err
      else if (code =? 20429) || (code =? 20003) then ETemporary err
      else if (400 <=? code) && (code <? 500) then EPermanent err
      else ETemporary err
  | _ => ETemporary err
  end.

Definition twilio_Send (fromNumber messagingSvcID : string) (n : Notification) : M unit :=
  let body := extractBody (n_Payload n) in
  if decide (body = "") then throw (EPermanent (EPlain "twilio: empty body"))
  else if decide (n_RecipientAddress n = "") then
    throw (EPermanent (EPlain "twilio: missing recipient address"))
  else
    let params := {| cm_To := n_RecipientAddress n; cm_Body := body;
                     cm_MessagingServiceSid := if decide (messagingSvcID = "") then None else Some messagingSvcID;
                     cm_From := if decide (messagingSvcID = "") then Some fromNumber else None |} in
    _ ← or_else (external (fun _ w => (twilio_CreateMessage (w_tick w) params, w))) twilio_classify;
    mret tt.

Definition twilio_Provider (fromNumber messagingSvcID : string) : Provider :=
  {| pv_Channel := ChannelSMS; pv_Name := "twilio"; pv_Send := twilio_Send fromNumber messagingSvcID |}.

(** ** fcm *)

Record FcmMessage := MkFcmMessage {
  fm_Token : string;
  fm_Title : string;
  fm_Body : string;
  fm_Data : gmap string string;
}.
Context (fcm_client_Send : nat -> FcmMessage -> result string).

Definition fcm_extractContent (payload : gomap) : string * string :=
  (firstString payload ["_subject"; "title"; "subject"], firstString payload ["_body"; "body"; "message"]).

(** [fmt.Sprintf("%v", v)] of a decoded JSON value. *)
Fixpoint fmt_v (v : any) : string :=
  match v with
  | ANull => "<nil>"
  | ABool b => if b then "true" else "false"
  | AInt z => pretty z
  | AFloat lit => lit
  | AStr s => s
  | AArr l => "[" +:+ String.concat " " (map fmt_v l) +:+ "]"
  | AObj kvs =>
      let m : gmap string string := list_to_map (reverse (map (fun kv => (kv.1, fmt_v kv.2)) kvs)) in
      "map[" +:+ String.concat " " (map (fun kv => kv.1 +:+ ":" +:+ kv.2)
                   (sort_by (fun a b => String.leb a.1 b.1) (map_to_list m))) +:+ "]"
  end.

Definition flattenPayload (payload : gomap) : gmap string string :=
  fmt_v <$> delete "_body" (delete "_subject" (default ∅ payload)).

(** The [messaging.Is*] predicates test the kind of the SDK's error. *)
Definition fcm_is (kind : string) (err : error) : bool :=
  match err with EFcm k _ => bool_decide (k = kind) | _ => false end.

Definition fcm_classify (err : error) : error :=
  if fcm_is "RegistrationTokenNotRegistered" err then EPermanent err
  else if fcm_is "InvalidArgument" err then EPermanent err
  else if fcm_is "SenderIDMismatch" err then EPermanent err
  else if fcm_is "Unavailable" err then ETemporary err
  else if fcm_is "Internal" err then ETemporary err
  else if fcm_is "QuotaExceeded" err then ETemporary err
  else ETemporary err.

Definition fcm_Send (n : Notification) : M unit :=
  let '(title, body) := fcm_extractContent (n_Payload n) in
  if decide (body = "") then throw (EPermanent (EPlain "fcm: empty body"))
  else if decide (n_RecipientAddress n = "") then
    throw (EPermanent (EPlain "fcm: missing recipient address (token)"))
  else
    let msg := {| fm_Token := n_RecipientAddress n; fm_Title := title; fm_Body := body;
                  fm_Data := flattenPayload (n_Payload n) |} in
    _ ← or_else (external (fun _ w => (fcm_client_Send (w_tick w) msg, w))) fcm_classify;
    mret tt.

Definition fcm_Provider : Provider :=
  {| pv_Channel := ChannelPush; pv_Name := "fcm"; pv_Send := fcm_Send |}.
End Backends.

(** ** The contract a provider offers the worker *)

(** An error that is not one of the program's own delivery errors. *)
Definition library_error (e : error) : Prop := IsTemporary e = false /\ IsPermanent e = false.

(** What a provider may not touch: everything the worker keeps. *)
Definition worker_view (w : world) :=
  (notifications (w_db w), delivery_logs (w_db w), dead_letters (w_db w), templates (w_db w),
   preferences (w_db w), webhook_endpoints (w_db w), webhook_deliveries (w_db w),
   tenants (w_db w), api_clients (w_db w), device_tokens (w_db w), w_kafka w, w_redis w, w_metrics w).

#[global] Instance timeless_worker_view : Timeless worker_view.
Proof. by intros ? []. Qed.

(** The inbox still starts with the messages [l]. *)
Definition inbox_from (l : list InappRow) (w : world) : Prop := l `prefix_of` inapp_messages (w_db w).

(** Every failure is either temporary or permanent, never both and never
    neither, and sending leaves the worker's state alone, only adds to the inbox and takes no
    negative time. *)
Class ProviderContract (p : Provider) : Prop := {
  send_typed : forall n w e, (pv_Send p n w).1 = Err e -> IsPermanent e = negb (IsTemporary e);
  send_frame : forall n, Frame worker_view (pv_Send p n);
  send_schema : forall n, Keeps schema (pv_Send p n);
  send_clock : forall n t, Keeps (after t) (pv_Send p n);
  send_inbox : forall n l, Keeps (inbox_from l) (pv_Send p n);
}.

Lemma library_temporary e : library_error e -> IsPermanent (ETemporary e) = negb (IsTemporary (ETemporary e)).
Proof. intros [_ Hp]. unfold IsPermanent, IsTemporary in *. simpl. exact Hp. Qed.
Lemma library_permanent e : library_error e -> IsPermanent (EPermanent e) = negb (IsTemporary (EPermanent e)).
Proof. intros [Ht _]. unfold IsPermanent, IsTemporary in *. simpl. by rewrite Ht. Qed.

(** The classifiers are total: whatever the SDK answers is typed. *)
Lemma ses_classify_typed e : library_error e -> IsPermanent (ses_classify e) = negb (IsTemporary (ses_classify e)).
Proof.
  intros He. unfold ses_classify.
  repeat case_match; by (apply library_temporary || apply library_permanent).
Qed.
Lemma twilio_classify_typed e :
  library_error e -> IsPermanent (twilio_classify e) = negb (IsTemporary (twilio_classify e)).
Proof.
  intros He. unfold twilio_classify.
  repeat case_match; by (apply library_temporary || apply library_permanent).
Qed.
Lemma fcm_classify_typed e : library_error e -> IsPermanent (fcm_classify e) = negb (IsTemporary (fcm_classify e)).
Proof.
  intros He. unfold fcm_classify.
  repeat case_match; by (apply library_temporary || apply library_permanent).
Qed.

Section Contracts.
Context `{Env} `{UuidText}.

(** A backend that makes one client call and classifies its error. *)
Lemma client_call_typed {R A} (client : nat -> R -> result A) (req : R) classify w e :
  (forall t r e, client t r = Err e -> library_error e) ->
  (forall e, library_error e -> IsPermanent (classify e) = negb (IsTemporary (classify e))) ->
  ((_ ← or_else (external (fun _ w => (client (w_tick w) req, w))) classify; mret tt) w).1 = Err e ->
  IsPermanent e = negb (IsTemporary e).
Proof.
  intros Hc Hcl. unfold mbind, ST_bind, or_else, external.
  destruct (ev_fault _) as [|msg|msg]; simpl; [|intros [= <-]; by apply Hcl..].
  destruct (client _ req) as [a|e'] eqn:E; simpl; [done|]. intros [= <-]. apply Hcl. by eapply Hc.
Qed.

Lemma frame_client_call {R A B} (f : world -> B) `{!Timeless f} (client : nat -> R -> result A) req classify :
  Frame f (_ ← or_else (external (fun _ w => (client (w_tick w) req, w))) classify; mret tt).
Proof. apply frame_bind; [|apply _]. apply frame_or_else. by apply frame_external. Qed.

Lemma keeps_client_call_after {R A} t (client : nat -> R -> result A) req classify :
  Keeps (after t) (_ ← or_else (external (fun _ w => (client (w_tick w) req, w))) classify; mret tt).
Proof. apply keeps_bind; [|apply _]. by apply keeps_or_else, keeps_external_after. Qed.

Lemma keeps_client_call {R A} (client : nat -> R -> result A) req classify :
  Keeps schema (_ ← or_else (external (fun _ w => (client (w_tick w) req, w))) classify; mret tt).
Proof.
  apply keeps_bind; [|apply _]. apply keeps_or_else. intros w Hw. unfold external.
  destruct (ev_fault _); simpl; by apply schema_advance.
Qed.

(** The inbox is left alone by what frames it, and only grows by an INSERT. *)
Lemma keeps_inbox {A} l (m : M A) : Frame (fun w => inapp_messages (w_db w)) m -> Keeps (inbox_from l) m.
Proof. intros Hf w Hw. unfold inbox_from. by rewrite (frame (f := fun w => inapp_messages (w_db w)) w). Qed.
#[local] Instance timeless_inbox : Timeless (fun w => inapp_messages (w_db w)).
Proof. by intros ? []. Qed.
Lemma keeps_client_call_inbox {R A} l (client : nat -> R -> result A) req classify :
  Keeps (inbox_from l) (_ ← or_else (external (fun _ w => (client (w_tick w) req, w))) classify; mret tt).
Proof. apply keeps_inbox, frame_client_call, _. Qed.
#[local] Instance keeps_InsertInApp_inbox l t n r ti b p : Keeps (inbox_from l) (InsertInAppMessage t n r ti b p).
Proof.
  intros [[]] Hw. unfold InsertInAppMessage, sql, external, insert_row, inbox_from in *.
  destruct (ev_fault _); repeat case_match; simplify_eq/=; try done; by apply prefix_app_r.
Qed.
#[local] Instance keeps_rdb_Publish_inbox l ch p : Keeps (inbox_from l) (rdb_Publish ch p).
Proof. apply keeps_inbox, frame_external; [apply _|]. by intros ? []. Qed.

#[global] Instance mock_contract ch : ProviderContract (mock_Provider ch).
Proof. split; [done|apply _|apply _|apply _|apply _]. Qed.

Lemma ses_contract client fromEmail :
  (forall t r e, client t r = Err e -> library_error e) -> ProviderContract (ses_Provider client fromEmail).
Proof.
  intros Hc. split; intros n; simpl; unfold ses_Send; destruct (ses_extractContent _) as [[s b] h];
    repeat case_decide; try apply _.
  - by intros w e [= <-].
  - by intros w e [= <-].
  - intros w e. by apply client_call_typed; [|apply ses_classify_typed].
  - apply frame_client_call, _.
  - apply keeps_client_call.
  - intros t'. apply keeps_client_call_after.
  - intros l'. apply keeps_client_call_inbox.
Qed.

Lemma twilio_contract client from svc :
  (forall t r e, client t r = Err e -> library_error e) -> ProviderContract (twilio_Provider client from svc).
Proof.
  intros Hc. split; intros n; simpl; unfold twilio_Send;
    destruct (decide (extractBody _ = "")) as [Hb|Hb], (decide (n_RecipientAddress n = "")) as [Ha|Ha];
    try apply _.
  - by intros w e [= <-].
  - by intros w e [= <-].
  - by intros w e [= <-].
  - intros w e. by apply client_call_typed; [|apply twilio_classify_typed].
  - apply frame_client_call, _.
  - apply keeps_client_call.
  - intros t'. apply keeps_client_call_after.
  - intros l'. apply keeps_client_call_inbox.
Qed.

Lemma fcm_contract client :
  (forall t r e, client t r = Err e -> library_error e) -> ProviderContract (fcm_Provider client).
Proof.
  intros Hc. split; intros n; simpl; unfold fcm_Send; destruct (fcm_extractContent _) as [t b];
    repeat case_decide; try apply _.
  - by intros w e [= <-].
  - by intros w e [= <-].
  - intros w e. by apply client_call_typed; [|apply fcm_classify_typed].
  - apply frame_client_call, _.
  - apply keeps_client_call.
  - intros t'. apply keeps_client_call_after.
  - intros l'. apply keeps_client_call_inbox.
Qed.

#[global] Instance frame_InsertInApp t n r ti b p : Frame worker_view (InsertInAppMessage t n r ti b p).
Proof.
  apply frame_external; [apply _|]. intros ev w. unfold insert_row.
  destruct (violated _); destruct w as [[]]; done.
Qed.
#[global] Instance frame_rdb_Publish ch p : Frame worker_view (rdb_Publish ch p).
Proof. apply frame_external; [apply _|]. by intros ? []. Qed.
#[global] Instance keeps_rdb_Publish ch p : Keeps schema (rdb_Publish ch p).
Proof. intros w Hw. unfold rdb_Publish, external. destruct (ev_fault _); by destruct w. Qed.

#[global] Instance keeps_rdb_Publish_after t ch p : Keeps (after t) (rdb_Publish ch p).
Proof. apply keeps_external_after. by intros ? []. Qed.

(** An INSERT fails with a library error. *)
Lemma wp_insert_error {A} (q : uuid -> gotime -> db -> list (bool * string)) (row : uuid -> gotime -> A) set Q w :
  (forall msg w', Q (Err (EPlain msg)) w') -> (forall a w', Q (Ok a) w') ->
  wp (sql (fun u t d => insert_row (q u t d) (row u t) set d)) Q w.
Proof.
  intros HE HO. apply wp_sql; [auto|]. intros dt u t msg. unfold insert_row.
  destruct (violated _); simpl; auto.
Qed.

#[global] Instance inapp_contract : ProviderContract inapp_Provider.
Proof.
  split; intros n; simpl; unfold inapp_Send, InAppRepo_Insert;
    destruct (extractTitleBody _) as [ti b]; repeat case_decide; try apply _; intros w e.
  1, 2: by intros [= <-].
  match goal with |- (?m w).1 = _ -> _ => pattern (m w).1 end. apply wp_fst.
  apply wp_bind, wp_or_else, wp_bind, wp_or_else.
  apply wp_insert_error; [by intros msg w' [= <-]|].
  intros row w'. apply wp_ret. destruct (marshal_InAppMessage _); [by apply wp_ignore|by apply wp_ret].
Qed.
End Contracts.

(** All five backends honour the provider contract: every error they return
    is temporary or permanent and never both (so the worker's retry decision is
    always defined), and sending changes none of the worker's state, only adds to the
    inbox, breaks no constraint of the schema and takes no negative time. *)
Theorem backends_honour_contract `{Env} `{UuidText} ses twilio fcm fromEmail fromNumber svc :
  (forall t r e, ses t r = Err e -> library_error e) ->
  (forall t r e, twilio t r = Err e -> library_error e) ->
  (forall t r e, fcm t r = Err e -> library_error e) ->
  (forall ch, ProviderContract (mock_Provider ch)) /\ ProviderContract inapp_Provider /\
  ProviderContract (ses_Provider ses fromEmail) /\
  ProviderContract (twilio_Provider twilio fromNumber svc) /\
  ProviderContract (fcm_Provider fcm).
Proof.
  intros Hs Ht Hf. split; [apply _|]. split; [apply _|].
  split; [by apply ses_contract|]. split; [by apply twilio_contract|by apply fcm_contract].
Qed.

(** A throttled, a rejected and an unavailable client. *)
Definition demo_ses (t : nat) (r : SendEmailInput) : result string := Err (ESmithy "Throttling" false "slow").
Definition demo_twilio (t : nat) (r : CreateMessageParams) : result string := Err (ETwilio 21211 "bad").
Definition demo_fcm (t : nat) (r : FcmMessage) : result string := Err (EFcm "Unavailable" "down").

Lemma backends_honour_contract_witness :
  ProviderContract (@ses_Provider calm demo_ses "from@x") /\
  ProviderContract (@twilio_Provider calm demo_twilio "+1" "") /\ ProviderContract (@fcm_Provider calm demo_fcm).
Proof.
  apply (@backends_honour_contract calm bits_uuid demo_ses demo_twilio demo_fcm "from@x" "+1" "");
    intros t r e He; injection He as <-; split; reflexivity.
Defined.

(** The INSERT of an in-app message for [n] succeeds. *)
Definition inapp_storable `{Env} (n : Notification) (d : db) : Prop :=
  faultless /\ (forall i, ev_uuid (env_event i) ∉ ir_ID <$> inapp_messages d) /\
  tenant_exists d (n_TenantID n) = true /\ n_ID n ∈ nr_ID <$> notifications d.

(** A successful in-app send stored exactly one message, with the title and
    body of the payload (the rendered ones first), addressed to the notification's
    recipient and tenant.  It fails permanently, storing nothing, exactly on a payload
    without title or body, and temporarily only when the row could not be stored (a
    call failed, or a constraint of the table). *)
Theorem inapp_Send_persists `{Env} `{UuidText} (n : Notification) w :
  let '(r, w') := inapp_Send n w in
  let '(title, body) := extractTitleBody (n_Payload n) in
  match r with
  | Ok _ => exists row, inapp_messages (w_db w') = inapp_messages (w_db w) ++ [row]
      /\ ir_TenantID row = n_TenantID n /\ ir_RecipientID row = n_RecipientID n
      /\ ir_NotificationID row = Some (n_ID n) /\ ir_Title row = title /\ ir_Body row = body
      /\ ir_ReadAt row = None /\ title <> "" /\ body <> ""
  | Err e =>
      (IsPermanent e = true /\ (title = "" \/ body = "") /\ inapp_messages (w_db w') = inapp_messages (w_db w))
      \/ (IsTemporary e = true /\ title <> "" /\ body <> "" /\ ~ inapp_storable n (w_db w))
  end.
Proof.
  apply wp_pair. unfold inapp_Send, InAppRepo_Insert.
  destruct (extractTitleBody (n_Payload n)) as [title body].
  destruct (decide (title = "")) as [Ht|Ht]; [apply wp_throw; by auto|].
  destruct (decide (body = "")) as [Hb|Hb]; [apply wp_throw; by auto|].
  apply wp_bind, wp_or_else, wp_bind, wp_or_else, wp_sql_env.
  { intros dt m Hf. right. split_and!; try done. by intros [? _]. }
  intros dt t msg. unfold insert_row. destruct (violated _) eqn:Ev; simpl.
  { split; intros; right; (split_and!; [done..|]); intros (_ & Hid & Hten & Hn);
      (rewrite violated_all in Ev; [done|]); repeat constructor; simpl; (done || by apply bool_decide_eq_true_2). }
  split; [intros Hf; right; split_and!; try done; by intros [? _]|]. apply wp_ret.
  destruct w as [[a b c e f g h i j k l] ? ? ? ? ? ?]. simpl.
  destruct (marshal_InAppMessage _) as [p|]; [|apply wp_ret; by eexists].
  apply wp_ignore. eapply wp_mono; [apply (wp_frame (fun w => inapp_messages (w_db w)))|].
  - apply frame_external; [apply _|]. by intros ? [].
  - simpl. intros _ w' ->. by eexists.
Qed.
