(* ===== verification/RateLimit.v ===== *)
(** * The sliding-window rate limiter ([internal/service/ratelimit.go])

    [AllowKey] keeps a log of attempts in a Redis sorted set.  The commands are
    parameters with their documented laws; scores are float64, so an attempt is
    recorded at its nanosecond rounded to 53 significant bits.  The limiter
    refines an abstract log of attempts, and bounds what it lets through. *)

From S2P Require Import Prelude Time Domain World.

(** ** float64(int64) *)

(** Round [x / q] to an integer, ties to even. *)
Definition div_half_even (x q : Z) : Z :=
  let d := x / q in
  let r := x mod q in
  if 2 * r <? q then d else if q <? 2 * r then d + 1 else if Z.even d then d else d + 1.

(** The nearest integer with 53 significant bits. *)
Definition f64_pos (x : Z) : Z :=
  let q := 2 ^ Z.max 0 (Z.log2 x - 52) in div_half_even x q * q.
Definition f64 (x : Z) : Z := if x <? 0 then - f64_pos (- x) else f64_pos x.

(** ** Redis *)

(** The sorted-set commands the pipeline uses; [live t] is the value of a key at
    the server's time [t], after lazy expiration. *)
Class RedisCommands := {
  ZREMRANGEBYSCORE : Z -> zset -> zset;       (* from -inf to the given maximum *)
  ZCARD : zset -> Z;
  ZADD : Z -> Z -> zset -> zset;              (* score, member *)
  EXPIRE : gotime -> Z -> zset -> zset;       (* at a time, a number of seconds *)
  live : gotime -> option zset -> zset;
}.

(** Their documented behaviour. *)
Class RedisLaws `{RedisCommands} : Prop := {
  zrem_entries : forall mx z m, z_entries (ZREMRANGEBYSCORE mx z) !! m =
    match z_entries z !! m with Some s => if s <=? mx then None else Some s | None => None end;
  zcard_size : forall z, ZCARD z = Z.of_nat (size (z_entries z));
  zadd_entries : forall s m z, z_entries (ZADD s m z) = <[m := s]> (z_entries z);
  expire_entries : forall t secs z, 0 < secs -> z_entries (EXPIRE t secs z) = z_entries z;
  expire_at : forall t secs z, 0 < secs -> z_expire (EXPIRE t secs z) = Some (t + secs * Second);
  live_none : forall t, z_entries (live t None) = ∅;
  live_kept : forall t z, (forall e, z_expire z = Some e -> t < e) -> live t (Some z) = z;
  live_expired : forall t z e, z_expire z = Some e -> e <= t -> z_entries (live t (Some z)) = ∅;
}.

Section RateLimit.
Context `{Env} `{RedisCommands}.

(** The bounds of ZREMRANGEBYSCORE travel as decimal text and are read as
    doubles; EXPIRE takes whole seconds. *)
Definition AllowKey (key : string) (window cap : Z) : M bool :=
  t ← now;
  let windowStart := t - window in
  let score := f64 t in
  count ← or_else (external (fun _ w =>
      let z := live (w_now w) (w_redis w !! key) in
      let z1 := ZREMRANGEBYSCORE (f64 windowStart) z in
      let z2 := ZADD score score z1 in
      let z3 := EXPIRE (w_now w) ((window + Second) / Second) z2 in
      (Ok (ZCARD z1), set_redis (fun r => <[key := z3]> r) w)))
    (EWrap "ratelimit pipeline");
  mret (count <? cap).

Definition Allow (userID : string) (channel : Channel) (window cap : Z) : M bool :=
  AllowKey ("ratelimit:" +:+ userID +:+ ":" +:+ channel) window cap.
End RateLimit.

(** ** The abstract limiter: a log of attempts *)

Definition in_window (window t a : Z) : bool := f64 (t - window) <? f64 a.
Definition window_set (window t : Z) (log : list Z) : gset Z :=
  list_to_set (f64 <$> where_ (in_window window t) log).
Definition window_count (window t : Z) (log : list Z) : Z := Z.of_nat (size (window_set window t log)).

(** ** Rounding is monotone *)

Lemma div_half_even_bounds x q : 0 < q -> 2 * (x - q * div_half_even x q) <= q /\ 2 * (q * div_half_even x q - x) <= q.
Proof.
  intros Hq. unfold div_half_even. pose proof (Z.div_mod x q). pose proof (Z.mod_pos_bound x q Hq).
  destruct (Z.ltb_spec (2 * (x mod q)) q); [nia|].
  destruct (Z.ltb_spec q (2 * (x mod q))); [nia|]. destruct (Z.even (x / q)); nia.
Qed.

Lemma div_half_even_mono x y q : 0 < q -> x <= y -> div_half_even x q <= div_half_even y q.
Proof.
  intros Hq Hxy. destruct (decide (div_half_even x q <= div_half_even y q)) as [|Hn]; [done|exfalso].
  pose proof (div_half_even_bounds x q Hq). pose proof (div_half_even_bounds y q Hq).
  assert (x = y) as ->; [|lia].
  assert (div_half_even y q + 1 <= div_half_even x q) by lia. nia.
Qed.

Lemma div_half_even_exact k q : 0 < q -> div_half_even (k * q) q = k.
Proof.
  intros Hq. unfold div_half_even. rewrite Z.mod_mul, Z.div_mul by lia.
  by destruct (Z.ltb_spec (2 * 0) q); [|lia].
Qed.

Lemma f64_pos_binade x : 0 < x -> 2 ^ Z.log2 x <= f64_pos x <= 2 ^ (Z.log2 x + 1).
Proof.
  intros Hx. unfold f64_pos. set (k := Z.log2 x). set (e := Z.max 0 (k - 52)). set (q := 2 ^ e).
  pose proof (Z.log2_nonneg x). pose proof (Z.log2_spec x Hx) as [Hlo Hhi]. fold k in Hlo, Hhi.
  assert (0 < q) as Hq by (apply Z.pow_pos_nonneg; lia).
  assert (forall j, e <= j -> 2 ^ j = 2 ^ (j - e) * q) as Hpow.
  { intros j Hj. unfold q. rewrite <-Z.pow_add_r by lia. f_equal. lia. }
  assert (e <= k) by (unfold e, k; lia).
  rewrite (Hpow k), (Hpow (k + 1)) by lia. replace (Z.succ k) with (k + 1) in Hhi by lia.
  rewrite (Hpow (k + 1)) in Hhi by lia. rewrite (Hpow k) in Hlo by lia. split.
  - apply Z.mul_le_mono_nonneg_r; [lia|]. rewrite <-(div_half_even_exact (2 ^ (k - e)) q) by done.
    by apply div_half_even_mono.
  - apply Z.mul_le_mono_nonneg_r; [lia|]. rewrite <-(div_half_even_exact (2 ^ (k + 1 - e)) q) by done.
    apply div_half_even_mono; lia.
Qed.

Lemma f64_pos_mono x y : 0 <= x -> x <= y -> f64_pos x <= f64_pos y.
Proof.
  intros Hx Hxy. destruct (decide (x = 0)) as [->|].
  { assert (f64_pos 0 = 0) as -> by done. destruct (decide (y = 0)) as [->|]; [done|].
    pose proof (f64_pos_binade y ltac:(lia)). pose proof (Z.pow_pos_nonneg 2 (Z.log2 y)).
    pose proof (Z.log2_nonneg y). lia. }
  destruct (decide (Z.log2 x = Z.log2 y)) as [E|Hne].
  - unfold f64_pos. rewrite E. set (q := 2 ^ _). assert (0 < q) by (apply Z.pow_pos_nonneg; lia).
    apply Z.mul_le_mono_nonneg_r; [lia|]. by apply div_half_even_mono.
  - pose proof (Z.log2_le_mono x y Hxy).
    pose proof (f64_pos_binade x ltac:(lia)). pose proof (f64_pos_binade y ltac:(lia)).
    assert (2 ^ (Z.log2 x + 1) <= 2 ^ Z.log2 y) by (apply Z.pow_le_mono_r; lia). lia.
Qed.

Lemma f64_pos_nonneg x : 0 <= x -> 0 <= f64_pos x.
Proof. intros. by apply (f64_pos_mono 0 x). Qed.

Lemma f64_mono x y : x <= y -> f64 x <= f64 y.
Proof.
  intros Hxy. unfold f64. destruct (Z.ltb_spec x 0), (Z.ltb_spec y 0); try lia.
  - pose proof (f64_pos_mono (- y) (- x)). lia.
  - pose proof (f64_pos_nonneg (- x)). pose proof (f64_pos_nonneg y). lia.
  - by apply f64_pos_mono.
Qed.

(** ** Refinement *)

(** The sorted set of [key] holds what the abstract log [log] still counts:
    every member is an attempt, and every attempt is a member that outlives its
    window or has left the window. *)
Record limiter_inv (key : string) (window : Z) (log : list Z) (w : world) : Prop := MkLimiterInv {
  lim_past : forall a, a ∈ log -> a <= w_now w;
  lim_sound : forall z m s, w_redis w !! key = Some z -> z_entries z !! m = Some s ->
                s = m /\ exists a, a ∈ log /\ f64 a = m;
  lim_complete : forall a, a ∈ log ->
      (exists z e, w_redis w !! key = Some z /\ z_entries z !! f64 a = Some (f64 a)
                   /\ z_expire z = Some e /\ a + window + Second <= e)
      \/ in_window window (w_now w) a = false;
}.

Lemma in_window_later window t t' a : t <= t' -> in_window window t a = false -> in_window window t' a = false.
Proof.
  unfold in_window. rewrite !Z.ltb_ge. intros Ht Ha.
  pose proof (f64_mono (t - window) (t' - window) ltac:(lia)). lia.
Qed.

Lemma out_of_window window t a : a <= t - window -> in_window window t a = false.
Proof. unfold in_window. rewrite Z.ltb_ge. intros Ha. by apply f64_mono. Qed.

Lemma elem_of_window_set window t log x :
  x ∈ window_set window t log <-> exists a, a ∈ log /\ in_window window t a = true /\ f64 a = x.
Proof.
  unfold window_set. rewrite elem_of_list_to_set, list_elem_of_fmap.
  setoid_rewrite elem_of_where. naive_solver.
Qed.

Section Refinement.
Context `{Env} `{RedisLaws}.
Variable (key : string) (window cap : Z).
Hypothesis window_pos : 0 <= window.

(** The sorted set the pipeline works on and the one it leaves. *)
Definition pruned (t s : Z) (w : world) : zset :=
  ZREMRANGEBYSCORE (f64 (t - window)) (live s (w_redis w !! key)).
Definition recorded (t s : Z) (w : world) : zset :=
  EXPIRE s ((window + Second) / Second) (ZADD (f64 t) (f64 t) (pruned t s w)).

Lemma ttl_pos : 0 < (window + Second) / Second.
Proof. apply Z.div_str_pos. unfold Second, ns_per_s. lia. Qed.
Lemma ttl_covers : window mod Second = 0 -> (window + Second) / Second * Second = window + Second.
Proof.
  intros Hm. replace (window + Second) with (window + 1 * Second) by lia.
  rewrite Z.div_add by done. pose proof (Z.div_mod window Second ltac:(done)). lia.
Qed.

(** The entries left after eviction are the attempts in the window. *)
Lemma pruned_entries t s w log m :
  limiter_inv key window log w -> w_now w = t -> t <= s < t + Second ->
  z_entries (pruned t s w) !! m = if decide (m ∈ window_set window t log) then Some m else None.
Proof.
  intros [Hpast Hsound Hcomplete] Ht Hs. unfold pruned. rewrite zrem_entries.
  assert (forall a, a ∈ log -> in_window window t a = true ->
    z_entries (live s (w_redis w !! key)) !! f64 a = Some (f64 a)) as Hkept.
  { intros a Ha Hw. destruct (Hcomplete a Ha) as [(z & e & Hz & Hm & He & Hle)|Hout]; [|congruence].
    rewrite Hz, live_kept; [done|]. intros e' He'. rewrite He in He'. injection He' as <-.
    destruct (decide (s < e)) as [|Hge]; [done|exfalso].
    rewrite out_of_window in Hw; [done|lia]. }
  assert (forall m' x, z_entries (live s (w_redis w !! key)) !! m' = Some x ->
    x = m' /\ exists a, a ∈ log /\ f64 a = m') as Hlive.
  { intros m' x Hx. destruct (w_redis w !! key) as [z|] eqn:Hz; [|by rewrite live_none in Hx].
    destruct (z_expire z) as [e|] eqn:He.
    - destruct (decide (s < e)) as [Hlt|Hge].
      + rewrite live_kept in Hx; [by eapply Hsound|]. intros e' ?. congruence.
      + rewrite (live_expired s z e) in Hx; [done|done|lia].
    - rewrite live_kept in Hx; [by eapply Hsound|]. congruence. }
  destruct (decide (m ∈ window_set window t log)) as [Hin|Hout].
  - apply elem_of_window_set in Hin as (a & Ha & Hw & <-). rewrite (Hkept a Ha Hw).
    unfold in_window in Hw. apply Z.ltb_lt in Hw. by destruct (Z.leb_spec (f64 a) (f64 (t - window))); [lia|].
  - destruct (z_entries (live s (w_redis w !! key)) !! m) as [x|] eqn:Hx; [|done].
    destruct (Hlive m x Hx) as (-> & a & Ha & Hfa).
    destruct (Z.leb_spec m (f64 (t - window))); [done|]. destruct Hout.
    apply elem_of_window_set. exists a. split; [done|]. split; [|done].
    unfold in_window. apply Z.ltb_lt. lia.
Qed.

Lemma pruned_count t s w log :
  limiter_inv key window log w -> w_now w = t -> t <= s < t + Second ->
  ZCARD (pruned t s w) = window_count window t log.
Proof.
  intros Hi Ht Hs. rewrite zcard_size. unfold window_count. f_equal.
  rewrite <-(size_dom (z_entries (pruned t s w))). f_equal. apply set_eq. intros m.
  rewrite elem_of_dom, (pruned_entries t s w log m Hi Ht Hs). destruct (decide _); split; try done; eauto.
Qed.

Hypothesis window_seconds : window mod Second = 0.

(** Recording an attempt extends the log. *)
Lemma recorded_inv t s w w' log :
  limiter_inv key window log w -> w_now w = t -> t <= s < t + Second ->
  w_now w' = s -> w_redis w' !! key = Some (recorded t s w) ->
  limiter_inv key window (log ++ [t]) w'.
Proof.
  intros Hi Ht Hs Hn' Hr'. pose proof ttl_pos as Hpos. pose proof (ttl_covers window_seconds) as Httl.
  assert (forall m, z_entries (recorded t s w) !! m =
    if decide (m = f64 t \/ m ∈ window_set window t log) then Some m else None) as Hrec.
  { intros m. unfold recorded. rewrite expire_entries, zadd_entries by done.
    destruct (decide (m = f64 t)) as [->|Hne];
      [by rewrite lookup_insert_eq, decide_True by auto|].
    rewrite lookup_insert_ne, (pruned_entries t s w log m Hi Ht Hs) by done.
    destruct (decide (m ∈ _)); [rewrite decide_True by auto|rewrite decide_False by naive_solver]; done. }
  destruct Hi as [Hpast Hsound Hcomplete]. split.
  - intros a Ha. apply elem_of_app in Ha as [Ha|Ha]; [specialize (Hpast a Ha); lia|].
    apply list_elem_of_singleton in Ha. lia.
  - intros z m x Hz Hm. rewrite Hr' in Hz. injection Hz as <-. rewrite Hrec in Hm.
    destruct (decide _) as [[->|Hin]|]; [..|done]; injection Hm as <-; split; try done.
    + exists t. split; [set_solver|done].
    + apply elem_of_window_set in Hin as (a & Ha & _ & <-). exists a. split; [set_solver|done].
  - assert (forall a, a <= s -> f64 a = f64 t \/ f64 a ∈ window_set window t log ->
      exists z e, w_redis w' !! key = Some z /\ z_entries z !! f64 a = Some (f64 a)
                  /\ z_expire z = Some e /\ a + window + Second <= e) as Hkeep.
    { intros a Has Hm. exists (recorded t s w), (s + (window + Second) / Second * Second).
      split; [done|]. rewrite Hrec, decide_True by done. split; [done|]. split; [|lia].
      unfold recorded. by rewrite expire_at. }
    intros a Ha. apply elem_of_app in Ha as [Ha|Ha].
    + destruct (in_window window t a) eqn:Hw.
      * left. apply Hkeep; [specialize (Hpast a Ha); lia|]. right. apply elem_of_window_set. eauto.
      * right. rewrite Hn'. apply (in_window_later window t); [lia|done].
    + apply list_elem_of_singleton in Ha as ->. left. apply Hkeep; [lia|auto].
Qed.

(** One call of [AllowKey] that answers within a second: the answer is the
    abstract one, and the attempt is in the log; a failed call may or may not have
    recorded it. *)
Lemma AllowKey_refines log w :
  ev_dt (env_event (w_tick w)) < Second -> limiter_inv key window log w ->
  wp (AllowKey key window cap) (fun r w' =>
    match r with
    | Ok ok => ok = (window_count window (w_now w) log <? cap)
               /\ limiter_inv key window (log ++ [w_now w]) w'
    | Err _ => ~ faultless /\
        (limiter_inv key window log w' \/ limiter_inv key window (log ++ [w_now w]) w')
    end) w.
Proof.
  intros Hdt Hi. set (t := w_now w). set (ev := env_event (w_tick w)) in *.
  set (w1 := advance (ev_dt ev) w). set (s := w_now w1).
  assert (t <= s < t + Second) as Hs.
  { subst s w1 t. destruct w; simpl in *. unfold Second, ns_per_s in *. lia. }
  assert (w_redis w1 = w_redis w) as Hr by (subst w1; by destruct w).
  set (w2 := set_redis (fun r => <[key := recorded t s w]> r) w1).
  assert (limiter_inv key window (log ++ [t]) w2) as Hi2.
  { apply (recorded_inv t s w); [done..| |].
    - subst w2. by destruct w1.
    - subst w2. destruct w1. simpl in *. by rewrite lookup_insert_eq. }
  assert (limiter_inv key window log w1) as Hi1.
  { destruct Hi as [Hp Hs' Hc]. split; rewrite ?Hr; [..|].
    - intros a Ha. specialize (Hp a Ha). subst s t. lia.
    - done.
    - intros a Ha. destruct (Hc a Ha) as [|Hout]; [by left|right]. apply (in_window_later window t); [|done].
      subst s t. lia. }
  apply wp_bind, wp_gets, wp_bind, wp_or_else. unfold wp, external. fold ev. fold w1. fold s t.
  rewrite Hr. fold (pruned t s w). fold (recorded t s w). fold w2.
  destruct (ev_fault ev) eqn:Hfault; simpl; [|split; [|by auto]; intros Hf; specialize (Hf (w_tick w)); unfold ev in Hfault; congruence..].
  split; [|done]. by rewrite (pruned_count t s w log).
Qed.
End Refinement.

(** ** Runs *)

Section Runs.
Context `{Env} `{RedisCommands}.

(** Attempts on one key, each after some time has passed: the instants and the
    answers. *)
Fixpoint attempts (key : string) (window cap : Z) (gaps : list Z) : M (list (gotime * bool)) :=
  match gaps with
  | [] => mret []
  | g :: gaps' =>
      _ ← modify (advance g);
      t ← now;
      ok ← AllowKey key window cap;
      rest ← attempts key window cap gaps';
      mret ((t, ok) :: rest)
  end.
End Runs.

(** The answers the abstract limiter gives, from the attempts alone. *)
Fixpoint limiter_spec (window cap : Z) (log : list Z) (out : list (gotime * bool)) : Prop :=
  match out with
  | [] => True
  | (t, ok) :: out' => ok = (window_count window t log <? cap) /\ limiter_spec window cap (log ++ [t]) out'
  end.

Lemma limiter_inv_advance key window log g w :
  limiter_inv key window log w -> limiter_inv key window log (advance g w).
Proof.
  intros [Hp Hs Hc]. assert (w_now w <= w_now (advance g w)) by (destruct w; simpl; lia).
  assert (w_redis (advance g w) = w_redis w) as Hr by by destruct w. split; rewrite ?Hr; [..|].
  - intros a Ha. specialize (Hp a Ha). lia.
  - done.
  - intros a Ha. destruct (Hc a Ha) as [|Ho]; [by left|right]. by eapply in_window_later.
Qed.

Section RunsRefine.
Context `{Env} `{RedisLaws}.

Lemma attempts_refine key window cap gaps log w :
  0 <= window -> window mod Second = 0 -> (forall i, ev_dt (env_event i) < Second) ->
  limiter_inv key window log w ->
  wp (attempts key window cap gaps)
     (fun r _ => match r with Ok out => limiter_spec window cap log out | Err _ => ~ faultless end) w.
Proof.
  intros Hw0 Hws Hdt. revert log w. induction gaps as [|g gaps IH]; intros log w Hi; [done|].
  cbn [attempts]. apply wp_bind, wp_modify, wp_bind, wp_gets, wp_bind.
  pose proof (limiter_inv_advance _ _ _ g _ Hi) as Hi'.
  eapply wp_mono; [by apply (AllowKey_refines key window cap Hw0 Hws log)|].
  intros [ok|e] w'; [|by intros []]. intros [Hok Hinv]. apply wp_bind. eapply wp_mono; [by apply IH|].
  intros [out|e] w''; [|done]. intros Hspec. apply wp_ret. done.
Qed.
End RunsRefine.

(** C11. The Redis limiter refines the abstract sliding-window log: over any run of
    attempts on a key (a window of whole seconds, calls that return within a
    second), each answer is "fewer than [cap] distinct recorded attempts lie in the
    window", expiry and eviction of the sorted set notwithstanding; there is no answer
    only when a call fails. *)
Theorem rate_limiter_refines_log `{Env} `{RedisLaws} key window cap gaps w :
  0 <= window -> window mod Second = 0 -> (forall i, ev_dt (env_event i) < Second) ->
  w_redis w !! key = None ->
  match (attempts key window cap gaps w).1 with
  | Ok out => limiter_spec window cap [] out
  | Err _ => ~ faultless
  end.
Proof.
  intros Hw0 Hws Hdt Hkey.
  assert (limiter_inv key window [] w) as Hi by (split; [set_solver|congruence|set_solver]).
  exact (attempts_refine key window cap gaps [] w Hw0 Hws Hdt Hi).
Qed.

(** ** What the limiter lets through *)

Lemma limiter_spec_app window cap log out1 out2 :
  limiter_spec window cap log (out1 ++ out2) ->
  limiter_spec window cap (log ++ out1.*1) out2.
Proof.
  revert log. induction out1 as [|[t ok] out1 IH]; intros log; simpl; [by rewrite app_nil_r|].
  intros [_ Ho]. specialize (IH _ Ho). by rewrite <-app_assoc in IH.
Qed.

Lemma size_window_set_NoDup window t log :
  NoDup (f64 <$> log) -> window_count window t log = Z.of_nat (length (where_ (in_window window t) log)).
Proof.
  intros Hnd. unfold window_count, window_set. rewrite size_list_to_set, length_fmap; [done|].
  eapply sublist_NoDup; [exact Hnd|]. apply fmap_sublist. unfold where_.
  clear. induction log as [|x l IH]; simpl; [done|]. destruct (in_window window t x); by constructor.
Qed.

Lemma length_where_le {A} (P Q : A -> bool) l :
  (forall x, P x = true -> Q x = true) -> (length (where_ P l) <= length (where_ Q l))%nat.
Proof.
  intros HPQ. unfold where_. induction l as [|x l IH]; simpl; [done|].
  destruct (P x) eqn:E; [rewrite (HPQ x E); simpl; lia|]. destruct (Q x); simpl; lia.
Qed.

Lemma length_where_fmap {A B} (f : A -> B) (P : B -> bool) l :
  length (where_ P (f <$> l)) = length (where_ (fun x => P (f x)) l).
Proof. unfold where_. induction l as [|x l IH]; csimpl; [done|]. destruct (P (f x)); simpl; by rewrite IH. Qed.

(** C12. The cap holds: in a run of attempts recorded at distinct scores, whenever an
    attempt is let through, at most [cap] attempts (itself included) were let
    through in the window that ends with it. *)
Theorem rate_limiter_caps_window `{Env} `{RedisLaws} key window cap gaps w out w' pre t post :
  0 <= window -> window mod Second = 0 -> (forall i, ev_dt (env_event i) < Second) ->
  w_redis w !! key = None ->
  attempts key window cap gaps w = (Ok out, w') ->
  out = pre ++ (t, true) :: post -> NoDup (f64 <$> out.*1) ->
  Z.of_nat (length (where_ (fun a => a.2 && in_window window t a.1) pre)) + 1 <= cap.
Proof.
  intros Hw0 Hws Hdt Hkey Hrun -> Hnd.
  assert (limiter_inv key window [] w) as Hi by (split; [set_solver|congruence|set_solver]).
  pose proof (wp_run _ _ _ _ _ (attempts_refine key window cap gaps [] w Hw0 Hws Hdt Hi) Hrun) as Hspec.
  simpl in Hspec. apply limiter_spec_app in Hspec as [Hok _]. simpl in Hok. symmetry in Hok.
  apply Z.ltb_lt in Hok. rewrite size_window_set_NoDup, length_where_fmap in Hok.
  - pose proof (length_where_le (fun a : Z * bool => a.2 && in_window window t a.1)
      (fun a => in_window window t a.1) pre) as Hle.
    assert (forall x : Z * bool, x.2 && in_window window t x.1 = true -> in_window window t x.1 = true)
      as Himp by (by intros x [_ ?]%andb_true_iff). specialize (Hle Himp). lia.
  - rewrite !fmap_app in Hnd. by apply NoDup_app in Hnd as [? _].
Qed.

(** ** A reference Redis, for evaluation *)

Definition redis_ref : RedisCommands := {|
  ZREMRANGEBYSCORE mx z := MkZset (filter (fun kv => mx < kv.2) (z_entries z)) (z_expire z);
  ZCARD z := Z.of_nat (size (z_entries z));
  ZADD s m z := MkZset (<[m := s]> (z_entries z)) (z_expire z);
  EXPIRE t secs z := MkZset (z_entries z) (Some (t + secs * Second));
  live t o := match o with
              | None => MkZset ∅ None
              | Some z => match z_expire z with
                          | Some e => if e <=? t then MkZset ∅ None else z
                          | None => z
                          end
              end |}.
Lemma redis_ref_laws : @RedisLaws redis_ref.
Proof.
  split; simpl; try done.
  - intros mx z m. destruct (z_entries z !! m) as [s|] eqn:E.
    + destruct (Z.leb_spec s mx).
      * apply map_lookup_filter_None. right. intros x Hx. simplify_eq. simpl. lia.
      * apply map_lookup_filter_Some. split; [done|]. simpl. lia.
    + apply map_lookup_filter_None. by left.
  - intros t z Hz. destruct (z_expire z) as [e|]; [|done]. specialize (Hz e eq_refl).
    by destruct (Z.leb_spec e t); [lia|].
  - intros t z e -> He. by destruct (Z.leb_spec e t); [|lia].
Qed.

(** Three attempts a minute apart under a cap of two per hour. *)
Definition demo_attempts := @attempts calm redis_ref "k" Hour 2 [Minute; Minute; Minute] empty_world.

Lemma rate_limiter_refines_log_witness : exists out,
  demo_attempts.1 = Ok out /\ out.*2 = [true; true; false] /\ limiter_spec Hour 2 [] out.
Proof.
  assert (match demo_attempts.1 with Ok l => l.*2 = [true; true; false] | Err _ => False end) as Hout
    by (vm_compute; reflexivity).
  pose proof (@rate_limiter_refines_log calm redis_ref redis_ref_laws "k" Hour 2 [Minute; Minute; Minute]
           empty_world) as Hr. fold demo_attempts in Hr.
  destruct demo_attempts.1 as [out|e]; [|contradiction]. exists out.
  split; [reflexivity|]. split; [exact Hout|]. apply Hr.
  - done.
  - reflexivity.
  - intros i. reflexivity.
  - reflexivity.
Defined.

Lemma rate_limiter_caps_window_witness : exists pre t post,
  demo_attempts.1 = Ok (pre ++ (t, true) :: post) /\
  Z.of_nat (length (where_ (fun a => a.2 && in_window Hour t a.1) pre)) + 1 <= 2.
Proof.
  eexists [_], _, [_]. split; [vm_compute; reflexivity|].
  eapply (@rate_limiter_caps_window calm redis_ref redis_ref_laws "k" Hour 2 [Minute; Minute; Minute]
           empty_world _ demo_attempts.2).
  - done.
  - reflexivity.
  - intros i. reflexivity.
  - reflexivity.
  - vm_compute. reflexivity.
  - reflexivity.
  - apply (bool_decide_unpack _). vm_compute. exact I.
Defined.

(** A schedule whose calls take ten nanoseconds. *)
Definition burst : Env := fun i => Event 10 NoFault (N.of_nat (S i)) false.

(** The member of an attempt is not unique per entry: attempts at different
    nanoseconds that round to the same float64 overwrite each other, so under a cap
    of two per hour five attempts at five different times are all allowed. *)
Theorem rate_limiter_members_collide :
  let '(out, _) := @attempts burst redis_ref "k" Hour 2 [1700000000000000000; 0; 0; 0; 0] empty_world in
  exists l, out = Ok l /\ NoDup l.*1 /\ l.*2 = [true; true; true; true; true].
Proof.
  vm_compute. eexists. split; [reflexivity|]. split; [|reflexivity].
  apply (bool_decide_unpack _). vm_compute. exact I.
Qed.
