(* ===== verification/Preference.v ===== *)
(** * Preferences ([internal/service/preference.go])

    The preference service and the quiet-hours test.  A time zone is the function
    from an instant to its offset east of UTC; the zone database behind
    [time.LoadLocation] is a parameter. *)

From S2P Require Import Prelude Time Domain Json World Db Repository Schema.

(** A [*time.Location]: the offset in seconds at a Unix second. *)
Definition location : Type := Z -> Z.
Definition UTC : location := fun _ => 0.

Class TimeZones := LoadLocation : string -> option location.

(** [t.In(loc)]: the wall clock, as the instant whose UTC clock shows it. *)
Definition In_loc (loc : location) (t : gotime) : gotime := t + loc (unix_s t) * ns_per_s.

(** [time.Date(y, m, d, hour, min, 0, 0, loc)]: the wall clock read in UTC, less
    the offset in force; near a transition the offset is looked up again. *)
Definition Date (y m d hour min : Z) (loc : location) : gotime :=
  let unix := days_from_civil y m d * day_s + hour * 3600 + min * 60 in
  (unix - loc (unix - loc unix)) * ns_per_s.

(** [inQuietHours], at the instant [t]. *)
Definition inQuietHours `{TimeZones} (start end_ : string) (timezone : string) (t : gotime) : bool :=
  let loc := default UTC (LoadLocation timezone) in
  let wall := In_loc loc t in
  match parse_15_04 start with
  | None => false
  | Some s =>
      match parse_15_04 end_ with
      | None => false
      | Some e =>
          let '(y, m, d) := Date_of wall in
          let startToday := Date y m d s.1 s.2 loc in
          let endToday := Date y m d e.1 e.2 loc in
          if startToday <=? endToday
          then (startToday <=? t) && (t <? endToday)
          else (startToday <=? t) || (t <? endToday)
      end
  end.

Section Service.
Context `{Env} `{TimeZones}.

Definition PreferenceService_Get (tenantID : uuid) (userID : string) (channel : Channel) : M Preference :=
  PreferenceRepo_Get tenantID userID channel.

Definition PreferenceService_ListByUser (tenantID : uuid) (userID : string) : M (list Preference) :=
  PreferenceRepo_ListByUser tenantID userID.

Definition PreferenceService_Upsert (tenantID : uuid) (userID : string) (channel : Channel)
    (req : UpsertPreferenceRequest) : M Preference :=
  match validate_Struct req with
  | Some err => throw (toValidationError err)
  | None => PreferenceRepo_Upsert tenantID userID channel req
  end.

Definition PreferenceService_Delete (tenantID : uuid) (userID : string) (channel : Channel) : M unit :=
  PreferenceRepo_Delete tenantID userID channel.

(** The type assertion to [domain.AppError] succeeds with code NOT_FOUND. *)
Definition is_not_found (err : error) : bool :=
  match err with EApp code _ _ _ => bool_decide (code = ErrCodeNotFound) | _ => false end.

Definition IsAllowed (tenantID : uuid) (userID : string) (channel : Channel) : M (bool * string) :=
  r ← try (PreferenceRepo_Get tenantID userID channel);
  match r with
  | Err err => if is_not_found err then mret (true, "") else throw err
  | Ok pref =>
      if negb (p_Enabled pref) then mret (false, "channel disabled by user")
      else
        match p_QuietHoursStart pref, p_QuietHoursEnd pref with
        | Some s, Some e =>
            t ← now;
            if inQuietHours s e (p_Timezone pref) t then mret (false, "quiet hours active")
            else mret (true, "")
        | _, _ => mret (true, "")
        end
  end.
End Service.

(** ** The text of a TIME column *)

Lemma parse_format_15_04 h m :
  0 <= h < 24 -> 0 <= m < 60 -> parse_15_04 (format_15_04 (h, m)) = Some (h, m).
Proof.
  intros Hh Hm. unfold format_15_04, parse_15_04. cbn [put_digits fst snd].
  change (10 ^ Z.of_nat 1) with 10. change (10 ^ Z.of_nat 0) with 1. rewrite !Z.div_1_r.
  assert (0 <= h / 10 < 10) by (split; [apply Z.div_pos|apply Z.div_lt_upper_bound]; lia).
  assert (0 <= m / 10 < 10) by (split; [apply Z.div_pos|apply Z.div_lt_upper_bound]; lia).
  pose proof (Z.mod_pos_bound h 10). pose proof (Z.mod_pos_bound m 10).
  rewrite (Z.mod_small (h / 10)), (Z.mod_small (m / 10)) by done.
  rewrite !digit_val_char by lia. cbn [mbind option_bind].
  rewrite <-!Z.div_mod by lia.
  by rewrite (proj2 (Z.ltb_lt h 24)), (proj2 (Z.ltb_lt m 60)) by lia.
Qed.

Lemma parse_15_04_range s h m : parse_15_04 s = Some (h, m) -> 0 <= h < 24 /\ 0 <= m < 60.
Proof.
  assert (forall c d, digit_val c = Some d -> 0 <= d < 10) as Hd.
  { intros c d. unfold digit_val. case_match eqn:E; [|done]. intros [= <-]. lia. }
  unfold parse_15_04. intros Hp. repeat (case_match; simplify_option_eq); try done;
    repeat match goal with H : digit_val _ = Some _ |- _ => apply Hd in H end;
    repeat match goal with H : _ && _ = true |- _ => apply andb_true_iff in H as [?%Z.ltb_lt ?%Z.ltb_lt] end;
    lia.
Qed.

(** ** Quiet hours *)

(** The intended meaning: the local time of day, in nanoseconds since midnight,
    lies in the window [start, end), which may span midnight. *)
Definition day_ns : Z := day_s * ns_per_s.
Definition of_minutes (s : Z * Z) : Z := (s.1 * 3600 + s.2 * 60) * ns_per_s.
Definition quiet (s e : Z * Z) (x : Z) : bool :=
  if of_minutes s <=? of_minutes e
  then (of_minutes s <=? x) && (x <? of_minutes e)
  else (of_minutes s <=? x) || (x <? of_minutes e).

(** The zone keeps one offset for two days around [t]. *)
Definition steady (loc : location) (t : gotime) : Prop :=
  Z.abs (loc (unix_s t)) <= day_s /\
  forall x, Z.abs (x - unix_s t) <= 2 * day_s -> loc x = loc (unix_s t).

Lemma Date_steady loc t y m d h mi :
  steady loc t -> Date_of (In_loc loc t) = (y, m, d) -> 0 <= h < 24 -> 0 <= mi < 60 ->
  Date y m d h mi loc = t - In_loc loc t mod day_ns + of_minutes (h, mi).
Proof.
  intros [Hoff Hst] HD Hh Hmi. set (c := loc (unix_s t)) in *.
  destruct (civil_roundtrip _ _ _ _ HD) as (Hdays & _ & _). unfold Date. rewrite Hdays.
  assert (unix_s (In_loc loc t) = unix_s t + c) as Hw.
  { unfold In_loc, unix_s. fold c. by rewrite Z.div_add. }
  rewrite Hw. set (D := (unix_s t + c) / day_s).
  assert (0 <= unix_s t + c - D * day_s < day_s) as HDb.
  { unfold D. pose proof (Z.div_mod (unix_s t + c) day_s ltac:(done)).
    pose proof (Z.mod_pos_bound (unix_s t + c) day_s ltac:(done)). lia. }
  set (unix := D * day_s + h * 3600 + mi * 60).
  assert (loc unix = c) as -> by (apply Hst; subst unix; unfold day_s in *; lia).
  assert (loc (unix - c) = c) as -> by (apply Hst; subst unix; unfold day_s in *; lia).
  assert (In_loc loc t mod day_ns = In_loc loc t - D * day_ns) as ->.
  { assert (In_loc loc t / day_ns = D) as <-.
    { unfold day_ns. rewrite Z.mul_comm, <-Z.div_div by done. fold (unix_s (In_loc loc t)). by rewrite Hw. }
    pose proof (Z.div_mod (In_loc loc t) day_ns ltac:(done)). lia. }
  unfold In_loc, of_minutes, day_ns. fold c. subst unix. simpl fst. simpl snd. lia.
Qed.

(** C33. Away from transitions quiet hours follow the wall clock: when the user's time zone
    (UTC for a name that is not known) keeps one offset for two days around the instant,
    [inQuietHours] is the test "the local time of day is in [start, end)", windows across
    midnight included, and false when a bound is not a time of day.  Nothing is claimed
    within two days of a transition. *)
Theorem inQuietHours_local_time `{TimeZones} start end_ timezone t :
  let loc := default UTC (LoadLocation timezone) in
  steady loc t ->
  inQuietHours start end_ timezone t =
    match parse_15_04 start, parse_15_04 end_ with
    | Some s, Some e => quiet s e (In_loc loc t mod day_ns)
    | _, _ => false
    end.
Proof.
  intros loc Hst. unfold inQuietHours. fold loc.
  destruct (parse_15_04 start) as [s|] eqn:Hs; [|done]. destruct (parse_15_04 end_) as [e|] eqn:He; [|done].
  destruct (Date_of (In_loc loc t)) as [[y m] d] eqn:HD. destruct s as [sh sm], e as [eh em].
  destruct (parse_15_04_range _ _ _ Hs), (parse_15_04_range _ _ _ He). simpl fst. simpl snd.
  rewrite (Date_steady loc t y m d sh sm), (Date_steady loc t y m d eh em) by done.
  unfold quiet. set (x := In_loc loc t mod day_ns).
  assert (forall a b, t - x + a <=? t - x + b = (a <=? b)) as Hle
    by (intros; destruct (Z.leb_spec (t - x + a) (t - x + b)), (Z.leb_spec a b); lia).
  assert (forall a, t - x + a <=? t = (a <=? x)) as Hle'
    by (intros a; destruct (Z.leb_spec (t - x + a) t), (Z.leb_spec a x); lia).
  assert (forall a, t <? t - x + a = (x <? a)) as Hlt
    by (intros a; destruct (Z.ltb_spec t (t - x + a)), (Z.ltb_spec x a); lia).
  by rewrite Hle, !Hle', !Hlt.
Qed.

(** India, five and a half hours east: 20:00 UTC is 01:30 local, inside 22:00-08:00. *)
Definition demo_zones : TimeZones := fun tz => if decide (tz = "Asia/Kolkata") then Some (fun _ => 19800) else None.
Lemma inQuietHours_local_time_witness :
  @inQuietHours demo_zones "22:00" "08:00" "Asia/Kolkata" (20 * Hour) = true
  /\ @inQuietHours demo_zones "22:00" "08:00" "Asia/Kolkata" (20 * Hour)
     = quiet (22, 0) (8, 0) (In_loc (fun _ => 19800) (20 * Hour) mod day_ns).
Proof.
  split; [vm_compute; reflexivity|].
  apply (@inQuietHours_local_time demo_zones "22:00" "08:00" "Asia/Kolkata" (20 * Hour)).
  split; [vm_compute; congruence|reflexivity].
Defined.

(** ** From Upsert to IsAllowed *)

Section EndToEnd.
Context `{Env} `{TimeZones}.

(** What the stored preference answers at the instant [t]. *)
Definition decision (p : Preference) (t : gotime) : bool * string :=
  if negb (p_Enabled p) then (false, "channel disabled by user")
  else match p_QuietHoursStart p, p_QuietHoursEnd p with
       | Some s, Some e => if inQuietHours s e (p_Timezone p) t then (false, "quiet hours active") else (true, "")
       | _, _ => (true, "")
       end.

Lemma where_update_same {A} (P : A -> bool) f t :
  (forall r, P r = true -> P (f r) = true) -> where_ P (update_where P f t) = f <$> where_ P t.
Proof.
  intros HP. unfold where_, update_where. induction t as [|x t IH]; [done|].
  rewrite fmap_cons. cbn [List.filter]. destruct (P x) eqn:E; [|by rewrite E].
  rewrite (HP x E), IH. done.
Qed.

(** After a successful upsert the row it returned is the row the key finds. *)
Lemma wp_UpsertPreference_found p w :
  is_Some (iu_TenantID p) ->
  wp (UpsertPreference p) (fun r w' =>
    match r with
    | Ok row => exists rest, where_ (pref_key (iu_TenantID p) (iu_UserID p) (iu_Channel p))
                               (preferences (w_db w')) = row :: rest
    | Err _ => True
    end) w.
Proof.
  intros [x Hx]. apply wp_sql; [done|]. intros dt u t msg. cbv zeta.
  destruct (violated _); [done|].
  set (P := pref_key (iu_TenantID p) (iu_UserID p) (iu_Channel p)).
  assert (forall id c n, P (pref_row p id c n) = true) as HP.
  { intros. unfold P, pref_key, pref_row, null_eq. simpl. rewrite Hx. by rewrite !bool_decide_eq_true_2. }
  destruct (where_ P (preferences (w_db w))) as [|r0 rs] eqn:E.
  - unfold insert_row. destruct (violated _); [done|]. split; [done|]. exists [].
    destruct w as [[a b c e f g h i j k l] ? ? ? ? ? ?]. simpl in *. rewrite where_app. fold P. rewrite E.
    unfold where_. simpl. by rewrite HP.
  - unfold update_returning. split; [done|]. rewrite E. simpl. eexists.
    destruct w as [[a b c e f g h i j k l] ? ? ? ? ? ?]. simpl in *.
    rewrite where_update_same by (intros; apply HP). by rewrite E.
Qed.

Lemma wp_Upsert_found tenant user ch req w :
  wp (PreferenceRepo_Upsert tenant user ch req) (fun r w' =>
    match r with
    | Ok p => exists row rest, p = dbPreferenceToDomain row
        /\ where_ (pref_key (Some tenant) user ch) (preferences (w_db w')) = row :: rest
    | Err _ => True
    end) w.
Proof.
  unfold PreferenceRepo_Upsert. apply wp_bind, wp_or_else.
  eapply wp_mono; [by apply wp_UpsertPreference_found|]. simpl.
  intros [row|e] w'; [|done]. intros [rest Hw]. apply wp_ret. eauto.
Qed.

End EndToEnd.

Definition mute_request : UpsertPreferenceRequest := MkUpsertPreferenceRequest false None None None None None.

