(* ===== verification/Template.v ===== *)
(** * Templates ([internal/service/template.go])

    The template service.  The engine of [text/template] is a parameter: parsing a
    template text and executing the result on a payload, either of which may fail. *)

From S2P Require Import Prelude Time Domain Json World Db Repository Schema.

Class TextTemplate := {
  parsed_template : Type;
  template_Parse : string -> string -> result parsed_template;
  template_Execute : parsed_template -> gomap -> result string;
}.

Record PreviewTemplateResponse := MkPreviewTemplateResponse { pt_Subject : string; pt_Body : string }.

Section TemplateService.
Context `{Env} `{TextTemplate}.

Definition renderTemplate (name tmplStr : string) (data : gomap) : result string :=
  match template_Parse name tmplStr with
  | Err e => Err (EWrap ("parse template " +:+ name) e)
  | Ok t =>
      match template_Execute t data with
      | Err e => Err (EWrap ("execute template " +:+ name) e)
      | Ok s => Ok s
      end
  end.

Definition TemplateService_Create (tenantID : uuid) (req : CreateTemplateRequest) : M Template :=
  match validate_Struct req with
  | Some err => throw (toValidationError err)
  | None => TemplateRepo_Create tenantID req
  end.

Definition TemplateService_GetByID (tenantID id : uuid) : M Template := TemplateRepo_GetByID tenantID id.
Definition TemplateService_GetByName (tenantID : uuid) (name : string) : M Template :=
  TemplateRepo_GetByName tenantID name.
Definition TemplateService_List (tenantID : uuid) (channel : Channel) (pg perPage : Z) : M (list Template * Z) :=
  TemplateRepo_List tenantID channel pg perPage.

Definition TemplateService_Update (tenantID id : uuid) (req : UpdateTemplateRequest) : M Template :=
  match validate_Struct req with
  | Some err => throw (toValidationError err)
  | None => TemplateRepo_Update tenantID id req
  end.

Definition TemplateService_Delete (tenantID id : uuid) : M Template := TemplateRepo_Delete tenantID id.

(** [PreviewTemplateRequest] holds the payload, which its tag requires. *)
Definition Preview (tenantID id : uuid) (payload : gomap) : M PreviewTemplateResponse :=
  match payload with
  | None => throw (toValidationError (EValidation [("Payload", "required")] "validation failed"))
  | Some _ =>
      tmpl ← TemplateRepo_GetByID tenantID id;
      body ← lift (match renderTemplate "body" (t_BodyTemplate tmpl) payload with
                   | Ok b => Ok b
                   | Err e => Err (NewValidationError "failed to render body template"
                                     (Some {["error" := AStr (Error e)]}))
                   end);
      match t_SubjectTemplate tmpl with
      | None => mret (MkPreviewTemplateResponse "" body)
      | Some st =>
          subject ← lift (match renderTemplate "subject" st payload with
                          | Ok s => Ok s
                          | Err e => Err (NewValidationError "failed to render subject template"
                                            (Some {["error" := AStr (Error e)]}))
                          end);
          mret (MkPreviewTemplateResponse subject body)
      end
  end.

(** The deferred observation happens on every return. *)
Definition Render (tenantID templateID : uuid) (payload : gomap) : M (string * string) :=
  r ← try (
    tmpl ← TemplateRepo_GetByID tenantID templateID;
    body ← or_else (lift (renderTemplate "body" (t_BodyTemplate tmpl) payload))
             (NewInternalError "failed to render body template");
    match t_SubjectTemplate tmpl with
    | None => mret ("", body)
    | Some st =>
        subject ← or_else (lift (renderTemplate "subject" st payload))
                    (NewInternalError "failed to render subject template");
        mret (subject, body)
    end);
  _ ← Observe "TemplateRenderDur" [];
  lift r.
End TemplateService.

(** An engine without actions, for evaluation. *)
Definition plain_text : TextTemplate :=
  {| parsed_template := string; template_Parse := fun _ s => Ok s; template_Execute := fun s _ => Ok s |}.

(** What a preview shows is what a delivery renders: for every template and
    payload, [Preview] and [Render] succeed together and then give the same subject and
    body, and neither changes the database. *)
Theorem Preview_agrees_with_Render `{Env} `{TextTemplate} tenantID id p w :
  w_db (Preview tenantID id (Some p) w).2 = w_db w /\ w_db (Render tenantID id (Some p) w).2 = w_db w /\
  match (Preview tenantID id (Some p) w).1, (Render tenantID id (Some p) w).1 with
  | Ok r, Ok (subject, body) => pt_Subject r = subject /\ pt_Body r = body
  | Err _, Err _ => True
  | _, _ => False
  end.
Proof.
  split; [apply (frame (f := w_db)); unfold Preview, TemplateRepo_GetByID; apply _|].
  split; [apply (frame (f := w_db)); unfold Render, TemplateRepo_GetByID, Observe; apply _|].
  unfold Preview, Render, mbind, ST_bind, try, or_else, lift.
  destruct (TemplateRepo_GetByID tenantID id w) as [[tmpl|e] w1]; [|done].
  destruct (renderTemplate "body" _ _) as [body|e]; [|done].
  destruct (t_SubjectTemplate tmpl) as [st|]; [|done]. by destruct (renderTemplate "subject" _ _).
Qed.
