(* ===== verification/Notification.v ===== *)
(** * Sending ([internal/service/notification.go], [scheduler.go])

    [Send] with its validation, idempotency check, insert, publish and status
    update, [SendBulk], the queries, and the scheduler's polling step. *)

From S2P Require Import Prelude Time Domain Json World Db Repository Schema Queue.

Section NotificationService.
Context `{Env} `{UuidText} `{Propagator}.

(** The service's configured retry budget. *)
Variable maxRetries : Z.

Definition message_of (tenantID : uuid) (n : Notification) (t : gotime) : Message :=
  {| m_NotificationID := n_ID n; m_TenantID := tenantID; m_Channel := n_Channel n;
     m_RecipientID := n_RecipientID n; m_RecipientAddress := n_RecipientAddress n;
     m_TemplateID := n_TemplateID n; m_Payload := n_Payload n; m_Priority := n_Priority n;
     m_Attempt := 1; m_MaxAttempts := maxRetries; m_EnqueuedAt := t |}.

Definition enqueue (tenantID : uuid) (n : Notification) : M unit :=
  t ← now;
  data ← or_else (lift (Marshal (message_of tenantID n t))) (EWrap "marshal notification message");
  Queue.Publish (TopicForChannel (n_Channel n)) (n_RecipientID n) (BJson data).

(** The tail of [Send]: insert, then queue unless scheduled for later. *)
Definition create_and_enqueue (tenantID : uuid) (req : SendRequest) : M Notification :=
  n ← NotificationRepo_Create tenantID req;
  t ← now;
  if match sr_ScheduledAt req with Some at_ => t <? at_ | None => false end then mret n
  else
    _ ← or_else (enqueue tenantID n) (EWrap "enqueue notification");
    _ ← Inc "NotifEnqueued" [n_Channel n];
    NotificationRepo_UpdateStatus (n_ID n) StatusQueued.

Definition Send (tenantID : uuid) (req : SendRequest) : M Notification :=
  match validate_Struct req with
  | Some err => throw (toValidationError err)
  | None =>
      existing ← match sr_IdempotencyKey req with
                 | Some key => if decide (key = "") then mret None
                               else NotificationRepo_GetByIdempotencyKey tenantID key
                 | None => mret None
                 end;
      match existing with
      | Some n => mret n
      | None => create_and_enqueue tenantID req
      end
  end.

(** [maps.Copy(merged, base); maps.Copy(merged, override)] *)
Definition merge_payload (base override : gomap) : gmap string any :=
  default ∅ override ∪ default ∅ base.

Definition single_request (req : BulkSendRequest) (r : Recipient) : SendRequest :=
  {| sr_Type := br_Type req; sr_Channel := br_Channel req; sr_RecipientID := rc_RecipientID r;
     sr_RecipientAddress := rc_RecipientAddress r; sr_TemplateID := br_TemplateID req;
     sr_Payload := Some (merge_payload (br_Payload req) (rc_Payload r));
     sr_Priority := br_Priority req; sr_IdempotencyKey := None; sr_ScheduledAt := None |}.

Fixpoint send_each (tenantID : uuid) (req : BulkSendRequest) (rs : list Recipient)
    : M (list Notification * list error) :=
  match rs with
  | [] => mret ([], [])
  | r :: rs' =>
      out ← try (Send tenantID (single_request req r));
      rest ← send_each tenantID req rs';
      match out with
      | Ok n => mret (n :: rest.1, rest.2)
      | Err e => mret (rest.1, EWrap ("recipient " +:+ rc_RecipientID r) e :: rest.2)
      end
  end.

Definition SendBulk (tenantID : uuid) (req : BulkSendRequest) : M (list Notification * list error) :=
  match validate_Struct req with
  | Some err => mret ([], [toValidationError err])
  | None => send_each tenantID req (default [] (br_Recipients req))
  end.

Definition NotificationService_GetByID (tenantID id : uuid) : M Notification :=
  NotificationRepo_GetByID tenantID id.
Definition NotificationService_List (tenantID : uuid) (filter : ListNotificationsFilter)
    : M (list Notification * Z) := NotificationRepo_List tenantID filter.
Definition NotificationService_Cancel (tenantID id : uuid) : M Notification :=
  NotificationRepo_Cancel tenantID id.

(** ** scheduler.go *)

(** The scheduler's envelope carries no tenant: [TenantID] is left at its zero
    value. *)
Definition Scheduler_enqueue (n : Notification) : M unit :=
  t ← now;
  data ← or_else (lift (Marshal (message_of uuid_nil n t))) (EWrap "marshal message");
  Queue.Publish (TopicForChannel (n_Channel n)) (n_RecipientID n) (BJson data).

Definition tick_one (n : Notification) : M unit :=
  r ← try (Scheduler_enqueue n);
  match r with
  | Err _ => mret tt
  | Ok _ => ignore (NotificationRepo_UpdateStatus (n_ID n) StatusQueued)
  end.

Definition tick (batchSize : Z) : M unit :=
  r ← try (NotificationRepo_ListDueScheduled batchSize);
  match r with
  | Err _ => mret tt
  | Ok batch => for_each batch tick_one
  end.
End NotificationService.

(** ** What each call does to the notifications and the log *)

Definition view (w : world) : list NotificationRow * list KafkaRecord :=
  (notifications (w_db w), w_kafka w).

#[global] Instance timeless_view : Timeless view.
Proof. by intros ? []. Qed.

(** The notification rows a request makes. *)
Definition new_row (tenantID : uuid) (req : SendRequest) (row : NotificationRow) : Prop :=
  exists u t, row = notification_row (create_params tenantID req) u t.

(** The status of the row with an id. *)
Definition restatus (id : uuid) (status : string) (t : gotime) : list NotificationRow -> list NotificationRow :=
  update_where (fun r => bool_decide (nr_ID r = id)) (set_status status t).

Section Calls.
Context `{Env} `{UuidTextLaws} `{Propagator}.
Variable maxRetries : Z.

Lemma wp_Create tenantID req w ns k :
  view w = (ns, k) ->
  wp (NotificationRepo_Create tenantID req) (fun r w' =>
    match r with
    | Ok n => exists row, view w' = (ns ++ [row], k) /\ n = dbNotificationToDomain row
                /\ new_row tenantID req row /\ nr_ID row ∉ nr_ID <$> ns
    | Err _ => view w' = (ns, k) \/
               exists row, view w' = (ns ++ [row], k) /\ new_row tenantID req row
    end) w.
Proof.
  intros Hv. apply wp_bind, wp_or_else, wp_sql.
  - intros dt msg. left. by rewrite (timeless dt w).
  - intros dt u t msg. unfold insert_row. destruct w as [[] ? ? ? ? ? ?]. injection Hv as <- <-.
    destruct (violated _) eqn:E; [by split; left|].
    apply violated_none in E. split; [right; eexists; split; [done|by do 2 eexists]|].
    apply wp_ret. eexists. split_and!; [done|done|by do 2 eexists|].
    apply Forall_cons in E as [E _]. by apply bool_decide_eq_true in E.
Qed.

Lemma wp_UpdateStatus id status w ns k :
  view w = (ns, k) ->
  wp (NotificationRepo_UpdateStatus id status) (fun r w' =>
    match r with
    | Ok n => exists t row rest, view w' = (restatus id status t ns, k)
                /\ where_ (fun r => bool_decide (nr_ID r = id)) ns = row :: rest
                /\ n = dbNotificationToDomain (set_status status t row)
    | Err _ => view w' = (ns, k) \/ exists t, view w' = (restatus id status t ns, k)
    end) w.
Proof.
  intros Hv. apply wp_bind, wp_or_else, wp_sql.
  - intros dt msg. left. by rewrite (timeless dt w).
  - intros dt u t msg. unfold update_returning. destruct w as [[] ? ? ? ? ? ?]. injection Hv as <- <-. simpl.
    split; [right; by eexists|].
    destruct (where_ _ _) as [|row rest] eqn:E; simpl; [right; by eexists|].
    apply wp_ret. exists t, row, rest. done.
Qed.

(** Publishing an envelope that fits: the record decodes to it. *)
Lemma wp_publish_message (m : Message) topic key pre w ns k :
  view w = (ns, k) -> message_wf m ->
  wp (data ← or_else (lift (Marshal m)) (EWrap pre); Queue.Publish topic key (BJson data)) (fun r w' =>
    match r with
    | Ok _ => exists rec, view w' = (ns, k ++ [rec]) /\ k_Topic rec = topic /\ k_Key rec = key
                /\ Unmarshal_bytes (k_Value rec) = Ok m
    | Err _ => view w' = (ns, k) \/ exists rec, view w' = (ns, k ++ [rec])
                 /\ Unmarshal_bytes (k_Value rec) = Ok m
    end) w.
Proof.
  intros Hv Hwf. apply wp_bind, wp_or_else, wp_lift. destruct (Marshal m) as [j|e] eqn:Hj; [|by left].
  pose proof (Message_json_roundtrip _ _ Hwf Hj) as Hr.
  apply wp_Publish; [intros; left; by rewrite (timeless dt w)|].
  intros dt msg. destruct w. injection Hv as <- <-. split; [right|]; eexists; split; done.
Qed.
End Calls.

Lemma restatus_last ns row status t :
  nr_ID row ∉ nr_ID <$> ns -> restatus (nr_ID row) status t (ns ++ [row]) = ns ++ [set_status status t row].
Proof.
  intros Hni. unfold restatus, update_where. rewrite fmap_app. simpl. rewrite bool_decide_eq_true_2 by done.
  f_equal. rewrite <-(list_fmap_id ns) at 2. apply list_fmap_ext. intros i x Hx. simpl.
  rewrite bool_decide_eq_false_2; [done|]. intros E. apply Hni. rewrite <-E.
  apply list_elem_of_fmap_2. by eapply list_elem_of_lookup_2.
Qed.

Lemma where_last_id ns row x rest :
  nr_ID row ∉ nr_ID <$> ns ->
  where_ (fun r => bool_decide (nr_ID r = nr_ID row)) (ns ++ [row]) = x :: rest -> x = row.
Proof.
  intros Hni. rewrite where_app.
  replace (where_ (fun r => bool_decide (nr_ID r = nr_ID row)) ns) with (@nil NotificationRow).
  - unfold where_. simpl. rewrite bool_decide_eq_true_2 by done. by intros [= <- _].
  - symmetry. apply where_nil. intros y Hy. apply bool_decide_eq_false. intros E. apply Hni.
    rewrite <-E. by apply list_elem_of_fmap_2.
Qed.

Section Lookup.
Context `{Env}.

Lemma wp_idempotency_lookup tenantID key w :
  wp (NotificationRepo_GetByIdempotencyKey tenantID key) (fun r w' => view w' = view w /\
    w_db w' = w_db w /\ w_now w <= w_now w' /\
    match r with
    | Ok (Some n) => exists row, row ∈ notifications (w_db w) /\ by_idem_tenant key tenantID row = true
                       /\ n = dbNotificationToDomain row
    | Ok None => where_ (by_idem_tenant key tenantID) (notifications (w_db w)) = []
    | Err _ => ~ faultless
    end) w.
Proof.
  apply wp_bind, wp_try, wp_sql_read_env. intros dt t msg. pose proof (timeless (f := view) dt w) as Hv.
  assert (w_db (advance dt w) = w_db w /\ w_now w <= w_now (advance dt w)) as [Hdb Hc]
    by (destruct w; simpl; split; [done|lia]).
  unfold toNullString, uuidToNullUUID. split; [|intros Hf; by apply wp_throw].
  change (fun r => by_idem_tenant key tenantID r) with (by_idem_tenant key tenantID).
  destruct (where_ _ _) as [|row rest] eqn:E; simpl; [by apply wp_ret|].
  apply wp_ret. split_and!; try done. exists row.
  assert (row ∈ where_ (by_idem_tenant key tenantID) (notifications (w_db w))) as Hin
    by (rewrite E; set_solver).
  apply elem_of_where in Hin as [? ?]. done.
Qed.
End Lookup.

Section SendLemmas.
Context `{Env} `{UuidTextLaws} `{Propagator}.
Variable maxRetries : Z.
Hypothesis maxRetries_fits : fits_int maxRetries.

(** The record [rec] carries the envelope of notification [n]. *)
Definition published_for (tenantID : uuid) (n : Notification) (rec : KafkaRecord) : Prop :=
  k_Topic rec = TopicForChannel (n_Channel n) /\ k_Key rec = n_RecipientID n /\
  exists t, Unmarshal_bytes (k_Value rec) = Ok (message_of maxRetries tenantID n t).

Lemma new_row_priority tenantID req row : new_row tenantID req row -> fits_int (nr_Priority row).
Proof.
  intros (u & t & ->). simpl. unfold fits_int. pose proof (int32_range (if sr_Priority req =? 0 then PriorityNormal else sr_Priority req)).
  lia.
Qed.

Lemma message_of_wf tenantID n t : fits_int (n_Priority n) -> message_wf (message_of maxRetries tenantID n t).
Proof. intros Hp. unfold message_wf, fits_int in *. simpl. split; [done|]. split; [lia|done]. Qed.

Lemma wp_enqueue tenantID n w ns k :
  view w = (ns, k) -> fits_int (n_Priority n) ->
  wp (enqueue maxRetries tenantID n) (fun r w' =>
    match r with
    | Ok _ => exists rec, view w' = (ns, k ++ [rec]) /\ published_for tenantID n rec
    | Err _ => view w' = (ns, k) \/ exists rec, view w' = (ns, k ++ [rec]) 
    end) w.
Proof.
  intros Hv Hp. apply wp_bind, wp_gets.
  eapply wp_mono; [by eapply (wp_publish_message _ _ _ _ w ns k Hv), message_of_wf|].
  intros [[]|e] w'; [|naive_solver].
  intros (rec & Hv' & Ht & Hk & Hu). exists rec. split; [done|]. split_and!; [done|done|eauto].
Qed.

(** The request is scheduled for after the time [s]. *)
Definition deferred (req : SendRequest) (s : gotime) : Prop := exists at_, sr_ScheduledAt req = Some at_ /\ s < at_.

(** A new notification of a send that began at [t0] over [ns] and [k]: by the clock at a
    moment of the send it is left pending when its time is still to come, and published
    and marked queued when it is not. *)
Definition sent_new (tenantID : uuid) (req : SendRequest) (t0 : gotime) (ns : list NotificationRow) (k : list KafkaRecord)
    (n : Notification) (w' : world) : Prop :=
  exists row s, new_row tenantID req row /\ nr_ID row ∉ nr_ID <$> ns /\ t0 <= s <= w_now w' /\
    ((deferred req s /\ n = dbNotificationToDomain row /\ view w' = (ns ++ [row], k)) \/
     ~ deferred req s /\
     exists t rec, n = dbNotificationToDomain (set_status StatusQueued t row)
       /\ view w' = (ns ++ [set_status StatusQueued t row], k ++ [rec])
       /\ published_for tenantID (dbNotificationToDomain row) rec).

(** A failed send left nothing, a pending row, or a row whose record is written. *)
Definition send_failed (tenantID : uuid) (req : SendRequest) (ns : list NotificationRow) (k : list KafkaRecord)
    (w' : world) : Prop :=
  view w' = (ns, k) \/
  exists row, new_row tenantID req row /\
    (view w' = (ns ++ [row], k) \/ (exists rec, view w' = (ns ++ [row], k ++ [rec])) \/
     exists t rec, view w' = (ns ++ [set_status StatusQueued t row], k ++ [rec])).

Lemma deferred_test req s :
  (if match sr_ScheduledAt req with Some at_ => s <? at_ | None => false end then deferred req s else ~ deferred req s).
Proof.
  unfold deferred. destruct (sr_ScheduledAt req) as [at_|]; [|by intros (? & ? & _)].
  destruct (Z.ltb_spec s at_); [by exists at_|]. intros (? & [= <-] & ?). lia.
Qed.

#[local] Instance clock_enqueue t tenantID n : Keeps (after t) (enqueue maxRetries tenantID n).
Proof. unfold enqueue, now. apply _. Qed.

(** What follows the INSERT of [row] for a notification that is not deferred. *)
Lemma wp_publish_and_mark tenantID req w ns k row t0 :
  view w = (ns ++ [row], k) -> t0 <= w_now w -> new_row tenantID req row -> nr_ID row ∉ nr_ID <$> ns -> ~ deferred req (w_now w) ->
  let n := dbNotificationToDomain row in
  wp (_ ← or_else (enqueue maxRetries tenantID n) (EWrap "enqueue notification");
      _ ← Inc "NotifEnqueued" [n_Channel n]; NotificationRepo_UpdateStatus (n_ID n) StatusQueued)
    (fun r w' => match r with Ok n => sent_new tenantID req t0 ns k n w' | Err _ => send_failed tenantID req ns k w' end) w.
Proof.
  intros Hv Ht0 Hnew Hni Hnow n. apply wp_bind, wp_or_else. eapply wp_mono.
  { apply wp_clock; [apply _|]. eapply wp_enqueue; [done|by eapply new_row_priority]. }
  intros [[]|e] w2 [He Hc2]; [|right; exists row; split; [done|]; destruct He as [?|[rec ?]]; [by left|right; left; by exists rec]].
  destruct He as (rec & Hv2 & Hpub). apply wp_bind, wp_modify.
  assert (forall f, view (set_metrics f w2) = view w2 /\ w_now (set_metrics f w2) = w_now w2) as Hm by (by destruct w2).
  eapply wp_mono; [apply wp_clock; [unfold NotificationRepo_UpdateStatus; apply _|eapply wp_UpdateStatus; by rewrite (proj1 (Hm _))]|].
  intros [n'|e] w3 [Hu Hc3]; rewrite (proj2 (Hm _)) in Hc3.
  - destruct Hu as (t & x & rest & Hv3 & Hx & ->). apply where_last_id in Hx as ->; [|done].
    exists row, (w_now w). do 2 (split; [done|]). split; [lia|]. right. split; [done|]. exists t, rec.
    split; [done|]. split; [by rewrite Hv3; simpl; rewrite restatus_last|done].
  - right. exists row. split; [done|]. right. destruct Hu as [Hv3|[t Hv3]]; [by left; eauto|].
    right. exists t, rec. rewrite Hv3. simpl. by rewrite restatus_last.
Qed.

Lemma wp_create_and_enqueue tenantID req w ns k :
  view w = (ns, k) ->
  wp (create_and_enqueue maxRetries tenantID req) (fun r w' =>
    match r with
    | Ok n => sent_new tenantID req (w_now w) ns k n w'
    | Err _ => send_failed tenantID req ns k w'
    end) w.
Proof.
  intros Hv. apply wp_bind. eapply wp_mono; [apply wp_clock; [unfold NotificationRepo_Create; apply _|by eapply wp_Create]|].
  intros [n|e] w1 [Hc Hc1]; [|unfold send_failed; naive_solver].
  destruct Hc as (row & Hv1 & -> & Hnew & Hni). apply wp_bind, wp_gets. pose proof (deferred_test req (w_now w1)) as Hd.
  destruct (match sr_ScheduledAt req with Some _ => _ | None => _ end).
  - apply wp_ret. exists row, (w_now w1). do 2 (split; [done|]). split; [lia|]. by left.
  - by eapply wp_publish_and_mark.
Qed.

Lemma sent_new_later tenantID req t0 t1 ns k n w' :
  t0 <= t1 -> sent_new tenantID req t1 ns k n w' -> sent_new tenantID req t0 ns k n w'.
Proof. intros Ht (row & s & ? & ? & ? & ?). exists row, s. split_and!; (done || lia). Qed.

Lemma message_marshal tenant n t : printable t -> is_ok (Marshal (message_of maxRetries tenant n t)) = true.
Proof.
  unfold printable. cbn [Marshal Message_codec message_of m_EnqueuedAt]. by destruct (time_MarshalJSON t).
Qed.

(** The INSERT of a request meets every constraint of the table. *)
Record insertable (tenantID : uuid) (req : SendRequest) (d : db) : Prop := MkInsertable {
  ins_id : forall i, ev_uuid (env_event i) ∉ nr_ID <$> notifications d;
  ins_key : forall k, sr_IdempotencyKey req = Some k ->
    varchar 255 k = true /\ Some k ∉ nr_IdempotencyKey <$> notifications d;
  ins_type : varchar 100 (sr_Type req) = true;
  ins_channel : varchar 50 (sr_Channel req) = true;
  ins_recipient : varchar 255 (sr_RecipientID req) = true;
  ins_address : varchar 500 (sr_RecipientAddress req) = true;
  ins_template : forall x, sr_TemplateID req = Some x -> x ∈ tr_ID <$> templates d;
  ins_tenant : tenant_exists d tenantID = true;
}.

Lemma insertable_checks tenantID req d i :
  insertable tenantID req d ->
  Forall (fun c => c.1 = true)
    [ fresh_id nr_ID (notifications d) (ev_uuid (env_event i));
      (from_option (varchar 255) true (sr_IdempotencyKey req), too_long);
      (varchar 100 (sr_Type req), too_long); (varchar 50 (sr_Channel req), too_long);
      (varchar 255 (sr_RecipientID req), too_long); (varchar 500 (sr_RecipientAddress req), too_long);
      (bool_decide (is_Some (toRawMessage (sr_Payload req))), "invalid input syntax for type json");
      (varchar 50 StatusPending, too_long);
      (match sr_IdempotencyKey req with
       | Some k => bool_decide (Some k ∉ nr_IdempotencyKey <$> notifications d)
       | None => true
       end, dup_key);
      (opt_fk (sr_TemplateID req) (fun x => bool_decide (x ∈ tr_ID <$> templates d)), fk_violation);
      (tenant_exists d tenantID, fk_violation) ].
Proof.
  intros [Hid Hkey ? ? ? ? Htmpl ?]. repeat constructor; simpl; try done.
  - by apply bool_decide_eq_true_2.
  - destruct (sr_IdempotencyKey req); [by apply Hkey|done].
  - destruct (sr_IdempotencyKey req); [|done]. apply bool_decide_eq_true_2. by apply Hkey.
  - destruct (sr_TemplateID req); [|done]. apply bool_decide_eq_true_2. by apply Htmpl.
Qed.

(** An acceptable request is accepted when no call fails. *)
Lemma wp_create_accepts tenantID req T w :
  faultless -> insertable tenantID req (w_db w) -> (forall t, w_now w <= t <= T -> printable t) ->
  wp (create_and_enqueue maxRetries tenantID req) (fun r w' => w_now w' <= T -> is_ok r = true) w.
Proof.
  intros Hf Hins HT. apply wp_bind, wp_bind, wp_or_else, wp_sql_env; [by intros|]. intros dt t m.
  unfold insert_row. rewrite violated_all by (by apply (insertable_checks tenantID req _ (w_tick w))).
  split; [by intros|]. apply wp_ret, wp_bind, wp_gets. 
  match goal with |- wp (if ?b then _ else _) _ _ => destruct b end; [by apply wp_ret|].
  set (row := notification_row _ _ _). set (w1 := set_db _ _).
  assert (w_now w <= w_now w1 /\ row ∈ notifications (w_db w1)) as [Hc1 Hin].
  { subst w1. destruct w as [[] ? ? ? ? ? ?]. simpl. split; [lia|set_solver]. }
  clearbody w1. apply wp_bind, wp_or_else, wp_bind, wp_gets, wp_bind, wp_or_else, wp_lift.
  destruct (Marshal _) as [j|e] eqn:Hj.
  2: { intros Hle. pose proof (message_marshal tenantID (dbNotificationToDomain row) (w_now w1)
         (HT _ (conj Hc1 Hle))) as Hok. by rewrite Hj in Hok. }
  apply wp_Publish_env; [by intros|]. intros dt2 m2. split; [by intros|]. apply wp_bind, wp_modify.
  apply wp_bind, wp_or_else, wp_sql_env; [by intros|]. intros dt3 t3 m3. unfold update_returning.
  split; [by intros|]. destruct (where_ _ _) as [|x rest] eqn:E; simpl; [|by apply wp_ret].
  exfalso. rewrite where_nil in E. destruct w1. specialize (E row Hin). simpl in E.
  by rewrite bool_decide_eq_true_2 in E.
Qed.

End SendLemmas.

(** Every outcome of [Send]. *)
Lemma Send_outcome `{Env} `{UuidTextLaws} `{Propagator} maxRetries tenantID req w :
  fits_int maxRetries ->
  let '(r, w') := Send maxRetries tenantID req w in
  match r with
  | Ok n =>
      (exists key row, sr_IdempotencyKey req = Some key /\ key <> "" /\ row ∈ notifications (w_db w)
         /\ by_idem_tenant key tenantID row = true /\ n = dbNotificationToDomain row /\ view w' = view w)
      \/ sent_new maxRetries tenantID req (w_now w) (notifications (w_db w)) (w_kafka w) n w'
  | Err _ => send_failed tenantID req (notifications (w_db w)) (w_kafka w) w' /\
      ~ (validate_Struct req = None /\ faultless /\ insertable tenantID req (w_db w)
         /\ forall t, w_now w <= t <= w_now w' -> printable t)
  end.
Proof.
  intros Hfit. apply wp_pair. unfold Send. match goal with |- wp _ ?Q0 _ => set (Q := Q0) end.
  destruct (validate_Struct req) eqn:Hval; [apply wp_throw; split; [by left|by intros [? _]]|].
  assert (forall w1, view w1 = view w -> w_db w1 = w_db w -> w_now w <= w_now w1 ->
    wp (create_and_enqueue maxRetries tenantID req) Q w1) as Hnew.
  { intros w1 Hv Hdb Hc. eapply wp_mono; [apply wp_and; [by eapply (wp_create_and_enqueue _ Hfit)|]|].
    - instantiate (1 := fun r w' => faultless -> insertable tenantID req (w_db w) ->
        (forall t, w_now w <= t <= w_now w' -> printable t) -> is_ok r = true).
      intros Hf Hins HT. rewrite <-Hdb in Hins. refine (wp_create_accepts maxRetries Hfit tenantID req _ w1 Hf Hins _ (Z.le_refl _)).
      intros t Ht. apply HT. lia.
    - intros [n|e] w' [Hs Hok]; [by right; eapply sent_new_later|]. split; [done|]. intros (_ & ? & ? & ?). by discriminate Hok. }
  apply wp_bind. destruct (sr_IdempotencyKey req) as [key|] eqn:Hk; [|apply wp_ret; apply Hnew; (done || lia)].
  destruct (decide (key = "")) as [->|Hne]; [apply wp_ret; apply Hnew; (done || lia)|].
  eapply wp_mono; [apply wp_idempotency_lookup|]. intros [[n|]|e] w1 (Hv & Hdb & Hc & Hl); [|by apply Hnew|].
  - apply wp_ret. left. destruct Hl as (row & Hin & Hby & ->). by exists key, row.
  - split; [by left|]. by intros (_ & ? & _).
Qed.

(** C3. The outcomes of [Send], under any faults.  Success is either an idempotent
    hit (an existing notification of the tenant with that key; nothing written or
    published), or one new row for the request, and by the clock at one moment of the
    send either its scheduled time is still to come, and the row is left pending and
    nothing is published, or it has none still to come, and the row is marked queued
    together with exactly one Kafka record on the channel's topic, keyed by recipient,
    that decodes to the notification's envelope.  A failure leaves at most one new row and one record, and never a row
    marked queued without a record; and a valid request that meets the table's
    constraints fails only when some call fails (or the clock leaves the years JSON can
    print). *)
Theorem Send_correct `{Env} `{UuidTextLaws} `{Propagator} maxRetries tenantID req w :
  fits_int maxRetries ->
  let '(r, w') := Send maxRetries tenantID req w in
  match r with
  | Ok n =>
      (exists key row, sr_IdempotencyKey req = Some key /\ key <> "" /\ row ∈ notifications (w_db w)
         /\ by_idem_tenant key tenantID row = true /\ n = dbNotificationToDomain row /\ view w' = view w)
      \/ sent_new maxRetries tenantID req (w_now w) (notifications (w_db w)) (w_kafka w) n w'
  | Err _ => send_failed tenantID req (notifications (w_db w)) (w_kafka w) w' /\
      ~ (validate_Struct req = None /\ faultless /\ insertable tenantID req (w_db w)
         /\ forall t, w_now w <= t <= w_now w' -> printable t)
  end.
Proof. apply Send_outcome. Qed.

(** A request of tenant 1 under a fault-free schedule. *)
Definition demo_request (key : option string) : SendRequest :=
  {| sr_Type := "welcome"; sr_Channel := ChannelEmail; sr_RecipientID := "u1";
     sr_RecipientAddress := "a@b.c"; sr_TemplateID := None; sr_Payload := Some {["body" := AStr "hi"]};
     sr_Priority := 5; sr_IdempotencyKey := key; sr_ScheduledAt := None |}.
Definition demo_send := @Send calm bits_uuid demo_trace 3 1 (demo_request (Some "k1")) demo_tenants.

Lemma Send_correct_witness :
  is_ok demo_send.1 = true /\
  match demo_send.1 with
  | Ok n => (exists key row, sr_IdempotencyKey (demo_request (Some "k1")) = Some key /\ key <> ""
               /\ row ∈ notifications (w_db demo_tenants) /\ by_idem_tenant key 1 row = true
               /\ n = dbNotificationToDomain row /\ view demo_send.2 = view demo_tenants)
            \/ @sent_new bits_uuid 3 1 (demo_request (Some "k1")) (w_now demo_tenants) (notifications (w_db demo_tenants))
                 (w_kafka demo_tenants) n demo_send.2
  | Err _ => False
  end.
Proof.
  assert (is_ok demo_send.1 = true) as Hok by (vm_compute; reflexivity). split; [exact Hok|].
  pose proof (@Send_correct calm bits_uuid bits_uuid_laws demo_trace 3 1 (demo_request (Some "k1")) demo_tenants)
    as Hc.
  unfold demo_send in *. destruct (@Send _ _ _ _ _ _ _) as [[n|e] w'].
  - apply Hc. unfold fits_int. lia.
  - discriminate Hok.
Defined.

(** ** Idempotency *)

Section Idempotency.
Context `{Env} `{UuidTextLaws} `{Propagator}.

(** A lookup that reaches the database returns the first row with the key. *)
Lemma idempotency_lookup_eq tenantID key w row rest :
  ev_fault (env_event (w_tick w)) = NoFault ->
  where_ (by_idem_tenant key tenantID) (notifications (w_db w)) = row :: rest ->
  NotificationRepo_GetByIdempotencyKey tenantID key w
    = (Ok (Some (dbNotificationToDomain row)), advance (ev_dt (env_event (w_tick w))) w).
Proof.
  intros Hnf Hrow. unfold NotificationRepo_GetByIdempotencyKey, GetNotificationByIdempotencyKey, sql_read.
  unfold mbind, ST_bind, try. rewrite external_nofault by done. cbn [toNullString uuidToNullUUID].
  unfold toNullString, uuidToNullUUID.
  replace (w_db (advance (ev_dt (env_event (w_tick w))) w)) with (w_db w) by by destruct w.
  change (fun r => by_idem_tenant key tenantID r) with (by_idem_tenant key tenantID). by rewrite Hrow.
Qed.

Lemma by_idem_new tenantID req key row status t :
  sr_IdempotencyKey req = Some key -> new_row tenantID req row ->
  by_idem_tenant key tenantID (set_status status t row) = true /\ by_idem_tenant key tenantID row = true.
Proof.
  intros Hk (u & t' & ->). unfold by_idem_tenant, null_eq. simpl. unfold toNullString.
  rewrite Hk. by rewrite !bool_decide_eq_true_2.
Qed.

(** The row a send with a key leaves first under that key is the one it returned. *)
Lemma wp_Send_keyed maxRetries tenantID req key w :
  fits_int maxRetries -> sr_IdempotencyKey req = Some key -> key <> "" ->
  wp (Send maxRetries tenantID req) (fun r w' =>
    match r with
    | Ok n => exists row rest, n = dbNotificationToDomain row
        /\ where_ (by_idem_tenant key tenantID) (notifications (w_db w')) = row :: rest
    | Err _ => True
    end) w.
Proof.
  intros Hfit Hk Hne. unfold Send. destruct (validate_Struct req); [by apply wp_throw|].
  rewrite Hk. rewrite decide_False by done. apply wp_bind, wp_bind, wp_try, wp_sql_read.
  intros dt t msg. unfold toNullString, uuidToNullUUID. split; [|by apply wp_throw].
  change (fun r => by_idem_tenant key tenantID r) with (by_idem_tenant key tenantID).
  assert (view (advance dt w) = view w) as Hv by apply timeless.
  destruct (where_ _ _) as [|row rest] eqn:E; simpl.
  - apply wp_ret. eapply wp_mono; [by eapply (wp_create_and_enqueue _ Hfit)|].
    intros [n|e] w'; [|done]. intros (row & s & Hnew & Hni & _ & Hout).
    destruct Hout as [(_ & -> & Hv')|(_ & t' & rec & -> & Hv' & _)]; injection Hv' as Hns _; rewrite Hns.
    all: rewrite where_app; rewrite E; unfold where_; simpl.
    + destruct (by_idem_new _ _ _ _ "" 0 Hk Hnew) as [_ ->]. by do 2 eexists.
    + destruct (by_idem_new _ _ _ _ StatusQueued t' Hk Hnew) as [-> _]. by do 2 eexists.
  - apply wp_ret, wp_ret. exists row, rest. split; [done|]. injection Hv as Hns _. by rewrite Hns.
Qed.
End Idempotency.

(** C4. Repeating a send with the same (non-empty) idempotency key returns the very
    notification the first send returned, and writes and publishes nothing. *)
Theorem Send_idempotent `{Env} `{UuidTextLaws} `{Propagator} maxRetries tenantID req key w n w1 :
  fits_int maxRetries -> sr_IdempotencyKey req = Some key -> key <> "" ->
  Send maxRetries tenantID req w = (Ok n, w1) ->
  ev_fault (env_event (w_tick w1)) = NoFault ->
  exists w2, Send maxRetries tenantID req w1 = (Ok n, w2) /\ w_db w2 = w_db w1 /\ w_kafka w2 = w_kafka w1.
Proof.
  intros Hfit Hk Hne Hs Hnf.
  destruct (wp_run _ _ _ _ _ (wp_Send_keyed _ tenantID _ _ w Hfit Hk Hne) Hs) as (row & rest & -> & Hrow).
  unfold Send in *. destruct (validate_Struct req); [done|]. rewrite Hk, decide_False by done.
  unfold mbind, ST_bind. rewrite (idempotency_lookup_eq _ _ _ _ _ Hnf Hrow).
  eexists. split; [done|]. by destruct w1.
Qed.

Lemma Send_idempotent_witness : exists n w1 w2,
  demo_send = (Ok n, w1) /\
  @Send calm bits_uuid demo_trace 3 1 (demo_request (Some "k1")) w1 = (Ok n, w2) /\
  w_db w2 = w_db w1 /\ w_kafka w2 = w_kafka w1.
Proof.
  destruct demo_send as [[n|e] w1] eqn:E; [|exfalso; vm_compute in E; discriminate E].
  exists n, w1.
  destruct (@Send_idempotent calm bits_uuid bits_uuid_laws demo_trace 3 1 (demo_request (Some "k1")) "k1"
              demo_tenants n w1) as (w2 & H2).
  - unfold fits_int. lia.
  - reflexivity.
  - discriminate.
  - exact E.
  - reflexivity.
  - exists w2. split; [reflexivity|exact H2].
Defined.

(** ** Bulk sends *)

Section Bulk.
Context `{Env} `{UuidTextLaws} `{Propagator}.
Variable maxRetries : Z.
Hypothesis maxRetries_fits : fits_int maxRetries.

(** A send without an idempotency key and a schedule publishes one record when it
    succeeds and at most one when it fails. *)
Lemma wp_Send_plain tenantID req w :
  sr_IdempotencyKey req = None -> sr_ScheduledAt req = None ->
  wp (Send maxRetries tenantID req) (fun r w' => exists recs, w_kafka w' = w_kafka w ++ recs /\
    match r with Ok _ => length recs = 1%nat | Err _ => (length recs <= 1)%nat end) w.
Proof.
  intros Hk Hs. unfold Send. destruct (validate_Struct req).
  { apply wp_throw. exists []. rewrite app_nil_r. split; [done|simpl; lia]. }
  rewrite Hk. apply wp_bind, wp_ret. eapply wp_mono; [by eapply (wp_create_and_enqueue _ maxRetries_fits)|].
  intros [n|e] w'.
  - intros (row & s & _ & _ & _ & [((at_ & Hsome & _) & _)|(_ & t & rec & _ & Hv & _)]).
    + by rewrite Hs in Hsome.
    + injection Hv as _ ->. by exists [rec].
  - intros [Hv|(row & _ & [Hv|[[rec Hv]|(t & rec & Hv)]])]; injection Hv as _ ->.
    1, 2: exists []; rewrite app_nil_r; split; [done|simpl; lia].
    all: exists [rec]; split; [done|simpl; lia].
Qed.

Lemma wp_send_each tenantID req rs w :
  wp (send_each maxRetries tenantID req rs) (fun r w' =>
    match r with
    | Ok (oks, errs) => (length oks + length errs = length rs)%nat /\
        exists recs, w_kafka w' = w_kafka w ++ recs /\ (length oks <= length recs <= length rs)%nat
    | Err _ => False
    end) w.
Proof.
  revert w. induction rs as [|r rs IH]; intros w; cbn [send_each].
  { apply wp_ret. split; [done|]. exists []. by rewrite app_nil_r. }
  apply wp_bind, wp_try. eapply wp_mono; [by apply wp_Send_plain|].
  intros out w1 (recs1 & Hk1 & Hn1). apply wp_bind. eapply wp_mono; [apply IH|].
  intros [[oks errs]|e] w2; [|done]. intros (Hlen & recs2 & Hk2 & Hn2).
  destruct out as [n|e]; apply wp_ret; simpl; (split; [lia|]); exists (recs1 ++ recs2);
    rewrite Hk2, Hk1, app_assoc, length_app; split; [done|lia|done|lia].
Qed.
End Bulk.

(** [SendBulk] of a valid request answers for every recipient: successes and
    errors add up to the recipients, and at least one record per success and at most
    one per recipient is published.  An invalid request does nothing. *)
Theorem SendBulk_accounts `{Env} `{UuidTextLaws} `{Propagator} maxRetries tenantID req w :
  fits_int maxRetries ->
  let '(r, w') := SendBulk maxRetries tenantID req w in
  exists oks errs, r = Ok (oks, errs) /\
  match validate_Struct req with
  | Some err => oks = [] /\ errs = [toValidationError err] /\ w' = w
  | None => (length oks + length errs = length (default [] (br_Recipients req)))%nat /\
      exists recs, w_kafka w' = w_kafka w ++ recs
        /\ (length oks <= length recs <= length (default [] (br_Recipients req)))%nat
  end.
Proof.
  intros Hfit. apply wp_pair. unfold SendBulk. destruct (validate_Struct req) as [err|].
  - apply wp_ret. exists [], [toValidationError err]. done.
  - eapply wp_mono; [by apply (wp_send_each _ Hfit)|]. intros [[oks errs]|e] w'; [|done].
    intros Hout. by exists oks, errs.
Qed.

Definition demo_bulk : BulkSendRequest :=
  {| br_Type := "promo"; br_Channel := ChannelSMS; br_TemplateID := None; br_Payload := None;
     br_Priority := 5;
     br_Recipients := Some [MkRecipient "u1" "+1" None; MkRecipient "" "+2" None; MkRecipient "u3" "+3" None] |}.

Lemma SendBulk_accounts_witness :
  let '(r, w') := @SendBulk calm bits_uuid demo_trace 3 1 demo_bulk demo_tenants in
  exists oks errs, r = Ok (oks, errs) /\ (length oks + length errs = 3)%nat.
Proof.
  pose proof (@SendBulk_accounts calm bits_uuid bits_uuid_laws demo_trace 3 1 demo_bulk demo_tenants) as Hb.
  destruct (@SendBulk _ _ _ _ _ _ _) as [r w'].
  destruct Hb as (oks & errs & Hr & Hlen); [unfold fits_int; lia|].
  exists oks, errs. split; [exact Hr|]. exact (proj1 Hlen).
Defined.

(** ** Cancelling *)

(** [Cancel] succeeds only on a notification of the tenant that was pending or
    queued, and then drops exactly the rows with that id; otherwise no row changes,
    except that a cancellation whose acknowledgement is lost may still have taken
    effect.  NOT_FOUND means no such cancellable notification exists; any other error
    means a call failed. *)
Theorem Cancel_correct `{Env} tenantID id w :
  let '(r, w') := NotificationService_Cancel tenantID id w in
  let ns := notifications (w_db w) in
  let cancellable r := nr_ID r = id /\ nr_TenantID r = Some tenantID
                       /\ (nr_Status r = StatusPending \/ nr_Status r = StatusQueued) in
  let dropped := exists t, notifications (w_db w')
    = update_where (fun r => bool_decide (cancellable r)) (set_status StatusDropped t) ns in
  w_kafka w' = w_kafka w /\
  match r with
  | Ok n => dropped /\ exists row t, row ∈ ns /\ cancellable row
              /\ n = dbNotificationToDomain (set_status StatusDropped t row)
  | Err e => (e = NewNotFoundError "notification not found or not cancellable"
              /\ notifications (w_db w') = ns /\ forall row, row ∈ ns -> ~ cancellable row)
             \/ (exists m, e = NewInternalError "failed to cancel notification" (EPlain m))
                /\ ~ faultless /\ (notifications (w_db w') = ns \/ dropped)
  end.
Proof.
  apply wp_pair. cbv zeta. unfold NotificationService_Cancel, NotificationRepo_Cancel.
  set (C := fun r => nr_ID r = id /\ nr_TenantID r = Some tenantID
                     /\ (nr_Status r = StatusPending \/ nr_Status r = StatusQueued)).
  assert (forall r, bool_decide (nr_ID r = id) && null_eq (nr_TenantID r) tenantID
    && (bool_decide (nr_Status r = "pending") || bool_decide (nr_Status r = "queued")) = bool_decide (C r)) as HC.
  { intros r. unfold C, null_eq, StatusPending, StatusQueued.
    by rewrite !bool_decide_and, bool_decide_or, andb_assoc. }
  apply wp_bind, wp_or_else, wp_sql_env.
  - intros dt msg Hf. split; [by destruct w|]. right. split; [eauto|]. split; [done|]. left. by destruct w.
  - intros dt t msg. unfold update_returning, uuidToNullUUID.
    assert (forall l, update_where (fun r => bool_decide (nr_ID r = id) && null_eq (nr_TenantID r) tenantID
      && (bool_decide (nr_Status r = "pending") || bool_decide (nr_Status r = "queued")))
      (set_status "dropped" t) l = update_where (fun r => bool_decide (C r)) (set_status StatusDropped t) l) as Hu.
    { intros l. apply list_fmap_ext. intros i r _. by rewrite HC. }
    destruct w as [[ns] ? ? ? ? ? ?]. simpl. split.
    { intros Hf. split; [done|]. right. split; [eauto|]. split; [done|]. right. exists t. apply Hu. }
    destruct (where_ _ ns) as [|row rest] eqn:E; simpl.
    + split; [done|]. left. split; [done|]. rewrite where_nil in E. split.
      * rewrite Hu. rewrite <-(list_fmap_id ns) at 2. apply list_fmap_ext. intros i r Hr. simpl.
        rewrite <-HC, E; [done|by eapply list_elem_of_lookup_2].
      * intros r Hr Hc. specialize (E r Hr). rewrite HC in E. by rewrite bool_decide_eq_true_2 in E.
    + apply wp_ret. split; [done|]. split; [exists t; apply Hu|]. exists row, t.
      assert (row ∈ ns /\ C row) as [? ?]; [|done].
      match type of E with where_ ?P _ = _ => assert (row ∈ where_ P ns) as Hin by (rewrite E; set_solver) end.
      apply elem_of_where in Hin as [HP Hin]. rewrite HC in HP. by apply bool_decide_eq_true in HP.
Qed.

Definition demo_queued := demo_send.2.
Lemma Cancel_demo : is_ok (@NotificationService_Cancel calm 1 2 demo_queued).1 = true
  /\ is_ok (@NotificationService_Cancel calm 2 2 demo_queued).1 = false.
Proof. vm_compute. split; reflexivity. Qed.

(** ** The scheduler *)

Lemma due_leb_total a b : due_leb a b = false -> due_leb b a = true.
Proof.
  unfold due_leb. rewrite orb_false_iff, andb_false_iff, orb_true_iff, andb_true_iff.
  rewrite !Z.ltb_ge, !Z.ltb_lt, !Z.eqb_neq, !Z.eqb_eq, !Z.leb_gt, !Z.leb_le. lia.
Qed.

Lemma Sorted_take {A} (R : A -> A -> Prop) n l : Sorted R l -> Sorted R (take n l).
Proof.
  intros Hs. revert n. induction Hs as [|x l Hs IH Hhd]; intros [|n]; simpl; try constructor; [apply IH|].
  destruct Hhd; destruct n; simpl; by constructor.
Qed.

Lemma Sorted_mono {A} (R R' : A -> A -> Prop) l : (forall a b, R a b -> R' a b) -> Sorted R l -> Sorted R' l.
Proof. intros HR. induction 1 as [|x l _ IH Hhd]; constructor; [done|]. destruct Hhd; constructor. auto. Qed.

(** A pending notification whose time has come, and which of two goes first. *)
Definition due (t : gotime) (r : NotificationRow) : Prop :=
  nr_Status r = StatusPending /\ exists s, nr_ScheduledAt r = Some s /\ s <= t.
Definition goes_first (a b : NotificationRow) : Prop :=
  nr_Priority a < nr_Priority b \/ nr_Priority a = nr_Priority b /\ default 0 (nr_ScheduledAt a) <= default 0 (nr_ScheduledAt b).

(** The first [batchSize] of the rows due at [t]. *)
Definition due_batch (batchSize : Z) (t : gotime) (ns batch : list NotificationRow) : Prop :=
  exists rest, Sorted goes_first (batch ++ rest) /\ (forall r, r ∈ batch ++ rest <-> r ∈ ns /\ due t r) /\
    Z.of_nat (length batch) <= batchSize /\ (rest <> [] -> Z.of_nat (length batch) = batchSize).

Lemma is_due_iff t r : is_due t r = true <-> due t r.
Proof.
  unfold is_due, due. rewrite andb_true_iff, bool_decide_eq_true.
  destruct (nr_ScheduledAt r) as [s|]; [rewrite Z.leb_le|]; naive_solver.
Qed.
Lemma due_leb_iff a b : due_leb a b = true <-> goes_first a b.
Proof.
  unfold due_leb, goes_first. by rewrite orb_true_iff, andb_true_iff, Z.ltb_lt, Z.eqb_eq, Z.leb_le.
Qed.

Lemma due_rows_batch batchSize t d : 0 <= batchSize ->
  due_batch batchSize t (notifications d) (take (Z.to_nat batchSize) (due_rows t d)).
Proof.
  intros Hb. exists (drop (Z.to_nat batchSize) (due_rows t d)). rewrite take_drop. split_and!.
  - eapply Sorted_mono; [|apply (sort_by_sorted due_leb due_leb_total)]. intros a b. apply due_leb_iff.
  - intros r. unfold due_rows. rewrite sort_by_elem, elem_of_where, is_due_iff. tauto.
  - rewrite length_take. lia.
  - intros Hne. rewrite length_take. assert (length (drop (Z.to_nat batchSize) (due_rows t d)) <> 0%nat) as Hl
      by by destruct (drop _ _). rewrite length_drop in Hl. lia.
Qed.

Lemma due_batch_elem batchSize t ns batch r : due_batch batchSize t ns batch -> r ∈ batch -> r ∈ ns /\ due t r.
Proof. intros (rest & _ & He & _) Hr. apply He. set_solver. Qed.

Section Tick.
Context `{Env} `{UuidTextLaws} `{Propagator}.
Variable maxRetries : Z.
Hypothesis maxRetries_fits : fits_int maxRetries.

Definition carries (rec : KafkaRecord) (id : uuid) : Prop :=
  exists m : Message, Unmarshal_bytes (k_Value rec) = Ok m /\ m_NotificationID m = id.

(** A row stays as it is or, if its id is among [ids], may be marked queued. *)
Definition marked (ids : list uuid) (r r' : NotificationRow) : Prop :=
  r' = r \/ nr_ID r ∈ ids /\ exists t, r' = set_status StatusQueued t r.

(** The state of a tick that has published for [ids], a part of [seen] in order. *)
Definition tick_inv (w0 : world) (seen : list Notification) (w : world) : Prop :=
  exists recs ids, w_kafka w = w_kafka w0 ++ recs /\ Forall2 carries recs ids
    /\ ids `sublist_of` (n_ID <$> seen)
    /\ Forall2 (marked ids) (notifications (w_db w0)) (notifications (w_db w)).

Lemma tick_inv_skip w0 seen n w w' :
  tick_inv w0 seen w -> view w' = view w -> tick_inv w0 (seen ++ [n]) w'.
Proof.
  intros (recs & ids & Hk & Hc & Hs & Hr) [= Hns Hk']. exists recs, ids. rewrite Hk', Hns.
  split_and!; try done. rewrite fmap_app. by apply sublist_inserts_r.
Qed.

Lemma marked_more ids id r r' : marked ids r r' -> marked (ids ++ [id]) r r'.
Proof. intros [->|[? ?]]; [by left|right; split; [set_solver|done]]. Qed.
Lemma marked_restatus ids id t r r' : marked ids r r' ->
  marked (ids ++ [id]) r (if bool_decide (nr_ID r' = id) then set_status StatusQueued t r' else r').
Proof.
  intros Hm. case_bool_decide as E; [|by apply marked_more]. right.
  destruct Hm as [->|[Hin [t' ->]]]; [split; [set_solver|by eexists]|]. split; [set_solver|]. exists t. by destruct r.
Qed.

Lemma tick_inv_published w0 seen n w w' rec :
  tick_inv w0 seen w -> view w' = (notifications (w_db w), w_kafka w ++ [rec]) -> carries rec (n_ID n) ->
  tick_inv w0 (seen ++ [n]) w' /\
  forall w'' t, view w'' = (restatus (n_ID n) StatusQueued t (notifications (w_db w)), w_kafka w ++ [rec]) ->
    tick_inv w0 (seen ++ [n]) w''.
Proof.
  intros (recs & ids & Hk & Hc & Hs & Hr) Hv Hrec.
  assert (Forall2 carries (recs ++ [rec]) (ids ++ [n_ID n])) as Hc' by (apply Forall2_app; auto).
  assert (ids ++ [n_ID n] `sublist_of` n_ID <$> seen ++ [n]) as Hs' by (rewrite fmap_app; by apply sublist_app).
  split.
  - injection Hv as Hns Hk'. exists (recs ++ [rec]), (ids ++ [n_ID n]). rewrite Hk', Hk, Hns, app_assoc.
    split_and!; try done. eapply Forall2_impl; [done|]. intros. by apply marked_more.
  - intros w'' t [= Hns Hk']. exists (recs ++ [rec]), (ids ++ [n_ID n]). rewrite Hk', Hk, Hns, app_assoc.
    split_and!; try done. unfold restatus, update_where. apply Forall2_fmap_r. eapply Forall2_impl; [done|].
    intros. by apply marked_restatus.
Qed.

#[local] Instance clock_tick_one t n : Keeps (after t) (tick_one maxRetries n).
Proof. unfold tick_one, Scheduler_enqueue, NotificationRepo_UpdateStatus, now. apply _. Qed.

Lemma wp_tick_one w0 seen n w :
  tick_inv w0 seen w -> fits_int (n_Priority n) ->
  wp (tick_one maxRetries n) (fun r w' => r = Ok tt /\ tick_inv w0 (seen ++ [n]) w') w.
Proof.
  intros Hi Hp. apply wp_bind, wp_try, wp_bind, wp_gets.
  eapply wp_mono; [eapply (wp_publish_message _ _ _ _ w); [done|by apply message_of_wf]|].
  intros [[]|e] w1.
  - intros (rec & Hv & _ & _ & Hu).
    destruct (tick_inv_published w0 seen n w w1 rec Hi Hv) as [Hpub Hq]; [by eexists|].
    apply wp_ignore. eapply wp_mono; [by eapply wp_UpdateStatus|].
    intros [m|e] w2; simpl.
    + intros (t & row & rest & Hv2 & _). split; [done|]. by eapply Hq.
    + intros [Hv2|[t Hv2]]; (split; [done|]); [|by eapply Hq].
      eapply (proj1 (tick_inv_published w0 seen n w w2 rec Hi Hv2 _)). Unshelve. by eexists.
  - intros [Hv|(rec & Hv & Hu)]; apply wp_ret; (split; [done|]); [by eapply tick_inv_skip|].
    eapply (proj1 (tick_inv_published w0 seen n w w1 rec Hi Hv _)). Unshelve. by eexists.
Qed.

(** Without faults and within the printable years, every notification seen was
    published and is queued. *)
Definition tick_all (w0 : world) (T : gotime) (seen : list Notification) (w : world) : Prop :=
  w_now w0 <= w_now w /\
  (w_now w <= T -> length (w_kafka w) = (length (w_kafka w0) + length seen)%nat /\
     forall r', r' ∈ notifications (w_db w) -> nr_ID r' ∈ n_ID <$> seen -> nr_Status r' = StatusQueued).

Lemma wp_tick_one_all w0 T seen n w :
  faultless -> (forall t, w_now w0 <= t <= T -> printable t) -> tick_all w0 T seen w ->
  wp (tick_one maxRetries n) (fun _ w' => tick_all w0 T (seen ++ [n]) w') w.
Proof.
  intros Hf Hp [Hc Hall]. apply wp_bind, wp_try, wp_bind, wp_gets, wp_bind, wp_or_else, wp_lift.
  destruct (Marshal _) as [j|e] eqn:Hj.
  2: { apply wp_ret. split; [done|]. intros HT. pose proof (message_marshal maxRetries uuid_nil n (w_now w) (Hp _ (conj Hc HT))) as Hm.
       by rewrite Hj in Hm. }
  apply wp_Publish_env; [by intros|]. intros dt m. split; [by intros|]. apply wp_ignore, wp_bind, wp_or_else.
  apply wp_sql_env; [by intros|]. intros dt' t' m'. unfold update_returning. split; [by intros|].
  assert (forall w', w_kafka w' = w_kafka w ++ [published (TopicForChannel (n_Channel n)) (n_RecipientID n) (BJson j)] ->
    notifications (w_db w') = restatus (n_ID n) StatusQueued t' (notifications (w_db w)) -> w_now w <= w_now w' ->
    tick_all w0 T (seen ++ [n]) w') as Hend.
  { intros w' Hk Hns Hw. split; [lia|]. intros HT. destruct Hall as [Hl Hq]; [lia|].
    rewrite Hk, Hns, !length_app, Hl. split; [simpl; lia|]. intros r' (y & Hy & ->)%elem_of_update_where Hin.
    destruct (bool_decide_reflect (nr_ID y = n_ID n)) as [E|E]; [by destruct y|].
    apply Hq; [done|]. rewrite fmap_app in Hin. set_solver. }
  destruct w as [[] ? ? ? ? ? ?]. simpl in *. destruct (one _); simpl; try apply wp_ret; apply Hend; try done; simpl; lia.
Qed.

Definition tick_state (w0 : world) (seen : list Notification) (w : world) : Prop :=
  tick_inv w0 seen w /\
  (faultless -> forall T, (forall t, w_now w0 <= t <= T -> printable t) -> tick_all w0 T seen w).

Lemma wp_tick_one_state w0 seen n w :
  tick_state w0 seen w -> fits_int (n_Priority n) ->
  wp (tick_one maxRetries n) (fun r w' => r = Ok tt /\ tick_state w0 (seen ++ [n]) w') w.
Proof.
  intros [Hi Ha] Hp. destruct (wp_tick_one w0 seen n w Hi Hp) as [Hr Hi']. split; [exact Hr|]. split; [exact Hi'|].
  intros Hf T HT. exact (wp_tick_one_all w0 T seen n w Hf HT (Ha Hf T HT)).
Qed.

Lemma tick_outcome batchSize w :
  0 <= batchSize < 2^31 -> (forall r, r ∈ notifications (w_db w) -> fits_int (nr_Priority r)) ->
  let '(r, w') := tick maxRetries batchSize w in
  r = Ok tt /\ exists t batch recs ids, pg_now (w_now w) <= t <= w_now w' /\ due_batch batchSize t (notifications (w_db w)) batch /\
    w_kafka w' = w_kafka w ++ recs /\ Forall2 carries recs ids /\ ids `sublist_of` (nr_ID <$> batch) /\
    Forall2 (marked ids) (notifications (w_db w)) (notifications (w_db w')) /\
    (faultless -> (forall t, w_now w <= t <= w_now w' -> printable t) ->
       ids = nr_ID <$> batch /\ forall r', r' ∈ notifications (w_db w') -> nr_ID r' ∈ ids -> nr_Status r' = StatusQueued).
Proof using All.
  intros Hb Hprio. apply wp_pair. unfold tick, NotificationRepo_ListDueScheduled.
  apply wp_bind, wp_try, wp_bind, wp_or_else, wp_sql_read_clock. intros dt msg.
  assert (view (advance dt w) = view w) as Hv by apply timeless. set (t := pg_now _).
  assert (pg_now (w_now w) <= t <= w_now (advance dt w)) as Ht.
  { unfold t, pg_now. destruct w. simpl. split; [apply Z.mul_le_mono_nonneg_r; [lia|apply Z.div_le_mono; lia]|].
    pose proof (Z.mul_div_le (w_now + Z.max 0 dt) 1000). lia. }
  set (batch := take (Z.to_nat batchSize) (due_rows t (w_db w))).
  assert (due_batch batchSize t (notifications (w_db w)) batch) as Hdue by (apply due_rows_batch; lia).
  assert (Forall2 (marked []) (notifications (w_db w)) (notifications (w_db w))) as Hsame
    by (apply Forall2_same_length_lookup_2; [done|]; intros; left; congruence).
  split; [|intros Hfault].
  - rewrite int32_id by lia. unfold select_page, nonneg_page. simpl.
    rewrite (proj2 (Z.leb_le 0 batchSize)) by lia. simpl. apply wp_ret. unfold page. rewrite drop_0. fold batch.
    eapply wp_mono; [apply wp_clock; [intros t'; apply keeps_for_each; apply _|apply (wp_for_each_prefix _ _ (tick_state w))]|].
    + injection Hv as Hns Hk. split.
      * exists [], []. rewrite app_nil_r, Hns. split_and!; [done|constructor|apply sublist_nil_l|done].
      * intros _ T _. split; [destruct w; simpl; lia|]. rewrite Hk. simpl. split; [lia|set_solver].
    + intros seen x rest w' Hl Hi. apply wp_tick_one_state; [done|].
      assert (x ∈ dbNotificationToDomain <$> batch) as Hx by (rewrite Hl; set_solver).
      apply list_elem_of_fmap in Hx as (y & -> & Hy). simpl. apply Hprio. by eapply due_batch_elem.
    + intros r w' [[-> [(recs & ids & Hk & Hc & Hs & Hr) Hall]] Hclock]. split; [done|]. exists t, batch, recs, ids.
      rewrite <-list_fmap_compose in Hs. split_and!; [lia|lia|done..|].
      intros Hf Hp. destruct (Hall Hf (w_now w') Hp) as [_ [Hlen Hq]]; [done|].
      assert (ids = nr_ID <$> batch) as ->.
      { eapply sublist_full; [exact Hs|]. apply Forall2_length in Hc. rewrite Hk, length_app, !length_fmap in *. lia. }
      split; [done|]. intros r' Hr' Hin. apply Hq; [done|]. by rewrite <-list_fmap_compose.
  - apply wp_ret. split; [done|]. injection Hv as Hns Hk. exists t, batch, [], [].
    rewrite app_nil_r, Hns. split_and!; [lia|lia|done|done|constructor|apply sublist_nil_l|done|done].
Qed.
End Tick.

(** C32. A scheduler tick publishes, in priority and then schedule order and each at
    most once, only notifications of its batch: the first [batchSize] of the rows that are
    pending and whose time has come at a moment [t] of the tick (the clock of the database,
    in whole microseconds).  A row changes only by being marked queued, and only when its
    record was written.  It holds under any faults: a tick never fails.  When no call fails
    (and the clock is in the years JSON can print) it publishes the whole batch and leaves
    all of it queued. *)
Theorem tick_publishes_due_in_order `{Env} `{UuidTextLaws} `{Propagator} maxRetries batchSize w :
  fits_int maxRetries -> 0 <= batchSize < 2^31 ->
  (forall r, r ∈ notifications (w_db w) -> fits_int (nr_Priority r)) ->
  let '(r, w') := tick maxRetries batchSize w in
  r = Ok tt /\ exists t batch recs ids, pg_now (w_now w) <= t <= w_now w' /\ due_batch batchSize t (notifications (w_db w)) batch /\
    w_kafka w' = w_kafka w ++ recs /\ Forall2 carries recs ids /\ ids `sublist_of` (nr_ID <$> batch) /\
    Forall2 (marked ids) (notifications (w_db w)) (notifications (w_db w')) /\
    (faultless -> (forall t, w_now w <= t <= w_now w' -> printable t) ->
       ids = nr_ID <$> batch /\ forall r', r' ∈ notifications (w_db w') -> nr_ID r' ∈ ids -> nr_Status r' = StatusQueued).
Proof. intros. by apply tick_outcome. Qed.

(** Two due rows, the second more urgent. *)
Definition due_row (id : uuid) (priority : Z) : NotificationRow :=
  {| nr_ID := id; nr_IdempotencyKey := None; nr_Type := "t"; nr_Channel := ChannelSMS;
     nr_RecipientID := "u"; nr_RecipientAddress := Some "+1"; nr_TemplateID := None;
     nr_Payload := Some (AObj []); nr_Priority := priority; nr_Status := StatusPending;
     nr_ScheduledAt := Some 0; nr_CreatedAt := 0; nr_UpdatedAt := 0; nr_TenantID := Some 1%N |}.
Definition demo_due : world := set_db (set_notifications (fun _ => [due_row 8 9; due_row 9 1])) demo_tenants.

Lemma tick_publishes_due_in_order_witness :
  let '(r, w') := @tick calm bits_uuid demo_trace 3 100 demo_due in
  length (w_kafka w') = 2%nat /\
  exists recs ids, w_kafka w' = recs /\ Forall2 (@carries bits_uuid) recs ids.
Proof.
  assert (length (w_kafka (@tick calm bits_uuid demo_trace 3 100 demo_due).2) = 2%nat) as Hlen
    by (vm_compute; reflexivity).
  pose proof (@tick_publishes_due_in_order calm bits_uuid bits_uuid_laws demo_trace 3 100 demo_due) as Ht.
  destruct (@tick _ _ _ _ _ _) as [r w']. split; [exact Hlen|].
  destruct Ht as (_ & t & batch & recs & ids & _ & _ & Hk & Hc & _).
  - unfold fits_int. lia.
  - lia.
  - intros row Hin. assert (row = due_row 8 9 \/ row = due_row 9 1) as [-> | ->]
      by (simpl in Hin; set_solver); unfold fits_int; simpl; lia.
  - exists recs, ids. split; [exact Hk|exact Hc].
Defined.

(** ** A publish that failed *)

Section FailedPublish.
Context `{Env} `{UuidTextLaws} `{Propagator}.
Variable maxRetries : Z.
Hypothesis maxRetries_fits : fits_int maxRetries.

(** The error of a wrapped call is a wrapped error. *)
Lemma wp_wrapped {A} (m : M A) h w : wp (or_else m h) (fun r _ => forall e', r = Err e' -> exists e, e' = h e) w.
Proof. apply wp_or_else. unfold wp. destruct (m w) as [[a|e] w']; simpl; [done|]. intros e' [= <-]. eauto. Qed.

Lemma Create_error tenantID req w e : (NotificationRepo_Create tenantID req w).1 = Err e -> exists msg c, e = NewInternalError msg c.
Proof.
  intros He. assert (wp (NotificationRepo_Create tenantID req) (fun r _ => forall e', r = Err e' -> exists msg c, e' = NewInternalError msg c) w)
    as Hw; [|exact (Hw e He)].
  apply wp_bind. eapply wp_mono; [apply wp_wrapped|]. intros [row|e0] w' Hr; [by apply wp_ret|].
  intros e' [= <-]. destruct (Hr e0 eq_refl) as [c ->]. eauto.
Qed.
Lemma UpdateStatus_error id st w e : (NotificationRepo_UpdateStatus id st w).1 = Err e -> exists code msg c d, e = EApp code msg c d.
Proof.
  intros He. assert (wp (NotificationRepo_UpdateStatus id st) (fun r _ => forall e', r = Err e' -> exists code msg c d, e' = EApp code msg c d) w)
    as Hw; [|exact (Hw e He)].
  apply wp_bind. eapply wp_mono; [apply wp_wrapped|]. intros [row|e0] w' Hr; [by apply wp_ret|].
  intros e' [= <-]. destruct (Hr e0 eq_refl) as [c ->]. unfold row_error. destruct (errors_Is_NoRows c); by do 4 eexists.
Qed.

(** The row a send leaves when its publish fails: pending, the only one under its key. *)
Lemma wp_Send_unpublished tenantID req key w :
  sr_IdempotencyKey req = Some key -> key <> "" ->
  wp (Send maxRetries tenantID req) (fun r w' => forall e, r = Err (EWrap "enqueue notification" e) ->
    exists row, new_row tenantID req row /\ where_ (by_idem_tenant key tenantID) (notifications (w_db w')) = [row]) w.
Proof using All.
  intros Hk Hne. unfold Send. destruct (validate_Struct req) as [v|]; [apply wp_throw; by destruct v|].
  rewrite Hk, decide_False by done. apply wp_bind. eapply wp_mono; [apply wp_and; [apply wp_idempotency_lookup|apply wp_eq]|].
  intros [[n|]|e0] w1 [(Hv & Hdb & _ & Hl) Heq]; [by apply wp_ret| |].
  2: { intros e [= ->]. revert Heq. unfold NotificationRepo_GetByIdempotencyKey, mbind, ST_bind, try.
       destruct (GetNotificationByIdempotencyKey _ _ w) as [[row|e1] w2]; [done|]. by destruct (errors_Is_NoRows e1). }
  apply wp_bind. eapply wp_mono; [apply wp_and; [by eapply wp_Create|apply wp_eq]|].
  intros [n|e0] w2 [Hc Heq2].
  2: { intros e [= ->]. destruct (Create_error tenantID req w1 (EWrap "enqueue notification" e)) as (? & ? & ?); [by rewrite Heq2|done]. }
  destruct Hc as (row & Hv2 & -> & Hnew & _). apply wp_bind, wp_gets.
  match goal with |- wp (if ?b then _ else _) _ _ => destruct b end; [by apply wp_ret|].
  apply wp_bind, wp_or_else. eapply wp_mono; [eapply (wp_enqueue _ maxRetries_fits); [done|by eapply new_row_priority]|].
  assert (where_ (by_idem_tenant key tenantID) (notifications (w_db w) ++ [row]) = [row]) as Hrow.
  { rewrite where_app, Hl. destruct (by_idem_new tenantID req key row "" 0 Hk Hnew) as [_ Hb]. unfold where_. simpl. by rewrite Hb. }
  intros [[]|e0] w3 He.
  - apply wp_bind, wp_modify. eapply wp_mono; [apply wp_eq|]. intros r w4 Heq4 e ->.
    edestruct UpdateStatus_error as (? & ? & ? & ? & ?); [by rewrite Heq4|done].
  - intros e _. exists row. split; [done|]. destruct He as [Hv3|[rec Hv3]]; injection Hv3 as -> _; exact Hrow.
Qed.

(** A tick leaves a row without a scheduled time alone and publishes nothing about it. *)
Lemma tick_passes_over batchSize w row :
  0 <= batchSize < 2^31 -> (forall r, r ∈ notifications (w_db w) -> fits_int (nr_Priority r)) ->
  unique nr_ID (notifications (w_db w)) -> row ∈ notifications (w_db w) -> nr_ScheduledAt row = None ->
  let w' := (tick maxRetries batchSize w).2 in
  row ∈ notifications (w_db w') /\
  exists recs, w_kafka w' = w_kafka w ++ recs /\ Forall (fun rec => ~ carries rec (nr_ID row)) recs.
Proof using All.
  intros Hb Hprio Hu Hrow Hsched. pose proof (tick_outcome maxRetries maxRetries_fits batchSize w Hb Hprio) as Ht.
  destruct (tick maxRetries batchSize w) as [r w']. simpl. destruct Ht as (_ & t & batch & recs & ids & _ & Hdue & Hk & Hc & Hs & Hm & _).
  assert (nr_ID row ∉ ids) as Hni.
  { intros Hin. assert (nr_ID row ∈ nr_ID <$> batch) as (r0 & Hid & Hr0)%list_elem_of_fmap by by eapply elem_of_sublist.
    destruct (due_batch_elem _ _ _ _ _ Hdue Hr0) as [Hr0' (_ & s & Hsome & _)].
    rewrite (NoDup_key_unique nr_ID _ row r0 Hu Hrow Hr0' Hid) in Hsched. congruence. }
  split.
  - apply list_elem_of_lookup in Hrow as [i Hi]. destruct (Forall2_lookup_l _ _ _ _ _ Hm Hi) as (r' & Hr' & [->|[? _]]); [|done].
    by eapply list_elem_of_lookup_2.
  - exists recs. split; [done|]. apply Forall_forall. intros rec Hrec (m & Hm1 & Hm2).
    apply list_elem_of_lookup in Hrec as [i Hi]. destruct (Forall2_lookup_l _ _ _ _ _ Hc Hi) as (id & Hid & (m' & Hm1' & Hm2')).
    apply Hni. apply list_elem_of_lookup_2 in Hid. congruence.
Qed.
End FailedPublish.

(** C39. A keyed send that is not scheduled and returns the error of its publish is not
    rescued.  It leaves one row under its key, pending and without a scheduled time.  The
    client's retry, if its lookup reaches the database, returns that row as a success and
    writes and publishes nothing; and in whatever later state the row is still stored so, a
    scheduler tick leaves it as it is and publishes no record about it.  So unless the
    failed call had written its record after all, neither of them ever publishes it. *)
Theorem failed_publish_is_never_rescued `{Env} `{UuidTextLaws} `{Propagator} maxRetries tenantID req key w e w1 :
  fits_int maxRetries -> sr_IdempotencyKey req = Some key -> key <> "" -> sr_ScheduledAt req = None ->
  Send maxRetries tenantID req w = (Err (EWrap "enqueue notification" e), w1) ->
  exists row, row ∈ notifications (w_db w1) /\ nr_IdempotencyKey row = Some key /\ nr_Status row = StatusPending /\
    (ev_fault (env_event (w_tick w1)) = NoFault -> exists w2,
       Send maxRetries tenantID req w1 = (Ok (dbNotificationToDomain row), w2) /\ w_db w2 = w_db w1 /\ w_kafka w2 = w_kafka w1) /\
    (forall w2 batchSize, schema w2 -> row ∈ notifications (w_db w2) -> 0 <= batchSize < 2^31 ->
       (forall r, r ∈ notifications (w_db w2) -> fits_int (nr_Priority r)) ->
       let w3 := (tick maxRetries batchSize w2).2 in
       row ∈ notifications (w_db w3) /\
       exists recs, w_kafka w3 = w_kafka w2 ++ recs /\ Forall (fun rec => ~ carries rec (nr_ID row)) recs).
Proof.
  intros Hfit Hk Hne Hsched Hs.
  destruct (wp_run _ _ _ _ _ (wp_Send_unpublished maxRetries Hfit tenantID req key w Hk Hne) Hs e eq_refl) as (row & Hnew & Hrow).
  assert (row ∈ where_ (by_idem_tenant key tenantID) (notifications (w_db w1))) as [_ Hin]%elem_of_where by (rewrite Hrow; set_solver).
  assert (nr_IdempotencyKey row = Some key /\ nr_Status row = StatusPending /\ nr_ScheduledAt row = None) as (Hrk & Hst & Hsc).
  { destruct Hnew as (u & t & ->). simpl. by rewrite Hk, Hsched. }
  exists row. do 3 (split; [done|]). split.
  - intros Hnf. unfold Send in *. destruct (validate_Struct req) as [v|]; [by destruct v|]. rewrite Hk, decide_False by done.
    unfold mbind, ST_bind. rewrite (idempotency_lookup_eq _ _ _ _ _ Hnf Hrow). eexists. split; [done|]. by destruct w1.
  - intros w2 batchSize Hw Hin2 Hb Hprio. apply (tick_passes_over maxRetries Hfit); try done. apply Hw.
Qed.

(** A schedule whose third external call fails: the publish of a keyed send. *)
Definition publish_fails : Env := fun i =>
  Event 1000 (if decide (i = 2%nat) then FailBefore "broker down" else NoFault) (N.of_nat (S i)) false.

Lemma failed_publish_is_never_rescued_witness :
  let run := @Send publish_fails bits_uuid demo_trace 3 1 (demo_request (Some "k1")) in
  exists row w1 w2, (run demo_tenants).2 = w1 /\ run w1 = (Ok (dbNotificationToDomain row), w2) /\ nr_Status row = StatusPending /\
    w_kafka w2 = [].
Proof.
  assert (match @Send publish_fails bits_uuid demo_trace 3 1 (demo_request (Some "k1")) demo_tenants with
          | (Err (EWrap pre _), w1) => bool_decide (pre = "enqueue notification" /\ w_tick w1 = 3%nat /\ w_kafka w1 = [])
          | _ => false end = true) as Hrun by (vm_compute; reflexivity).
  destruct (@Send publish_fails bits_uuid demo_trace 3 1 (demo_request (Some "k1")) demo_tenants) as [[n|[]] w1] eqn:E;
    try discriminate Hrun.
  match goal with Hr : bool_decide (?p = _ /\ _) = true, Hs : _ = (Err (EWrap ?p ?c), _) |- _ =>
    rename p into pre, c into cause end. apply bool_decide_eq_true in Hrun as (-> & Htick & Hk).
  destruct (@failed_publish_is_never_rescued publish_fails bits_uuid bits_uuid_laws demo_trace 3 1 (demo_request (Some "k1")) "k1"
    demo_tenants cause w1) as (row & _ & _ & Hst & Hretry & _); [unfold fits_int; lia|reflexivity|discriminate|reflexivity|exact E|].
  destruct Hretry as (w2 & H2 & _ & Hk2); [rewrite Htick; reflexivity|].
  exists row, w1, w2. cbv zeta. rewrite E. split_and!; [reflexivity|exact H2|exact Hst|congruence].
Defined.
