(* ===== verification/Webhook.v ===== *)
(** * Webhooks ([internal/service/webhook.go])

    Registration of endpoints and the fan-out of an event to every active endpoint
    of the tenant that subscribes to it. *)

From S2P Require Import Prelude Time Domain Json World Db Repository Schema Queue.

(** The validator's [url] tag (go-playground/validator). *)
Class UrlCheck := is_url : string -> bool.

#[global] Instance CreateWebhookEndpointRequest_tags `{UrlCheck} : Tagged CreateWebhookEndpointRequest := fun r =>
  field_tags "URL" [("required", nonempty (cw_URL r)); ("url", is_url (cw_URL r))]
  ++ field_tags "Secret" [("required", nonempty (cw_Secret r)); ("min", 16 <=? rune_count (cw_Secret r))]
  ++ field_tags "Events" [("required", negb (bool_decide (cw_Events r = []))); ("min", 1 <=? Z.of_nat (length (cw_Events r)))].

#[global] Instance UpdateWebhookEndpointRequest_tags `{UrlCheck} : Tagged UpdateWebhookEndpointRequest := fun r =>
  field_tags "URL" [("required", nonempty (uw_URL r)); ("url", is_url (uw_URL r))]
  ++ field_tags "Events" [("required", negb (bool_decide (uw_Events r = []))); ("min", 1 <=? Z.of_nat (length (uw_Events r)))].

(** The first unknown event name. *)
Definition validateEvents (events : list string) : option error :=
  match List.find (fun e => negb (bool_decide (e ∈ AllWebhookEvents))) events with
  | Some e => Some (NewValidationError ("unknown event: " +:+ e)
                      (Some {["valid_events" := json_strings AllWebhookEvents]}))
  | None => None
  end.

Section WebhookService.
Context `{Env} `{UuidText} `{Propagator} `{UrlCheck}.
Variable maxAttempts : Z.

Definition WebhookService_Create (tenantID : uuid) (req : CreateWebhookEndpointRequest) : M WebhookEndpoint :=
  match validate_Struct req with
  | Some _ => throw (NewValidationError "invalid webhook endpoint" None)
  | None =>
      match validateEvents (cw_Events req) with
      | Some err => throw err
      | None =>
          WebhookRepo_CreateEndpoint
            {| we_ID := uuid_nil; we_TenantID := tenantID; we_URL := cw_URL req; we_Secret := cw_Secret req;
               we_Events := cw_Events req; we_IsActive := true;
               we_CreatedAt := zero_time; we_UpdatedAt := zero_time |}
      end
  end.

Definition WebhookService_List (tenantID : uuid) : M (list WebhookEndpoint) := WebhookRepo_ListEndpoints tenantID.
Definition WebhookService_GetByID (tenantID id : uuid) : M WebhookEndpoint := WebhookRepo_GetEndpoint tenantID id.

Definition WebhookService_Update (tenantID id : uuid) (req : UpdateWebhookEndpointRequest) : M WebhookEndpoint :=
  match validate_Struct req with
  | Some _ => throw (NewValidationError "invalid webhook endpoint" None)
  | None =>
      match validateEvents (uw_Events req) with
      | Some err => throw err
      | None =>
          WebhookRepo_UpdateEndpoint
            {| we_ID := id; we_TenantID := tenantID; we_URL := uw_URL req; we_Secret := "";
               we_Events := uw_Events req; we_IsActive := uw_IsActive req;
               we_CreatedAt := zero_time; we_UpdatedAt := zero_time |}
      end
  end.

Definition WebhookService_Delete (tenantID id : uuid) : M unit := WebhookRepo_DeleteEndpoint tenantID id.

(** [time.Now().UTC().Format(time.RFC3339)]: whole seconds. *)
Definition format_seconds (t : gotime) : string := format_rfc3339 (t / ns_per_s * ns_per_s).

Definition buildEventPayload (n : Notification) (event : string) (t : gotime) : gmap string any :=
  {[ "event" := AStr event;
     "notification_id" := AStr (uuid_String (n_ID n));
     "tenant_id" := AStr (uuid_String (n_TenantID n));
     "channel" := AStr (n_Channel n);
     "recipient_id" := AStr (n_RecipientID n);
     "status" := AStr (n_Status n);
     "timestamp" := AStr (format_seconds t) ]}.

(** The body of the loop of [Dispatch]: every failure is logged and skipped. *)
Definition dispatch_one (n : Notification) (event : string) (payload : gmap string any)
    (ep : WebhookEndpoint) : M unit :=
  r ← try (WebhookRepo_CreateDelivery
        {| wd_ID := uuid_nil; wd_EndpointID := we_ID ep; wd_NotificationID := Some (n_ID n);
           wd_Event := event; wd_Payload := Some payload; wd_Status := WebhookDeliveryPending;
           wd_Attempt := 0; wd_NextRetryAt := None; wd_LastError := None; wd_ResponseStatus := None;
           wd_CreatedAt := zero_time; wd_UpdatedAt := zero_time |});
  match r with
  | Err _ => mret tt
  | Ok delivery =>
      t ← now;
      let msg := {| wm_TenantID := n_TenantID n; wm_EndpointID := we_ID ep; wm_DeliveryID := wd_ID delivery;
                    wm_NotificationID := Some (n_ID n); wm_Event := event; wm_Payload := Some payload;
                    wm_EndpointURL := we_URL ep; wm_Secret := we_Secret ep; wm_Attempt := 1;
                    wm_MaxAttempts := maxAttempts; wm_EnqueuedAt := t |} in
      match Marshal msg with
      | Err _ => mret tt
      | Ok msgBytes => ignore (Queue.Publish WebhookTopic (uuid_String (we_ID ep)) (BJson msgBytes))
      end
  end.

Definition Dispatch (n : Notification) (event : string) : M unit :=
  endpoints ← or_else (WebhookRepo_ListActiveForEvent (n_TenantID n) event)
                (EWrap "list active webhook endpoints");
  match endpoints with
  | [] => mret tt
  | _ =>
      t ← now;
      for_each endpoints (dispatch_one n event (buildEventPayload n event t))
  end.
End WebhookService.

(** ** Fan-out *)

Section FanOut.
Context `{Env} `{UuidTextLaws} `{Propagator}.
Variable maxAttempts : Z.
Hypothesis maxAttempts_fits : fits_int maxAttempts.

(** One endpoint's share of the fan-out: the endpoint, its delivery row and its record,
    if that was published. *)
Record fan := MkFan { fan_ep : WebhookEndpointRow; fan_row : WebhookDeliveryRow; fan_rec : option KafkaRecord }.

(** A new delivery of the event of [n] to [ep]. *)
Definition delivery_of (n : Notification) (event : string) (payload : gmap string any) (ep : WebhookEndpointRow)
    (row : WebhookDeliveryRow) : Prop :=
  wr_EndpointID row = er_ID ep /\ wr_NotificationID row = Some (n_ID n) /\ wr_Event row = event /\
  wr_Payload row = json_of_gomap (Some payload) /\ wr_Status row = WebhookDeliveryPending /\ wr_Attempt row = 0 /\
  wr_NextRetryAt row = None /\ wr_LastError row = None /\ wr_ResponseStatus row = None.

(** A record of the event of [n] for [ep], about the delivery [id]. *)
Definition webhook_record (n : Notification) (event : string) (payload : gmap string any) (ep : WebhookEndpointRow)
    (id : uuid) (rec : KafkaRecord) : Prop :=
  k_Topic rec = WebhookTopic /\ k_Key rec = uuid_String (er_ID ep) /\
  exists m : WebhookMessage, Unmarshal_bytes (k_Value rec) = Ok m
    /\ wm_EndpointID m = er_ID ep /\ wm_EndpointURL m = er_Url ep /\ wm_Secret m = er_Secret ep
    /\ wm_DeliveryID m = id /\ wm_TenantID m = n_TenantID n /\ wm_NotificationID m = Some (n_ID n)
    /\ wm_Event m = event /\ wm_Payload m = Some payload /\ wm_Attempt m = 1 /\ wm_MaxAttempts m = maxAttempts.

Definition fan_ok (n : Notification) (event : string) (payload : gmap string any) (f : fan) : Prop :=
  delivery_of n event payload (fan_ep f) (fan_row f) /\
  forall rec, fan_rec f = Some rec -> webhook_record n event payload (fan_ep f) (wr_ID (fan_row f)) rec.

(** What the fan-out leaves alone: every table but the deliveries, Redis and its
    publications, the metrics. *)
Definition fanout_view (w : world) := (set_deliveries (fun _ => []) (w_db w), w_redis w, w_pubsub w, w_metrics w).
#[global] Instance timeless_fanout_view : Timeless fanout_view.
Proof. by intros ? []. Qed.

Lemma fanout_view_tables {B} (g : db -> B) w w' :
  (forall d, g (set_deliveries (fun _ => []) d) = g d) -> fanout_view w' = fanout_view w -> g (w_db w') = g (w_db w).
Proof. intros Hg [= Hd _]. by rewrite <-Hg, Hd, Hg. Qed.

Definition fanout_inv (w0 : world) n event payload (seen : list WebhookEndpointRow) (w : world) : Prop :=
  fanout_view w = fanout_view w0 /\
  exists fans, w_kafka w = w_kafka w0 ++ omap fan_rec fans /\
    webhook_deliveries (w_db w) = webhook_deliveries (w_db w0) ++ (fan_row <$> fans) /\
    Forall (fan_ok n event payload) fans /\ (fan_ep <$> fans) `sublist_of` seen.

Lemma fanout_skip w0 n event payload seen ep w w' :
  fanout_inv w0 n event payload seen w -> fanout_view w' = fanout_view w -> w_kafka w' = w_kafka w ->
  webhook_deliveries (w_db w') = webhook_deliveries (w_db w) ->
  fanout_inv w0 n event payload (seen ++ [ep]) w'.
Proof.
  intros (Hf & fans & Hk & Hd & Hr & Hs) Hf' Hk' Hd'. split; [congruence|]. exists fans.
  rewrite Hk', Hk, Hd'. split_and!; [done|done|done|]. by apply sublist_inserts_r.
Qed.

Lemma fanout_hit w0 n event payload seen w w' f :
  fanout_inv w0 n event payload seen w -> fanout_view w' = fanout_view w ->
  w_kafka w' = w_kafka w ++ option_list (fan_rec f) ->
  webhook_deliveries (w_db w') = webhook_deliveries (w_db w) ++ [fan_row f] ->
  fan_ok n event payload f -> fanout_inv w0 n event payload (seen ++ [fan_ep f]) w'.
Proof.
  intros (Hf & fans & Hk & Hd & Hr & Hs) Hf' Hk' Hd' Hok. split; [congruence|]. exists (fans ++ [f]).
  rewrite Hk', Hk, Hd', Hd, omap_app, !fmap_app, <-!app_assoc. split_and!; [|done|by apply Forall_app_2; [|constructor]|by apply sublist_app].
  simpl. by destruct (fan_rec f).
Qed.

(** [CreateDelivery] adds its row, or no row with an error. *)
Lemma wp_CreateDelivery n event payload ep Q w :
  (forall e w', fanout_view w' = fanout_view w -> w_kafka w' = w_kafka w ->
     webhook_deliveries (w_db w') = webhook_deliveries (w_db w) -> Q (Err e) w') ->
  (forall row r w', fanout_view w' = fanout_view w -> w_kafka w' = w_kafka w ->
     webhook_deliveries (w_db w') = webhook_deliveries (w_db w) ++ [row] -> delivery_of n event payload ep row ->
     (forall d, r = Ok d -> wd_ID d = wr_ID row) -> Q r w') ->
  wp (WebhookRepo_CreateDelivery
        {| wd_ID := uuid_nil; wd_EndpointID := er_ID ep; wd_NotificationID := Some (n_ID n);
           wd_Event := event; wd_Payload := Some payload; wd_Status := WebhookDeliveryPending;
           wd_Attempt := 0; wd_NextRetryAt := None; wd_LastError := None; wd_ResponseStatus := None;
           wd_CreatedAt := zero_time; wd_UpdatedAt := zero_time |}) Q w.
Proof.
  intros HE HQ. apply wp_bind, wp_or_else, wp_sql; [by intros; apply HE; destruct w|].
  intros dt u t msg. unfold insert_row. destruct (violated _), w as [[] ? ? ? ? ? ?]; simpl;
    [split; by apply HE|]. set (row := MkWebhookDeliveryRow _ _ _ _ _ _ _ _ _ _ _ _).
  split; [|apply wp_ret]; eapply (HQ row); done || by intros d [= <-].
Qed.

Lemma wp_dispatch_one w0 n event payload seen ep w :
  fanout_inv w0 n event payload seen w ->
  wp (dispatch_one maxAttempts n event payload (dbWebhookEndpointToDomain ep))
     (fun r w' => r = Ok tt /\ fanout_inv w0 n event payload (seen ++ [ep]) w') w.
Proof.
  intros Hi. apply wp_bind, wp_try, wp_CreateDelivery.
  { intros e w1 Hf Hk Hd. apply wp_ret. split; [done|]. by eapply fanout_skip. }
  intros row r w1 Hf1 Hk1 Hd1 Hrow Hid.
  assert (forall w', fanout_view w' = fanout_view w1 -> w_kafka w' = w_kafka w1 -> w_db w' = w_db w1 ->
    fanout_inv w0 n event payload (seen ++ [ep]) w') as Hunsent.
  { intros w' Hf Hk Hd. apply (fanout_hit _ _ _ _ _ w w' (MkFan ep row None)); simpl; [done|congruence| |congruence|by split].
    rewrite app_nil_r. congruence. }
  destruct r as [delivery|e]; [|apply wp_ret; split; [done|by apply Hunsent]].
  apply wp_bind, wp_gets. cbv zeta. set (msg := MkWebhookMessage _ _ _ _ _ _ _ _ _ _ _).
  destruct (Marshal msg) as [j|e] eqn:Hj; [|apply wp_ret; split; [done|by apply Hunsent]].
  assert (webhook_wf msg) as Hwf by (unfold webhook_wf, fits_int in *; simpl; lia).
  pose proof (WebhookMessage_json_roundtrip _ _ Hwf Hj) as Hrt.
  apply wp_ignore, wp_Publish; [intros dt m; split; [done|]; apply Hunsent; by destruct w1|].
  intros dt m. set (rec := published WebhookTopic (uuid_String (er_ID ep)) (BJson j)).
  assert (forall w', fanout_view w' = fanout_view w1 -> w_kafka w' = w_kafka w1 ++ [rec] -> w_db w' = w_db w1 ->
    fanout_inv w0 n event payload (seen ++ [ep]) w') as Hpub; [|split; (split; [done|]); apply Hpub; by destruct w1].
  intros w' Hf Hk Hd. apply (fanout_hit _ _ _ _ _ w w' (MkFan ep row (Some rec))); simpl; [done|congruence|congruence|congruence|].
  split; [done|]. intros rec' [= <-]. split; [done|]. split; [done|]. exists msg. simpl. split_and!; try done. by apply Hid.
Qed.

(** What lets the fan-out reach every endpoint: no call fails, generated ids are new,
    the notification is stored and the clock stays in the years JSON can print. *)
Record smooth (n : Notification) (w0 : world) (T : gotime) : Prop := MkSmooth {
  sm_faultless : faultless;
  sm_fresh : forall i, ev_uuid (env_event i) ∉ wr_ID <$> webhook_deliveries (w_db w0);
  sm_distinct : forall i j, ev_uuid (env_event i) = ev_uuid (env_event j) -> i = j;
  sm_stored : n_ID n ∈ nr_ID <$> notifications (w_db w0);
  sm_clock : forall t, w_now w0 <= t <= T -> printable t;
}.

(** Then every endpoint seen has its record; ids of new delivery rows come from calls
    already made. *)
Record fanout_all (w0 : world) (T : gotime) (seen : list WebhookEndpointRow) (w : world) : Prop := MkFanoutAll {
  fa_clock : w_now w0 <= w_now w;
  fa_view : fanout_view w = fanout_view w0;
  fa_ids : forall id, id ∈ wr_ID <$> webhook_deliveries (w_db w) ->
    id ∈ wr_ID <$> webhook_deliveries (w_db w0) \/ exists j, (j < w_tick w)%nat /\ id = ev_uuid (env_event j);
  fa_records : w_now w <= T -> length (w_kafka w) = (length (w_kafka w0) + length seen)%nat;
}.

Lemma webhook_marshal (m : WebhookMessage) : printable (wm_EnqueuedAt m) -> is_ok (Marshal m) = true.
Proof. unfold printable. cbn [Marshal WebhookMessage_codec]. by destruct (time_MarshalJSON _). Qed.

Lemma wp_dispatch_one_all w0 T n event payload seen ep w :
  smooth n w0 T -> er_ID ep ∈ er_ID <$> webhook_endpoints (w_db w0) -> fanout_all w0 T seen w ->
  wp (dispatch_one maxAttempts n event payload (dbWebhookEndpointToDomain ep))
     (fun _ w' => fanout_all w0 T (seen ++ [ep]) w') w.
Proof.
  intros [Hf Hfresh Hdist Hst Hclk] Hep [Hc Hv Hids Hrec]. apply wp_bind, wp_try, wp_bind, wp_or_else.
  apply wp_sql_env; [by intros|]. intros dt t m. unfold insert_row. rewrite violated_all.
  2: { repeat constructor; simpl; apply bool_decide_eq_true_2.
       - intros [?|(j & Hj & Heq)]%Hids; [by eapply Hfresh|]. apply Hdist in Heq. lia.
       - by rewrite (fanout_view_tables webhook_endpoints w0 w) by first [by intros [] | done].
       - by rewrite (fanout_view_tables notifications w0 w) by first [by intros [] | done]. }
  split; [by intros|]. apply wp_ret, wp_bind, wp_gets. cbv zeta. set (w1 := set_db _ (advance dt w)).
  assert (w_now w <= w_now w1 /\ fanout_view w1 = fanout_view w /\ w_kafka w1 = w_kafka w /\ w_tick w1 = S (w_tick w)
    /\ wr_ID <$> webhook_deliveries (w_db w1) = (wr_ID <$> webhook_deliveries (w_db w)) ++ [ev_uuid (env_event (w_tick w))])
    as (Hc1 & Hv1 & Hk1 & Ht1 & Hd1).
  { subst w1. destruct w as [[] ? ? ? ? ? ?]. simpl. rewrite fmap_app. split_and!; try done. lia. }
  clearbody w1. set (msg := MkWebhookMessage _ _ _ _ _ _ _ _ _ _ _).
  assert (forall w2, w_now w1 <= w_now w2 -> fanout_view w2 = fanout_view w1 -> (w_tick w1 <= w_tick w2)%nat ->
    webhook_deliveries (w_db w2) = webhook_deliveries (w_db w1) ->
    (w_now w2 <= T -> length (w_kafka w2) = (length (w_kafka w0) + length (seen ++ [ep]))%nat) ->
    fanout_all w0 T (seen ++ [ep]) w2) as Hend.
  { intros w2 Hc2 Hv2 Ht2 Hd2 Hk2. split; [lia|congruence| |done]. intros id. rewrite Hd2, Hd1.
    intros [[?|(j & Hj & ->)]%Hids|Hin]%elem_of_app; [by left|right; exists j; split; [lia|done]|].
    apply list_elem_of_singleton in Hin as ->. right. exists (w_tick w). split; [lia|done]. }
  destruct (Marshal msg) as [j|e] eqn:Hj.
  2: { apply wp_ret. apply Hend; try done. intros HT. exfalso.
       assert (is_ok (Marshal msg) = true) as Hok; [|by rewrite Hj in Hok].
       apply webhook_marshal, Hclk. simpl. lia. }
  apply wp_ignore, wp_Publish_env; [by intros|]. intros dt2 m2. split; [by intros|].
  apply Hend; try (destruct w1; simpl in *; (done || lia)).
  intros HT. assert (w_now w <= T) as Hw by (destruct w1; simpl in *; lia). specialize (Hrec Hw).
  destruct w1; simpl in *. rewrite Hk1, !length_app. simpl. lia.
Qed.

Definition fanout_state (w0 : world) n event payload seen (w : world) : Prop :=
  fanout_inv w0 n event payload seen w /\ forall T, smooth n w0 T -> fanout_all w0 T seen w.

Lemma wp_dispatch_one_state w0 n event payload seen ep w :
  er_ID ep ∈ er_ID <$> webhook_endpoints (w_db w0) -> fanout_state w0 n event payload seen w ->
  wp (dispatch_one maxAttempts n event payload (dbWebhookEndpointToDomain ep))
     (fun r w' => r = Ok tt /\ fanout_state w0 n event payload (seen ++ [ep]) w') w.
Proof.
  intros Hep [Hi Ha]. destruct (wp_dispatch_one w0 n event payload seen ep w Hi) as [Hr Hi'].
  split; [exact Hr|]. split; [exact Hi'|]. intros T Hs.
  exact (wp_dispatch_one_all w0 T n event payload seen ep w Hs Hep (Ha T Hs)).
Qed.

(** The fan-out to the rows [rows], to all of them on a smooth run. *)
Definition fanned_out (w : world) n event (rows : list WebhookEndpointRow) (w' : world) : Prop :=
  fanout_view w' = fanout_view w /\
  exists t fans, w_now w <= t <= w_now w' /\
    w_kafka w' = w_kafka w ++ omap fan_rec fans /\
    webhook_deliveries (w_db w') = webhook_deliveries (w_db w) ++ (fan_row <$> fans) /\
    Forall (fan_ok n event (buildEventPayload n event t)) fans /\ (fan_ep <$> fans) `sublist_of` rows /\
    (smooth n w (w_now w') -> (fan_ep <$> fans) = rows /\ Forall (fun f => is_Some (fan_rec f)) fans).

Lemma length_omap_le {A B} (f : A -> option B) l : (length (omap f l) <= length l)%nat.
Proof. induction l as [|x l IH]; csimpl; [done|]. destruct (f x); csimpl; lia. Qed.
Lemma omap_all {A B} (f : A -> option B) l : length (omap f l) = length l -> Forall (fun x => is_Some (f x)) l.
Proof.
  induction l as [|x l IH]; csimpl; [constructor|]. pose proof (length_omap_le f l).
  destruct (f x) eqn:Hx; csimpl; intros Hl; [constructor; [by rewrite Hx|apply IH; lia]|lia].
Qed.

Lemma fanout_state_done w n event t rs rows w' :
  fanout_state w n event (buildEventPayload n event t) rs w' -> w_now w <= t <= w_now w' -> rs `prefix_of` rows ->
  rs = rows \/ ~ faultless -> fanned_out w n event rows w'.
Proof.
  intros [(Hf & fans & Hk & Hd & Hr & Hs) Hall] Ht [tl ->] Hrows. split; [done|]. exists t, fans.
  split_and!; [lia|lia|done|done|done|by apply sublist_inserts_r|]. intros Hsm.
  destruct Hrows as [<-|Hno]; [|destruct Hsm; done].
  destruct (Hall _ Hsm) as [_ _ _ Hlen]. specialize (Hlen (Z.le_refl _)). rewrite Hk, length_app in Hlen.
  pose proof (length_omap_le fan_rec fans). pose proof (sublist_length _ _ Hs) as Hle. rewrite length_fmap in Hle.
  split; [eapply sublist_full; [exact Hs|rewrite length_fmap; lia]|apply omap_all; lia].
Qed.

#[global] Instance keeps_Dispatch_after t n event : Keeps (after t) (Dispatch maxAttempts n event).
Proof.
  unfold Dispatch, dispatch_one, WebhookRepo_ListActiveForEvent, ListActiveWebhookEndpointsForEvent,
    WebhookRepo_CreateDelivery, InsertWebhookDelivery, now. apply _.
Qed.
#[global] Instance keeps_dispatch_one_after t n event payload ep : Keeps (after t) (dispatch_one maxAttempts n event payload ep).
Proof. unfold dispatch_one, WebhookRepo_CreateDelivery, InsertWebhookDelivery, now. apply _. Qed.

Lemma wp_Dispatch n event w :
  wp (Dispatch maxAttempts n event) (fun _ w' => fanned_out w n event
    (where_ (subscribed (n_TenantID n) event) (webhook_endpoints (w_db w))) w') w.
Proof.
  unfold Dispatch, WebhookRepo_ListActiveForEvent.
  set (rows := where_ (subscribed (n_TenantID n) event) (webhook_endpoints (w_db w))).
  apply wp_bind, wp_or_else, wp_bind, wp_or_else, wp_sql_read_env. intros dt t msg. set (t1 := w_now (advance dt w)).
  set (payload := buildEventPayload n event t1). assert (w_now w <= t1) as Ht1 by (subst t1; destruct w; simpl; lia).
  assert (fanout_state w n event payload [] (advance dt w)) as Hbase.
  { split; [|intros T _; destruct w; split; simpl; (done || lia || auto)].
    split; [by destruct w|]. exists []. simpl. rewrite !app_nil_r. split_and!; by destruct w. }
  split; [|intros Hf; by eapply fanout_state_done; [exact Hbase|split; [exact Ht1|apply Z.le_refl]|apply prefix_nil|right]].
  apply wp_ret. fold rows. destruct (dbWebhookEndpointToDomain <$> rows) as [|ep eps] eqn:E.
  { apply wp_ret. eapply fanout_state_done; [exact Hbase|split; [exact Ht1|apply Z.le_refl]|apply prefix_nil|left].
    by destruct rows. }
  rewrite <-E. clear ep eps E. apply wp_bind, wp_gets. fold t1 payload.
  eapply wp_mono; [apply (wp_for_each_prefix _ _ (fun seen w' => exists rs,
    seen = dbWebhookEndpointToDomain <$> rs /\ rs `prefix_of` rows /\ fanout_state w n event payload rs w' /\ t1 <= w_now w'))|].
  - exists []. split_and!; [done|apply prefix_nil|exact Hbase|apply Z.le_refl].
  - intros seen x rest w' Hl (rs & -> & [tl Hrows] & Hi & Ht). rewrite Hrows, fmap_app in Hl.
    apply app_inv_head in Hl. destruct tl as [|y tl]; [done|]. injection Hl as <- _.
    eapply wp_mono; [apply wp_clock; [intros; apply _|apply wp_dispatch_one_state; [|exact Hi]]|].
    { apply (list_elem_of_fmap_2 er_ID). assert (y ∈ rows) as Hy by (rewrite Hrows; set_solver).
      by apply elem_of_where in Hy as [_ ?]. }
    intros r w'' [[-> Hi'] Hle]. split; [done|].
    exists (rs ++ [y]). rewrite fmap_app. split_and!; [done| |done|lia]. exists tl. by rewrite Hrows, <-app_assoc.
  - intros r w' [_ (rs & Hrs & Hpre & Hi & Ht)]. eapply fanout_state_done; [exact Hi|by split|exact Hpre|]. left.
    destruct Hpre as [tl ->]. apply (f_equal length) in Hrs. rewrite fmap_app, length_app, !length_fmap in Hrs.
    destruct tl; [by rewrite app_nil_r|simpl in *; lia].
Qed.
End FanOut.

(** C31. [Dispatch] fans an event out only to the active endpoints of the
    notification's own tenant that subscribe to it, at most once each and in order: each
    gets one new pending delivery row, with the event's document, and at most one record
    under its id, which carries that endpoint's URL and secret, the id of that row, the
    document, attempt 1 and the configured maximum.  Whatever fails, no record is
    published without its row, and the other tables, Redis, its publications and the
    metrics stay as they are.  On a smooth run (no call fails, new ids, a stored
    notification, printable times) every such endpoint gets its row and its record. *)
Theorem Dispatch_fans_out `{Env} `{UuidTextLaws} `{Propagator} maxAttempts n event w :
  fits_int maxAttempts ->
  let '(r, w') := Dispatch maxAttempts n event w in
  let rows := where_ (subscribed (n_TenantID n) event) (webhook_endpoints (w_db w)) in
  fanout_view w' = fanout_view w /\
  exists t fans, w_now w <= t <= w_now w' /\
    w_kafka w' = w_kafka w ++ omap fan_rec fans /\
    webhook_deliveries (w_db w') = webhook_deliveries (w_db w) ++ (fan_row <$> fans) /\
    Forall (fan_ok maxAttempts n event (buildEventPayload n event t)) fans /\ (fan_ep <$> fans) `sublist_of` rows /\
    (smooth n w (w_now w') -> (fan_ep <$> fans) = rows /\ Forall (fun f => is_Some (fan_rec f)) fans).
Proof. intros Hfit. by apply wp_pair, wp_Dispatch. Qed.

Definition demo_row : NotificationRow :=
  {| nr_ID := 11; nr_IdempotencyKey := None; nr_Type := "t"; nr_Channel := ChannelEmail;
     nr_RecipientID := "u1"; nr_RecipientAddress := Some "a@b.c"; nr_TemplateID := None;
     nr_Payload := Some (AObj [("body", AStr "hi")]); nr_Priority := 5; nr_Status := StatusQueued;
     nr_ScheduledAt := None; nr_CreatedAt := 0; nr_UpdatedAt := 0; nr_TenantID := Some 1%N |}.
Definition demo_notification : Notification := dbNotificationToDomain demo_row.
(** The notification and two endpoints of its tenant, one subscribed to deliveries. *)
Definition demo_endpoint (id : uuid) (event : string) : WebhookEndpointRow :=
  {| er_ID := id; er_TenantID := 1; er_Url := "https://acme.test/hook"; er_Secret := "0123456789abcdef";
     er_Events := AArr [AStr event]; er_IsActive := true; er_CreatedAt := 0; er_UpdatedAt := 0 |}.
Definition demo_hooks : world :=
  set_db (fun d => set_endpoints (fun _ => [demo_endpoint 20 WebhookEventFailed; demo_endpoint 21 WebhookEventDelivered])
                     (set_notifications (fun _ => [demo_row]) d))
    demo_tenants.

Lemma demo_smooth T : T <= 5000 -> @smooth calm demo_notification demo_hooks T.
Proof.
  intros HT. split; [done|intros i; apply not_elem_of_nil| |set_solver|].
  - intros i j Hij. change (N.of_nat (S i) = N.of_nat (S j)) in Hij. lia.
  - intros t Ht. change (w_now demo_hooks) with 0 in Ht.
    assert (unix_s t = unix_s 0) as Hu by (unfold unix_s, ns_per_s; rewrite !Z.div_small by lia; reflexivity).
    unfold printable, time_MarshalJSON, Year_of, Date_of. rewrite Hu. reflexivity.
Qed.

Lemma Dispatch_fans_out_witness :
  let w' := (@Dispatch calm bits_uuid demo_trace 5 demo_notification WebhookEventDelivered demo_hooks).2 in
  w_now w' <= 5000 /\
  exists payload row rec, webhook_deliveries (w_db w') = [row] /\ w_kafka w' = [rec] /\
    @webhook_record bits_uuid 5 demo_notification WebhookEventDelivered payload (demo_endpoint 21 WebhookEventDelivered)
      (wr_ID row) rec.
Proof.
  cbv zeta. assert (w_now (@Dispatch calm bits_uuid demo_trace 5 demo_notification WebhookEventDelivered demo_hooks).2
    <= 5000) as Hnow by (vm_compute; discriminate). split; [exact Hnow|].
  pose proof (@Dispatch_fans_out calm bits_uuid bits_uuid_laws demo_trace 5 demo_notification
                WebhookEventDelivered demo_hooks) as Hd.
  destruct (@Dispatch _ _ _ _ _ _ _) as [r w']. destruct Hd as (_ & t & fans & _ & Hk & Hds & Hok & _ & Hall).
  { unfold fits_int. lia. }
  destruct (Hall (demo_smooth _ Hnow)) as [Hep Hrec]. simpl in *. rewrite Hk, Hds.
  change (where_ _ _) with [demo_endpoint 21 WebhookEventDelivered] in Hep.
  destruct fans as [|f [|]]; [done| |done]. injection Hep as Hep.
  apply Forall_cons in Hok as [[_ Hok] _], Hrec as [[rec Hrec] _]. simpl. rewrite Hrec, <-Hep.
  eexists _, (fan_row f), rec. split; [done|]. split; [done|]. by apply Hok.
Defined.
