(* ===== verification/Processor.v ===== *)
(** * The delivery pipeline ([internal/worker/processor.go])

    [Process] runs one queue message: fetch, mark processing, preference check,
    rate limit, render, send with retries, log, dead-letter, final status and
    webhook.  The retry loop carries the number of retries left, which the loop's
    own exit test makes sufficient. *)

From S2P Require Import Prelude Time Domain Json World Db Repository Schema Queue.
From S2P Require Import Provider RateLimit Preference Template Notification Webhook.

(** Label values of [internal/observability/metrics.go]. *)
Definition OutcomeOK : string := "ok".
Definition OutcomeTempFail : string := "temp_fail".
Definition OutcomePermFail : string := "perm_fail".
Definition OutcomeAllowed : string := "allowed".
Definition OutcomeDenied : string := "denied".
Definition LabelDelivered : string := "delivered".
Definition LabelFailed : string := "failed".
Definition LabelDroppedPref : string := "dropped_pref".
Definition LabelDroppedRateLim : string := "dropped_ratelimit".
Definition ScopeWorker : string := "worker".

(** [ProcessorDeps]; the repositories, the preference, rate-limit and template
    services are the program's own. *)
Record ProcessorDeps := MkProcessorDeps {
  d_Registry : Registry;
  d_RateCaps : gmap Channel Z;
  d_RetryDelay : Z;
  d_DLQPublisher : bool;                                    (* whether one is set *)
  d_DLQEnabled : bool;
  d_Webhook : option (Notification -> string -> M unit);    (* None: nil *)
}.

(** [time.Duration(math.Pow(2, float64(k)))]: a negative power truncates to 0;
    a power that no int64 holds converts to the minimum (amd64). *)
Definition pow2_duration (k : Z) : Z :=
  if k <? 0 then 0 else if k <? 63 then 2 ^ k else - 2 ^ 63.

(** The back-off before retry: [RetryDelay * 2^(attempt-1)] in int64. *)
Definition backoff (retryDelay attempt : Z) : Z := int64 (retryDelay * pow2_duration (attempt - 1)).

Section Processor.
Context `{Env} `{UuidText} `{Propagator} `{RedisCommands} `{TimeZones} `{TextTemplate}.
Variable deps : ProcessorDeps.

(** ** Non-fatal steps *)

Definition logDelivery (msg : Message) (n : Notification) (status : string) (errMsg : option string)
    (errCode : option string) (deliveredAt : option gotime) : M unit :=
  let provName := match Registry_Get (d_Registry deps) (n_Channel n) with
                  | Ok prov => pv_Name prov
                  | Err _ => n_Channel n
                  end in
  t ← now;
  ignore (DeliveryRepo_Create
    {| dl_ID := uuid_nil; dl_NotificationID := n_ID n; dl_Channel := n_Channel n; dl_Provider := provName;
       dl_Status := status; dl_ProviderMessageID := None; dl_ErrorMessage := errMsg; dl_ErrorCode := errCode;
       dl_RetryCount := m_Attempt msg - 1; dl_AttemptedAt := t; dl_DeliveredAt := deliveredAt |}).

Definition updateStatus (id : uuid) (status : NotificationStatus) : M unit :=
  ignore (NotificationRepo_UpdateStatus id status).

Definition dispatchWebhook (n : Notification) (event : string) : M unit :=
  match d_Webhook deps with
  | None => mret tt
  | Some dispatch => ignore (dispatch n event)
  end.

Definition dlq_message (msg : Message) (reason errMsg : string) (t : gotime) : DLQMessage :=
  {| q_Original := msg; q_OriginalTopic := TopicForChannel (m_Channel msg); q_FailureReason := reason;
     q_ErrorMessage := errMsg; q_LastAttempt := m_Attempt msg; q_DeadLetteredAt := t |}.

Definition deadLetter (msg : Message) (reason errMsg : string) : M unit :=
  if negb (d_DLQEnabled deps) || negb (d_DLQPublisher deps) then mret tt
  else
    t ← now;
    r ← try (PublishDLQ (dlq_message msg reason errMsg t));
    match r with
    | Err _ => Inc "DLQPublishErrors" [m_Channel msg]
    | Ok _ => Inc "DLQPublished" [m_Channel msg; reason]
    end.

Definition drop (msg : Message) (n : Notification) (reason : string) : M unit :=
  _ ← logDelivery msg n DeliveryFailed (Some reason) None None;
  _ ← updateStatus (n_ID n) StatusDropped;
  dispatchWebhook n WebhookEventDropped.

(** ** Sending with retries *)

Definition send_outcome (r : result unit) : string :=
  match r with
  | Ok _ => OutcomeOK
  | Err err => if IsPermanent err then OutcomePermFail else OutcomeTempFail
  end.

(** One call of the provider, with its metrics. *)
Definition send_once (prov : Provider) (n : Notification) : M (result unit) :=
  r ← try (pv_Send prov n);
  _ ← Inc "ProviderSendTotal" [n_Channel n; pv_Name prov; send_outcome r];
  _ ← Observe "ProviderSendDur" [n_Channel n; pv_Name prov; send_outcome r];
  mret r.

Definition out_of_retries : error := EPlain "retry budget miscounted".

(** The [for] loop of [sendWithRetry], from the given attempt number. *)
Fixpoint send_loop (retries : nat) (prov : Provider) (n : Notification) (msg : Message) (attempt : Z) : M unit :=
  r ← send_once prov n;
  match r with
  | Ok _ => mret tt
  | Err err =>
      if IsPermanent err || (m_MaxAttempts msg <=? attempt) then throw err
      else
        done ← wait (backoff (d_RetryDelay deps) attempt);
        if (done : bool) then throw (EWrap "context cancelled during retry" ECtxCanceled)
        else match retries with
             | O => throw out_of_retries
             | S retries' => send_loop retries' prov n msg (attempt + 1)
             end
  end.

Definition sendWithRetry (prov : Provider) (n : Notification) (msg : Message) : M unit :=
  send_loop (Z.to_nat (m_MaxAttempts msg - m_Attempt msg)) prov n msg (m_Attempt msg).

(** ** deliver *)

Definition set_payload (n : Notification) (payload : gmap string any) : Notification :=
  {| n_ID := n_ID n; n_TenantID := n_TenantID n; n_IdempotencyKey := n_IdempotencyKey n;
     n_Type := n_Type n; n_Channel := n_Channel n; n_RecipientID := n_RecipientID n;
     n_RecipientAddress := n_RecipientAddress n; n_TemplateID := n_TemplateID n;
     n_Payload := Some payload; n_Priority := n_Priority n; n_Status := n_Status n;
     n_ScheduledAt := n_ScheduledAt n; n_CreatedAt := n_CreatedAt n; n_UpdatedAt := n_UpdatedAt n |}.

Definition fail_delivery (msg : Message) (n : Notification) (reason errMsg : string) : M string :=
  _ ← logDelivery msg n DeliveryFailed (Some errMsg) None None;
  _ ← deadLetter msg reason errMsg;
  _ ← updateStatus (n_ID n) StatusFailed;
  _ ← dispatchWebhook n WebhookEventFailed;
  mret LabelFailed.

Definition deliver (msg : Message) (n : Notification) : M string :=
  rendered ← match n_TemplateID n with
             | None => mret (Ok (default ∅ (n_Payload n)))
             | Some tid =>
                 r ← try (Render (m_TenantID msg) tid (n_Payload n));
                 mret (match r with
                       | Ok sb => Ok (<["_body" := AStr sb.2]> (<["_subject" := AStr sb.1]>
                                        (default ∅ (n_Payload n))))
                       | Err err => Err err
                       end)
             end;
  match rendered with
  | Err err => fail_delivery msg n DLQReasonTemplateRender (Error err)
  | Ok payload =>
      match Registry_Get (d_Registry deps) (n_Channel n) with
      | Err err => fail_delivery msg n DLQReasonNoProvider (Error err)
      | Ok prov =>
          sent ← try (sendWithRetry prov (set_payload n payload) msg);
          match sent with
          | Err sendErr =>
              fail_delivery msg n
                (if IsPermanent sendErr then DLQReasonPermanent else DLQReasonRetriesExhausted) (Error sendErr)
          | Ok _ =>
              t ← now;
              _ ← logDelivery msg n DeliverySuccess None None (Some t);
              _ ← updateStatus (n_ID n) StatusDelivered;
              _ ← dispatchWebhook n WebhookEventDelivered;
              mret LabelDelivered
          end
      end
  end.

(** ** Process *)

(** Steps 2 to 7 on the fetched notification; the result is the label of the
    deferred counter. *)
Definition process_fetched (msg : Message) (n : Notification) : M string :=
  _ ← or_else (NotificationRepo_UpdateStatus (n_ID n) StatusProcessing) (EWrap "mark processing");
  allowed ← or_else (IsAllowed (m_TenantID msg) (n_RecipientID n) (n_Channel n)) (EWrap "preference check");
  if negb (allowed.1) then
    _ ← drop msg n allowed.2;
    mret LabelDroppedPref
  else
    let cap := default 0 (d_RateCaps deps !! n_Channel n) in
    ok ← (if 0 <? cap then
            ok ← or_else (Allow (n_RecipientID n) (n_Channel n) Hour cap) (EWrap "rate limit check");
            _ ← Inc "RateLimitDecisions" [ScopeWorker; if (ok : bool) then OutcomeAllowed else OutcomeDenied];
            mret ok
          else mret true);
    if (ok : bool) then deliver msg n
    else
      _ ← drop msg n "rate limit exceeded";
      mret LabelDroppedRateLim.

(** Step 1 and the rest. *)
Definition process_steps (msg : Message) : M string :=
  n ← or_else (NotificationRepo_GetByID (m_TenantID msg) (m_NotificationID msg)) (EWrap "fetch notification");
  process_fetched msg n.

(** [outcome] starts as "delivered", so that is what the deferred counter gets
    when a step returns an error. *)
Definition Process (msg : Message) : M unit :=
  _ ← Inc "WorkerInflight" [m_Channel msg];
  t ← now;
  _ ← (if m_EnqueuedAt msg =? zero_time then mret tt
       else metric_set "QueueLagSeconds" [m_Channel msg] (t - m_EnqueuedAt msg));
  r ← try (process_steps msg);
  _ ← Inc "NotifProcessed" [m_Channel msg; match r with Ok outcome => outcome | Err _ => LabelDelivered end];
  _ ← Dec "WorkerInflight" [m_Channel msg];
  match r with
  | Ok _ => mret tt
  | Err err => throw err
  end.
End Processor.

(** ** The retry loop *)

Section Retries.
Context `{Env}.
Variables (deps : ProcessorDeps) (prov : Provider) (n : Notification).
Context `{!ProviderContract prov}.

(** Provider calls so far with an outcome, and in all. *)
Definition sends (o : string) (w : world) : Z := metric w "ProviderSendTotal" [n_Channel n; pv_Name prov; o].
Definition all_sends (w : world) : Z := sends OutcomeOK w + sends OutcomeTempFail w + sends OutcomePermFail w.

Lemma metric_worker_view w w' name ls : worker_view w = worker_view w' -> metric w name ls = metric w' name ls.
Proof. unfold worker_view, metric. congruence. Qed.

Lemma wp_send_once w :
  wp (send_once prov n) (fun r w' => exists res, r = Ok res /\
    (forall o, sends o w' = sends o w + if decide (send_outcome res = o) then 1 else 0) /\
    match res with Ok _ => True | Err e => IsPermanent e = negb (IsTemporary e) end) w.
Proof.
  unfold send_once. apply wp_bind, wp_try. unfold wp.
  pose proof (send_frame (p := prov) n w) as Hf. pose proof (send_typed (p := prov) n w) as Ht.
  destruct (pv_Send prov n w) as [res w1]. cbn [fst snd] in *.
  exists res. split; [done|]. split; [|destruct res; auto].
  intros o. unfold sends.
  set (w2 := (Inc "ProviderSendTotal" [n_Channel n; pv_Name prov; send_outcome res] w1).2).
  transitivity (metric (metric_add "ProviderSendDur_count" [n_Channel n; pv_Name prov; send_outcome res] 1 w2).2
                 "ProviderSendTotal" [n_Channel n; pv_Name prov; o]); [done|].
  rewrite metric_add_metric, decide_False by done. unfold w2, Inc. rewrite metric_add_metric.
  rewrite (metric_worker_view _ _ _ _ Hf). destruct (decide (send_outcome res = o)) as [->|Hne].
  - rewrite decide_True by done. lia.
  - rewrite decide_False by congruence. lia.
Qed.

(** How many calls the loop may still make from [attempt]. *)
Definition budget (msg : Message) (attempt : Z) : Z := Z.max 1 (m_MaxAttempts msg - attempt + 1).

Definition loop_post (msg : Message) (attempt : Z) (w : world) (r : result unit) (w' : world) : Prop :=
  let k := all_sends w' - all_sends w in
  1 <= k <= budget msg attempt /\
  sends OutcomeOK w' - sends OutcomeOK w = (match r with Ok _ => 1 | Err _ => 0 end) /\
  sends OutcomePermFail w' - sends OutcomePermFail w
    = (match r with Ok _ => 0 | Err e => if IsPermanent e then 1 else 0 end) /\
  match r with
  | Ok _ => True
  | Err e => IsPermanent e = true
             \/ (IsTemporary e = true /\ k = budget msg attempt)
             \/ e = EWrap "context cancelled during retry" ECtxCanceled
  end.

Lemma wp_send_loop retries msg attempt w :
  retries = Z.to_nat (m_MaxAttempts msg - attempt) ->
  wp (send_loop deps retries prov n msg attempt) (loop_post msg attempt w) w.
Proof.
  revert attempt w. induction retries as [|retries IH]; intros attempt w Hr; cbn [send_loop].
  all: apply wp_bind; eapply wp_mono; [apply wp_send_once|].
  all: intros r w1 (res & -> & Hc & Ht).
  all: pose proof (Hc OutcomeOK) as H1; pose proof (Hc OutcomeTempFail) as H2; pose proof (Hc OutcomePermFail) as H3.
  all: destruct res as [[]|err]; unfold send_outcome in H1, H2, H3.
  1, 3: apply wp_ret; unfold loop_post, all_sends, budget; simpl in *; lia.
  all: destruct (IsPermanent err) eqn:Hp; simpl in H1, H2, H3.
  1, 3: apply wp_throw; unfold loop_post, all_sends, budget; rewrite Hp; simpl in *; split_and!; try lia; by left.
  all: cbn [orb]; symmetry in Ht; apply negb_false_iff in Ht.
  all: destruct (Z.leb_spec (m_MaxAttempts msg) attempt).
  1, 3: apply wp_throw; unfold loop_post, all_sends, budget; rewrite Hp; split_and!; try lia; right; left; (split; [done|lia]).
  { lia. }
  apply wp_bind. unfold wp. pose proof (frame_wait w_metrics (backoff (d_RetryDelay deps) attempt) w1) as Hw.
  unfold wait in *.
  assert (forall o w2, w_metrics w2 = w_metrics w1 -> sends o w2 = sends o w1) as Hm
    by (intros o w2 E; unfold sends, metric; by rewrite E).
  destruct (ev_done _).
  - cbn [fst snd] in *. unfold throw, loop_post, all_sends, budget. cbn [fst snd].
    change (IsPermanent (EWrap "context cancelled during retry" ECtxCanceled)) with false.
    rewrite (Hm OutcomeOK), (Hm OutcomeTempFail), (Hm OutcomePermFail) by done. split_and!; [lia|lia|lia|lia|by right; right].
  - cbn [fst snd] in *. set (w2 := advance _ w1) in *.
    specialize (IH (attempt + 1) w2 ltac:(lia)). unfold wp in IH.
    destruct (send_loop deps retries prov n msg (attempt + 1) w2) as [r w3]. cbn [fst snd] in *.
    unfold loop_post, all_sends, budget in *. rewrite (Hm OutcomeOK w2 Hw), (Hm OutcomeTempFail w2 Hw), (Hm OutcomePermFail w2 Hw) in IH.
    destruct IH as (Hk & Hok & Hpm & Hr3). split; [lia|]. split; [lia|]. split; [lia|]. destruct r; [done|].
    naive_solver lia.
Qed.
End Retries.

(** C10. [sendWithRetry] terminates after at least one and at most
    max(1, MaxAttempts - Attempt + 1) provider calls; it succeeds exactly when one
    call was accepted, which is then the last; a permanent failure is never retried;
    and it gives up on a temporary error only when the whole budget is spent or the
    context is cancelled during a wait. *)
Theorem sendWithRetry_bounded `{Env} deps prov n msg w :
  ProviderContract prov ->
  let '(r, w') := sendWithRetry deps prov n msg w in
  let k := all_sends prov n w' - all_sends prov n w in
  1 <= k <= Z.max 1 (m_MaxAttempts msg - m_Attempt msg + 1) /\
  sends prov n OutcomeOK w' - sends prov n OutcomeOK w = (match r with Ok _ => 1 | Err _ => 0 end) /\
  sends prov n OutcomePermFail w' - sends prov n OutcomePermFail w
    = (match r with Ok _ => 0 | Err e => if IsPermanent e then 1 else 0 end) /\
  match r with
  | Ok _ => True
  | Err e => IsPermanent e = true
             \/ (IsTemporary e = true /\ k = Z.max 1 (m_MaxAttempts msg - m_Attempt msg + 1))
             \/ e = EWrap "context cancelled during retry" ECtxCanceled
  end.
Proof. intros Hp. apply wp_pair, wp_send_loop; [done|]. done. Qed.

(** A provider that is down: three temporary failures, then the budget of three is
    spent. *)
Definition down_provider : Provider := @ses_Provider calm demo_ses "from@x".
Definition demo_deps : ProcessorDeps :=
  {| d_Registry := Register NewRegistry down_provider; d_RateCaps := ∅; d_RetryDelay := Second;
     d_DLQPublisher := true; d_DLQEnabled := true; d_Webhook := None |}.

Lemma sendWithRetry_bounded_witness :
  let '(r, w') := @sendWithRetry calm demo_deps down_provider demo_notification demo_message empty_world in
  is_ok r = false /\
  1 <= all_sends down_provider demo_notification w' - all_sends down_provider demo_notification empty_world <= 3.
Proof.
  assert (is_ok (@sendWithRetry calm demo_deps down_provider demo_notification demo_message empty_world).1 = false)
    as Hf by (vm_compute; reflexivity).
  pose proof (@sendWithRetry_bounded calm demo_deps down_provider demo_notification demo_message empty_world) as Hs.
  destruct (@sendWithRetry _ _ _ _ _ _) as [r w']. split; [exact Hf|]. apply Hs.
  apply ses_contract. intros t r0 e He. injection He as <-. split; reflexivity.
Defined.

(** The back-off before a retry is exactly RetryDelay * 2^(attempt-1), doubling
    from one attempt to the next, as long as it fits in a Duration. *)
Theorem backoff_doubles retryDelay attempt :
  0 <= retryDelay -> 1 <= attempt -> retryDelay * 2 ^ attempt < 2 ^ 63 -> attempt <= 62 ->
  backoff retryDelay attempt = retryDelay * 2 ^ (attempt - 1) /\
  backoff retryDelay (attempt + 1) = 2 * backoff retryDelay attempt.
Proof.
  intros Hd Ha Hfit Hb.
  assert (forall k, 0 <= k < 63 -> pow2_duration k = 2 ^ k) as Hpow.
  { intros k Hk. unfold pow2_duration. destruct (Z.ltb_spec k 0); [lia|]. by destruct (Z.ltb_spec k 63); [|lia]. }
  assert (2 ^ attempt = 2 * 2 ^ (attempt - 1)) as Hs.
  { rewrite <-Z.pow_succ_r by lia. f_equal. lia. }
  assert (0 < 2 ^ (attempt - 1)) by (apply Z.pow_pos_nonneg; lia).
  unfold backoff. replace (attempt + 1 - 1) with attempt by lia. rewrite !Hpow by lia.
  rewrite !int64_id by nia. lia.
Qed.

Lemma backoff_doubles_witness : backoff Second 3 = 4 * Second /\ backoff Second 4 = 2 * backoff Second 3.
Proof. apply (backoff_doubles Second 3); vm_compute; congruence. Defined.

