(* ===== verification/Pipeline.v ===== *)
(** * The pipeline's guarantees ([internal/worker/processor.go])

    What one run of [Process] leaves in the notifications, the delivery log, Kafka
    and the provider counters, proved against contracts of the providers and of the
    webhook dispatcher. *)

From S2P Require Import Prelude Time Domain Json World Db Repository Schema Queue.
From S2P Require Import Provider RateLimit Preference Template Notification Webhook Processor.

(** ** What each step does to the notifications, the delivery log and Kafka *)

Definition pview (w : world) : list NotificationRow * list DeliveryLogRow * list KafkaRecord :=
  (notifications (w_db w), delivery_logs (w_db w), w_kafka w).
#[global] Instance timeless_pview : Timeless pview.
Proof. by intros ? []. Qed.
#[global] Instance frame_metric_add_pview name ls k : Frame pview (metric_add name ls k).
Proof. by intros []. Qed.
#[global] Instance frame_metric_set_pview name ls k : Frame pview (metric_set name ls k).
Proof. by intros []. Qed.

(** What the worker needs of the webhook dispatcher: it only adds records to the
    webhook topic, counts nothing and takes no negative time. *)
Class DispatcherContract (dispatch : Notification -> string -> M unit) : Prop :=
  dispatch_only_publishes : forall n e w, exists hooks,
    notifications (w_db (dispatch n e w).2) = notifications (w_db w) /\
    delivery_logs (w_db (dispatch n e w).2) = delivery_logs (w_db w) /\
    w_metrics (dispatch n e w).2 = w_metrics w /\ w_now w <= w_now (dispatch n e w).2 /\
    w_kafka (dispatch n e w).2 = w_kafka w ++ hooks /\ Forall (fun r => k_Topic r = WebhookTopic) hooks.

(** The dependencies of a processor keep their contracts. *)
Class DepsContract (deps : ProcessorDeps) : Prop := {
  deps_providers : forall ch p, d_Registry deps !! ch = Some p -> ProviderContract p;
  deps_webhook : forall f, d_Webhook deps = Some f -> DispatcherContract f;
}.

(** The terminal outcomes of a message. *)
Inductive drop_cause := ByPreference | ByRateLimit.
Inductive verdict :=
  | VDelivered
  | VFailed (reason errMsg : string)
  | VDropped (cause : drop_cause) (reason : string).

Definition verdict_label (v : verdict) : string :=
  match v with
  | VDelivered => LabelDelivered
  | VFailed _ _ => LabelFailed
  | VDropped ByPreference _ => LabelDroppedPref
  | VDropped ByRateLimit _ => LabelDroppedRateLim
  end.
Definition verdict_status (v : verdict) : string :=
  match v with VDelivered => StatusDelivered | VFailed _ _ => StatusFailed | VDropped _ _ => StatusDropped end.
Definition verdict_error (v : verdict) : option string :=
  match v with VDelivered => None | VFailed _ e => Some e | VDropped _ e => Some e end.

(** The delivery-log row a verdict on notification [id] is recorded by. *)
Definition log_of (msg : Message) (n : Notification) (v : verdict) (row : DeliveryLogRow) : Prop :=
  lr_NotificationID row = n_ID n /\ lr_Channel row = n_Channel n /\
  lr_Status row = (match v with VDelivered => DeliverySuccess | _ => DeliveryFailed end) /\
  lr_ErrorMessage row = verdict_error v /\ lr_RetryCount row = int32 (m_Attempt msg - 1) /\
  (is_Some (lr_DeliveredAt row) <-> v = VDelivered).

(** The dead-letter record of a failure. *)
Definition dlq_of `{UuidText} (msg : Message) (v : verdict) (rec : KafkaRecord) : Prop :=
  match v with
  | VFailed reason errMsg =>
      k_Topic rec = DLQTopicForChannel (m_Channel msg) /\ k_Key rec = m_RecipientID msg /\
      exists t, Unmarshal_bytes (k_Value rec) = Ok (dlq_message msg reason errMsg t)
  | _ => False
  end.

(** At most one new element, and one where it is due. *)
Definition grew {A} (P : A -> Prop) (due : Prop) (l l' : list A) : Prop :=
  (l' = l /\ ~ due) \/ exists x, l' = l ++ [x] /\ P x.

Lemma grew_weaken {A} (P : A -> Prop) (due due' : Prop) l l' :
  (due' -> due) -> grew P due l l' -> grew P due' l l'.
Proof. intros Hd [[-> ?]|?]; [left; tauto|by right]. Qed.

(** The provider name of a log row. *)
Definition provider_name (deps : ProcessorDeps) (n : Notification) : string :=
  match Registry_Get (d_Registry deps) (n_Channel n) with Ok prov => pv_Name prov | Err _ => n_Channel n end.

(** The log row is written unless a call fails, the generated id is taken or a name
    does not fit its column. *)
Definition log_due `{Env} (deps : ProcessorDeps) (n : Notification) (ls : list DeliveryLogRow) : Prop :=
  faultless /\ (forall i, ev_uuid (env_event i) ∉ lr_ID <$> ls) /\
  varchar 50 (n_Channel n) = true /\ varchar 100 (provider_name deps n) = true.

(** The dead letter of a failure is published when dead-lettering is on, unless a
    call fails or the clock left the years JSON can print. *)
Definition dlq_due `{Env} (deps : ProcessorDeps) (msg : Message) (v : verdict) (t0 t1 : gotime) : Prop :=
  faultless /\ (exists reason errMsg, v = VFailed reason errMsg) /\
  d_DLQEnabled deps = true /\ d_DLQPublisher deps = true /\
  printable (m_EnqueuedAt msg) /\ forall t, t0 <= t <= t1 -> printable t.

Lemma dlq_due_earlier `{Env} deps msg v t0 t1 t2 :
  t1 <= t2 -> dlq_due deps msg v t0 t2 -> dlq_due deps msg v t0 t1.
Proof. intros Hle (? & ? & ? & ? & ? & Ht). split_and!; try done. intros t ?. apply Ht. lia. Qed.

Lemma dlq_marshal `{UuidText} msg reason errMsg t :
  printable (m_EnqueuedAt msg) -> printable t -> is_ok (Marshal (dlq_message msg reason errMsg t)) = true.
Proof.
  unfold printable. intros H1 H2. cbn [Marshal DLQMessage_codec dlq_message q_Original q_DeadLetteredAt Message_codec].
  destruct (time_MarshalJSON (m_EnqueuedAt msg)); [|done]. cbn [mbind result_bind mret result_ret].
  by destruct (time_MarshalJSON t).
Qed.


Section Steps.
Context `{Env} `{UuidTextLaws} `{Propagator} `{RedisCommands} `{TimeZones} `{TextTemplate}.
Variable deps : ProcessorDeps.
Context `{!DepsContract deps}.

Lemma wp_logDelivery msg n v st errMsg at_ w ns ls k :
  pview w = (ns, ls, k) -> n_ID n ∈ nr_ID <$> ns ->
  st = (match v with VDelivered => DeliverySuccess | _ => DeliveryFailed end) -> errMsg = verdict_error v ->
  (is_Some at_ <-> v = VDelivered) ->
  wp (logDelivery deps msg n st errMsg None at_) (fun r w' => r = Ok tt /\
    exists ls', pview w' = (ns, ls', k) /\ grew (log_of msg n v) (log_due deps n ls) ls ls') w.
Proof.
  intros Hv Hfk -> -> Hat. apply wp_bind, wp_gets, wp_ignore, wp_bind, wp_or_else, wp_sql_env.
  - intros dt m Hf. split; [done|]. exists ls. split; [by rewrite (timeless (f := pview) dt w)|].
    left. split; [done|]. intros [? _]. done.
  - intros dt t m. unfold insert_row. destruct w as [[] ? ? ? ? ? ?]. injection Hv as <- <- <-.
    destruct (violated _) eqn:E; simpl.
    + assert (~ log_due deps n delivery_logs) as Hno.
      { intros (_ & Hu & Hc & Hp). rewrite violated_all in E; [done|].
        repeat constructor; simpl; try done; [by apply bool_decide_eq_true_2|by destruct v|
          by apply bool_decide_eq_true_2]. }
      split; intros; (split; [done|]); eexists; (split; [done|]); by left.
    + split; [intros _|apply wp_ret]; (split; [done|]); eexists; (split; [done|]); right; eexists; (split; [done|]);
      split_and!; try done; simpl; unfold toNullTime, timestamptz; by rewrite fmap_is_Some.
Qed.

Lemma wp_updateStatus id status w ns ls k :
  pview w = (ns, ls, k) ->
  wp (updateStatus id status) (fun r w' => r = Ok tt /\
    exists ns', pview w' = (ns', ls, k) /\
      ((ns' = ns /\ ~ faultless) \/ exists t, ns' = restatus id status t ns)) w.
Proof.
  intros Hv. apply wp_ignore, wp_bind, wp_or_else, wp_sql_env.
  - intros dt m Hf. split; [done|]. exists ns. split; [by rewrite (timeless (f := pview) dt w)|by left].
  - intros dt t m. unfold update_returning. destruct w as [[] ? ? ? ? ? ?]. injection Hv as <- <- <-.
    simpl. split; [intros _|destruct (where_ _ _); [|apply wp_ret]]; (split; [done|]); eexists; (split; [done|]); right;
      by exists t.
Qed.

Lemma wp_dispatchWebhook n event w ns ls k :
  pview w = (ns, ls, k) ->
  wp (dispatchWebhook deps n event) (fun r w' => r = Ok tt /\
    exists hooks, pview w' = (ns, ls, k ++ hooks) /\ Forall (fun r => k_Topic r = WebhookTopic) hooks) w.
Proof.
  intros Hv. unfold dispatchWebhook. destruct (d_Webhook deps) as [f|] eqn:Hf.
  - pose proof (deps_webhook f Hf) as Hc. destruct (Hc n event w) as (hooks & Hns & Hls & _ & _ & Hk & Hh).
    apply wp_ignore. unfold wp. split; [done|]. exists hooks. injection Hv as <- <- <-.
    split; [|done]. unfold pview. by rewrite Hns, Hls, Hk.
  - apply wp_ret. split; [done|]. exists []. by rewrite app_nil_r.
Qed.

Lemma wp_deadLetter msg reason errMsg t0 w ns ls k :
  pview w = (ns, ls, k) -> message_wf msg -> t0 <= w_now w ->
  wp (deadLetter deps msg reason errMsg) (fun r w' => r = Ok tt /\
    exists k', pview w' = (ns, ls, k') /\
      grew (dlq_of msg (VFailed reason errMsg)) (dlq_due deps msg (VFailed reason errMsg) t0 (w_now w')) k k'
      /\ (d_DLQEnabled deps = false -> k' = k)) w.
Proof.
  intros Hv Hwf Ht. unfold deadLetter.
  destruct (d_DLQEnabled deps) eqn:Hen, (d_DLQPublisher deps) eqn:Hpub; simpl.
  2, 3, 4: apply wp_ret; split; [done|]; exists k; split_and!; [done| |done]; left; split; [done|];
    intros (_ & _ & ? & ? & _); congruence.
  apply wp_bind, wp_gets, wp_bind, wp_try, wp_bind, wp_or_else, wp_lift.
  set (q := dlq_message msg reason errMsg (w_now w)). set (P := dlq_of msg (VFailed reason errMsg)).
  set (due := fun w1 => dlq_due deps msg (VFailed reason errMsg) t0 (w_now w1)).
  assert (forall name lb w1, pview (Inc name lb w1).2 = pview w1 /\ w_now (Inc name lb w1).2 = w_now w1) as Hm
    by (by intros ? ? []).
  assert (forall (r : result unit) (w1 : world) k', pview w1 = (ns, ls, k') -> grew P (due w1) k k' ->
    wp (match r with Err _ => Inc "DLQPublishErrors" [m_Channel msg]
                   | Ok _ => Inc "DLQPublished" [m_Channel msg; reason] end)
       (fun r w' => r = Ok tt /\ exists k', pview w' = (ns, ls, k') /\ grew P (due w') k k'
          /\ (true = false -> k' = k)) w1) as Hend.
  { intros r w1 k' Hp Hg. unfold wp. split; [by destruct r|]. exists k'.
    destruct r; (split; [by rewrite (proj1 (Hm _ _ _))|]); split; [|done| |done];
      unfold due in *; by rewrite (proj2 (Hm _ _ _)). }
  destruct (Marshal q) as [j|e] eqn:Hj.
  2: { eapply (Hend (Err ENoRows)); [done|]. left. split; [done|]. intros (_ & _ & _ & _ & He & Hp).
       pose proof (dlq_marshal msg reason errMsg (w_now w) He (Hp _ (conj Ht (Z.le_refl _)))) as Hok.
       fold q in Hok. by rewrite Hj in Hok. }
  assert (dlq_wf q) as Hq by (split; [done|]; apply Hwf).
  pose proof (DLQMessage_json_roundtrip _ _ Hq Hj) as Hr.
  apply wp_Publish_env.
  - intros dt m Hf. eapply (Hend (Err ENoRows)); [by rewrite (timeless (f := pview) dt w)|].
    left. split; [done|]. intros [? _]. done.
  - intros dt m. cbv zeta. set (rec := published _ _ _).
    split; [intros _; eapply (Hend (Err ENoRows) _ (k ++ [rec]))|eapply (Hend (Ok tt) _ (k ++ [rec]))];
      try (by destruct w; injection Hv as <- <- <-);
      right; eexists; (split; [done|]); split_and!; try done; by exists (w_now w).
Qed.
End Steps.

(** ** Settling a verdict *)

(** The effects of a verdict on the message, reached in a run that began at [t0]: at
    most one delivery-log row that records it, a dead-letter record only for a failure
    and only when dead-lettering is on, webhook records, and the terminal status; each
    of them really there where it is due. *)
Definition settled `{Env} `{UuidText} (deps : ProcessorDeps) (msg : Message) (n : Notification) (v : verdict)
    (ns : list NotificationRow) (ls : list DeliveryLogRow) (k : list KafkaRecord) (t0 : gotime)
    (w' : world) : Prop :=
  exists ns' ls' k1 hooks, pview w' = (ns', ls', k1 ++ hooks) /\
    grew (log_of msg n v) (log_due deps n ls) ls ls' /\
    grew (dlq_of msg v) (dlq_due deps msg v t0 (w_now w')) k k1 /\ (d_DLQEnabled deps = false -> k1 = k) /\
    Forall (fun r => k_Topic r = WebhookTopic) hooks /\
    ((ns' = ns /\ ~ faultless) \/ exists t, ns' = restatus (n_ID n) (verdict_status v) t ns).

Section Settling.
Context `{Env} `{UuidTextLaws} `{Propagator} `{RedisCommands} `{TimeZones} `{TextTemplate}.
Variable deps : ProcessorDeps.
Context `{!DepsContract deps}.

#[local] Instance clock_logDelivery t msg n st em ec d : Keeps (after t) (logDelivery deps msg n st em ec d).
Proof. unfold logDelivery, DeliveryRepo_Create, now, InsertDeliveryLog. apply _. Qed.
#[local] Instance clock_updateStatus t id st : Keeps (after t) (updateStatus id st).
Proof. unfold updateStatus, NotificationRepo_UpdateStatus, UpdateNotificationStatus. apply _. Qed.
#[local] Instance clock_dispatchWebhook t n e : Keeps (after t) (dispatchWebhook deps n e).
Proof.
  unfold dispatchWebhook. destruct (d_Webhook deps) as [f|] eqn:Hf; [|apply _]. apply keeps_ignore. intros w Hw.
  destruct (deps_webhook f Hf n e w) as (_ & _ & _ & _ & Hc & _). unfold after in *. lia.
Qed.

(** The last two steps of every verdict. *)
Lemma wp_finish_verdict msg n v event t0 w ns ls ls' k k1 :
  pview w = (ns, ls', k1) -> grew (log_of msg n v) (log_due deps n ls) ls ls' ->
  grew (dlq_of msg v) (dlq_due deps msg v t0 (w_now w)) k k1 -> (d_DLQEnabled deps = false -> k1 = k) ->
  wp (updateStatus (n_ID n) (verdict_status v)) (fun r w1 => r = Ok tt /\
    wp (dispatchWebhook deps n event) (fun r w' => r = Ok tt /\ settled deps msg n v ns ls k t0 w') w1) w.
Proof.
  intros Hv Hls Hk Hoff. eapply wp_mono; [apply wp_clock; [apply _|by eapply wp_updateStatus]|].
  intros r3 w3 [[-> (ns' & Hv3 & Hns)] Hc3]. split; [done|].
  eapply wp_mono; [apply wp_clock; [apply _|by eapply wp_dispatchWebhook]|].
  intros r4 w4 [[-> (hooks & Hv4 & Hh)] Hc4]. split; [done|]. exists ns', ls', k1, hooks.
  split_and!; try done. eapply grew_weaken; [|exact Hk]. apply dlq_due_earlier. lia.
Qed.

Lemma wp_fail_delivery msg n reason errMsg t0 w ns ls k :
  pview w = (ns, ls, k) -> message_wf msg -> n_ID n ∈ nr_ID <$> ns -> t0 <= w_now w ->
  wp (fail_delivery deps msg n reason errMsg) (fun r w' => r = Ok LabelFailed /\
    settled deps msg n (VFailed reason errMsg) ns ls k t0 w') w.
Proof.
  intros Hv Hwf Hid Ht. apply wp_bind. eapply wp_mono; [apply wp_clock; [apply _|]|].
  { by eapply (wp_logDelivery deps msg n (VFailed reason errMsg)); [|..|by split; [intros []|]]. }
  intros r1 w1 [[-> (ls' & Hv1 & Hls)] Hc1]. apply wp_bind.
  eapply wp_mono; [eapply (wp_deadLetter deps msg reason errMsg t0); [done|done|lia]|].
  intros r2 w2 [-> (k1 & Hv2 & Hk & Hoff)].
  apply wp_bind. eapply wp_mono; [by eapply (wp_finish_verdict msg n (VFailed reason errMsg) WebhookEventFailed)|].
  intros r3 w3 [-> Hd]. apply wp_bind. eapply wp_mono; [exact Hd|]. intros r4 w4 [-> Hs]. by apply wp_ret.
Qed.

Lemma not_due msg v t0 t1 (k : list KafkaRecord) :
  (forall reason errMsg, v <> VFailed reason errMsg) -> grew (dlq_of msg v) (dlq_due deps msg v t0 t1) k k.
Proof. intros Hv. left. split; [done|]. intros (_ & (? & ? & ->) & _). by eapply Hv. Qed.

Lemma wp_drop msg n cause reason t0 w ns ls k :
  pview w = (ns, ls, k) -> n_ID n ∈ nr_ID <$> ns ->
  wp (drop deps msg n reason) (fun r w' => r = Ok tt /\
    settled deps msg n (VDropped cause reason) ns ls k t0 w') w.
Proof.
  intros Hv Hid. apply wp_bind.
  eapply wp_mono; [by eapply (wp_logDelivery deps msg n (VDropped cause reason)); [|..|by split; [intros []|]]|].
  intros r1 w1 [-> (ls' & Hv1 & Hls)]. apply wp_bind.
  eapply wp_mono; [eapply (wp_finish_verdict msg n (VDropped cause reason) WebhookEventDropped t0)|].
  1-4: done || by apply not_due.
  by intros r w2 [-> Hd].
Qed.

Lemma pview_worker_view w w' : worker_view w' = worker_view w -> pview w' = pview w.
Proof. unfold worker_view, pview. congruence. Qed.

Lemma frame_send_loop retries prov n msg attempt :
  ProviderContract prov -> Frame pview (send_loop deps retries prov n msg attempt).
Proof.
  intros Hp. revert attempt. induction retries as [|r IH]; intros attempt; cbn [send_loop].
  all: apply frame_bind; [|intros [|err]; [apply _|destruct (_ || _); [apply _|apply frame_bind; [apply _|]]]].
  1, 3: unfold send_once, Inc, Observe; apply frame_bind; [apply frame_try|apply _];
    intros w; apply pview_worker_view, (send_frame (p := prov)).
  all: intros []; apply _.
Qed.

Lemma frame_Render tid id p : Frame pview (Render tid id p).
Proof. unfold Render, TemplateRepo_GetByID, Observe. apply _. Qed.

#[local] Instance clock_Render t tid id p : Keeps (after t) (Render tid id p).
Proof. unfold Render, TemplateRepo_GetByID, GetTemplateByID, Observe. apply _. Qed.

Lemma clock_send_loop t retries prov n msg attempt :
  ProviderContract prov -> Keeps (after t) (send_loop deps retries prov n msg attempt).
Proof.
  intros Hp. pose proof (send_clock (p := prov)) as Hs. revert attempt.
  induction retries as [|r IH]; intros attempt; cbn [send_loop]; unfold send_once, Inc, Observe; apply _.
Qed.

(** The payload handed to the provider; rendering changes nothing. *)
Definition render_step (msg : Message) (n : Notification) : M (result (gmap string any)) :=
  match n_TemplateID n with
  | None => mret (Ok (default ∅ (n_Payload n)))
  | Some tid => r ← try (Render (m_TenantID msg) tid (n_Payload n));
      mret (match r with
            | Ok sb => Ok (<["_body" := AStr sb.2]> (<["_subject" := AStr sb.1]> (default ∅ (n_Payload n))))
            | Err err => Err err
            end)
  end.

Lemma wp_render_step msg n w :
  wp (render_step msg n) (fun r w' => is_ok r = true /\ pview w' = pview w /\ w_now w <= w_now w') w.
Proof.
  assert (Frame pview (render_step msg n)) as Hf.
  { unfold render_step. destruct (n_TemplateID n); [apply frame_bind; [apply frame_try, frame_Render|]|]; apply _. }
  apply wp_and; [|apply wp_clock; [unfold render_step; apply _|exact (wp_frame pview _ w Hf)]].
  unfold wp, render_step. destruct (n_TemplateID n); [|done]. unfold mbind, ST_bind, try. by destruct (Render _ _ _ _).
Qed.

Lemma wp_deliver msg n t0 w ns ls k :
  pview w = (ns, ls, k) -> message_wf msg -> n_ID n ∈ nr_ID <$> ns -> t0 <= w_now w ->
  wp (deliver deps msg n) (fun r w' => exists v, r = Ok (verdict_label v) /\ settled deps msg n v ns ls k t0 w') w.
Proof.
  intros Hv Hwf Hid Ht.
  assert (forall reason e w1, pview w1 = (ns, ls, k) -> t0 <= w_now w1 -> wp (fail_delivery deps msg n reason e)
    (fun r w' => exists v, r = Ok (verdict_label v) /\ settled deps msg n v ns ls k t0 w') w1) as Hfail.
  { intros reason e w1 Hv1 Ht1. eapply wp_mono; [by apply wp_fail_delivery|]. intros r w' [-> Hs].
    by exists (VFailed reason e). }
  apply (wp_bind (render_step msg n)). eapply wp_mono; [apply wp_render_step|].
  intros [rendered|e] w1 (Hok & Hv1 & Ht1); [clear Hok|done]. rewrite Hv in Hv1.
  destruct rendered as [payload|err]; [|apply Hfail; [done|lia]].
  destruct (Registry_Get (d_Registry deps) (n_Channel n)) as [prov|err] eqn:Hg; [|apply Hfail; [done|lia]].
  assert (ProviderContract prov) as Hp.
  { unfold Registry_Get in Hg. case_match eqn:E; simplify_eq. by eapply deps_providers. }
  apply wp_bind, wp_try. eapply wp_mono.
  { apply wp_clock; [intros t; by apply clock_send_loop|]. by apply (wp_frame pview), frame_send_loop. }
  intros [[]|sendErr] w2 [Hv2 Ht2]; rewrite Hv1 in Hv2; [|apply Hfail; [done|lia]].
  apply wp_bind, wp_gets, wp_bind.
  eapply wp_mono; [eapply (wp_logDelivery deps msg n VDelivered); [done|done|done|done|by split; eauto]|].
  intros r3 w3 [-> (ls' & Hv3 & Hls)]. apply wp_bind.
  eapply wp_mono; [eapply (wp_finish_verdict msg n VDelivered WebhookEventDelivered t0)|].
  1-4: done || by apply not_due.
  intros r4 w4 [-> Hd]. apply wp_bind. eapply wp_mono; [exact Hd|]. intros r5 w5 [-> Hs].
  apply wp_ret. by exists VDelivered.
Qed.
End Settling.

(** ** What the provider accepted *)

(** Sends the provider of [n]'s channel accepted so far. *)
Definition accepted (deps : ProcessorDeps) (n : Notification) (w : world) : Z :=
  match d_Registry deps !! n_Channel n with Some p => sends p n OutcomeOK w | None => 0 end.

(** The counter moves by one exactly for a delivery. *)
Definition accepts (label : string) : Z := if decide (label = LabelDelivered) then 1 else 0.

Section Accepted.
Context `{Env} `{UuidTextLaws} `{Propagator} `{RedisCommands} `{TimeZones} `{TextTemplate}.
Variable deps : ProcessorDeps.
Context `{!DepsContract deps}.

#[local] Hint Extern 1 (Frame _ (metric_add _ _ _)) => apply frame_metric_add_ne; done : typeclass_instances.
#[local] Instance frame_dispatchWebhook_sends l n e :
  Frame (fun w => metric w "ProviderSendTotal" l) (dispatchWebhook deps n e).
Proof.
  unfold dispatchWebhook. destruct (d_Webhook deps) as [f|] eqn:Hf; [|apply _]. apply frame_ignore. intros w.
  destruct (deps_webhook f Hf n e w) as (_ & _ & _ & Hm & _ & _). unfold metric. by rewrite Hm.
Qed.
#[local] Instance frame_Allow_sends l u c win cap :
  Frame (fun w => metric w "ProviderSendTotal" l) (Allow u c win cap).
Proof.
  unfold Allow, AllowKey, now. apply frame_bind; [apply _|]. intros t. apply frame_bind; [|apply _].
  apply frame_or_else, frame_external; [apply _|]. by intros ? [].
Qed.
#[local] Instance frame_logDelivery_sends l msg n st em ec d :
  Frame (fun w => metric w "ProviderSendTotal" l) (logDelivery deps msg n st em ec d).
Proof. unfold logDelivery, DeliveryRepo_Create, now. apply _. Qed.
#[local] Instance frame_updateStatus_sends l id st :
  Frame (fun w => metric w "ProviderSendTotal" l) (updateStatus id st).
Proof. unfold updateStatus, NotificationRepo_UpdateStatus. apply _. Qed.
#[local] Instance frame_fail_delivery_sends l msg n reason e :
  Frame (fun w => metric w "ProviderSendTotal" l) (fail_delivery deps msg n reason e).
Proof. unfold fail_delivery, deadLetter, PublishDLQ, now, Inc. apply _. Qed.
#[local] Instance frame_drop_sends l msg n reason :
  Frame (fun w => metric w "ProviderSendTotal" l) (drop deps msg n reason).
Proof. unfold drop. apply _. Qed.

Lemma accepted_frame {A} n (m : M A) :
  (forall l, Frame (fun w => metric w "ProviderSendTotal" l) m) -> Frame (accepted deps n) m.
Proof. intros Hm w. unfold accepted, sends. destruct (_ !! _) as [p|]; [apply Hm|done]. Qed.

Lemma wp_fail_label msg n reason e w :
  wp (fail_delivery deps msg n reason e) (fun r _ => forall l, r = Ok l -> l = LabelFailed) w.
Proof. repeat (apply wp_bind_any; [done|intros []; intros]). apply wp_ret. by intros l [= <-]. Qed.

Lemma wp_deliver_accepted msg n w :
  wp (deliver deps msg n) (fun r w' => forall label, r = Ok label ->
    accepted deps n w' = accepted deps n w + accepts label) w.
Proof.
  assert (forall reason e w1, accepted deps n w1 = accepted deps n w -> wp (fail_delivery deps msg n reason e)
    (fun r w' => forall label, r = Ok label -> accepted deps n w' = accepted deps n w + accepts label) w1) as Hfail.
  { intros reason e w1 Hw1. eapply wp_mono; [apply wp_and; [apply wp_fail_label|
      apply (wp_frame (accepted deps n)), accepted_frame, _]|].
    intros r w' [Hl Hw'] label ->. rewrite (Hl label eq_refl), Hw', Hw1. unfold accepts. rewrite decide_False by done. lia. }
  unfold deliver. apply wp_bind. eapply wp_mono; [apply (wp_frame (accepted deps n))|].
  { apply accepted_frame. intros l. destruct (n_TemplateID n); [|apply _].
    unfold Render, TemplateRepo_GetByID, Observe. apply _. }
  intros [[payload|err]|e] w1 Hw1; [|by apply Hfail|done]. unfold Registry_Get.
  unfold accepted in *.
  destruct (d_Registry deps !! n_Channel n) as [prov|] eqn:Hg; [|by apply Hfail].
  pose proof (deps_providers _ _ Hg) as Hp.
  apply wp_bind, wp_try. eapply wp_mono; [by apply (wp_send_loop deps prov (set_payload n payload))|].
  intros [[]|sendErr] w2 (_ & Hok & _ & _); change (sends prov (set_payload n payload)) with (sends prov n) in Hok;
    [|apply Hfail; lia].
  eapply wp_mono; [apply wp_and; [|apply (wp_frame (sends prov n OutcomeOK)); unfold sends, now; apply _]|].
  { instantiate (1 := fun r _ => forall l, r = Ok l -> l = LabelDelivered).
    repeat (apply wp_bind_any; [done|intros ?; intros]). apply wp_ret. by intros l [= <-]. }
  intros r w3 [Hl Hw3] label ->. rewrite (Hl label eq_refl), Hw3. unfold accepts. rewrite decide_True by done. lia.
Qed.

Lemma wp_process_accepted msg n w :
  wp (process_fetched deps msg n) (fun r w' => forall label, r = Ok label ->
    accepted deps n w' = accepted deps n w + accepts label) w.
Proof.
  unfold process_fetched.
  assert (forall cause reason w1, accepted deps n w1 = accepted deps n w ->
    wp (_ ← drop deps msg n reason; mret (verdict_label (VDropped cause reason)))
      (fun r w' => forall label, r = Ok label -> accepted deps n w' = accepted deps n w + accepts label) w1) as Hdrop.
  { intros cause reason w1 Hw1. apply wp_bind. eapply wp_mono; [apply (wp_frame (accepted deps n)), accepted_frame, _|].
    intros [[]|e] w2 Hw2; [|done]. apply wp_ret. intros label [= <-]. rewrite Hw2, Hw1. unfold accepts.
    destruct cause; rewrite decide_False by done; lia. }
  apply wp_bind. eapply wp_mono; [apply (wp_frame (accepted deps n)), accepted_frame; unfold NotificationRepo_UpdateStatus; apply _|].
  intros [n1|e] w1 Hw1; [|done]. apply wp_bind.
  eapply wp_mono; [apply (wp_frame (accepted deps n)), accepted_frame; unfold IsAllowed, PreferenceRepo_Get, now; apply _|].
  intros [allowed|e] w2 Hw2; [|done]. destruct (negb allowed.1); [apply (Hdrop ByPreference); congruence|].
  apply wp_bind. eapply wp_mono; [apply (wp_frame (accepted deps n)), accepted_frame; unfold Inc; apply _|].
  intros [ok|e] w3 Hw3; [|done]. destruct ok; [|apply (Hdrop ByRateLimit); congruence].
  eapply wp_mono; [apply wp_deliver_accepted|]. intros r w4 Hr label Hl. rewrite (Hr label Hl). congruence.
Qed.

Lemma accepts_verdict v : accepts (verdict_label v) = match v with VDelivered => 1 | _ => 0 end.
Proof. by destruct v as [| |[]]. Qed.
End Accepted.

Lemma wp_GetByID_found `{Env} tenant id w :
  wp (NotificationRepo_GetByID tenant id) (fun r w' => pview w' = pview w /\
    match r with
    | Ok n => exists row, row ∈ notifications (w_db w) /\ n = dbNotificationToDomain row
                /\ nr_ID row = id /\ nr_TenantID row = Some tenant
    | Err _ => faultless -> forall row, row ∈ notifications (w_db w) -> nr_ID row = id -> nr_TenantID row <> Some tenant
    end) w.
Proof.
  unfold NotificationRepo_GetByID. apply wp_bind, wp_or_else, wp_sql_read_env. intros dt t msg.
  pose proof (timeless (f := pview) dt w) as Hv. unfold uuidToNullUUID. split; [|done].
  change (fun r => by_id_tenant id tenant r) with (by_id_tenant id tenant).
  destruct (where_ _ _) as [|row rest] eqn:E; simpl.
  { split; [done|]. intros _ row Hrow Hid Ht. rewrite where_nil in E. specialize (E row Hrow).
    unfold by_id_tenant, null_eq in E. by rewrite !bool_decide_eq_true_2 in E. }
  apply wp_ret. split; [done|]. exists row.
  assert (row ∈ where_ (by_id_tenant id tenant) (notifications (w_db w))) as Hin by (rewrite E; set_solver).
  apply elem_of_where in Hin as [Hk Hin]. unfold by_id_tenant, null_eq in Hk.
  apply andb_true_iff in Hk as [?%bool_decide_eq_true ?%bool_decide_eq_true]. done.
Qed.

Section Whole.
Context `{Env} `{UuidTextLaws} `{Propagator} `{RedisCommands} `{TimeZones} `{TextTemplate}.
Variable deps : ProcessorDeps.
Context `{!DepsContract deps}.

#[local] Instance frame_IsAllowed t u c : Frame pview (IsAllowed t u c).
Proof. unfold IsAllowed, PreferenceRepo_Get, now. apply _. Qed.

#[local] Instance frame_Allow u c win cap : Frame pview (Allow u c win cap).
Proof.
  unfold Allow, AllowKey, now. apply frame_bind; [apply _|]. intros t. apply frame_bind; [|apply _].
  apply frame_or_else, frame_external; [apply _|]. by intros ? [].
Qed.

#[local] Instance clock_IsAllowed t0 t u c : Keeps (after t0) (IsAllowed t u c).
Proof. unfold IsAllowed, PreferenceRepo_Get, GetPreference, now. apply _. Qed.
#[local] Instance clock_Allow t u c win cap : Keeps (after t) (Allow u c win cap).
Proof.
  unfold Allow, AllowKey, now. apply keeps_bind; [apply _|]. intros now. apply keeps_bind; [|apply _].
  apply keeps_or_else, keeps_external_after. by intros ? [].
Qed.

(** The checks answer unless a call fails. *)
Lemma wp_IsAllowed_answers t u c w : wp (IsAllowed t u c) (fun r _ => is_ok r = false -> ~ faultless) w.
Proof.
  unfold IsAllowed, PreferenceRepo_Get. apply wp_bind, wp_try, wp_bind, wp_or_else, wp_sql_read_env.
  intros dt t0 msg. split; [|intros Hf; unfold row_error; simpl; by apply wp_throw].
  destruct (one _) as [row|e] eqn:E.
  - apply wp_ret. repeat (case_match || apply wp_ret || apply wp_bind, wp_gets); done.
  - unfold one in E. case_match; simplify_eq. by apply wp_ret.
Qed.

Lemma wp_Allow_answers u c win cap w : wp (Allow u c win cap) (fun r _ => is_ok r = false -> ~ faultless) w.
Proof.
  unfold Allow, AllowKey. apply wp_bind, wp_gets, wp_bind, wp_or_else, wp_external_env. intros dt msg.
  split; [by intros|]. by apply wp_ret.
Qed.

(** The status after step 2. *)
Definition marked (msg : Message) (ns ns1 : list NotificationRow) : Prop :=
  ns1 = ns \/ exists t, ns1 = restatus (m_NotificationID msg) StatusProcessing t ns.

Definition fetched_post (msg : Message) (row : NotificationRow) ns ls k t0 (r : result string) (w' : world) : Prop :=
  match r with
  | Ok label => exists v t, label = verdict_label v /\ settled deps msg (dbNotificationToDomain row) v
           (restatus (m_NotificationID msg) StatusProcessing t ns) ls k t0 w'
  | Err _ => ~ faultless /\ exists ns1, marked msg ns ns1 /\ pview w' = (ns1, ls, k)
  end.

Lemma wp_process_fetched msg row t0 w1 ns ls k :
  pview w1 = (ns, ls, k) -> message_wf msg -> nr_ID row = m_NotificationID msg -> row ∈ ns -> t0 <= w_now w1 ->
  wp (process_fetched deps msg (dbNotificationToDomain row)) (fetched_post msg row ns ls k t0) w1.
Proof.
  intros Hv Hwf Hid Hrow Ht. apply wp_bind, wp_or_else, wp_bind, wp_or_else, wp_sql_env.
  { intros dt m Hf. split; [done|]. exists ns. split; [by left|]. by rewrite (timeless (f := pview) dt w1). }
  intros dt t m. unfold update_returning. simpl n_ID. rewrite Hid.
  set (w2 := set_db _ (advance dt w1)). set (ns1 := restatus (m_NotificationID msg) StatusProcessing t ns).
  assert (pview w2 = (ns1, ls, k) /\ t0 <= w_now w2) as [Hv2 Ht2].
  { subst w2. destruct w1 as [[] ? ? ? ? ? ?]. injection Hv as <- <- <-. simpl in *. split; [done|lia]. }
  clearbody w2.
  assert (n_ID (dbNotificationToDomain row) ∈ nr_ID <$> ns1) as Hin.
  { unfold ns1, restatus. rewrite fmap_update_where by (by intros []). by apply (list_elem_of_fmap_2 nr_ID). }
  assert (forall e w, ~ faultless -> pview w = (ns1, ls, k) -> fetched_post msg row ns ls k t0 (Err e) w) as Herr
    by (intros e w Hf Hw; split; [done|]; exists ns1; split; [right; by exists t|done]).
  split; [intros Hf; by apply Herr|].
  destruct (where_ _ _) as [|nrow rest] eqn:Ew.
  { exfalso. rewrite where_nil in Ew. injection Hv as Hns _ _. rewrite Hns in Ew. specialize (Ew row Hrow). simpl in Ew.
    by rewrite bool_decide_eq_true_2 in Ew. }
  simpl one. apply wp_ret. apply wp_bind, wp_or_else.
  eapply wp_mono; [apply wp_clock; [apply _|apply wp_and; [apply wp_IsAllowed_answers|apply (wp_frame pview), _]]|].
  intros [allowed|e] w3 [[Hans Hv3] Ht3]; rewrite Hv2 in Hv3; [clear Hans|by apply Herr; [apply Hans|]].
  assert (forall cause reason w4, pview w4 = (ns1, ls, k) ->
    wp (_ ← drop deps msg (dbNotificationToDomain row) reason; mret (verdict_label (VDropped cause reason)))
       (fetched_post msg row ns ls k t0) w4) as Hdrop.
  { intros cause reason w4 Hv4. apply wp_bind. eapply wp_mono; [by apply (wp_drop deps msg _ cause)|].
    intros r w5 [-> Hs]. apply wp_ret. by exists (VDropped cause reason), t. }
  destruct (negb allowed.1); [by apply (Hdrop ByPreference)|].
  assert (forall w4, pview w4 = (ns1, ls, k) -> t0 <= w_now w4 ->
    wp (deliver deps msg (dbNotificationToDomain row)) (fetched_post msg row ns ls k t0) w4) as Hdel.
  { intros w4 Hv4 Ht4. eapply wp_mono; [by apply wp_deliver|]. intros r w5 (v & -> & Hs). by exists v, t. }
  apply wp_bind. destruct (0 <? _); [|apply wp_ret; apply Hdel; [done|lia]].
  apply wp_bind, wp_or_else.
  eapply wp_mono; [apply wp_clock; [apply _|apply wp_and; [apply wp_Allow_answers|apply (wp_frame pview), _]]|].
  intros [ok|e] w4 [[Hans Hv4] Ht4]; rewrite Hv3 in Hv4; [clear Hans|by apply Herr; [apply Hans|]].
  apply wp_bind, wp_modify. set (w5 := set_metrics _ w4).
  assert (pview w5 = (ns1, ls, k) /\ w_now w5 = w_now w4) as [Hv5 Ht5] by (subst w5; by destruct w4).
  clearbody w5. apply wp_ret. destruct ok; [apply Hdel; [done|lia]|by apply (Hdrop ByRateLimit)].
Qed.

Definition steps_post (msg : Message) (w : world) (r : result string) (w' : world) : Prop :=
  match r with
  | Ok label => exists row v t, row ∈ notifications (w_db w) /\ nr_ID row = m_NotificationID msg
      /\ nr_TenantID row = Some (m_TenantID msg) /\ label = verdict_label v
      /\ settled deps msg (dbNotificationToDomain row) v
           (restatus (m_NotificationID msg) StatusProcessing t (notifications (w_db w)))
           (delivery_logs (w_db w)) (w_kafka w) (w_now w) w'
      /\ accepted deps (dbNotificationToDomain row) w' - accepted deps (dbNotificationToDomain row) w
         = (match v with VDelivered => 1 | _ => 0 end)
  | Err _ => (faultless -> forall row, row ∈ notifications (w_db w) -> nr_ID row = m_NotificationID msg ->
                nr_TenantID row <> Some (m_TenantID msg)) /\
      exists ns1, marked msg (notifications (w_db w)) ns1
        /\ pview w' = (ns1, delivery_logs (w_db w), w_kafka w)
  end.

Lemma wp_process_steps msg w : message_wf msg -> wp (process_steps deps msg) (steps_post msg w) w.
Proof.
  intros Hwf. apply wp_bind, wp_or_else.
  eapply wp_mono; [apply wp_and; [apply wp_GetByID_found|]|].
  { instantiate (1 := fun _ w' => (forall n, accepted deps n w' = accepted deps n w) /\ w_now w <= w_now w').
    apply wp_clock; [unfold NotificationRepo_GetByID, GetNotificationByID; apply _|].
    intros n. apply (wp_frame (accepted deps n)), accepted_frame. unfold NotificationRepo_GetByID. apply _. }
  intros [n|e] w1 [[Hv1 Hfound] [Hacc Ht1]]; [|split; [done|]; eexists; split; [by left|by rewrite Hv1]].
  destruct Hfound as (row & Hrow & -> & Hid & Hten).
  eapply wp_mono; [apply wp_and; [by apply wp_process_fetched|by apply wp_process_accepted]|].
  intros [label|e] w' [Hp Ha]; [|destruct Hp as [Hf Hp]; by split].
  destruct Hp as (v & t & -> & Hs).
  exists row, v, t. split_and!; try done. rewrite (Ha _ eq_refl), accepts_verdict, Hacc. lia.
Qed.

Lemma metric_add_post name lb d msg w w' r :
  name <> "ProviderSendTotal" -> steps_post msg w r w' -> steps_post msg w r (metric_add name lb d w').2.
Proof.
  intros Hne. assert (forall n, accepted deps n (metric_add name lb d w').2 = accepted deps n w') as Ha.
  { intros n. unfold accepted, sends. destruct (_ !! _); [|done]. by apply frame_metric_add_ne; intros [= ]. }
  unfold steps_post, settled.
  replace (pview (metric_add name lb d w').2) with (pview w') by (by destruct w').
  replace (w_now (metric_add name lb d w').2) with (w_now w') by (by destruct w'). destruct r; [|done].
  intros (row & v & t & Hp). exists row, v, t. by rewrite Ha.
Qed.

Lemma wp_Process msg w : message_wf msg ->
  wp (Process deps msg) (fun r w' => match r with Ok _ => exists label, steps_post msg w (Ok label) w'
                                             | Err e => steps_post msg w (Err e) w' end) w.
Proof.
  intros Hwf. apply wp_bind, wp_modify, wp_bind, wp_gets, wp_bind. set (w0 := set_metrics _ w).
  assert (pview w0 = pview w /\ w_now w0 = w_now w /\ forall n, accepted deps n w0 = accepted deps n w)
    as (Hv0 & Ht0 & Ha0).
  { split; [by destruct w|]. split; [by destruct w|]. intros n. unfold accepted, sends. destruct (_ !! _); [|done].
    by apply (frame_metric_add_ne "WorkerInflight" [m_Channel msg] 1). }
  clearbody w0. eapply wp_mono with (P := fun r w' => r = Ok tt /\ pview w' = pview w /\
    w_now w' = w_now w /\ forall n, accepted deps n w' = accepted deps n w).
  { destruct (_ =? _); [by apply wp_ret|]. split; [done|]. split; [by destruct w0|]. split; [by destruct w0|].
    intros n. rewrite <-Ha0.
    unfold accepted, sends. destruct (_ !! _); [|done]. by apply frame_metric_set_ne. }
  intros r w1 (-> & [= Hn Hl Hk] & Ht1 & Ha1). apply wp_bind, wp_try. eapply wp_mono; [by apply wp_process_steps|].
  assert (forall r w2, steps_post msg w1 r w2 -> steps_post msg w r w2) as Hstart.
  { intros r w2. unfold steps_post. rewrite Hn, Hl, Hk, Ht1. destruct r; [|done].
    intros (row & v & t & Hp). exists row, v, t. by rewrite <-Ha1. }
  intros r w2 Hp%Hstart. unfold wp. destruct r as [label|e]; [exists label|]; (apply metric_add_post; [done|]; by apply metric_add_post).
Qed.
End Whole.

(** C2. When [Process] returns an error (the offset is not committed and the message
    will be processed again), the message has left no outcome behind: no delivery-log
    row, no Kafka record, and at most the status "processing" on its notification.  It
    returns an error only when a call failed or its tenant has no such notification. *)
Theorem Process_error_leaves_no_outcome `{Env} `{UuidTextLaws} `{Propagator} `{RedisCommands} `{TimeZones}
    `{TextTemplate} deps msg w e w' :
  DepsContract deps -> message_wf msg ->
  Process deps msg w = (Err e, w') ->
  delivery_logs (w_db w') = delivery_logs (w_db w) /\ w_kafka w' = w_kafka w /\
  (notifications (w_db w') = notifications (w_db w) \/
   exists t, notifications (w_db w')
     = restatus (m_NotificationID msg) StatusProcessing t (notifications (w_db w))) /\
  (faultless -> forall row, row ∈ notifications (w_db w) -> nr_ID row = m_NotificationID msg ->
     nr_TenantID row <> Some (m_TenantID msg)).
Proof.
  intros Hd Hwf Hrun.
  destruct (wp_run _ _ _ _ _ (wp_Process deps msg w Hwf) Hrun) as (Hnone & ns1 & Hm & [= <- Hls Hk]).
  by rewrite Hls, Hk.
Qed.


(** ** The wired processor *)

(** The webhook service meets what the worker expects of its dispatcher. *)
#[global] Instance Dispatch_contract `{Env} `{UuidTextLaws} `{Propagator} maxAttempts :
  fits_int maxAttempts -> DispatcherContract (Dispatch maxAttempts).
Proof.
  intros Hfit n e w. destruct (wp_Dispatch maxAttempts Hfit n e w) as (Hf & t & fans & _ & Hk & _ & Hr & _).
  exists (omap fan_rec fans). split_and!.
  all: try first [ by apply (fanout_view_tables notifications); [intros []|] | by apply (fanout_view_tables delivery_logs); [intros []|]
    | exact Hk | unfold fanout_view in Hf; congruence ].
  { assert (Keeps (after (w_now w)) (Dispatch maxAttempts n e)) as Hc; [apply _|apply Hc, Z.le_refl]. }
  clear Hk. induction Hr as [|f fans [_ Hf'] _ IH]; simpl; [constructor|]. destruct (fan_rec f) as [rec|]; [|done].
  constructor; [by apply Hf'|done].
Qed.

(** Email through a provider that is down, dead letters on, webhooks on. *)
Definition wired_deps : ProcessorDeps :=
  {| d_Registry := Register NewRegistry down_provider; d_RateCaps := {[ChannelEmail := 10]}; d_RetryDelay := Second;
     d_DLQPublisher := true; d_DLQEnabled := true; d_Webhook := Some (@Dispatch calm bits_uuid demo_trace 5) |}.

Lemma wired_contract : DepsContract wired_deps.
Proof.
  split.
  - intros ch p Hp. unfold wired_deps, d_Registry, Register, NewRegistry in Hp.
    apply lookup_insert_Some in Hp as [[_ <-] | [_ ?]]; [|done].
    apply ses_contract. intros t r e [= <-]. by split.
  - intros f [= <-]. by apply (@Dispatch_contract calm bits_uuid bits_uuid_laws demo_trace).
Qed.

Definition wired_message (tenant : uuid) : Message :=
  {| m_NotificationID := 11; m_TenantID := tenant; m_Channel := ChannelEmail; m_RecipientID := "u1";
     m_RecipientAddress := "a@b.c"; m_TemplateID := None; m_Payload := None;
     m_Priority := 5; m_Attempt := 1; m_MaxAttempts := 3; m_EnqueuedAt := 0 |}.
Definition wired_run (tenant : uuid) : result unit * world :=
  @Process calm bits_uuid demo_trace redis_ref demo_zones plain_text wired_deps (wired_message tenant) demo_hooks.

Lemma Process_error_leaves_no_outcome_witness :
  (exists e, (wired_run 2).1 = Err e) /\ delivery_logs (w_db (wired_run 2).2) = [].
Proof.
  split; [vm_compute; eexists; reflexivity|].
  destruct (wired_run 2) as [[[]|e] w'] eqn:E; [exfalso; vm_compute in E; discriminate E|].
  apply (@Process_error_leaves_no_outcome calm bits_uuid bits_uuid_laws demo_trace redis_ref demo_zones plain_text
           wired_deps (wired_message 2) demo_hooks e w' wired_contract); [|exact E].
  unfold message_wf, fits_int. simpl. lia.
Defined.


(** ** Messages of the scheduler and of cancelled notifications *)

Lemma wp_process_missing `{Env} `{UuidTextLaws} `{Propagator} `{RedisCommands} `{TimeZones} `{TextTemplate} deps msg w :
  (forall row, row ∈ notifications (w_db w) -> nr_TenantID row <> Some (m_TenantID msg)) ->
  wp (process_steps deps msg) (fun r w' => (exists e, r = Err e) /\ pview w' = pview w /\ w_metrics w' = w_metrics w) w.
Proof.
  intros Hno. apply wp_bind, wp_or_else.
  eapply wp_mono; [apply wp_and; [apply wp_GetByID_found|apply (wp_frame w_metrics)]|].
  { unfold NotificationRepo_GetByID. apply _. }
  intros [n|e] w1 [[Hv Hf] Hm]; [|by eauto]. destruct Hf as (row & Hrow & _ & _ & Ht). by destruct (Hno row).
Qed.

Lemma Process_missing `{Env} `{UuidTextLaws} `{Propagator} `{RedisCommands} `{TimeZones} `{TextTemplate} deps msg w :
  (forall row, row ∈ notifications (w_db w) -> nr_TenantID row <> Some (m_TenantID msg)) ->
  let '(r, w') := Process deps msg w in
  (exists e, r = Err e) /\ pview w' = pview w /\
  metric w' "NotifProcessed" [m_Channel msg; LabelDelivered] = metric w "NotifProcessed" [m_Channel msg; LabelDelivered] + 1.
Proof.
  intros Hno. apply wp_pair. set (lb := [m_Channel msg; LabelDelivered]).
  apply wp_bind, wp_modify, wp_bind, wp_gets, wp_bind. set (w0 := set_metrics _ w).
  eapply wp_mono with (P := fun r w' => r = Ok tt /\ pview w' = pview w /\
    metric w' "NotifProcessed" lb = metric w "NotifProcessed" lb).
  { assert (metric w0 "NotifProcessed" lb = metric w "NotifProcessed" lb) as Hm
      by by apply (frame_metric_add_ne "WorkerInflight" [m_Channel msg] 1).
    destruct (_ =? _); [apply wp_ret; split_and!; [done|by destruct w|done]|].
    split; [done|]. split; [by destruct w|]. rewrite <-Hm. by apply frame_metric_set_ne. }
  intros r w1 (-> & Hv1 & Hm1). apply wp_bind, wp_try. eapply wp_mono; [apply wp_process_missing|].
  { injection Hv1 as -> _ _. exact Hno. }
  intros r w2 ([e ->] & Hv2 & Hm2). split; [by exists e|]. split; [rewrite <-Hv1, <-Hv2; by destruct w2|].
  assert (metric w2 "NotifProcessed" lb = metric w1 "NotifProcessed" lb) as Hm by (unfold metric; by rewrite Hm2).
  transitivity (metric (Inc "NotifProcessed" lb w2).2 "NotifProcessed" lb); [by apply frame_metric_add_ne|].
  unfold Inc. rewrite metric_add_eq. lia.
Qed.

(** The records the scheduler adds carry no tenant. *)
Section Scheduled.
Context `{Env} `{UuidTextLaws} `{Propagator}.
Variable maxRetries : Z.
Hypothesis maxRetries_fits : fits_int maxRetries.

Definition tenantless (rec : KafkaRecord) : Prop :=
  exists msg : Message, Unmarshal_bytes (k_Value rec) = Ok msg /\ m_TenantID msg = uuid_nil.
Definition only_tenantless (w0 w : world) : Prop := exists recs, w_kafka w = w_kafka w0 ++ recs /\ Forall tenantless recs.

Lemma tick_one_tenantless w0 n w : only_tenantless w0 w -> fits_int (n_Priority n) ->
  wp (tick_one maxRetries n) (fun r w' => r = Ok tt /\ only_tenantless w0 w') w.
Proof using All.
  intros (recs & Hk & Ht) Hp. apply wp_bind, wp_try, wp_bind, wp_gets.
  assert (forall rec w', Unmarshal_bytes (k_Value rec) = Ok (message_of maxRetries uuid_nil n (w_now w)) ->
    w_kafka w' = w_kafka w ++ [rec] -> only_tenantless w0 w') as Hadd.
  { intros rec w' Hu Hk'. exists (recs ++ [rec]). rewrite Hk', Hk, app_assoc. split; [done|].
    apply Forall_app. split; [done|]. constructor; [by eexists|constructor]. }
  eapply wp_mono; [eapply (wp_publish_message _ _ _ _ w); [done|by apply message_of_wf]|].
  intros [[]|e] w1 Hr; [|apply wp_ret; split; [done|]; destruct Hr as [[= _ Hk1]|(rec & [= _ Hk1] & Hu)]; [exists recs; by rewrite Hk1|by eapply Hadd]].
  destruct Hr as (rec & [= _ Hk1] & _ & _ & Hu). apply wp_ignore.
  eapply wp_mono; [apply (wp_frame w_kafka); unfold NotificationRepo_UpdateStatus; apply _|].
  intros r w2 Hk2. split; [done|]. eapply Hadd; [exact Hu|congruence].
Qed.

Lemma tick_tenantless batchSize w :
  (forall r, r ∈ notifications (w_db w) -> fits_int (nr_Priority r)) -> only_tenantless w (tick maxRetries batchSize w).2.
Proof using All.
  intros Hprio. assert (wp (tick maxRetries batchSize) (fun _ w' => only_tenantless w w') w) as Hw; [|exact Hw].
  assert (forall dt, only_tenantless w (advance dt w)) as Hstart by (intros dt; exists []; rewrite app_nil_r; by destruct w).
  apply wp_bind, wp_try, wp_bind, wp_or_else, wp_sql_read. intros dt t msg. split; [|by apply wp_ret].
  unfold select_page. destruct (violated _); [by apply wp_ret|]. apply wp_ret.
  eapply wp_mono; [apply (wp_for_each_prefix _ _ (fun _ => only_tenantless w))|]; [apply Hstart| |by intros r w' [_ ?]].
  intros seen x rest w' Hl Hi. apply tick_one_tenantless; [done|].
  match type of Hl with ?l = _ => assert (x ∈ l) as Hx by (rewrite Hl; set_solver) end.
  apply list_elem_of_fmap in Hx as (y & -> & Hy). apply Hprio. unfold page in Hy.
  assert (y ∈ due_rows t (w_db w)) as Hd%sort_by_elem%elem_of_where; [|by destruct Hd].
  eapply elem_of_sublist; [exact Hy|]. etrans; [apply sublist_take|apply sublist_drop].
Qed.
End Scheduled.

(** C38. No message the scheduler publishes is ever delivered.  Every record a tick adds to the
    queue decodes to a message with the nil tenant; so whenever a worker takes it, in any
    state where no notification belongs to the nil tenant, [Process] fails to fetch the
    notification, returns an error and changes no notification, log or queue, while the
    deferred counter counts the message as delivered. *)
Theorem scheduled_message_never_settles `{Env} `{UuidTextLaws} `{Propagator} `{RedisCommands} `{TimeZones}
    `{TextTemplate} maxRetries batchSize w :
  fits_int maxRetries -> (forall r, r ∈ notifications (w_db w) -> fits_int (nr_Priority r)) ->
  exists recs, w_kafka (tick maxRetries batchSize w).2 = w_kafka w ++ recs /\
  Forall (fun rec => exists msg : Message, Unmarshal_bytes (k_Value rec) = Ok msg /\
    forall deps w1, (forall row, row ∈ notifications (w_db w1) -> nr_TenantID row <> Some uuid_nil) ->
    let '(r, w2) := Process deps msg w1 in
    (exists e, r = Err e) /\ pview w2 = pview w1 /\
    metric w2 "NotifProcessed" [m_Channel msg; LabelDelivered] = metric w1 "NotifProcessed" [m_Channel msg; LabelDelivered] + 1) recs.
Proof.
  intros Hfit Hprio. destruct (tick_tenantless maxRetries Hfit batchSize w Hprio) as (recs & Hk & Ht). exists recs. split; [done|].
  eapply Forall_impl; [exact Ht|]. intros rec (msg & Hu & Hnil). exists msg. split; [done|].
  intros deps w1 Hno. apply Process_missing. by rewrite Hnil.
Qed.

(** The two due notifications of tenant 1 are published; the worker finds neither. *)
Lemma scheduled_message_never_settles_witness :
  let w' := (@tick calm bits_uuid demo_trace 3 100 demo_due).2 in
  length (w_kafka w') = 2%nat /\
  Forall (fun rec => exists msg, @Unmarshal_bytes Message (@Message_codec bits_uuid) (k_Value rec) = Ok msg /\
    exists e, (@Process calm bits_uuid demo_trace redis_ref demo_zones plain_text wired_deps msg w').1 = Err e) (w_kafka w').
Proof.
  cbv zeta. assert (length (w_kafka (@tick calm bits_uuid demo_trace 3 100 demo_due).2) = 2%nat) as Hlen by (vm_compute; reflexivity).
  split; [exact Hlen|].
  destruct (@scheduled_message_never_settles calm bits_uuid bits_uuid_laws demo_trace redis_ref demo_zones plain_text 3 100 demo_due)
    as (recs & Hk & Hf).
  - unfold fits_int. lia.
  - intros row Hin. assert (row = due_row 8 9 \/ row = due_row 9 1) as [-> | ->]
      by (simpl in Hin; set_solver); unfold fits_int; simpl; lia.
  - change (w_kafka demo_due) with (@nil KafkaRecord) in Hk. rewrite Hk. simpl. eapply Forall_impl; [exact Hf|].
    intros rec (msg & Hu & Hp). exists msg. split; [exact Hu|].
    specialize (Hp wired_deps (@tick calm bits_uuid demo_trace 3 100 demo_due).2).
    destruct (@Process _ _ _ _ _ _ _ _ _) as [r w2]. apply Hp. clear. intros row Hrow.
    assert (Forall (fun row => nr_TenantID row <> Some uuid_nil) (notifications (w_db (@tick calm bits_uuid demo_trace 3 100 demo_due).2)))
      as Hall by (vm_compute; repeat constructor; discriminate).
    rewrite Forall_forall in Hall. by apply Hall.
Defined.

(** Cancelling does not stop a queued delivery: a notification that was cancelled
    (status "dropped") after it was published is still sent when the worker reaches
    its message, and its status becomes "delivered". *)
Theorem cancelled_notification_is_delivered :
  let deps := {| d_Registry := Register NewRegistry (mock_Provider ChannelEmail); d_RateCaps := ∅;
                 d_RetryDelay := Second; d_DLQPublisher := false; d_DLQEnabled := false; d_Webhook := None |} in
  let '(cancelled, w1) := @NotificationService_Cancel calm 1 11 demo_hooks in
  let '(processed, w2) := @Process calm bits_uuid demo_trace redis_ref demo_zones plain_text deps (wired_message 1) w1 in
  is_ok cancelled = true /\ nr_Status <$> notifications (w_db w1) = [StatusDropped] /\
  processed = Ok tt /\ nr_Status <$> notifications (w_db w2) = [StatusDelivered] /\
  accepted deps demo_notification w2 = 1.
Proof. vm_compute. split_and!; reflexivity. Qed.
