(* ===== verification/WebhookWorker.v ===== *)
(** * Outbound webhook deliveries ([internal/worker/webhook_worker.go])

    [process] posts one event to its endpoint with a signature, retrying with the
    worker's exponential back-off, and records the result on the delivery row.  The
    HTTP client, the request builder and HMAC-SHA256 are parameters. *)

From S2P Require Import Prelude Time Domain Json World Db Repository Schema Queue Webhook Processor.

(** A POST as the worker builds it; [Content-Type] is always JSON. *)
Record WebhookRequest := MkWebhookRequest {
  hq_URL : string;
  hq_Body : any;
  hq_Signature : string;
  hq_Event : string;
  hq_DeliveryID : string;
}.

(** [http.NewRequestWithContext] (an error for an URL it cannot parse), the status
    code [http.Client.Do] gets, by the external call it is, and
    [hex(HMAC-SHA256(body, secret))]. *)
Class HttpClient := {
  http_NewRequest : string -> result unit;
  http_Do : nat -> WebhookRequest -> result Z;
  computeHMAC : any -> string -> string;
}.

Section WebhookWorker.
Context `{Env} `{UuidText} `{HttpClient}.
Variable retryDelay : Z.

Definition webhook_request (url secret event deliveryID : string) (body : any) : WebhookRequest :=
  {| hq_URL := url; hq_Body := body; hq_Signature := "sha256=" +:+ computeHMAC body secret;
     hq_Event := event; hq_DeliveryID := deliveryID |}.

(** The status code, and the error if any. *)
Definition webhook_send (url secret event deliveryID : string) (body : any) : M (Z * option error) :=
  match http_NewRequest url with
  | Err err => mret (0, Some (EWrap "build request" err))
  | Ok _ =>
      resp ← try (external (fun _ w => (http_Do (w_tick w) (webhook_request url secret event deliveryID body), w)));
      mret (match resp with
            | Err err => (0, Some (EWrap "http post" err))
            | Ok code =>
                if (code <? 200) || (300 <=? code)
                then (code, Some (EPlain ("non-2xx response: " +:+ pretty code)))
                else (code, None)
            end)
  end.

Definition markDelivered (msg : WebhookMessage) (attempt statusCode : Z) : M unit :=
  _ ← or_else (WebhookRepo_UpdateDelivery
        {| wd_ID := wm_DeliveryID msg; wd_EndpointID := uuid_nil; wd_NotificationID := None; wd_Event := "";
           wd_Payload := None; wd_Status := WebhookDeliveryDelivered; wd_Attempt := attempt;
           wd_NextRetryAt := None; wd_LastError := None; wd_ResponseStatus := Some statusCode;
           wd_CreatedAt := zero_time; wd_UpdatedAt := zero_time |})
        (EWrap "mark delivery delivered");
  mret tt.

Definition markFailed (msg : WebhookMessage) (statusCode : Z) (errMsg : string) : M unit :=
  _ ← or_else (WebhookRepo_UpdateDelivery
        {| wd_ID := wm_DeliveryID msg; wd_EndpointID := uuid_nil; wd_NotificationID := None; wd_Event := "";
           wd_Payload := None; wd_Status := WebhookDeliveryFailed; wd_Attempt := wm_MaxAttempts msg;
           wd_NextRetryAt := None; wd_LastError := Some errMsg;
           wd_ResponseStatus := if statusCode =? 0 then None else Some statusCode;
           wd_CreatedAt := zero_time; wd_UpdatedAt := zero_time |})
        (EWrap "mark delivery failed");
  mret tt.

(** One POST of the message. *)
Definition post (msg : WebhookMessage) : M (Z * option error) :=
  webhook_send (wm_EndpointURL msg) (wm_Secret msg) (wm_Event msg) (uuid_String (wm_DeliveryID msg))
    (json_of_gomap (wm_Payload msg)).

(** The [for] loop of [process] from an attempt number; like the provider loop it
    carries the retries left, which its exit test makes sufficient.  The payload of a
    decoded message always marshals. *)
Fixpoint process_loop (retries : nat) (msg : WebhookMessage) (attempt : Z) : M unit :=
  r ← post msg;
  match r.2 with
  | None =>
      _ ← Inc "WebhookDelivered" [wm_Event msg];
      markDelivered msg attempt r.1
  | Some sendErr =>
      if wm_MaxAttempts msg <=? attempt then
        _ ← Inc "WebhookFailed" [wm_Event msg];
        markFailed msg r.1 (Error sendErr)
      else
        done ← wait (backoff retryDelay attempt);
        if (done : bool) then throw (EWrap "context cancelled during webhook retry" ECtxCanceled)
        else match retries with
             | O => throw out_of_retries
             | S retries' => process_loop retries' msg (attempt + 1)
             end
  end.

Definition webhook_process (msg : WebhookMessage) : M unit :=
  process_loop (Z.to_nat (wm_MaxAttempts msg - wm_Attempt msg)) msg (wm_Attempt msg).

(** One turn of [Run] on a fetched record: whether the offset is committed. *)
Definition webhook_handle (raw : KafkaRecord) : M bool :=
  match Unmarshal_bytes (k_Value raw) with
  | Err _ => mret true
  | Ok msg =>
      r ← try (webhook_process msg);
      mret (match r with Ok _ => true | Err _ => false end)
  end.
End WebhookWorker.

(** ** What one message does *)

Section Posted.
Context `{Env} `{UuidText} `{HttpClient}.
Variable retryDelay : Z.
Variable msg : WebhookMessage.

(** The responses of a run of POSTs from an attempt number: every one but the last
    failed and was followed by its full back-off. *)
Inductive posted : Z -> world -> list (Z * option error) -> world -> Prop :=
  | posted_last attempt w r w1 :
      post msg w = (Ok r, w1) -> posted attempt w [r] w1
  | posted_retry attempt w code err w1 w2 rs w3 :
      post msg w = (Ok (code, Some err), w1) -> wait (backoff retryDelay attempt) w1 = (Ok false, w2) ->
      posted (attempt + 1) w2 rs w3 -> posted attempt w ((code, Some err) :: rs) w3.

(** What [UpdateDelivery] writes for the last response. *)
Definition settle_delivery (attempt : Z) (r : Z * option error) (t : gotime) (row : WebhookDeliveryRow)
    : WebhookDeliveryRow :=
  {| wr_ID := wr_ID row; wr_EndpointID := wr_EndpointID row; wr_NotificationID := wr_NotificationID row;
     wr_Event := wr_Event row; wr_Payload := wr_Payload row;
     wr_Status := match r.2 with None => WebhookDeliveryDelivered | Some _ => WebhookDeliveryFailed end;
     wr_Attempt := int32 (match r.2 with None => attempt | Some _ => wm_MaxAttempts msg end);
     wr_NextRetryAt := None;
     wr_LastError := match r.2 with None => None | Some e => Some (Error e) end;
     wr_ResponseStatus := if bool_decide (is_Some r.2) && (r.1 =? 0) then None else Some (int32 r.1);
     wr_CreatedAt := wr_CreatedAt row; wr_UpdatedAt := t |}.

(** The message's delivery row is there, and takes the response. *)
Definition settled_row (attempt : Z) (r : Z * option error) (ds ds' : list WebhookDeliveryRow) : Prop :=
  wm_DeliveryID msg ∈ wr_ID <$> ds /\
  exists t, ds' = update_where (fun row => bool_decide (wr_ID row = wm_DeliveryID msg)) (settle_delivery attempt r t) ds.

(** Every table but the deliveries, the log, Redis and its publications. *)
Definition hook_view (w : world) := (set_deliveries (fun _ => []) (w_db w), w_kafka w, w_redis w, w_pubsub w).
#[global] Instance timeless_hook_view : Timeless hook_view.
Proof. by intros ? []. Qed.

(** All that [process] leaves alone until it concludes. *)
Definition hook_state (w : world) := (hook_view w, webhook_deliveries (w_db w), w_metrics w).
#[global] Instance timeless_hook_state : Timeless hook_state.
Proof. by intros ? []. Qed.

Lemma hook_state_eq w w' :
  hook_state w' = hook_state w -> hook_view w' = hook_view w /\ webhook_deliveries (w_db w') = webhook_deliveries (w_db w) /\
    w_metrics w' = w_metrics w.
Proof. unfold hook_state. intros Heq. split_and!; congruence. Qed.

(** A response without an error is a 2xx. *)
Lemma wp_post w :
  wp (post msg) (fun r w' => (exists resp, r = Ok resp /\ (resp.2 = None -> 200 <= resp.1 < 300)) /\
    hook_state w' = hook_state w) w.
Proof.
  unfold post, webhook_send. destruct (http_NewRequest _) as [|e]; [|apply wp_ret; split; [by eexists|done]].
  apply wp_bind, wp_try. unfold wp, external.
  destruct (ev_fault _); simpl.
  2, 3: split; [eexists; split; [reflexivity|done]|by destruct w].
  destruct (http_Do _ _) as [code|e]; simpl; (split; [|by destruct w]); [|eexists; split; [reflexivity|done]].
  eexists. split; [reflexivity|]. destruct (Z.ltb_spec code 200), (Z.leb_spec 300 code); simpl; [done..|lia].
Qed.

Lemma update_where_nil {A} (P : A -> bool) f t : where_ P t = [] -> update_where P f t = t.
Proof.
  rewrite where_nil. intros Hno. unfold update_where. induction t as [|x t IH]; [done|]. rewrite fmap_cons, Hno, IH by set_solver.
  done.
Qed.

(** What recording the last response comes to. *)
Definition recorded (attempt : Z) (r : Z * option error) (w : world) (res : result unit) (w' : world) : Prop :=
  hook_view w' = hook_view w /\ w_metrics w' = w_metrics w /\
  (settled_row attempt r (webhook_deliveries (w_db w)) (webhook_deliveries (w_db w')) /\ (res = Ok tt \/ ~ faultless) \/
   webhook_deliveries (w_db w') = webhook_deliveries (w_db w) /\ is_ok res = false /\
     (wm_DeliveryID msg ∉ wr_ID <$> webhook_deliveries (w_db w) \/ ~ faultless)).

Lemma wp_settle (m : M unit) attempt r w :
  (exists d h, m = (_ ← or_else (WebhookRepo_UpdateDelivery d) h; mret tt) /\ wd_ID d = wm_DeliveryID msg /\
     forall t row, settle_delivery attempt r t row =
       {| wr_ID := wr_ID row; wr_EndpointID := wr_EndpointID row; wr_NotificationID := wr_NotificationID row;
          wr_Event := wr_Event row; wr_Payload := wr_Payload row; wr_Status := wd_Status d;
          wr_Attempt := int32 (wd_Attempt d); wr_NextRetryAt := timestamptz (toNullTime (wd_NextRetryAt d));
          wr_LastError := toNullString (wd_LastError d); wr_ResponseStatus := toNullInt32 (wd_ResponseStatus d);
          wr_CreatedAt := wr_CreatedAt row; wr_UpdatedAt := t |}) ->
  wp m (recorded attempt r w) w.
Proof.
  intros (d & h & -> & Hid & Hset). apply wp_bind, wp_or_else, wp_bind, wp_or_else, wp_sql_env.
  - intros dt m Hf. split; [apply timeless|]. split; [by destruct w|]. right. split; [by destruct w|]. split; [done|by right].
  - intros dt t m. unfold update_returning. rewrite Hid. set (P := fun row => bool_decide (wr_ID row = wm_DeliveryID msg)).
    assert (update_where P (settle_delivery attempt r t) (webhook_deliveries (w_db w)) = update_where P (fun row => _)
      (webhook_deliveries (w_db w))) as He by (apply list_fmap_ext; intros i x _; rewrite Hset; reflexivity).
    destruct (where_ P (webhook_deliveries (w_db w))) as [|x rest] eqn:Hw; cbn [fmap list_fmap one].
    + rewrite (update_where_nil _ _ _ Hw) in He.
      assert (wm_DeliveryID msg ∉ wr_ID <$> webhook_deliveries (w_db w)) as Hno.
      { intros (y & Hy & Hin)%list_elem_of_fmap. apply where_nil with (x := y) in Hw; [|done].
        by apply bool_decide_eq_false in Hw. }
      destruct w as [[] ? ? ? ? ? ?]. simpl in *. rewrite <-He.
      split; [intros Hf|]; (split; [done|split; [done|right; split; [done|split; [done|auto]]]]).
    + assert (x ∈ where_ P (webhook_deliveries (w_db w))) as [Hx%bool_decide_eq_true Hin]%elem_of_where by (rewrite Hw; set_solver).
      apply (list_elem_of_fmap_2 wr_ID) in Hin. rewrite Hx in Hin.
      destruct w as [[] ? ? ? ? ? ?]. simpl in *. rewrite <-He.
      split; [intros Hf|apply wp_ret]; (split; [done|split; [done|left; split; [split; [done|by exists t]|auto]]]).
Qed.

(** POSTs still allowed from an attempt number. *)
Definition post_budget (attempt : Z) : Z := Z.max 1 (wm_MaxAttempts msg - attempt + 1).

(** The context was done while waiting for the next attempt. *)
Definition interrupted (attempt : Z) (w : world) (r : result unit) (w1 w' : world) : Prop :=
  hook_state w' = hook_state w /\ r = Err (EWrap "context cancelled during webhook retry" ECtxCanceled) /\
  attempt < wm_MaxAttempts msg /\ wait (backoff retryDelay attempt) w1 = (Ok true, w').

(** The last response was counted, and recorded. *)
Definition concluded (attempt : Z) (resp : Z * option error) (w : world) (r : result unit) (w' : world) : Prop :=
  exists wc, hook_view wc = hook_view w /\ webhook_deliveries (w_db wc) = webhook_deliveries (w_db w) /\
    w_metrics wc = w_metrics
      (Inc (match resp.2 with None => "WebhookDelivered" | Some _ => "WebhookFailed" end) [wm_Event msg] w).2 /\
    recorded attempt resp wc r w'.

Definition process_post (attempt : Z) (w : world) (r : result unit) (w' : world) : Prop :=
  exists rs w1 resp, posted attempt w rs w1 /\ last rs = Some resp /\
    1 <= Z.of_nat (length rs) <= post_budget attempt /\ (resp.2 = None -> 200 <= resp.1 < 300) /\
    (interrupted (attempt + Z.of_nat (length rs) - 1) w r w1 w' /\ resp.2 <> None \/
     concluded (attempt + Z.of_nat (length rs) - 1) resp w r w' /\
       (resp.2 = None \/ Z.of_nat (length rs) = post_budget attempt)).

(** The last POST decides and is recorded. *)
Lemma wp_finish attempt w w1 resp (m : M unit) :
  post msg w = (Ok resp, w1) -> hook_state w1 = hook_state w -> (resp.2 = None -> 200 <= resp.1 < 300) ->
  (resp.2 = None \/ wm_MaxAttempts msg <= attempt) ->
  (forall w2, wp m (recorded attempt resp w2) w2) ->
  wp (_ ← Inc (match resp.2 with None => "WebhookDelivered" | Some _ => "WebhookFailed" end) [wm_Event msg]; m)
    (process_post attempt w) w1.
Proof.
  intros Hp Hst Hok Hlast Hm. apply wp_bind, wp_modify. eapply wp_mono; [apply Hm|].
  intros r w' Hrec. exists [resp], w1, resp. split; [by constructor|]. split; [done|].
  split; [unfold post_budget; simpl; lia|]. split; [done|]. right.
  replace (attempt + Z.of_nat (length [resp]) - 1) with attempt by (simpl; lia).
  split; [|unfold post_budget; simpl; destruct Hlast; [by left|right; lia]].
  eexists. split; [|split; [|split; [|exact Hrec]]]; apply hook_state_eq in Hst as (Hv & Hd & Hm');
    [rewrite <-Hv; by destruct w1|by rewrite set_metrics_db|destruct w, w1; simpl in *; by subst].
Qed.

Lemma wp_process_loop retries attempt w :
  retries = Z.to_nat (wm_MaxAttempts msg - attempt) ->
  wp (process_loop retryDelay retries msg attempt) (process_post attempt w) w.
Proof.
  revert attempt w. induction retries as [|retries IH]; intros attempt w Hr; cbn [process_loop].
  all: apply wp_bind; eapply wp_mono; [apply wp_and; [apply wp_eq|apply wp_post]|].
  all: intros r w1 [Hp ((resp & -> & Hok) & Hst)]; destruct resp as [code [err|]]; simpl in *.
  2, 4: apply (wp_finish attempt w w1 (code, None)); try done; [by left|]; intros w2; apply wp_settle; by eexists _, _.
  all: destruct (Z.leb_spec (wm_MaxAttempts msg) attempt).
  1, 3: apply (wp_finish attempt w w1 (code, Some err)); try done; [by right|]; intros w2; apply wp_settle; eexists _, _;
    (split; [reflexivity|]); (split; [done|]); intros t row; unfold settle_delivery; simpl; by destruct (code =? 0).
  { lia. }
  apply wp_bind. eapply wp_mono; [apply wp_and; [apply wp_eq|apply (wp_frame hook_state), _]|].
  intros [stop|e] w2 [Hw Hst2]; [|by unfold wait in Hw; destruct (ev_done _)].
  destruct stop.
  - apply wp_throw. exists [(code, Some err)], w1, (code, Some err). split; [by constructor|]. split; [done|].
    split; [unfold post_budget; simpl; lia|]. split; [done|]. left. split; [|done].
    replace (attempt + Z.of_nat (length [(code, Some err)]) - 1) with attempt by (simpl; lia).
    split; [congruence|]. done.
  - eapply wp_mono; [apply IH; lia|]. intros r w' (rs & w3 & resp & Hps & Hl & Hn & Hk & Hs).
    exists ((code, Some err) :: rs), w3, resp. split; [by econstructor|].
    split; [rewrite last_cons, Hl; done|]. unfold post_budget in *. cbn [length]. split; [lia|]. split; [done|].
    replace (attempt + Z.of_nat (S (length rs)) - 1) with (attempt + 1 + Z.of_nat (length rs) - 1) by lia.
    destruct Hs as [[Hi He]|[Hc He]]; [left|right; split; [|destruct He; [by left|right; lia]]].
    + split; [|done]. destruct Hi as (Hi & Hrest). split; [congruence|done].
    + destruct Hc as (wc & Hv & Hd & Hmet & Hrec). exists wc.
      rewrite Hst in Hst2. apply hook_state_eq in Hst2 as (Hv2 & Hd2 & Hm2). split_and!; [congruence|congruence| |done].
      rewrite Hmet. destruct w, w2; simpl in *. by rewrite Hm2.
Qed.
End Posted.

