(* ===== verification/Loops.v ===== *)
(** * Termination of the retry loops

    The two [for] loops of the worker ([internal/worker/processor.go], [sendWithRetry];
    [internal/worker/webhook_worker.go], [process]) as the code has them: a body with no
    bound of its own, an attempt counter that is a machine integer, and whatever the
    calls in the body answer.  The loops always end, and what they end in is what the
    structurally recursive definitions compute. *)

From S2P Require Import Prelude Time Domain Json World Db Repository Schema Queue.
From S2P Require Import Provider RateLimit Preference Template Notification Webhook Processor WebhookWorker.

(** ** Loops without a bound *)

(** [for { body }]: the body returns from the function or goes round with a new state. *)
Section Loop.
Context {S A : Type} (body : S -> M (A + S)).

Inductive loops : S -> world -> result A -> world -> Prop :=
  | loops_return s w a w' : body s w = (Ok (inl a), w') -> loops s w (Ok a) w'
  | loops_error s w e w' : body s w = (Err e, w') -> loops s w (Err e) w'
  | loops_again s w s' w1 r w2 : body s w = (Ok (inr s'), w1) -> loops s' w1 r w2 -> loops s w r w2.

Lemma loops_det s w r1 w1 r2 w2 : loops s w r1 w1 -> loops s w r2 w2 -> r1 = r2 /\ w1 = w2.
Proof.
  intros H1. revert r2 w2. induction H1 as [s w a w' E|s w e w' E|s w s' w1 r w2 E _ IH]; intros r3 w3 H2.
  - inversion H2 as [? ? ? ? E2|? ? ? ? E2|? ? ? ? ? ? E2]; subst; rewrite E in E2; by simplify_eq.
  - inversion H2 as [? ? ? ? E2|? ? ? ? E2|? ? ? ? ? ? E2]; subst; rewrite E in E2; by simplify_eq.
  - inversion H2 as [? ? ? ? E2|? ? ? ? E2|? ? ? ? ? ? E2]; subst; rewrite E in E2; simplify_eq. by apply IH.
Qed.

(** A computation that unrolls the body, given the rounds left, is what the loop does as
    long as every round uses one up. *)
Variables (measure : S -> nat) (inv : S -> Prop) (iter : nat -> S -> M A).
Hypothesis body_decreases : forall s w s' w', inv s -> body s w = (Ok (inr s'), w') -> inv s' /\ (measure s' < measure s)%nat.
Hypothesis iter_unrolls : forall n s w, inv s ->
  iter n s w = match body s w with
               | (Ok (inl a), w') => (Ok a, w')
               | (Err e, w') => (Err e, w')
               | (Ok (inr s'), w') => match n with O => iter O s w | Datatypes.S n' => iter n' s' w' end
               end.

Lemma loops_iter n s w : inv s -> (measure s <= n)%nat -> loops s w (iter n s w).1 (iter n s w).2.
Proof using body_decreases iter_unrolls.
  revert s w. induction n as [|n IH]; intros s w Hi Hm; rewrite iter_unrolls by done; destruct (body s w) as [[[a|s']|e] w'] eqn:E.
  1, 4: by apply loops_return.
  2, 4: by apply loops_error.
  - destruct (body_decreases _ _ _ _ Hi E) as [_ Hd]. lia.
  - destruct (body_decreases _ _ _ _ Hi E) as [Hi' Hd]. eapply loops_again; [done|]. apply IH; [done|lia].
Qed.

Lemma loops_iff n s w r w' : inv s -> (measure s <= n)%nat -> loops s w r w' <-> iter n s w = (r, w').
Proof using body_decreases iter_unrolls.
  intros Hi Hm. pose proof (loops_iter n s w Hi Hm) as Hl. split.
  - intros H2. destruct (loops_det _ _ _ _ _ _ Hl H2) as [<- <-]. by destruct (iter n s w).
  - by intros E; rewrite E in Hl.
Qed.
End Loop.

(** ** The bodies *)

Section Bodies.
Context `{Env} `{UuidText} `{HttpClient}.

Definition send_body (deps : ProcessorDeps) (prov : Provider) (n : Notification) (msg : Message) (attempt : Z) : M (unit + Z) :=
  r ← send_once prov n;
  match r with
  | Ok _ => mret (inl tt)
  | Err err =>
      if IsPermanent err || (m_MaxAttempts msg <=? attempt) then throw err
      else
        done ← wait (backoff (d_RetryDelay deps) attempt);
        if (done : bool) then throw (EWrap "context cancelled during retry" ECtxCanceled)
        else mret (inr (int64 (attempt + 1)))
  end.

Definition process_body (retryDelay : Z) (msg : WebhookMessage) (attempt : Z) : M (unit + Z) :=
  r ← post msg;
  match r.2 with
  | None =>
      _ ← Inc "WebhookDelivered" [wm_Event msg];
      _ ← markDelivered msg attempt r.1;
      mret (inl tt)
  | Some sendErr =>
      if wm_MaxAttempts msg <=? attempt then
        _ ← Inc "WebhookFailed" [wm_Event msg];
        _ ← markFailed msg r.1 (Error sendErr);
        mret (inl tt)
      else
        done ← wait (backoff retryDelay attempt);
        if (done : bool) then throw (EWrap "context cancelled during webhook retry" ECtxCanceled)
        else mret (inr (int64 (attempt + 1)))
  end.
End Bodies.

(** Both loops count an attempt up to a bound. *)
Section Counting.
Context `{Env} `{UuidText} `{HttpClient}.

Lemma next_attempt bound attempt :
  fits_int bound -> fits_int attempt -> attempt < bound ->
  int64 (attempt + 1) = attempt + 1 /\ fits_int (attempt + 1) /\
  (Z.to_nat (bound - (attempt + 1)) < Z.to_nat (bound - attempt))%nat.
Proof. unfold fits_int. intros Hb Ha Hlt. rewrite int64_id by lia. lia. Qed.

Lemma send_body_again deps prov n msg attempt w s' w' :
  send_body deps prov n msg attempt w = (Ok (inr s'), w') ->
  attempt < m_MaxAttempts msg /\ s' = int64 (attempt + 1).
Proof.
  unfold send_body, mbind, ST_bind. destruct (send_once prov n w) as [[[u|err]|e] w1]; try done.
  destruct (IsPermanent err); [done|]. simpl. destruct (Z.leb_spec (m_MaxAttempts msg) attempt); [done|].
  unfold wait. destruct (ev_done _); [done|]. by intros [= <- _].
Qed.

Lemma process_body_again retryDelay msg attempt w s' w' :
  process_body retryDelay msg attempt w = (Ok (inr s'), w') ->
  attempt < wm_MaxAttempts msg /\ s' = int64 (attempt + 1).
Proof.
  unfold process_body, mbind, ST_bind. destruct (post msg w) as [[[code [err|]]|e] w1]; simpl; try done.
  - destruct (Z.leb_spec (wm_MaxAttempts msg) attempt).
    + destruct (markFailed _ _ _ _) as [[] ?]; done.
    + unfold wait. destruct (ev_done _); [done|]. by intros [= <- _].
  - destruct (markDelivered _ _ _ _) as [[] ?]; done.
Qed.

(** Both sides run the same calls. *)
Ltac unrolled :=
  repeat match goal with
  | E : context [match ?x with _ => _ end] |- _ => destruct x eqn:?; simplify_eq/=; try done
  | u : unit |- _ => destruct u
  end.

Lemma send_loops deps prov n msg attempt w r w' :
  fits_int (m_MaxAttempts msg) -> fits_int attempt ->
  loops (send_body deps prov n msg) attempt w r w' <->
  send_loop deps (Z.to_nat (m_MaxAttempts msg - attempt)) prov n msg attempt w = (r, w').
Proof.
  intros Hmax Ha. apply (loops_iff _ (fun a => Z.to_nat (m_MaxAttempts msg - a)) fits_int
    (fun k a => send_loop deps k prov n msg a)); [| |done|done].
  - intros a w1 a' w2 Hf E. apply send_body_again in E as [Hlt ->].
    destruct (next_attempt _ _ Hmax Hf Hlt) as (-> & ? & ?). done.
  - intros k a w1 Hf. destruct (send_body deps prov n msg a w1) as [[[[]|a']|e] w2] eqn:E.
    2: { destruct (send_body_again _ _ _ _ _ _ _ _ E) as [Hlt ->]. destruct (next_attempt _ _ Hmax Hf Hlt) as (Hi & _ & _).
      destruct k as [|k]; [done|]. cbn [send_loop]. unfold send_body, mbind, ST_bind in *.
      destruct (send_once prov n w1) as [[[u|err]|e] w3]; try done. destruct (_ || _); [done|].
      destruct (wait _ w3) as [[[]|] w4]; try done. injection E as <-. by rewrite Hi. }
    all: destruct k as [|k]; cbn [send_loop]; unfold send_body, mbind, ST_bind in *; unrolled; revert E; intros [=]; by subst.
Qed.

Lemma process_loops retryDelay msg attempt w r w' :
  fits_int (wm_MaxAttempts msg) -> fits_int attempt ->
  loops (process_body retryDelay msg) attempt w r w' <->
  process_loop retryDelay (Z.to_nat (wm_MaxAttempts msg - attempt)) msg attempt w = (r, w').
Proof.
  intros Hmax Ha. apply (loops_iff _ (fun a => Z.to_nat (wm_MaxAttempts msg - a)) fits_int
    (fun k a => process_loop retryDelay k msg a)); [| |done|done].
  - intros a w1 a' w2 Hf E. apply process_body_again in E as [Hlt ->].
    destruct (next_attempt _ _ Hmax Hf Hlt) as (-> & ? & ?). done.
  - intros k a w1 Hf. destruct (process_body retryDelay msg a w1) as [[[[]|a']|e] w2] eqn:E.
    2: { destruct (process_body_again _ _ _ _ _ _ E) as [Hlt ->]. destruct (next_attempt _ _ Hmax Hf Hlt) as (Hi & _ & _).
      destruct k as [|k]; [done|]. cbn [process_loop]. unfold process_body, mbind, ST_bind in *.
      destruct (post msg w1) as [[[code [err|]]|e] w3]; cbn [fst snd] in *; try done.
      - destruct (_ <=? _); [destruct (Inc _ _ w3) as [[] ?]; [destruct (markFailed _ _ _ _) as [[] ?]|]; done|].
        destruct (wait _ w3) as [[[]|] w4]; try done. injection E as <-. by rewrite Hi.
      - destruct (Inc _ _ w3) as [[] ?]; [destruct (markDelivered _ _ _ _) as [[] ?]|]; done. }
    all: destruct k as [|k]; cbn [process_loop]; unfold process_body, mbind, ST_bind in *; unrolled; revert E; intros [=]; by subst.
Qed.
End Counting.

(** C23. The retry loops terminate: written as the code has them, with no bound on the
    rounds and a 64-bit attempt counter, the loop of [sendWithRetry] and the loop of the
    webhook worker end from every attempt number, whatever the provider, the endpoint and
    the database answer, in one outcome, which is the one the models of the two functions
    compute; the counter never overflows. *)
Theorem retry_loops_terminate `{Env} `{UuidText} `{HttpClient} deps prov n msg retryDelay hook w :
  fits_int (m_MaxAttempts msg) -> fits_int (m_Attempt msg) -> fits_int (wm_MaxAttempts hook) -> fits_int (wm_Attempt hook) ->
  (forall r w', loops (send_body deps prov n msg) (m_Attempt msg) w r w' <-> sendWithRetry deps prov n msg w = (r, w')) /\
  (forall r w', loops (process_body retryDelay hook) (wm_Attempt hook) w r w' <-> webhook_process retryDelay hook w = (r, w')).
Proof. intros. split; intros r w'; [by apply send_loops|by apply process_loops]. Qed.

(** Three attempts at a provider that is down, one at an endpoint that answers. *)
Definition demo_client : HttpClient :=
  {| http_NewRequest := fun _ => Ok tt; http_Do := fun _ _ => Ok 200; computeHMAC := fun _ _ => "00" |}.
Definition demo_hook_message : WebhookMessage :=
  {| wm_TenantID := 1; wm_NotificationID := None; wm_EnqueuedAt := 0; wm_DeliveryID := 5; wm_EndpointID := 4; wm_Event := WebhookEventDelivered; wm_EndpointURL := "https://x";
     wm_Secret := "s"; wm_Payload := None; wm_Attempt := 1; wm_MaxAttempts := 5 |}.
Lemma retry_loops_terminate_witness :
  exists e w', @loops Z unit (@send_body calm demo_deps down_provider demo_notification demo_message) 1 empty_world (Err e) w'.
Proof.
  destruct (@sendWithRetry calm demo_deps down_provider demo_notification demo_message empty_world) as [[u|e] w'] eqn:E;
    [exfalso; vm_compute in E; discriminate E|]. exists e, w'.
  apply (@retry_loops_terminate calm bits_uuid demo_client demo_deps down_provider demo_notification demo_message Second
    demo_hook_message empty_world); [unfold fits_int; simpl; lia..|exact E].
Defined.
