(* ===== verification/Pool.v ===== *)
(** * The worker pool ([internal/worker/pool.go], [internal/queue/consumer.go])

    One fetch loop feeds a bounded channel of work items that a fixed number of
    worker goroutines drain.  The interleavings are a step relation over one
    partition of the topic: an item is its offset, the outcome of [Process] on it is
    left open, and committing is a parameter with what Kafka documents of it. *)

From S2P Require Import Prelude Domain Json World Queue.

(** [CommitMessages]: the offset a consumer group resumes from after a commit, given
    the one before and the committed message's offset. *)
Class CommitOffset := commit_offset : nat -> nat -> nat.
(** The committed message is not fetched again: the group resumes after it, or stays
    beyond it. *)
Class CommitLaws `{CommitOffset} : Prop :=
  commit_resumes : forall c o, commit_offset c o = S o \/ commit_offset c o = Nat.max c (S o).

Record pool := MkPool {
  pl_next : nat;                     (* the next offset to fetch *)
  pl_hand : option nat;              (* fetched, waiting at [work <-] *)
  pl_queue : list nat;               (* buffered in the channel, oldest first *)
  pl_busy : list nat;                (* being processed *)
  pl_idle : nat;                     (* workers waiting at [range work] *)
  pl_exited : nat;                   (* workers that returned *)
  pl_done : list (nat * bool);       (* processed, and whether [Process] returned nil *)
  pl_skipped : list nat;             (* poison pills *)
  pl_committed : nat;                (* where the group resumes *)
  pl_closed : bool;                  (* [fetchLoop] returned and [work] is closed *)
}.

Definition NewPool (concurrency : nat) : pool := MkPool 0 None [] [] concurrency 0 [] [] 0 false.

(** [wg.Wait] is over: [Run] returns. *)
Definition returned (concurrency : nat) (s : pool) : Prop := pl_closed s = true /\ pl_exited s = concurrency.

Section Pool.
Context `{UuidText} `{CommitOffset}.
Variable concurrency : nat.
Variable log : list KafkaRecord.

Definition decodes (o : nat) : option bool :=
  rec ← log !! o; Some (is_ok (Unmarshal_bytes (A := Message) (k_Value rec))).

(** A commit that succeeds or fails; a failure is logged only. *)
Definition commits (o : nat) (c c' : nat) : Prop := c' = commit_offset c o \/ c' = c.

Inductive pool_step : pool -> pool -> Prop :=
  | fetch_ok n q b i x d p c :
      decodes n = Some true ->
      pool_step (MkPool n None q b i x d p c false) (MkPool (S n) (Some n) q b i x d p c false)
  | fetch_poison n q b i x d p c c' :
      decodes n = Some false -> commits n c c' ->
      pool_step (MkPool n None q b i x d p c false) (MkPool (S n) None q b i x d (p ++ [n]) c' false)
  | fetch_done n q b i x d p c :                       (* the context is cancelled *)
      pool_step (MkPool n None q b i x d p c false) (MkPool n None q b i x d p c true)
  | work_send n o q b i x d p c :
      (length q < concurrency)%nat ->
      pool_step (MkPool n (Some o) q b i x d p c false) (MkPool n None (q ++ [o]) b i x d p c false)
  | work_receive n h o q b i x d p c f :
      pool_step (MkPool n h (o :: q) b (S i) x d p c f) (MkPool n h q (b ++ [o]) i x d p c f)
  | worker_commit n h o q b1 b2 i x d p c c' f :       (* Process returned nil *)
      commits o c c' ->
      pool_step (MkPool n h q (b1 ++ o :: b2) i x d p c f)
                (MkPool n h q (b1 ++ b2) (S i) x (d ++ [(o, true)]) p c' f)
  | worker_skip n h o q b1 b2 i x d p c f :            (* Process returned an error *)
      pool_step (MkPool n h q (b1 ++ o :: b2) i x d p c f)
                (MkPool n h q (b1 ++ b2) (S i) x (d ++ [(o, false)]) p c f)
  | worker_return n b i x d p c :                      (* [work] is closed and empty *)
      pool_step (MkPool n None [] b (S i) x d p c true) (MkPool n None [] b i (S x) d p c true).

Abbreviation pool_reach := (rtc pool_step (NewPool concurrency)).

(** ** Invariant *)

(** Every fetched offset, by where it is. *)
Definition places (s : pool) : list nat :=
  option_list (pl_hand s) ++ pl_queue s ++ pl_busy s ++ (pl_done s).*1 ++ pl_skipped s.

Record pool_inv (s : pool) : Prop := MkPoolInv {
  inv_places : places s ≡ₚ seq 0 (pl_next s);
  inv_queue : (length (pl_queue s) <= concurrency)%nat;
  inv_workers : (length (pl_busy s) + pl_idle s + pl_exited s)%nat = concurrency;
  inv_commit : (pl_committed s <= pl_next s)%nat;
  inv_reason : pl_committed s = 0%nat \/ exists o, pl_committed s = S o /\ ((o, true) ∈ pl_done s \/ o ∈ pl_skipped s);
  inv_closed : pl_closed s = true -> pl_hand s = None;
  inv_exited : (0 < pl_exited s)%nat -> pl_closed s = true /\ pl_queue s = [];
}.

Lemma pool_inv_init : pool_inv (NewPool concurrency).
Proof. split; simpl; try done; try lia; by left. Qed.

Context {laws : CommitLaws}.

(** A commit keeps the position within what was fetched, and justified. *)
Lemma commits_bound o c c' n : commits o c c' -> (o < n)%nat -> (c <= n)%nat -> (c' <= n)%nat.
Proof using laws. intros [-> | ->] Ho Hc; [|done]. destruct (commit_resumes c o) as [-> | ->]; lia. Qed.

Lemma commits_reason (R : nat -> Prop) o c c' :
  commits o c c' -> R o -> (c = 0%nat \/ exists k, c = S k /\ R k) -> c' = 0%nat \/ exists k, c' = S k /\ R k.
Proof using laws.
  intros [-> | ->] Ho Hc; [|done]. destruct (commit_resumes c o) as [-> | ->]; [by eauto|].
  destruct (Nat.max_spec c (S o)) as [[_ ->]|[_ ->]]; [by eauto|done].
Qed.

Lemma places_lt s o : pool_inv s -> o ∈ places s -> (o < pl_next s)%nat.
Proof. intros Hi Ho. rewrite (inv_places s Hi) in Ho. apply elem_of_seq in Ho. lia. Qed.

#[local] Arguments seq : simpl never.

Lemma pool_inv_step s s' : pool_step s s' -> pool_inv s -> pool_inv s'.
Proof using All.
  intros Hstep Hi. pose proof (fun o => places_lt s o Hi) as Hlt.
  destruct Hi as [Hp Hq Hw Hc Hr Hcl Hex]. unfold places in *.
  destruct Hstep; simpl in *; split; unfold places; simpl in *; try done; try lia; try tauto.
  all: rewrite ?length_app in *; simpl in *; try lia.
  all: rewrite ?fmap_app; simpl.
  - rewrite seq_S, <-Hp. by rewrite Permutation_cons_append, <-!app_assoc.
  - rewrite seq_S, <-Hp. by rewrite <-!app_assoc.
  - eapply commits_bound; [done|lia|lia].
  - eapply (commits_reason (fun k => (k, true) ∈ d \/ k ∈ p ++ [n])); [done|set_solver|].
    destruct Hr as [|(k & ? & ?)]; [by left|right; exists k; set_solver].
  - rewrite <-Hp, <-app_assoc. simpl. by rewrite <-Permutation_middle.
  - rewrite <-Hp, <-!app_assoc. simpl. by rewrite <-!Permutation_middle.
  - intros Hx. by destruct (Hex Hx).
  - rewrite <-Hp, <-!app_assoc. simpl. by rewrite <-!Permutation_middle.
  - eapply commits_bound; [done|apply Hlt; set_solver|lia].
  - eapply (commits_reason (fun k => (k, true) ∈ d ++ [(o, true)] \/ k ∈ p)); [done|set_solver|].
    destruct Hr as [|(k & ? & ?)]; [by left|right; exists k; set_solver].
  - rewrite <-Hp, <-!app_assoc. simpl. by rewrite <-!Permutation_middle.
  - destruct Hr as [|(k & ? & ?)]; [by left|right; exists k; set_solver].
Qed.

Lemma pool_inv_reach s : pool_reach s -> pool_inv s.
Proof using All.
  revert s. apply rtc_ind_r; [apply pool_inv_init|]. intros s1 s2 _ Hstep Hi. by eapply pool_inv_step.
Qed.

(** ** Draining *)

(** Steps left once the channel is closed. *)
Definition drain_measure (s : pool) : nat :=
  (3 * length (pl_queue s) + 2 * length (pl_busy s) + pl_idle s)%nat.

Lemma drain_step s s' : pool_inv s -> pl_closed s = true -> pool_step s s' ->
  pl_closed s' = true /\ (drain_measure s' < drain_measure s)%nat.
Proof.
  intros Hi Hc Hs. destruct Hs; simpl in *; try done; unfold drain_measure; simpl;
    rewrite ?length_app in *; simpl; split; try done; lia.
Qed.

Lemma drain_progress s : (0 < concurrency)%nat -> pool_inv s -> pl_closed s = true ->
  returned concurrency s \/ exists s', pool_step s s'.
Proof.
  intros Hpos [_ _ Hw _ _ Hh Hx] Hc. destruct s as [n h q b i x d p c f]; simpl in *. subst f.
  rewrite (Hh eq_refl) in *. destruct b as [|o b].
  - destruct i as [|i]; [left; split; simpl in *; [done|lia]|]. right. destruct q; [by eexists; constructor|].
    by eexists; constructor.
  - right. eexists. apply (worker_skip n None o q [] b).
Qed.
End Pool.

(** C13. In every reachable state of the pool each fetched record is in exactly one
    place (at the channel, buffered, being processed, processed or skipped as a poison
    pill), the channel holds at most [concurrency] items, every worker is accounted
    for, and the group's position never passes what was fetched and is 0 or just after
    a record that was processed without error or skipped. *)
Theorem pool_accounts `{UuidText} `{CommitLaws} concurrency log s :
  rtc (pool_step concurrency log) (NewPool concurrency) s ->
  places s ≡ₚ seq 0 (pl_next s) /\ (length (pl_queue s) <= concurrency)%nat /\
  (length (pl_busy s) + pl_idle s + pl_exited s)%nat = concurrency /\
  (pl_committed s <= pl_next s)%nat /\
  (pl_committed s = 0%nat \/ exists o, pl_committed s = S o /\ ((o, true) ∈ pl_done s \/ o ∈ pl_skipped s)).
Proof. intros Hr. by destruct (pool_inv_reach concurrency log s Hr). Qed.

(** Shutdown drains: once the fetch loop has closed the channel, every step makes
    progress towards the end, a pool that has not returned can always take one, and when
    [Run] returns every fetched record was processed or skipped, none lost. *)
Theorem pool_drains `{UuidText} `{CommitLaws} concurrency log s :
  (0 < concurrency)%nat -> rtc (pool_step concurrency log) (NewPool concurrency) s -> pl_closed s = true ->
  (forall s', pool_step concurrency log s s' -> pl_closed s' = true /\ (drain_measure s' < drain_measure s)%nat) /\
  (returned concurrency s \/ exists s', pool_step concurrency log s s') /\
  (returned concurrency s -> (pl_done s).*1 ++ pl_skipped s ≡ₚ seq 0 (pl_next s)).
Proof.
  intros Hpos Hr Hc. pose proof (pool_inv_reach concurrency log s Hr) as Hi. split; [|split].
  - intros s'. by apply drain_step.
  - by apply drain_progress.
  - intros [_ Hx]. destruct Hi as [Hp _ Hw _ _ Hh He]. rewrite <-Hp. unfold places.
    rewrite (Hh Hc). destruct (He ltac:(lia)) as [_ ->]. by destruct (pl_busy s); [|simpl in Hw; lia].
Qed.

(** Kafka's own rule: the group resumes after the last message committed. *)
Definition kafka_commit : CommitOffset := fun _ o => S o.
Lemma kafka_commit_laws : @CommitLaws kafka_commit.
Proof. intros c o. by left. Qed.

Definition demo_log : list KafkaRecord :=
  let rec := MkKafkaRecord "t" "k" (BJson (AObj [])) [] in [rec; rec; MkKafkaRecord "t" "k" (BRaw "x") []].
(** One record processed and the pool shut down. *)
Definition demo_end : pool := MkPool 1 None [] [] 0 1 [(0%nat, true)] [] 1 true.

Lemma demo_end_reach : rtc (@pool_step bits_uuid kafka_commit 1 demo_log) (NewPool 1) demo_end.
Proof.
  unfold NewPool, demo_end. eapply rtc_l; [apply fetch_ok; vm_compute; reflexivity|].
  eapply rtc_l; [apply work_send; simpl; lia|]. eapply rtc_l; [apply work_receive|].
  eapply rtc_l; [apply (worker_commit 1 demo_log 1 None 0 [] [] [] 0 0 [] [] 0 1); by left|].
  eapply rtc_l; [apply fetch_done|]. eapply rtc_l; [apply worker_return|]. apply rtc_refl.
Qed.

Lemma pool_accounts_witness : places demo_end ≡ₚ [0%nat] /\ (pl_committed demo_end <= 1)%nat.
Proof.
  destruct (@pool_accounts bits_uuid kafka_commit kafka_commit_laws 1 demo_log demo_end demo_end_reach)
    as (Hp & _ & _ & Hc & _). split; [exact Hp|exact Hc].
Defined.

Lemma pool_drains_witness : returned 1 demo_end /\ (pl_done demo_end).*1 ++ pl_skipped demo_end ≡ₚ [0%nat].
Proof.
  destruct (@pool_drains bits_uuid kafka_commit kafka_commit_laws 1 demo_log demo_end) as (_ & _ & Hd);
    [lia|exact demo_end_reach|reflexivity|]. split; [split; reflexivity|]. apply Hd. split; reflexivity.
Defined.

(** A message whose processing failed can be passed over: with one worker, the
    pool goes on to the next record after an error, and committing that one moves the
    group's position past the failed record, which a restart then never fetches. *)
Theorem failed_message_can_be_passed `{UuidText} `{CommitLaws} rec :
  is_ok (Unmarshal_bytes (A := Message) (k_Value rec)) = true ->
  exists s, rtc (pool_step 1 [rec; rec]) (NewPool 1) s /\ (0%nat, false) ∈ pl_done s /\ (0 < pl_committed s)%nat
    /\ (forall ok, (0%nat, ok) ∈ pl_done s -> ok = false).
Proof.
  intros Hok. assert (decodes [rec; rec] 0 = Some true /\ decodes [rec; rec] 1 = Some true) as [H0' H1']
    by (unfold decodes; simpl; by rewrite Hok).
  exists (MkPool 2 None [] [] 1 0 [(0%nat, false); (1%nat, true)] [] (commit_offset 0 1) false).
  split; [|split; [set_solver|split; [destruct (commit_resumes 0 1) as [-> | ->]; simpl; lia|set_solver]]].
  unfold NewPool. eapply rtc_l; [by apply fetch_ok|]. eapply rtc_l; [apply work_send; simpl; lia|].
  eapply rtc_l; [apply work_receive|]. eapply rtc_l; [apply (worker_skip 1 _ 1 None 0 [] [] [])|].
  eapply rtc_l; [by apply fetch_ok|]. eapply rtc_l; [apply work_send; simpl; lia|].
  eapply rtc_l; [apply work_receive|].
  eapply rtc_l; [apply (worker_commit 1 _ 2 None 1 [] [] [] 0 0 [(0%nat, false)] [] 0 (commit_offset 0 1)); by left|].
  apply rtc_refl.
Qed.

Lemma failed_message_can_be_passed_witness : exists s,
  rtc (@pool_step bits_uuid kafka_commit 1 [MkKafkaRecord "t" "k" (BJson (AObj [])) []; MkKafkaRecord "t" "k" (BJson (AObj [])) []])
    (NewPool 1) s /\ (0 < pl_committed s)%nat.
Proof.
  destruct (@failed_message_can_be_passed bits_uuid kafka_commit kafka_commit_laws
              (MkKafkaRecord "t" "k" (BJson (AObj [])) [])) as (s & Hr & _ & Hc & _); [vm_compute; reflexivity|].
  exists s. split; [exact Hr|exact Hc].
Defined.
