(* ===== verification/Ordering.v ===== *)
(** * Per-recipient order ([internal/queue/producer.go], [internal/worker/pool.go])

    The producer keys every record by its recipient and balances by the key's hash, so the
    records of a recipient share a partition in the order they were published.  Whether
    they are also processed in that order depends on the pool. *)

From S2P Require Import Prelude Time Domain Json World Queue Pool.

(** ** The producer's writer *)

(** [kafka.Hash] (github.com/segmentio/kafka-go): a partition from the key and the number
    of partitions. *)
Class HashBalancer := hash_partition : string -> nat -> nat.

Inductive balancer := BalanceHash | BalanceRoundRobin.
Inductive acks := RequireNone | RequireOne | RequireAll.
Record WriterConfig := MkWriterConfig {
  wc_Addr : list string;
  wc_Balancer : balancer;
  wc_RequiredAcks : acks;
  wc_Async : bool;
  wc_WriteTimeout : Z;
}.
Definition NewProducer (brokers : list string) : WriterConfig :=
  {| wc_Addr := brokers; wc_Balancer := BalanceHash; wc_RequiredAcks := RequireAll; wc_Async := false;
     wc_WriteTimeout := 10 * Second |}.

Section Partitions.
Context `{HashBalancer}.

(** Where the writer puts a record; the round-robin balancer goes by its position. *)
Definition placed (cfg : WriterConfig) (partitions : nat) (i : nat) (rec : KafkaRecord) : nat :=
  match wc_Balancer cfg with
  | BalanceHash => hash_partition (k_Key rec) partitions
  | BalanceRoundRobin => (i mod partitions)%nat
  end.

(** The records of a topic in one partition, oldest first. *)
Definition in_partition (cfg : WriterConfig) (partitions p : nat) (topic : string) (log : list KafkaRecord) : list KafkaRecord :=
  snd <$> List.filter (fun ir => bool_decide (k_Topic ir.2 = topic) && (placed cfg partitions ir.1 ir.2 =? p)%nat)
    (imap pair log).
(** The records of a topic for one recipient. *)
Definition of_recipient (topic key : string) (log : list KafkaRecord) : list KafkaRecord :=
  List.filter (fun rec => bool_decide (k_Topic rec = topic) && bool_decide (k_Key rec = key)) log.
Definition with_key (key : string) (log : list KafkaRecord) : list KafkaRecord :=
  List.filter (fun rec => bool_decide (k_Key rec = key)) log.

(** By the hash a partition is a filter of the log. *)
Lemma in_partition_hash brokers n p topic log :
  in_partition (NewProducer brokers) n p topic log =
  List.filter (fun rec => bool_decide (k_Topic rec = topic) && (hash_partition (k_Key rec) n =? p)%nat) log.
Proof.
  unfold in_partition, placed. simpl. generalize 0%nat. intros _.
  assert (forall (f : nat -> nat), snd <$> List.filter (fun ir => bool_decide (k_Topic ir.2 = topic)
      && (hash_partition (k_Key ir.2) n =? p)%nat) (imap (fun i (r : KafkaRecord) => (f i, r)) log)
    = List.filter (fun rec => bool_decide (k_Topic rec = topic) && (hash_partition (k_Key rec) n =? p)%nat) log) as Hf;
    [|apply (Hf id)].
  induction log as [|rec log IH]; intros f; [done|]. rewrite imap_cons. simpl.
  destruct (_ && _); simpl; [f_equal|]; apply (IH (fun i => f (S i))).
Qed.

(** All of a recipient's records, in the order of publication, and nowhere else. *)
Lemma recipient_partition brokers n topic key log :
  with_key key (in_partition (NewProducer brokers) n (hash_partition key n) topic log) = of_recipient topic key log.
Proof.
  rewrite in_partition_hash. unfold with_key, of_recipient. induction log as [|rec log IH]; [done|]. simpl.
  destruct (decide (k_Topic rec = topic)) as [Ht|Ht];
    [|rewrite (bool_decide_eq_false_2 (k_Topic rec = topic)) by done; simpl; exact IH].
  rewrite (bool_decide_eq_true_2 (k_Topic rec = topic)) by done. simpl.
  destruct (decide (k_Key rec = key)) as [Hk|Hk].
  - rewrite Hk, Nat.eqb_refl. simpl. rewrite Hk, (bool_decide_eq_true_2 (key = key)) by done. by rewrite IH.
  - rewrite (bool_decide_eq_false_2 (k_Key rec = key)) by done. destruct (_ =? _)%nat; simpl; [|done].
    by rewrite (bool_decide_eq_false_2 (k_Key rec = key)).
Qed.
End Partitions.

(** ** One worker keeps the order *)

Section OneWorker.
Context `{UuidText} `{CommitOffset}.
Variable log : list KafkaRecord.

(** The offsets below [n] that decode. *)
Definition readable (n : nat) : list nat := List.filter (fun o => bool_decide (decodes log o = Some true)) (seq 0 n).

(** From the oldest to the newest: processed, in the worker's hands, in the channel, held
    by the fetch loop. *)
Record in_order (s : pool) : Prop := MkInOrder {
  io_line : (pl_done s).*1 ++ pl_busy s ++ pl_queue s ++ option_list (pl_hand s) = readable (pl_next s);
  io_workers : (length (pl_busy s) + pl_idle s + pl_exited s = 1)%nat;
}.

#[local] Arguments seq : simpl never.

Lemma readable_S n b : decodes log n = Some b -> readable (S n) = readable n ++ if b then [n] else [].
Proof.
  intros Hd. unfold readable. rewrite seq_S, List.filter_app. simpl. rewrite Hd.
  destruct b; [by rewrite bool_decide_eq_true_2|by rewrite bool_decide_eq_false_2].
Qed.

Lemma in_order_step s s' : pool_step 1 log s s' -> in_order s -> in_order s'.
Proof.
  intros Hs [Hl Hw]. destruct Hs as [n q b i x d p c Hd|n q b i x d p c c' Hd _|n q b i x d p c|n o q b i x d p c _
    |n h o q b i x d p c f|n h o q b1 b2 i x d p c c' f _|n h o q b1 b2 i x d p c f|n b i x d p c];
    split; simpl in *; rewrite ?length_app in *; simpl in *; try lia; try done.
  - rewrite !app_nil_r in Hl. by rewrite (readable_S n true Hd), <-Hl, <-!app_assoc.
  - rewrite (readable_S n false Hd), Hl. by rewrite app_nil_r.
  - by rewrite app_nil_r.
  - rewrite <-Hl, <-app_assoc. done.
  - assert (b1 = [] /\ b2 = []) as [-> ->] by (destruct b1, b2; simpl in *; try done; lia).
    rewrite fmap_app, <-Hl, <-app_assoc. done.
  - assert (b1 = [] /\ b2 = []) as [-> ->] by (destruct b1, b2; simpl in *; try done; lia).
    rewrite fmap_app, <-Hl, <-app_assoc. done.
Qed.

Lemma in_order_reach s : rtc (pool_step 1 log) (NewPool 1) s -> in_order s.
Proof. revert s. apply rtc_ind_r; [by split|]. intros s1 s2 _ Hs Hi. by eapply in_order_step. Qed.

(** The processed records, in the order they were processed. *)
Definition processed (s : pool) : list KafkaRecord := omap (fun o => log !! o) (pl_done s).*1.

Lemma filter_decodes_prefix n : (n <= length log)%nat ->
  omap (fun o => log !! o) (readable n) =
  List.filter (fun rec => is_ok (Unmarshal_bytes (A := Message) (k_Value rec))) (take n log).
Proof.
  induction n as [|n IH]; intros Hn; [done|].
  destruct (lookup_lt_is_Some_2 log n) as [rec Hr]; [lia|]. rewrite (take_S_r _ _ rec Hr), List.filter_app, <-IH by lia.
  assert (decodes log n = Some (is_ok (Unmarshal_bytes (A := Message) (k_Value rec)))) as Hd by (unfold decodes; by rewrite Hr).
  rewrite (readable_S n _ Hd), omap_app. f_equal. simpl. destruct (is_ok _); simpl; [|done]. by rewrite Hr.
Qed.

Lemma next_bound concurrency s : rtc (pool_step concurrency log) (NewPool concurrency) s -> (pl_next s <= length log)%nat.
Proof.
  assert (forall n b, decodes log n = Some b -> (S n <= length log)%nat) as Hd.
  { intros n b. unfold decodes. destruct (log !! n) eqn:E; [|done]. intros _. apply lookup_lt_Some in E. lia. }
  revert s. apply rtc_ind_r; [simpl; lia|]. intros s1 s2 _ Hs IH. destruct Hs; simpl in *; eauto.
Qed.

(** What one worker processed is a prefix of what can be decoded. *)
Lemma processed_prefix s : rtc (pool_step 1 log) (NewPool 1) s ->
  processed s `prefix_of` List.filter (fun rec => is_ok (Unmarshal_bytes (A := Message) (k_Value rec))) log.
Proof.
  intros Hrun. destruct (in_order_reach s Hrun) as [Hl _]. pose proof (next_bound 1 s Hrun) as Hn.
  assert (processed s `prefix_of` omap (fun o => log !! o) (readable (pl_next s))) as Hp.
  { rewrite <-Hl, omap_app. by eexists. }
  etransitivity; [exact Hp|]. rewrite filter_decodes_prefix by done.
  rewrite <-(take_drop (pl_next s) log) at 2. rewrite List.filter_app. by eexists.
Qed.
End OneWorker.

(** ** More workers do not *)

(** Two records are taken by two workers and the second is finished first. *)
Lemma overtaken `{UuidText} `{CommitOffset} concurrency rec1 rec2 : (2 <= concurrency)%nat ->
  is_ok (Unmarshal_bytes (A := Message) (k_Value rec1)) = true -> is_ok (Unmarshal_bytes (A := Message) (k_Value rec2)) = true ->
  exists s, rtc (pool_step concurrency [rec1; rec2]) (NewPool concurrency) s /\ processed [rec1; rec2] s = [rec2; rec1].
Proof.
  intros Hc H1 H2. assert (decodes [rec1; rec2] 0 = Some true /\ decodes [rec1; rec2] 1 = Some true) as [Hd0 Hd1]
    by (unfold decodes; simpl; by rewrite H1, H2).
  destruct concurrency as [|[|k]]; [lia..|].
  exists (MkPool 2 None [] [] (S (S k)) 0 [(1%nat, true); (0%nat, true)] [] (commit_offset (commit_offset 0 1) 0) false).
  split; [|done]. unfold NewPool.
  eapply rtc_l; [by apply fetch_ok|]. eapply rtc_l; [apply work_send; simpl; lia|]. eapply rtc_l; [apply work_receive|].
  eapply rtc_l; [by apply fetch_ok|]. eapply rtc_l; [apply work_send; simpl; lia|]. eapply rtc_l; [apply work_receive|].
  eapply rtc_l; [apply (worker_commit _ _ 2 None 1 [] [0%nat] [] k 0 [] [] 0 (commit_offset 0 1)); by left|].
  eapply rtc_l; [eapply (worker_commit _ _ 2 None 0 [] [] [] (S k) 0 [(1%nat, true)] []); by left|]. apply rtc_refl.
Qed.

Lemma filter_prefix {A} (P : A -> bool) l k : l `prefix_of` k -> List.filter P l `prefix_of` List.filter P k.
Proof. intros [m ->]. rewrite List.filter_app. by eexists. Qed.

Lemma filter_comm {A} (P Q : A -> bool) l : List.filter P (List.filter Q l) = List.filter Q (List.filter P l).
Proof. induction l as [|x l IH]; [done|]. simpl. destruct (P x) eqn:EP, (Q x) eqn:EQ; simpl; rewrite ?EP, ?EQ, IH; done. Qed.

(** C30. The order of a recipient's notifications.  The producer's hash balancer puts all
    records of a topic that carry the recipient's key into one partition, in the order of
    publication, and none into another.  A pool with one worker processes them in this
    order: what it has processed of the recipient is always a prefix of what was published
    and can be decoded.  A pool with more workers does not: whatever two records the
    partition holds, of one recipient or not, the second can be finished before the
    first. *)
Theorem recipient_order_needs_one_worker `{HashBalancer} `{UuidText} `{CommitOffset} brokers n topic key published :
  let p := hash_partition key n in
  let log := in_partition (NewProducer brokers) n p topic published in
  with_key key log = of_recipient topic key published /\
  (forall p', p' <> p -> with_key key (in_partition (NewProducer brokers) n p' topic published) = []) /\
  (forall s, rtc (pool_step 1 log) (NewPool 1) s ->
     with_key key (processed log s) `prefix_of`
       List.filter (fun rec => is_ok (Unmarshal_bytes (A := Message) (k_Value rec))) (of_recipient topic key published)) /\
  (forall concurrency rec1 rec2, (2 <= concurrency)%nat ->
     is_ok (Unmarshal_bytes (A := Message) (k_Value rec1)) = true -> is_ok (Unmarshal_bytes (A := Message) (k_Value rec2)) = true ->
     exists s, rtc (pool_step concurrency [rec1; rec2]) (NewPool concurrency) s /\ processed [rec1; rec2] s = [rec2; rec1]).
Proof.
  intros p log. pose proof (recipient_partition brokers n topic key published) as Hp. split; [exact Hp|]. split_and!.
  - intros p' Hne. rewrite in_partition_hash. unfold with_key. apply where_nil. intros rec [Hq _]%elem_of_where.
    apply bool_decide_eq_false. intros Hk. apply andb_true_iff in Hq as [_ Hq%Nat.eqb_eq]. apply Hne. unfold p. by rewrite <-Hk, Hq.
  - intros s Hrun. rewrite <-Hp. unfold with_key at 2. rewrite filter_comm. by apply filter_prefix, processed_prefix.
  - intros concurrency rec1 rec2. apply overtaken.
Qed.

(** Two notifications of one recipient, with two workers. *)
Definition length_hash : HashBalancer := fun key n => (String.length key mod n)%nat.
Definition twice : list KafkaRecord :=
  [MkKafkaRecord "t" "u1" (BJson (AObj [])) [("n", "first")]; MkKafkaRecord "t" "u1" (BJson (AObj [])) [("n", "second")]].

Lemma recipient_order_needs_one_worker_witness :
  of_recipient "t" "u1" twice = twice /\
  exists s, rtc (@pool_step bits_uuid kafka_commit 2 twice) (NewPool 2) s /\ processed twice s = reverse twice.
Proof.
  destruct (@recipient_order_needs_one_worker length_hash bits_uuid kafka_commit [] 3 "t" "u1" twice) as (Hp & _ & _ & Hrev).
  split; [vm_compute; reflexivity|]. apply Hrev; [lia|vm_compute; reflexivity..].
Defined.
