(* ===== verification/Http.v ===== *)
(** * HTTP plumbing ([internal/api/response], [internal/api/handler/errors.go])

    Requests as the handlers read them, the response envelope, and the map from the
    program's errors to status codes.  A handler is a computation that always ends in
    a response. *)

From S2P Require Import Prelude Time Domain Json World.

(** A request body as the JSON decoder meets it: nothing but space, a first JSON value
    that ends at byte [len], or bytes it cannot scan as a value. *)
Inductive body :=
  | BodyEmpty
  | BodyJson (len : Z) (v : any)
  | BodyMalformed (msg : string).

(** What a handler reads of a request: header, query and path lookups (the empty
    string when absent, as [Header.Get], [Query().Get] and [chi.URLParam] have it), the
    body, and what the middleware stored in the context: the request id and, behind
    [Auth], the client. *)
Record Request := MkRequest {
  rq_Method : string;
  rq_Path : string;
  rq_Header : string -> string;
  rq_Query : string -> string;
  rq_Param : string -> string;
  rq_Body : body;
  rq_ID : string;
  rq_Client : option APIClient;
}.

(** [r.WithContext(context.WithValue(...))] and the route parameters chi sets. *)
Definition with_id (id : string) (r : Request) : Request :=
  MkRequest (rq_Method r) (rq_Path r) (rq_Header r) (rq_Query r) (rq_Param r) (rq_Body r) id (rq_Client r).
Definition with_client (c : APIClient) (r : Request) : Request :=
  MkRequest (rq_Method r) (rq_Path r) (rq_Header r) (rq_Query r) (rq_Param r) (rq_Body r) (rq_ID r) (Some c).
Definition with_params (params : string -> string) (r : Request) : Request :=
  MkRequest (rq_Method r) (rq_Path r) (rq_Header r) (rq_Query r) params (rq_Body r) (rq_ID r) (rq_Client r).

Definition RequestIDFromContext (r : Request) : string := rq_ID r.
Definition ClientFromContext (r : Request) : option APIClient := rq_Client r.

Record Response := MkResponse {
  rs_Status : Z;
  rs_Header : list (string * string);
  rs_Body : option any;      (* None: nothing was written *)
}.

Definition StatusOK : Z := 200.
Definition StatusCreated : Z := 201.
Definition StatusAccepted : Z := 202.
Definition StatusNoContent : Z := 204.

Definition codeToStatus (code : string) : Z :=
  if bool_decide (code = ErrCodeNotFound) then 404
  else if bool_decide (code = ErrCodeConflict) then 409
  else if bool_decide (code = ErrCodeValidation) then 422
  else if bool_decide (code = ErrCodeUnauthorized) then 401
  else if bool_decide (code = ErrCodeForbidden) then 403
  else if bool_decide (code = ErrCodeRateLimited) then 429
  else 500.

(** [toAppError]: the first [AppError] of the chain, or an internal error. *)
Definition toAppError (err : error) : error :=
  match errors_As_App err with
  | Some e => e
  | None => NewInternalError "an unexpected error occurred" err
  end.

(** [omitempty] members. *)
Definition opt_str (name s : string) : list (string * any) := if nonempty s then [(name, AStr s)] else [].
Definition opt_int (name : string) (z : Z) : list (string * any) := if z =? 0 then [] else [(name, AInt z)].
Definition opt_map (name : string) (m : gomap) : list (string * any) :=
  match m with Some m => if decide (m = ∅) then [] else [(name, obj_of_map m)] | None => [] end.

Definition meta_json (page perPage total : Z) (requestID : string) : any :=
  AObj (opt_int "page" page ++ opt_int "per_page" perPage ++ opt_int "total" total ++ opt_str "request_id" requestID).

(** [write]: the status goes out first, so a body that fails to encode leaves it
    without one. *)
Definition write (status : Z) (body : result any) : Response :=
  {| rs_Status := status; rs_Header := [("Content-Type", "application/json")];
     rs_Body := match body with Ok b => Some b | Err _ => None end |}.

Definition JSONList (status : Z) (data : result any) (page perPage total : Z) (requestID : string) : Response :=
  write status (d ← data; Ok (AObj [("success", ABool true); ("data", d);
                                    ("meta", meta_json page perPage total requestID)])).
Definition JSON (status : Z) (data : result any) (requestID : string) : Response :=
  JSONList status data 0 0 0 requestID.

(** The code, message and details of an [AppError]. *)
Definition JSONError (appErr : error) (requestID : string) : Response :=
  match appErr with
  | EApp code msg details _ =>
      write (codeToStatus code)
        (Ok (AObj [("success", ABool false);
                   ("error", AObj ([("code", AStr code); ("message", AStr msg)] ++ opt_map "details" details));
                   ("meta", meta_json 0 0 0 requestID)]))
  | _ => write 500 (Err appErr)
  end.

(** [http.Error]: a line of plain text. *)
Definition http_Error (text : string) (status : Z) : Response :=
  {| rs_Status := status;
     rs_Header := [("Content-Type", "text/plain; charset=utf-8"); ("X-Content-Type-Options", "nosniff")];
     rs_Body := Some (AStr text) |}.

Definition NoContent : Response := {| rs_Status := StatusNoContent; rs_Header := []; rs_Body := None |}.

(** The tail of a handler: run the service call, answer its error or its result. *)
Definition respond {A} (m : M A) (requestID : string) (ok : A -> Response) : M Response :=
  r ← try m;
  mret (match r with
        | Ok a => ok a
        | Err err => JSONError (toAppError err) requestID
        end).

(** [strconv.Atoi]: an optional sign and decimal digits.  The number comes with whether
    it is one: a syntax error gives 0, a number that does not fit the nearest int64; the
    digits are read until they pass 64 bits. *)
Inductive digits := DSyntax | DRange | DValue (n : Z).
Fixpoint ParseUint (n : Z) (s : string) : digits :=
  match s with
  | "" => DValue n
  | String c s' =>
      match digit_val c with
      | None => DSyntax
      | Some d => if 2^64 <=? 10 * n + d then DRange else ParseUint (10 * n + d) s'
      end
  end.
Definition signed (neg : bool) (s : string) : Z * bool :=
  let cutoff := 2^63 in
  match s with
  | "" => (0, false)
  | _ =>
      match ParseUint 0 s with
      | DSyntax => (0, false)
      | DRange => if neg then (- cutoff, false) else (cutoff - 1, false)
      | DValue un =>
          if neg then (if cutoff <? un then (- cutoff, false) else (- un, true))
          else (if cutoff <=? un then (cutoff - 1, false) else (un, true))
      end
  end.
Definition Atoi_result (s : string) : Z * bool :=
  match s with
  | String "-" s' => signed true s'
  | String "+" s' => signed false s'
  | _ => signed false s
  end.
Definition Atoi (s : string) : option Z := let '(n, ok) := Atoi_result s in if ok then Some n else None.

(** A list of JSON documents that must all encode. *)
Fixpoint json_array (l : list (result any)) : result (list any) :=
  match l with
  | [] => Ok []
  | x :: l' => v ← x; vs ← json_array l'; Ok (v :: vs)
  end.

(** ** Error responses *)

Lemma toAppError_app err : is_app (toAppError err) = true.
Proof.
  unfold toAppError, errors_As_App. destruct (List.find _ _) as [e|] eqn:E; [|done].
  by apply List.find_some in E as [_ ?].
Qed.

Lemma codeToStatus_error code : 400 <= codeToStatus code <= 500.
Proof. unfold codeToStatus. repeat case_bool_decide; lia. Qed.

(** An error answer is always an error status with a body. *)
Lemma JSONError_status err reqID :
  400 <= rs_Status (JSONError (toAppError err) reqID) <= 500 /\ is_Some (rs_Body (JSONError (toAppError err) reqID)).
Proof.
  pose proof (toAppError_app err). destruct (toAppError err); try done. simpl.
  split; [apply codeToStatus_error|done].
Qed.

(** A response below 400 comes from the success branch. *)
Lemma respond_ok {A} (m : M A) reqID ok w r w' :
  respond m reqID ok w = (Ok r, w') -> rs_Status r < 400 -> exists a, m w = (Ok a, w') /\ r = ok a.
Proof.
  unfold respond, mbind, ST_bind, try. destruct (m w) as [[a|e] w1]; intros [= <- <-] Hs; [by eauto|].
  pose proof (JSONError_status e reqID). lia.
Qed.

#[global] Instance frame_respond {A B} (f : world -> B) (m : M A) reqID ok : Frame f m -> Frame f (respond m reqID ok).
Proof. unfold respond. apply _. Qed.
#[global] Instance keeps_respond {A} (I : world -> Prop) (m : M A) reqID ok : Keeps I m -> Keeps I (respond m reqID ok).
Proof. unfold respond. apply _. Qed.
