(* ===== verification/Config.v ===== *)
(** * Configuration ([internal/config/config.go])

    [Load] over the environment of the process, a function from names to values (the
    empty string when unset, as [os.Getenv] has it).  Floating-point text is a
    parameter. *)

From S2P Require Import Prelude Strings Time Domain Json World Queue Http.

(** [strconv.ParseFloat], the literal 0.1 and the test [x <= 0]. *)
Class Floats := {
  float : Type;
  ParseFloat : string -> option float;
  float_tenth : float;
  float_nonpos : float -> bool;
}.

Record Config `{Floats} := MkConfig {
  c_Port : string;
  c_LogLevel : string;
  c_Environment : string;
  c_DatabaseURL : string;
  c_DatabaseMaxConns : Z;
  c_DatabaseMinConns : Z;
  c_RedisURL : string;
  c_RedisPassword : string;
  c_KafkaBrokers : list string;
  c_KafkaPartitionCount : Z;
  c_KafkaReplicationFactor : Z;
  c_WorkerEmailConcurrency : Z;
  c_WorkerPushConcurrency : Z;
  c_WorkerSMSConcurrency : Z;
  c_WorkerInAppConcurrency : Z;
  c_WorkerRetryMaxAttempts : Z;
  c_WorkerRetryBaseDelayMS : Z;
  c_SESRegion : string;
  c_SESFromEmail : string;
  c_FCMCredentialsFile : string;
  c_TwilioAccountSID : string;
  c_TwilioAuthToken : string;
  c_TwilioFromNumber : string;
  c_RateLimitAPIRPM : Z;
  c_RateLimitEmailPerHour : Z;
  c_RateLimitPushPerHour : Z;
  c_RateLimitSMSPerHour : Z;
  c_RateLimitInAppPerHour : Z;
  c_InAppWSHeartbeatSeconds : Z;
  c_InAppWSBufferSize : Z;
  c_InAppWSReadTimeoutSeconds : Z;
  c_WSJWTSecret : string;
  c_WSJWTTTLSeconds : Z;
  c_AdminToken : string;
  c_DLQEnabled : bool;
  c_DLQConsumerEnabled : bool;
  c_DLQGroupID : string;
  c_WebhookEnabled : bool;
  c_WebhookGroupID : string;
  c_WebhookConcurrency : Z;
  c_WebhookMaxAttempts : Z;
  c_WebhookRetryBaseMS : Z;
  c_OTELEndpoint : string;
  c_OTELInsecure : bool;
  c_OTELSampleRatio : float;
  c_ServiceVersion : string;
  c_GitCommit : string;
  c_MetricsPort : string;
}.

Section Config.
Context `{Floats}.
Variable getenv : string -> string.

Definition getEnv (key fallback : string) : string :=
  let v := getenv key in if decide (v = "") then fallback else v.

(** The conversions report the value they could not read. *)
Definition num_error (what v : string) : error :=
  EWrap ("invalid " +:+ what +:+ " value " +:+ v) (EPlain ("strconv: parsing " +:+ v)).

Definition getEnvInt (key : string) (fallback : Z) : result Z :=
  let v := getenv key in
  if decide (v = "") then Ok fallback
  else match Atoi v with Some n => Ok n | None => Err (num_error "integer" v) end.

Definition getEnvFloat (key : string) (fallback : float) : result float :=
  let v := getenv key in
  if decide (v = "") then Ok fallback
  else match ParseFloat v with Some n => Ok n | None => Err (num_error "float" v) end.

(** [if cfg.X, err = get(key, fallback); err != nil { return nil, fmt.Errorf("key: %w", err) }] *)
Definition setting {A} (get : string -> A -> result A) (key : string) (fallback : A) : result A :=
  match get key fallback with Ok v => Ok v | Err e => Err (EWrap key e) end.
Definition flag (key : string) : bool := negb (String.eqb (getEnv key "true") "false").

Definition Load : result Config :=
  if decide (getEnv "DATABASE_URL" "" = "") then Err (EPlain "DATABASE_URL is required")
  else
    maxConns ← setting getEnvInt "DATABASE_MAX_CONNS" 25;
    minConns ← setting getEnvInt "DATABASE_MIN_CONNS" 5;
    partitions ← setting getEnvInt "KAFKA_PARTITION_COUNT" 6;
    replication ← setting getEnvInt "KAFKA_REPLICATION_FACTOR" 1;
    emailConc ← setting getEnvInt "WORKER_EMAIL_CONCURRENCY" 5;
    pushConc ← setting getEnvInt "WORKER_PUSH_CONCURRENCY" 3;
    smsConc ← setting getEnvInt "WORKER_SMS_CONCURRENCY" 2;
    inappConc ← setting getEnvInt "WORKER_INAPP_CONCURRENCY" 5;
    maxAttempts ← setting getEnvInt "WORKER_RETRY_MAX_ATTEMPTS" 3;
    baseDelay ← setting getEnvInt "WORKER_RETRY_BASE_DELAY_MS" 1000;
    apiRPM ← setting getEnvInt "RATELIMIT_API_RPM" 100;
    emailCap ← setting getEnvInt "RATELIMIT_EMAIL_PER_HOUR" 10;
    pushCap ← setting getEnvInt "RATELIMIT_PUSH_PER_HOUR" 5;
    smsCap ← setting getEnvInt "RATELIMIT_SMS_PER_HOUR" 3;
    inappCap ← setting getEnvInt "RATELIMIT_INAPP_PER_HOUR" 50;
    heartbeat ← setting getEnvInt "INAPP_WS_HEARTBEAT_SECONDS" 25;
    bufSize ← setting getEnvInt "INAPP_WS_BUFFER_SIZE" 32;
    readTimeout ← setting getEnvInt "INAPP_WS_READ_TIMEOUT_SECONDS" 60;
    ttl ← setting getEnvInt "WS_JWT_TTL_SECONDS" 60;
    ratio ← setting getEnvFloat "OTEL_TRACES_SAMPLER_ARG" float_tenth;
    hookConc ← setting getEnvInt "WEBHOOK_CONCURRENCY" 3;
    hookAttempts ← setting getEnvInt "WEBHOOK_MAX_ATTEMPTS" 5;
    hookDelay ← setting getEnvInt "WEBHOOK_RETRY_BASE_DELAY_MS" 1000;
    Ok {| c_Port := getEnv "PORT" "8080";
          c_LogLevel := getEnv "LOG_LEVEL" "info";
          c_Environment := getEnv "ENVIRONMENT" "development";
          c_DatabaseURL := getEnv "DATABASE_URL" "";
          c_DatabaseMaxConns := maxConns;
          c_DatabaseMinConns := minConns;
          c_RedisURL := getEnv "REDIS_URL" "redis://localhost:6379";
          c_RedisPassword := getEnv "REDIS_PASSWORD" "";
          c_KafkaBrokers := Split "," (getEnv "KAFKA_BROKERS" "localhost:9092");
          c_KafkaPartitionCount := partitions;
          c_KafkaReplicationFactor := replication;
          c_WorkerEmailConcurrency := emailConc;
          c_WorkerPushConcurrency := pushConc;
          c_WorkerSMSConcurrency := smsConc;
          c_WorkerInAppConcurrency := inappConc;
          c_WorkerRetryMaxAttempts := maxAttempts;
          c_WorkerRetryBaseDelayMS := baseDelay;
          c_SESRegion := getEnv "SES_REGION" "ap-south-1";
          c_SESFromEmail := getEnv "SES_FROM_EMAIL" "";
          c_FCMCredentialsFile := getEnv "FCM_CREDENTIALS_FILE" "";
          c_TwilioAccountSID := getEnv "TWILIO_ACCOUNT_SID" "";
          c_TwilioAuthToken := getEnv "TWILIO_AUTH_TOKEN" "";
          c_TwilioFromNumber := getEnv "TWILIO_FROM_NUMBER" "";
          c_RateLimitAPIRPM := apiRPM;
          c_RateLimitEmailPerHour := emailCap;
          c_RateLimitPushPerHour := pushCap;
          c_RateLimitSMSPerHour := smsCap;
          c_RateLimitInAppPerHour := inappCap;
          c_InAppWSHeartbeatSeconds := heartbeat;
          c_InAppWSBufferSize := bufSize;
          c_InAppWSReadTimeoutSeconds := readTimeout;
          c_WSJWTSecret := getEnv "WS_JWT_SECRET" "";
          c_WSJWTTTLSeconds := ttl;
          c_AdminToken := getEnv "ADMIN_TOKEN" "";
          c_DLQEnabled := flag "DLQ_ENABLED";
          c_DLQConsumerEnabled := flag "DLQ_CONSUMER_ENABLED";
          c_DLQGroupID := getEnv "DLQ_GROUP_ID" "notifyhub-dlq-consumer";
          c_WebhookEnabled := flag "WEBHOOK_ENABLED";
          c_WebhookGroupID := getEnv "WEBHOOK_GROUP_ID" "notifyhub-webhook-worker";
          c_WebhookConcurrency := hookConc;
          c_WebhookMaxAttempts := hookAttempts;
          c_WebhookRetryBaseMS := hookDelay;
          c_OTELEndpoint := getEnv "OTEL_EXPORTER_OTLP_ENDPOINT" "";
          c_OTELInsecure := flag "OTEL_EXPORTER_OTLP_INSECURE";
          c_OTELSampleRatio := ratio;
          c_ServiceVersion := "";
          c_GitCommit := "";
          c_MetricsPort := getEnv "METRICS_PORT" "9091" |}.
End Config.

(** ** What each variable sets *)

Definition int_settings `{Floats} : list (string * Z * (Config -> Z)) :=
  [("DATABASE_MAX_CONNS", 25, c_DatabaseMaxConns); ("DATABASE_MIN_CONNS", 5, c_DatabaseMinConns);
   ("KAFKA_PARTITION_COUNT", 6, c_KafkaPartitionCount); ("KAFKA_REPLICATION_FACTOR", 1, c_KafkaReplicationFactor);
   ("WORKER_EMAIL_CONCURRENCY", 5, c_WorkerEmailConcurrency); ("WORKER_PUSH_CONCURRENCY", 3, c_WorkerPushConcurrency);
   ("WORKER_SMS_CONCURRENCY", 2, c_WorkerSMSConcurrency); ("WORKER_INAPP_CONCURRENCY", 5, c_WorkerInAppConcurrency);
   ("WORKER_RETRY_MAX_ATTEMPTS", 3, c_WorkerRetryMaxAttempts);
   ("WORKER_RETRY_BASE_DELAY_MS", 1000, c_WorkerRetryBaseDelayMS); ("RATELIMIT_API_RPM", 100, c_RateLimitAPIRPM);
   ("RATELIMIT_EMAIL_PER_HOUR", 10, c_RateLimitEmailPerHour); ("RATELIMIT_PUSH_PER_HOUR", 5, c_RateLimitPushPerHour);
   ("RATELIMIT_SMS_PER_HOUR", 3, c_RateLimitSMSPerHour); ("RATELIMIT_INAPP_PER_HOUR", 50, c_RateLimitInAppPerHour);
   ("INAPP_WS_HEARTBEAT_SECONDS", 25, c_InAppWSHeartbeatSeconds); ("INAPP_WS_BUFFER_SIZE", 32, c_InAppWSBufferSize);
   ("INAPP_WS_READ_TIMEOUT_SECONDS", 60, c_InAppWSReadTimeoutSeconds); ("WS_JWT_TTL_SECONDS", 60, c_WSJWTTTLSeconds);
   ("WEBHOOK_CONCURRENCY", 3, c_WebhookConcurrency); ("WEBHOOK_MAX_ATTEMPTS", 5, c_WebhookMaxAttempts);
   ("WEBHOOK_RETRY_BASE_DELAY_MS", 1000, c_WebhookRetryBaseMS)].

Definition text_settings `{Floats} : list (string * string * (Config -> string)) :=
  [("PORT", "8080", c_Port); ("LOG_LEVEL", "info", c_LogLevel); ("ENVIRONMENT", "development", c_Environment);
   ("DATABASE_URL", "", c_DatabaseURL); ("REDIS_URL", "redis://localhost:6379", c_RedisURL);
   ("REDIS_PASSWORD", "", c_RedisPassword); ("SES_REGION", "ap-south-1", c_SESRegion);
   ("SES_FROM_EMAIL", "", c_SESFromEmail); ("FCM_CREDENTIALS_FILE", "", c_FCMCredentialsFile);
   ("TWILIO_ACCOUNT_SID", "", c_TwilioAccountSID); ("TWILIO_AUTH_TOKEN", "", c_TwilioAuthToken);
   ("TWILIO_FROM_NUMBER", "", c_TwilioFromNumber); ("WS_JWT_SECRET", "", c_WSJWTSecret);
   ("ADMIN_TOKEN", "", c_AdminToken); ("DLQ_GROUP_ID", "notifyhub-dlq-consumer", c_DLQGroupID);
   ("WEBHOOK_GROUP_ID", "notifyhub-webhook-worker", c_WebhookGroupID);
   ("OTEL_EXPORTER_OTLP_ENDPOINT", "", c_OTELEndpoint); ("METRICS_PORT", "9091", c_MetricsPort)].

Definition flag_settings `{Floats} : list (string * (Config -> bool)) :=
  [("DLQ_ENABLED", c_DLQEnabled); ("DLQ_CONSUMER_ENABLED", c_DLQConsumerEnabled);
   ("WEBHOOK_ENABLED", c_WebhookEnabled); ("OTEL_EXPORTER_OTLP_INSECURE", c_OTELInsecure)].

(** The numeric variables in the order they are read, with what tells a readable value. *)
Definition int_ok (v : string) : bool := bool_decide (is_Some (Atoi v)).
Definition float_ok `{Floats} (v : string) : bool := match ParseFloat v with Some _ => true | None => false end.
Definition numbers `{Floats} : list (string * (string -> bool)) :=
  map (fun s => (s.1.1, int_ok)) (take 19 int_settings) ++ [("OTEL_TRACES_SAMPLER_ARG", float_ok)]
  ++ map (fun s => (s.1.1, int_ok)) (drop 19 int_settings).

Definition unreadable (getenv : string -> string) (s : string * (string -> bool)) : bool :=
  nonempty (getenv s.1) && negb (s.2 (getenv s.1)).
Definition int_value (getenv : string -> string) (key : string) (fallback : Z) : Z :=
  default fallback (Atoi (getenv key)).

Section Load.
Context `{Floats}.
Variable getenv : string -> string.

Lemma getEnv_plain key : getEnv getenv key "" = getenv key.
Proof. unfold getEnv. by case_decide. Qed.

Lemma setting_int key fallback :
  setting (getEnvInt getenv) key fallback =
    if unreadable getenv (key, int_ok) then Err (EWrap key (num_error "integer" (getenv key)))
    else Ok (int_value getenv key fallback).
Proof.
  unfold setting, getEnvInt, unreadable, int_value, int_ok, nonempty. cbn [fst snd].
  destruct (decide _) as [->|Hne]; [done|]. rewrite (bool_decide_false (getenv key = "")) by done. by destruct (Atoi _).
Qed.

Lemma bind_int (Q : result Config -> Prop) key fallback k :
  (unreadable getenv (key, int_ok) = true -> Q (Err (EWrap key (num_error "integer" (getenv key))))) ->
  (unreadable getenv (key, int_ok) = false -> Q (k (int_value getenv key fallback))) ->
  Q (setting (getEnvInt getenv) key fallback ≫= k).
Proof. rewrite setting_int. destruct (unreadable _ _); auto. Qed.

Lemma bind_float (Q : result Config -> Prop) key fallback k :
  (unreadable getenv (key, float_ok) = true -> Q (Err (EWrap key (num_error "float" (getenv key))))) ->
  (forall x, getEnvFloat getenv key fallback = Ok x -> unreadable getenv (key, float_ok) = false -> Q (k x)) ->
  Q (setting (getEnvFloat getenv) key fallback ≫= k).
Proof.
  unfold setting, getEnvFloat, unreadable, float_ok. cbn [fst snd].
  destruct (decide (getenv key = "")) as [->|Hne]; [intros _ Hk; by apply Hk|].
  unfold nonempty. rewrite (bool_decide_false (getenv key = "")) by done. destruct (ParseFloat _); intros He Hk; [by apply Hk|by apply He].
Qed.

Lemma readable_int key fallback :
  unreadable getenv (key, int_ok) = false -> getEnvInt getenv key fallback = Ok (int_value getenv key fallback).
Proof.
  intros Hr. pose proof (setting_int key fallback) as Hs. rewrite Hr in Hs. unfold setting in Hs.
  by destruct (getEnvInt _ _ _); simplify_eq.
Qed.

Definition load_spec (r : result Config) : Prop :=
  match r with
  | Ok c =>
      getenv "DATABASE_URL" <> "" /\ Forall (fun s => unreadable getenv s = false) numbers /\
      Forall (fun '(key, fallback, get) => getEnvInt getenv key fallback = Ok (get c)) int_settings /\
      Forall (fun '(key, fallback, get) => get c = getEnv getenv key fallback) text_settings /\
      Forall (fun '(key, get) => get c = flag getenv key) flag_settings /\
      getEnvFloat getenv "OTEL_TRACES_SAMPLER_ARG" float_tenth = Ok (c_OTELSampleRatio c) /\
      Join "," (c_KafkaBrokers c) = getEnv getenv "KAFKA_BROKERS" "localhost:9092"
  | Err e =>
      getenv "DATABASE_URL" = "" /\ e = EPlain "DATABASE_URL is required" \/
      getenv "DATABASE_URL" <> "" /\
      exists key ok what, List.find (unreadable getenv) numbers = Some (key, ok) /\
        e = EWrap key (num_error what (getenv key))
  end.

(** The variables read so far are readable; the next one decides. *)
Ltac first_unreadable :=
  right; split; [done|]; do 3 eexists; split; [|reflexivity]; cbv [numbers int_settings take drop map app fst List.find];
  repeat match goal with E : unreadable _ _ = _ |- _ => rewrite E; clear E end; reflexivity.
Ltac next_setting := (apply bind_int || apply bind_float); intros; [first_unreadable|].

Lemma Load_spec : load_spec (Load getenv).
Proof.
  unfold Load. destruct (decide (getEnv getenv "DATABASE_URL" "" = "")) as [Hd|Hd]; rewrite getEnv_plain in Hd; [by left|].
  do 23 next_setting.
  split_and!; [done| | | | | |].
  - repeat constructor; done.
  - repeat constructor; by apply readable_int.
  - repeat constructor.
  - repeat constructor.
  - done.
  - apply Join_Split.
Qed.
End Load.

Lemma ParseUint_nonneg s n m : 0 <= n -> ParseUint n s = DValue m -> 0 <= m.
Proof.
  revert n. induction s as [|c s IH]; intros n Hn; simpl; [by intros [= <-]|].
  destruct (digit_val c) as [d|] eqn:Hd; [|done]. case_match; [done|]. apply IH.
  unfold digit_val in Hd. case_match; simplify_eq. lia.
Qed.

Lemma Atoi_fits s n : Atoi s = Some n -> fits_int n.
Proof.
  assert (forall neg s n, signed neg s = (n, true) -> fits_int n) as Hs.
  { clear. intros neg [|c s] n; unfold signed; [done|]. destruct (ParseUint 0 _) as [| |u] eqn:E; [done|by destruct neg|].
    apply ParseUint_nonneg in E; [|done]. unfold fits_int. destruct neg; case_match; intros [= <-]; lia. }
  unfold Atoi. destruct (Atoi_result s) as [m []] eqn:E; [|done]. intros [= ->].
  destruct s as [|c s]; [done|]. unfold Atoi_result in E. repeat case_match; by eapply Hs.
Qed.

Lemma int_settings_fit `{Floats} getenv c :
  Forall (fun '(key, fallback, get) => getEnvInt getenv key fallback = Ok (get c)) int_settings ->
  Forall (fun '(_, _, get) => fits_int (get c)) int_settings.
Proof.
  assert (Forall (fun '(_, fallback, _) => fits_int fallback) int_settings) as Hd
    by (repeat constructor; unfold fits_int; lia).
  intros Hs. apply Forall_forall. intros [[key d] get] Hin. rewrite Forall_forall in Hd, Hs.
  specialize (Hd _ Hin). specialize (Hs _ Hin). simpl in *. unfold getEnvInt in Hs.
  case_decide; [by simplify_eq|]. destruct (Atoi _) as [n|] eqn:E; simplify_eq. by eapply Atoi_fits.
Qed.

(** C37. Loading the configuration succeeds exactly when DATABASE_URL is set and every
    numeric variable that is set can be read; it then holds, field by field, what the
    variables say or their defaults, every number in int64 range, and the broker list
    whose parts make up KAFKA_BROKERS.  Otherwise the error names the first variable, in
    the order they are read, that is missing or unreadable. *)
Theorem config_load `{Floats} (getenv : string -> string) :
  match Load getenv with
  | Ok c =>
      getenv "DATABASE_URL" <> "" /\ Forall (fun s => unreadable getenv s = false) numbers /\
      Forall (fun '(key, fallback, get) => getEnvInt getenv key fallback = Ok (get c) /\ fits_int (get c)) int_settings /\
      Forall (fun '(key, fallback, get) => get c = getEnv getenv key fallback) text_settings /\
      Forall (fun '(key, get) => get c = flag getenv key) flag_settings /\
      getEnvFloat getenv "OTEL_TRACES_SAMPLER_ARG" float_tenth = Ok (c_OTELSampleRatio c) /\
      Join "," (c_KafkaBrokers c) = getEnv getenv "KAFKA_BROKERS" "localhost:9092"
  | Err e =>
      getenv "DATABASE_URL" = "" /\ e = EPlain "DATABASE_URL is required" \/
      getenv "DATABASE_URL" <> "" /\
      exists key ok what, List.find (unreadable getenv) numbers = Some (key, ok) /\
        e = EWrap key (num_error what (getenv key))
  end.
Proof.
  pose proof (Load_spec getenv) as Hl. destruct (Load getenv) as [c|e]; [|exact Hl].
  destruct Hl as (Hd & Hn & Hi & Hrest). split_and!; [done|done| |apply Hrest..].
  pose proof (int_settings_fit getenv c Hi) as Hf. rewrite Forall_forall in Hi, Hf |- *.
  intros [[key d] get] Hin. split; [by apply (Hi _ Hin)|by apply (Hf _ Hin)].
Qed.
