(* ===== verification/Dlq.v ===== *)
(** * Dead letters ([internal/worker/dlq_consumer.go], [internal/api/handler/dlq.go])

    The consumer that stores dead-lettered messages, and the admin handlers that
    list, show, replay and delete them. *)

From S2P Require Import Prelude Time Domain Json World Db Repository Schema Queue Webhook Http.

Section Dlq.
Context `{Env} `{UuidText} `{Propagator}.

(** ** dlq_consumer.go *)

(** [mustMarshal]: a document for the payload column in any case. *)
Definition mustMarshal (d : DLQMessage) (t : gotime) : any :=
  match Marshal d with
  | Ok b => b
  | Err _ => AObj [("error", AStr "marshal failed"); ("ts", AStr (format_seconds t))]
  end.

Definition dead_letter_of (dlq : DLQMessage) (payload : any) : DeadLetterMessage :=
  {| dm_ID := uuid_nil; dm_TenantID := m_TenantID (q_Original dlq);
     dm_NotificationID := m_NotificationID (q_Original dlq); dm_Channel := m_Channel (q_Original dlq);
     dm_OriginalTopic := q_OriginalTopic dlq; dm_Payload := Some payload;
     dm_FailureReason := q_FailureReason dlq; dm_ErrorMessage := q_ErrorMessage dlq;
     dm_Attempts := q_LastAttempt dlq; dm_ReplayedAt := None; dm_CreatedAt := zero_time |}.

(** One turn of [Run] on a fetched record: whether the offset is committed. *)
Definition dlq_handle (raw : KafkaRecord) : M bool :=
  match Unmarshal_bytes (k_Value raw) with
  | Err _ => mret true
  | Ok dlq =>
      t ← now;
      r ← try (DeadLetterRepo_Create (dead_letter_of dlq (mustMarshal dlq t)));
      match r with
      | Err _ => mret false
      | Ok _ =>
          _ ← Inc "DLQPersisted" [m_Channel (q_Original dlq)];
          mret true
      end
  end.

(** ** handler/dlq.go *)

Variable maxAttempts : Z.

Definition tenantIDFromHeader (r : Request) : result uuid :=
  let raw := rq_Header r "X-Tenant-ID" in
  if decide (raw = "") then Err (NewValidationError "X-Tenant-ID header required" None)
  else match uuid_Parse raw with
       | None => Err (NewValidationError "invalid X-Tenant-ID" None)
       | Some id => Ok id
       end.

(** [json.Marshal] of a [domain.DeadLetterMessage]: no tags, so the Go names. *)
Definition marshal_DeadLetterMessage (m : DeadLetterMessage) : result any :=
  replayed ← match dm_ReplayedAt m with Some t => time_MarshalJSON t | None => Ok ANull end;
  created ← time_MarshalJSON (dm_CreatedAt m);
  Ok (AObj [("ID", json_uuid (dm_ID m)); ("TenantID", json_uuid (dm_TenantID m));
            ("NotificationID", json_uuid (dm_NotificationID m)); ("Channel", AStr (dm_Channel m));
            ("OriginalTopic", AStr (dm_OriginalTopic m)); ("Payload", default ANull (dm_Payload m));
            ("FailureReason", AStr (dm_FailureReason m)); ("ErrorMessage", AStr (dm_ErrorMessage m));
            ("Attempts", AInt (dm_Attempts m)); ("ReplayedAt", replayed); ("CreatedAt", created)]).

(** A query parameter read as an int when it is acceptable. *)
Definition query_int (r : Request) (name : string) (accept : Z -> bool) (dflt : Z) : Z :=
  match Atoi (rq_Query r name) with
  | Some n => if accept n then n else dflt
  | None => dflt
  end.

Definition DLQ_List (r : Request) : M Response :=
  match tenantIDFromHeader r with
  | Err appErr => mret (JSONError appErr (rq_ID r))
  | Ok tenantID =>
      respond (DeadLetterRepo_List
        {| dp_TenantID := tenantID; dp_Channel := rq_Query r "channel";
           dp_Unreplayed := if decide (rq_Query r "unreplayed" = "true") then Some true else None;
           dp_Limit := query_int r "limit" (fun n => (0 <? n) && (n <=? 500)) 50;
           dp_Offset := query_int r "offset" (fun n => 0 <=? n) 0 |})
        (rq_ID r) (fun msgs =>
          JSON StatusOK (l ← json_array (marshal_DeadLetterMessage <$> msgs); Ok (AArr l)) (rq_ID r))
  end.

(** The tenant and the id most handlers start from. *)
Definition with_tenant_id (r : Request) (k : uuid -> uuid -> M Response) : M Response :=
  match tenantIDFromHeader r with
  | Err appErr => mret (JSONError appErr (rq_ID r))
  | Ok tenantID =>
      match uuid_Parse (rq_Param r "id") with
      | None => mret (JSONError (NewValidationError "invalid id" None) (rq_ID r))
      | Some id => k tenantID id
      end
  end.

Definition DLQ_GetByID (r : Request) : M Response :=
  with_tenant_id r (fun tenantID id =>
    respond (DeadLetterRepo_GetByID tenantID id) (rq_ID r) (fun msg =>
      JSON StatusOK (marshal_DeadLetterMessage msg) (rq_ID r))).

(** The message a replay publishes. *)
Definition replay_of (dlqMsg : DLQMessage) (t : gotime) : Message :=
  let o := q_Original dlqMsg in
  {| m_NotificationID := m_NotificationID o; m_TenantID := m_TenantID o; m_Channel := m_Channel o;
     m_RecipientID := m_RecipientID o; m_RecipientAddress := m_RecipientAddress o;
     m_TemplateID := m_TemplateID o; m_Payload := m_Payload o; m_Priority := m_Priority o;
     m_Attempt := 1; m_MaxAttempts := maxAttempts; m_EnqueuedAt := t |}.

(** The part of [Replay] that can fail: what it answers with. *)
Definition replay (tenantID id : uuid) : M (list (string * any)) :=
  msg ← DeadLetterRepo_GetByID tenantID id;
  dlqMsg ← or_else (lift (match dm_Payload msg with
                          | Some j => Unmarshal j
                          | None => Err (EPlain "unexpected end of JSON input")
                          end))
             (NewInternalError "failed to parse dlq payload");
  t ← now;
  payload ← or_else (lift (Marshal (replay_of dlqMsg t))) (NewInternalError "failed to marshal replay message");
  _ ← or_else (Queue.Publish (q_OriginalTopic dlqMsg) (m_RecipientID (q_Original dlqMsg)) (BJson payload))
        (NewInternalError "failed to publish replay");
  r ← try (DeadLetterRepo_MarkReplayed tenantID id);
  mret (match r with
        | Ok _ => [("status", AStr "replayed")]
        | Err err => [("status", AStr "replayed"); ("warning", AStr ("mark_replayed failed: " +:+ Error err))]
        end).

Definition DLQ_Replay (r : Request) : M Response :=
  with_tenant_id r (fun tenantID id =>
    respond (replay tenantID id) (rq_ID r) (fun data => JSON StatusOK (Ok (AObj data)) (rq_ID r))).

Definition DLQ_Delete (r : Request) : M Response :=
  with_tenant_id r (fun tenantID id =>
    respond (DeadLetterRepo_Delete tenantID id) (rq_ID r) (fun _ => NoContent)).
End Dlq.

(** ** The consumer stores what was dead-lettered *)

(** The row an envelope is stored as. *)
Definition stores `{UuidText} (d : DLQMessage) (row : DeadLetterRow) : Prop :=
  dr_TenantID row = m_TenantID (q_Original d) /\ dr_NotificationID row = m_NotificationID (q_Original d) /\
  dr_Channel row = m_Channel (q_Original d) /\ dr_OriginalTopic row = q_OriginalTopic d /\
  dr_FailureReason row = q_FailureReason d /\ dr_ErrorMessage row = q_ErrorMessage d /\
  dr_ReplayedAt row = None /\ exists t, dr_Payload row = Some (mustMarshal d t).

(** The INSERT of a dead letter of a tenant succeeds. *)
Definition storable `{Env} (tenant : uuid) (d : db) : Prop :=
  faultless /\ (forall i, ev_uuid (env_event i) ∉ dr_ID <$> dead_letters d) /\ tenant_exists d tenant = true.

Lemma wp_dlq_handle `{Env} `{UuidText} rec w :
  wp (dlq_handle rec) (fun r w' => exists committed, r = Ok committed /\ w_kafka w' = w_kafka w /\
    match Unmarshal_bytes (k_Value rec) with
    | Err _ => committed = true /\ dead_letters (w_db w') = dead_letters (w_db w)
    | Ok d => (committed = false /\ dead_letters (w_db w') = dead_letters (w_db w)
               /\ ~ storable (m_TenantID (q_Original d)) (w_db w)) \/
        exists row, dead_letters (w_db w') = dead_letters (w_db w) ++ [row] /\ stores d row
          /\ dr_ID row ∉ dr_ID <$> dead_letters (w_db w) /\ (committed = false -> ~ faultless)
    end) w.
Proof.
  unfold dlq_handle. destruct (Unmarshal_bytes (k_Value rec)) as [d|e]; [|apply wp_ret; by exists true].
  apply wp_bind, wp_gets, wp_bind, wp_try, wp_bind, wp_or_else, wp_sql_env.
  - intros dt m Hf. apply wp_ret. exists false. destruct w. split_and!; [done|done|left].
    split_and!; [done|done|]. by intros [? _].
  - intros dt t m. unfold insert_row. destruct (violated _) eqn:Hv.
    { assert (~ storable (m_TenantID (q_Original d)) (w_db w)) as Hno.
      { intros (_ & Hid & Ht). rewrite violated_all in Hv; [done|].
        repeat constructor; simpl; [by apply bool_decide_eq_true_2|done]. }
      destruct w. split; intros; apply wp_ret; exists false; (split; [done|]); (split; [done|]); left; done. }
    apply violated_none, Forall_cons in Hv as [Hu%bool_decide_eq_true _]. destruct w as [[] ? ? ? ? ? ?]. simpl in *.
    split; [intros Hf; apply wp_ret; exists false|apply wp_ret, wp_bind, wp_modify, wp_ret; exists true];
      (split; [done|]); (split; [done|]); right; eexists; (split; [done|]);
      (split; [split_and!; try done; by eexists|by split]).
Qed.

(** The dead-letter consumer commits an offset only for a record it cannot decode
    (which is skipped and changes nothing) or after storing exactly one new row that
    carries the envelope and its tenant, channel, topic, reason and error.  It leaves
    the offset only when the row could not be stored (a call failed, the tenant is
    unknown or the generated id is taken), and then the table too, unless the insert
    took effect behind an error. *)
Theorem dlq_consumer_persists `{Env} `{UuidText} rec w :
  let '(r, w') := dlq_handle rec w in
  exists committed, r = Ok committed /\ w_kafka w' = w_kafka w /\
    match Unmarshal_bytes (k_Value rec) with
    | Err _ => committed = true /\ dead_letters (w_db w') = dead_letters (w_db w)
    | Ok d => (committed = false /\ dead_letters (w_db w') = dead_letters (w_db w)
               /\ ~ storable (m_TenantID (q_Original d)) (w_db w)) \/
        exists row, dead_letters (w_db w') = dead_letters (w_db w) ++ [row] /\ stores d row
          /\ dr_ID row ∉ dr_ID <$> dead_letters (w_db w) /\ (committed = false -> ~ faultless)
    end.
Proof. apply wp_pair, wp_dlq_handle. Qed.

(** ** Replay *)

Section Replay.
Context `{Env} `{UuidTextLaws} `{Propagator}.
Variable maxAttempts : Z.
Hypothesis maxAttempts_fits : fits_int maxAttempts.

(** The message [m] is [o] put back to its first attempt, with the budget of now, no earlier
    than [t0]. *)
Record restarted (t0 : gotime) (o m : Message) : Prop := MkRestarted {
  rs_notification : m_NotificationID m = m_NotificationID o /\ m_TenantID m = m_TenantID o /\ m_Channel m = m_Channel o;
  rs_recipient : m_RecipientID m = m_RecipientID o /\ m_RecipientAddress m = m_RecipientAddress o;
  rs_content : m_TemplateID m = m_TemplateID o /\ m_Payload m = m_Payload o /\ m_Priority m = m_Priority o;
  rs_attempt : m_Attempt m = 1 /\ m_MaxAttempts m = maxAttempts;
  rs_time : t0 <= m_EnqueuedAt m;
}.

(** A record that replays the envelope [d]. *)
Definition replays (t0 : gotime) (d : DLQMessage) (rec : KafkaRecord) : Prop :=
  k_Topic rec = q_OriginalTopic d /\ k_Key rec = m_RecipientID (q_Original d) /\
  exists m, Unmarshal_bytes (k_Value rec) = Ok m /\ restarted t0 (q_Original d) m.

Definition replay_post (tenant id : uuid) (d : DLQMessage) (w : world) (ok : bool) (w' : world) : Prop :=
  if ok then exists rec, w_kafka w' = w_kafka w ++ [rec] /\ replays (w_now w) d rec /\
    ((dead_letters (w_db w') = dead_letters (w_db w) /\ ~ faultless) \/
     exists t, dead_letters (w_db w')
       = update_where (dead_letter_key id tenant) (set_replayed t) (dead_letters (w_db w)))
  else dead_letters (w_db w') = dead_letters (w_db w) /\
    ~ (faultless /\ forall t, w_now w <= t <= w_now w' -> printable t) /\
    (w_kafka w' = w_kafka w \/ exists rec, w_kafka w' = w_kafka w ++ [rec] /\ replays (w_now w) d rec).

Lemma wp_MarkReplayed tenant id w :
  wp (DeadLetterRepo_MarkReplayed tenant id) (fun _ w' => w_kafka w' = w_kafka w /\
    ((dead_letters (w_db w') = dead_letters (w_db w) /\ ~ faultless) \/
     exists t, dead_letters (w_db w')
       = update_where (dead_letter_key id tenant) (set_replayed t) (dead_letters (w_db w)))) w.
Proof.
  apply wp_or_else, wp_sql_env.
  - intros dt m Hf. destruct w. by auto.
  - intros dt t m. destruct w as [[] ? ? ? ? ? ?]. simpl. split; intros; (split; [done|]); right; by exists t.
Qed.

Lemma wp_replay tenant id row rest j d w :
  where_ (dead_letter_key id tenant) (dead_letters (w_db w)) = row :: rest ->
  dr_Payload row = Some j -> Unmarshal j = Ok d -> fits_int (m_Priority (q_Original d)) ->
  wp (replay maxAttempts tenant id) (fun r w' => replay_post tenant id d w (is_ok r) w') w.
Proof.
  intros Hrow Hj Hd Hprio. unfold replay.
  assert (forall w', w_kafka w' = w_kafka w -> dead_letters (w_db w') = dead_letters (w_db w) ->
    ~ (faultless /\ forall t, w_now w <= t <= w_now w' -> printable t) ->
    replay_post tenant id d w false w') as Hnone by (intros w' ? ? ?; split_and!; [done|done|by left]).
  apply wp_bind, wp_bind, wp_or_else, wp_sql_read_env. intros dt t m. set (w1 := advance dt w).
  assert (w_kafka w1 = w_kafka w /\ w_db w1 = w_db w /\ w_now w <= w_now w1) as (Hk1 & Hd1 & Ht1)
    by (destruct w; simpl; split_and!; (done || lia)).
  split; [|intros Hf; apply Hnone; rewrite ?Hd1; [done..|by intros [? _]]]. rewrite Hrow. simpl one. apply wp_ret, wp_bind, wp_or_else, wp_lift.
  simpl dm_Payload. rewrite Hj, Hd. apply wp_bind, wp_gets, wp_bind, wp_or_else, wp_lift.
  set (msg := replay_of maxAttempts d (w_now w1)).
  destruct (Marshal msg) as [b|e] eqn:Hb.
  2: { apply Hnone; rewrite ?Hd1; [done..|]. intros [_ HT]. specialize (HT (w_now w1) (conj Ht1 (Z.le_refl _))).
       revert Hb HT. unfold printable. cbn. by destruct (time_MarshalJSON (w_now w1)). }
  assert (message_wf msg) as Hwf by (split_and!; simpl; [done|by unfold fits_int|done]).
  assert (replays (w_now w) d (published (q_OriginalTopic d) (m_RecipientID (q_Original d)) (BJson b))) as Hrep
    by (split_and!; [done|done|]; exists msg; split; [by eapply Message_json_roundtrip|by split]).
  apply wp_bind, wp_or_else, wp_Publish_env.
  - intros dt2 m2 Hf. apply Hnone; [|rewrite <-Hd1|by intros [? _]]; by destruct w1.
  - intros dt2 m2. cbv zeta. set (w2 := set_kafka _ _).
    assert (w_kafka w2 = w_kafka w ++ [published (q_OriginalTopic d) (m_RecipientID (q_Original d)) (BJson b)]
            /\ w_db w2 = w_db w) as [Hk2 Hd2] by (rewrite <-Hk1, <-Hd1; by destruct w1).
    clearbody w2. split; [intros Hf; split_and!; [by rewrite Hd2|by intros [? _]|right; by eexists]|].
    apply wp_bind, wp_try. eapply wp_mono; [apply wp_MarkReplayed|]. intros r w3 [Hk3 Hd3].
    apply wp_ret. eexists. rewrite Hk3, Hk2. split; [done|]. split; [done|]. by rewrite <-Hd2.
Qed.
End Replay.

Lemma wp_DLQ_Replay `{Env} `{UuidTextLaws} `{Propagator} maxAttempts req tenant id row rest j d w :
  fits_int maxAttempts -> tenantIDFromHeader req = Ok tenant -> uuid_Parse (rq_Param req "id") = Some id ->
  where_ (dead_letter_key id tenant) (dead_letters (w_db w)) = row :: rest ->
  dr_Payload row = Some j -> Unmarshal j = Ok d -> fits_int (m_Priority (q_Original d)) ->
  wp (DLQ_Replay maxAttempts req) (fun r w' => exists resp, r = Ok resp /\
    replay_post maxAttempts tenant id d w (bool_decide (rs_Status resp = StatusOK)) w') w.
Proof.
  intros Hmax Ht Hid Hrow Hj Hd Hp. unfold DLQ_Replay, with_tenant_id. rewrite Ht, Hid.
  apply wp_bind, wp_try. eapply wp_mono; [by eapply wp_replay|]. intros [data|e] w' Hr; apply wp_ret; eexists;
    (split; [done|]); [exact Hr|]. rewrite bool_decide_false; [exact Hr|].
  pose proof (JSONError_status e (rq_ID req)). unfold StatusOK. lia.
Qed.


(** A stored and replayed envelope. *)
Definition demo_dlq : DLQMessage :=
  {| q_Original := {| m_NotificationID := 11; m_TenantID := 1; m_Channel := ChannelEmail; m_RecipientID := "u1";
                      m_RecipientAddress := "a@b.c"; m_TemplateID := None; m_Payload := None; m_Priority := 5;
                      m_Attempt := 3; m_MaxAttempts := 3; m_EnqueuedAt := 0 |};
     q_OriginalTopic := TopicForChannel ChannelEmail; q_FailureReason := DLQReasonPermanent;
     q_ErrorMessage := "bounced"; q_LastAttempt := 3; q_DeadLetteredAt := 0 |}.
Definition demo_dlq_json : any :=
  match @Marshal _ (@DLQMessage_codec bits_uuid) demo_dlq with Ok j => j | Err _ => ANull end.
Definition demo_dlq_record : KafkaRecord :=
  {| k_Topic := DLQTopicForChannel ChannelEmail; k_Key := "u1"; k_Value := BJson demo_dlq_json; k_Headers := [] |}.
Definition demo_stored : world := (@dlq_handle calm bits_uuid demo_dlq_record demo_tenants).2.
Definition demo_replay_request : Request :=
  MkRequest "POST" "/internal/dlq" (fun h => if decide (h = "X-Tenant-ID") then @uuid_String bits_uuid 1 else "")
    (fun _ => "") (fun _ => @uuid_String bits_uuid 1) BodyEmpty "r" None.

