(* ===== verification/Access.v ===== *)
(** * Tenants, keys and gates
    ([internal/service/tenant.go], [internal/service/device_token.go],
    [internal/api/middleware/auth.go], [admin.go], [ratelimit.go])

    Provisioning of tenants and API keys, and the middleware that decides whether a
    request reaches its handler and for which client.  SHA-256 and the random source
    are parameters. *)

From S2P Require Import Prelude Time Domain Json World Db Repository Schema RateLimit Http.

(** [hex(sha256(s))], and the 32 random bytes in hex the n-th call reads. *)
Class KeySource := {
  sha256_hex : string -> string;
  rand_hex : nat -> result string;
}.

Record CreateTenantRequest := MkCreateTenantRequest { xt_Name : string }.
Record CreateAPIKeyRequest := MkCreateAPIKeyRequest { xk_Name : string }.
#[global] Instance CreateTenantRequest_tags : Tagged CreateTenantRequest := fun r =>
  field_tags "Name" [("required", nonempty (xt_Name r)); ("max", rune_count (xt_Name r) <=? 255)].
#[global] Instance CreateAPIKeyRequest_tags : Tagged CreateAPIKeyRequest := fun r =>
  field_tags "Name" [("required", nonempty (xk_Name r)); ("max", rune_count (xk_Name r) <=? 255)].

Section Access.
Context `{Env} `{UuidText} `{KeySource} `{RedisCommands}.

(** ** service/tenant.go *)

Definition TenantService_CreateTenant (req : CreateTenantRequest) : M Tenant :=
  match validate_Struct req with
  | Some err => throw (toValidationError err)
  | None => TenantRepo_Create (xt_Name req)
  end.

Definition generateKey : M string :=
  tick ← gets w_tick;
  or_else (lift (rand_hex tick)) (EWrap "read random bytes").
Definition hashAPIKey (raw : string) : string := sha256_hex raw.

Definition TenantService_CreateAPIKey (tenantID : uuid) (req : CreateAPIKeyRequest) : M CreateAPIKeyResponse :=
  match validate_Struct req with
  | Some err => throw (toValidationError err)
  | None =>
      _ ← TenantRepo_GetByID tenantID;
      rawKey ← or_else generateKey (NewInternalError "failed to generate api key");
      client ← APIClientRepo_CreateForTenant tenantID (xk_Name req) (hashAPIKey rawKey);
      mret {| ak_ID := ac_ID client; ak_TenantID := tenantID; ak_Name := ac_Name client; ak_APIKey := rawKey |}
  end.

(** ** service/device_token.go *)

Definition DeviceTokenService_Register (tenantID : uuid) (req : RegisterDeviceTokenRequest) : M DeviceToken :=
  match validate_Struct req with
  | Some err => throw (toValidationError err)
  | None => or_else (DeviceTokenRepo_Upsert tenantID req) (NewInternalError "failed to register device token")
  end.
Definition DeviceTokenService_Deregister (tenantID : uuid) (token : string) : M unit :=
  if decide (token = "") then throw (NewValidationError "token required" None)
  else DeviceTokenRepo_Deactivate tenantID token.
Definition DeviceTokenService_ListActiveByUser (tenantID : uuid) (userID : string) : M (list DeviceToken) :=
  DeviceTokenRepo_ListActiveByUser tenantID userID.

(** ** middleware/auth.go *)

Definition hashKey (key : string) : string := sha256_hex key.

(** The client of a request, or the answer that ends it. *)
Definition authenticate (r : Request) : M (Response + APIClient) :=
  let rawKey := rq_Header r "X-API-Key" in
  if decide (rawKey = "") then
    mret (inl (JSONError (NewUnauthorizedError "X-API-Key header is required") (rq_ID r)))
  else
    found ← try (APIClientRepo_GetByKeyHash (hashKey rawKey));
    mret (match found with
          | Err err =>
              if is_app err then inl (JSONError err (rq_ID r))
              else inl (JSONError (NewUnauthorizedError "invalid API key") (rq_ID r))
          | Ok client =>
              if ac_IsActive client then inr client
              else inl (JSONError (NewForbiddenError "API key is inactive") (rq_ID r))
          end).

Definition Auth (next : APIClient -> Request -> M Response) (r : Request) : M Response :=
  who ← authenticate r;
  match who with
  | inl resp => mret resp
  | inr client => next client r
  end.

(** ** middleware/admin.go *)

Definition AdminAuth (token : string) (next : Request -> M Response) (r : Request) : M Response :=
  let provided := rq_Header r "X-Admin-Token" in
  if decide (provided = "") then
    mret (JSONError (NewUnauthorizedError "X-Admin-Token header is required") (rq_ID r))
  else if bool_decide (token = "") || negb (bool_decide (provided = token)) then
    mret (JSONError (NewForbiddenError "invalid admin token") (rq_ID r))
  else next r.

(** ** middleware/ratelimit.go, after [Auth] *)

Definition ScopeAPI : string := "api".

Definition add_header (k v : string) (resp : Response) : Response :=
  {| rs_Status := rs_Status resp; rs_Header := (k, v) :: rs_Header resp; rs_Body := rs_Body resp |}.

Definition RateLimitMiddleware (rpm : Z) (next : APIClient -> Request -> M Response)
    (client : APIClient) (r : Request) : M Response :=
  ok ← try (AllowKey ("ratelimit:api:" +:+ uuid_String (ac_ID client)) Minute rpm);
  match ok with
  | Err _ =>
      _ ← Inc "RateLimitDecisions" [ScopeAPI; "allowed"];
      next client r
  | Ok false =>
      _ ← Inc "RateLimitDecisions" [ScopeAPI; "denied"];
      mret (add_header "Retry-After" "60" (JSONError (NewRateLimitedError "API rate limit exceeded") (rq_ID r)))
  | Ok true =>
      _ ← Inc "RateLimitDecisions" [ScopeAPI; "allowed"];
      next client r
  end.
End Access.

(** ** Keys *)

Section Keys.
Context `{Env} `{UuidText} `{KeySource}.

Definition client_of (row : ApiClientRow) : APIClient :=
  {| ac_ID := cr_ID row; ac_TenantID := default uuid_nil (cr_TenantID row); ac_Name := cr_Name row;
     ac_IsActive := cr_IsActive row |}.

(** Authentication reads only; it lets through the active client whose stored hash is
    the key's. *)
Lemma wp_authenticate r w :
  wp (authenticate r) (fun out w' => w_db w' = w_db w /\ exists who, out = Ok who /\
    match who with
    | inr client => exists row rest,
        where_ (fun x => bool_decide (cr_ApiKeyHash x = hashKey (rq_Header r "X-API-Key")) && cr_IsActive x)
          (api_clients (w_db w)) = row :: rest
        /\ rq_Header r "X-API-Key" <> "" /\ client = client_of row
    | inl resp => 400 <= rs_Status resp <= 500
    end /\
    (rq_Header r "X-API-Key" <> "" ->
     forall row rest, where_ (fun x => bool_decide (cr_ApiKeyHash x = hashKey (rq_Header r "X-API-Key")) && cr_IsActive x)
          (api_clients (w_db w)) = row :: rest ->
       who = inr (client_of row) \/ ~ faultless /\ exists resp, who = inl resp /\ rs_Status resp = 500)) w.
Proof.
  unfold authenticate. destruct (decide _) as [Hk|Hk].
  { apply wp_ret. split; [done|]. eexists. split; [done|]. split; [apply codeToStatus_error|done]. }
  apply wp_bind, wp_try, wp_bind, wp_or_else, wp_sql_read_env. intros dt t m.
  assert (w_db (advance dt w) = w_db w) as Hd by by destruct w.
  set (hit := fun x => bool_decide (cr_ApiKeyHash x = hashKey (rq_Header r "X-API-Key")) && cr_IsActive x).
  split.
  - destruct (where_ hit (api_clients (w_db w))) as [|row rest] eqn:E; simpl.
    + apply wp_ret. split; [done|]. eexists. split; [done|]. split; [apply codeToStatus_error|done].
    + apply wp_ret, wp_ret. split; [done|]. assert (row ∈ where_ hit (api_clients (w_db w))) as Hin
        by (rewrite E; set_solver). apply elem_of_where in Hin as [[_ Ha]%andb_true_iff _].
      simpl. rewrite Ha. eexists. split; [done|]. unfold client_of.
      split; [exists row, rest|intros _ row' rest' [= <- <-]; left]; by rewrite Ha.
  - intros Hf. apply wp_ret. split; [done|]. eexists. split; [done|]. split; [apply codeToStatus_error|].
    intros _ row rest _. right. split; [done|]. eexists. split; [done|]. done.
Qed.
End Keys.

(** C34. [Auth] runs the handler only for a request whose key hashes to a stored,
    active client, and with that client; every other request is answered with an error
    status and changes nothing.  Unless a call fails, only a request without a key or
    with a key of no active client is turned away. *)
Theorem auth_admits_only_key_holders `{Env} `{UuidText} `{KeySource} next r w :
  (exists resp w1, Auth next r w = (Ok resp, w1) /\ 400 <= rs_Status resp <= 500 /\ w_db w1 = w_db w /\
     (faultless -> rq_Header r "X-API-Key" <> "" -> forall row, row ∈ api_clients (w_db w) ->
        cr_ApiKeyHash row = hashKey (rq_Header r "X-API-Key") -> cr_IsActive row = false)) \/
  (exists row w1, row ∈ api_clients (w_db w) /\ cr_ApiKeyHash row = hashKey (rq_Header r "X-API-Key") /\
     cr_IsActive row = true /\ w_db w1 = w_db w /\ Auth next r w = next (client_of row) r w1).
Proof.
  unfold Auth, mbind, ST_bind. pose proof (wp_authenticate r w) as Ha. unfold wp in Ha.
  destruct (authenticate r w) as [out w1]. destruct Ha as (Hd & who & Hout & Hwho & Hadm). simpl in *. subst out.
  destruct who as [resp|client]; [left; exists resp, w1; do 3 (split; [done|])|right].
  { intros Hf Hne row Hrow Hh. destruct (cr_IsActive row) eqn:Ha; [|done]. exfalso.
    match type of Hadm with _ -> forall row rest, where_ ?P ?l = _ -> _ => set (hit := P) in *;
      assert (row ∈ where_ hit l) as Hin by
        (apply elem_of_where; split; [|done]; unfold hit; by rewrite Ha, bool_decide_true);
      destruct (where_ hit l) as [|row' rest] eqn:E end; [by apply elem_of_nil in Hin|].
    by destruct (Hadm Hne row' rest eq_refl) as [?|[? _]]. }
  destruct Hwho as (row & rest & Hrow & _ & ->).
  assert (row ∈ where_ (fun x => bool_decide (cr_ApiKeyHash x = hashKey (rq_Header r "X-API-Key")) && cr_IsActive x)
    (api_clients (w_db w))) as [Hk Hin]%elem_of_where by (rewrite Hrow; set_solver).
  apply andb_true_iff in Hk as [Hk%bool_decide_eq_true Ha]. by exists row, w1.
Qed.

(** The random source never gives an empty key (it reads 32 bytes). *)
Class KeyLaws `{KeySource} : Prop := rand_hex_nonempty : forall n k, rand_hex n = Ok k -> k <> "".

Lemma wp_CreateForTenant `{Env} tenant name hash w :
  wp (APIClientRepo_CreateForTenant tenant name hash) (fun r w' => match r with
    | Ok c => exists row, api_clients (w_db w') = api_clients (w_db w) ++ [row] /\ cr_ApiKeyHash row = hash
        /\ cr_IsActive row = true /\ hash ∉ cr_ApiKeyHash <$> api_clients (w_db w) /\ c = client_of row
        /\ ac_TenantID c = tenant /\ ac_Name c = name
    | Err _ => True end) w.
Proof.
  apply wp_bind, wp_or_else, wp_sql; [done|]. intros dt u t m. unfold insert_row.
  destruct (violated _) eqn:Hv; [split; done|]. destruct w as [[] ? ? ? ? ? ?]. simpl in *.
  split; [done|]. apply wp_ret. eexists. split; [done|]. split_and!; try done.
  repeat (case_match; try done). by eapply bool_decide_eq_true_1.
Qed.

(** The row of an issued key: active, under the key's hash and the answered client. *)
Definition key_row `{KeySource} (tenantID : uuid) (req : CreateAPIKeyRequest) (issued : CreateAPIKeyResponse) (row : ApiClientRow) : Prop :=
  cr_ApiKeyHash row = hashAPIKey (ak_APIKey issued) /\ ak_APIKey issued <> "" /\ cr_IsActive row = true /\
  client_of row = {| ac_ID := ak_ID issued; ac_TenantID := tenantID; ac_Name := xk_Name req; ac_IsActive := true |}.

Lemma wp_CreateAPIKey `{Env} `{UuidText} `{KeyLaws} tenantID req w :
  wp (TenantService_CreateAPIKey tenantID req) (fun res w' => forall issued, res = Ok issued -> exists row old,
    api_clients (w_db w') = old ++ [row] /\ hashAPIKey (ak_APIKey issued) ∉ cr_ApiKeyHash <$> old /\
    key_row tenantID req issued row) w.
Proof.
  unfold TenantService_CreateAPIKey. destruct (validate_Struct req); [by apply wp_throw|].
  apply wp_bind_any; [done|]. intros _ w0. apply wp_bind, wp_or_else, wp_bind, wp_gets, wp_or_else, wp_lift.
  destruct (rand_hex _) as [raw|e] eqn:Hraw; [|done]. apply wp_bind. eapply wp_mono; [apply wp_CreateForTenant|].
  intros [c|e] w3 Hc; [|done]. destruct Hc as (row & Hrows & Hh & Ha & Hn & -> & Ht & Hnm). apply wp_ret.
  intros iss [= <-]. exists row, (api_clients (w_db w0)). simpl in *. split; [done|]. split; [done|]. split_and!; [done| |done|].
  - by eapply rand_hex_nonempty.
  - unfold client_of in *. simpl in *. congruence.
Qed.

(** A request that carries the key of the one active client under its hash. *)
Lemma key_authenticates `{Env} `{UuidText} `{KeySource} r w row :
  rq_Header r "X-API-Key" <> "" ->
  where_ (fun x => bool_decide (cr_ApiKeyHash x = hashKey (rq_Header r "X-API-Key")) && cr_IsActive x) (api_clients (w_db w)) = [row] ->
  let '(out, w2) := authenticate r w in
  exists who, out = Ok who /\
    (who = inr (client_of row) \/ ~ faultless /\ exists resp, who = inl resp /\ rs_Status resp = 500).
Proof.
  intros Hne Hrow. apply wp_pair. eapply wp_mono; [apply wp_authenticate|]. intros out w2 (_ & who & -> & _ & Hfound).
  exists who. split; [done|]. by apply (Hfound Hne row []).
Qed.

(** A freshly issued API key authenticates as its tenant: after [CreateAPIKey]
    returned a key, a request carrying it gets exactly that client, unless a call fails,
    which is answered with 500. *)
Theorem api_key_roundtrip `{Env} `{UuidText} `{KeyLaws} tenantID req w issued w1 r :
  TenantService_CreateAPIKey tenantID req w = (Ok issued, w1) -> rq_Header r "X-API-Key" = ak_APIKey issued ->
  let '(out, w2) := authenticate r w1 in
  exists who, out = Ok who /\
    (who = inr {| ac_ID := ak_ID issued; ac_TenantID := tenantID; ac_Name := xk_Name req; ac_IsActive := true |}
     \/ ~ faultless /\ exists resp, who = inl resp /\ rs_Status resp = 500).
Proof.
  intros Hrun Hkey. destruct (wp_run _ _ _ _ _ (wp_CreateAPIKey tenantID req w) Hrun issued eq_refl)
    as (row & old & Hrows & Hfresh & Hh & Hne & Hact & <-).
  apply key_authenticates; [congruence|]. rewrite Hkey, Hrows, where_app. replace (where_ _ old) with (@nil ApiClientRow).
  - unfold where_. simpl. by rewrite Hact, bool_decide_true by done.
  - symmetry. apply where_nil. intros x Hx. rewrite bool_decide_false; [done|]. intros Heq. apply Hfresh.
    unfold hashKey in Heq. unfold hashAPIKey. rewrite <-Heq. by apply list_elem_of_fmap_2.
Qed.

(** The admin routes are closed by default: the handler runs exactly when an admin
    token is configured and the request carries it; otherwise the answer is 401 or 403
    and nothing happens. *)
Theorem admin_gate token next r w :
  (token <> "" /\ rq_Header r "X-Admin-Token" = token -> AdminAuth token next r w = next r w) /\
  (~ (token <> "" /\ rq_Header r "X-Admin-Token" = token) ->
   exists resp, AdminAuth token next r w = (Ok resp, w) /\ (rs_Status resp = 401 \/ rs_Status resp = 403)).
Proof.
  unfold AdminAuth. split.
  - intros [Hne ->]. rewrite decide_False by done. by rewrite bool_decide_false, bool_decide_true by done.
  - intros Hno. destruct (decide _); [eexists; split; [done|by left]|].
    destruct (bool_decide_reflect (token = "")); simpl; [eexists; split; [done|by right]|].
    rewrite bool_decide_false by tauto. eexists. split; [done|by right].
Qed.

(** A transparent hash and a constant key. *)
Definition demo_keys : KeySource := {| sha256_hex := fun s => "h" +:+ s; rand_hex := fun _ => Ok "k" |}.
Lemma demo_keys_laws : @KeyLaws demo_keys.
Proof. by intros n k [= <-]. Qed.
Definition demo_key_request : Request :=
  MkRequest "GET" "/api/v1/notifications" (fun _ => "k") (fun _ => "") (fun _ => "") BodyEmpty "r" None.

Lemma api_key_roundtrip_witness :
  let '(r, w1) := @TenantService_CreateAPIKey calm demo_keys 1 (MkCreateAPIKeyRequest "ci") demo_tenants in
  is_ok r = true /\ exists who, (@authenticate calm demo_keys demo_key_request w1).1 = Ok who.
Proof.
  assert (is_ok (@TenantService_CreateAPIKey calm demo_keys 1 (MkCreateAPIKeyRequest "ci") demo_tenants).1 = true) as Hok
    by (vm_compute; reflexivity).
  assert (forall iss, (@TenantService_CreateAPIKey calm demo_keys 1 (MkCreateAPIKeyRequest "ci") demo_tenants).1 = Ok iss ->
    ak_APIKey iss = "k") as Hk by (intros iss Hi; vm_compute in Hi; injection Hi as <-; reflexivity).
  destruct (@TenantService_CreateAPIKey _ _ _ _ _) as [[iss|e] w1] eqn:E; [|discriminate Hok].
  split; [reflexivity|]. specialize (Hk iss eq_refl).
  pose proof (@api_key_roundtrip calm bits_uuid demo_keys demo_keys_laws 1 (MkCreateAPIKeyRequest "ci")
    demo_tenants iss w1 demo_key_request E) as Hr.
  destruct (@authenticate _ _ _ _) as [out w2]. destruct Hr as (who & -> & _); [symmetry; exact Hk|].
  exists who. reflexivity.
Defined.
