(* ===== verification/Requests.v ===== *)
(** * Request bodies ([internal/api/response.DecodeJSON], the request structs of
    [internal/domain])

    [DecodeJSON] reads one JSON value of at most 1 MB into a struct and refuses unknown
    members.  Members are taken in the order of the document: a name matches a field up
    to case, [null] leaves a plain field as it is and clears a pointer or a map, an
    object is merged into the map a field already holds.  The library's diagnosis is
    kept only as an error, not with its text. *)

From S2P Require Import Prelude Time Domain Json World Db Repository Webhook Http Access.

(** ** Strict decoding *)

(** The names of a struct match up to Unicode case folding, which for the ASCII names
    of the program adds the Kelvin sign (for k) and the long s to the ASCII letters. *)
Fixpoint foldName (s : string) : string :=
  match s with
  | "" => ""
  | String "197" (String "191" s') => String "s" (foldName s')
  | String "226" (String "132" (String "170" s')) => String "k" (foldName s')
  | String c s' => String (lower_char c) (foldName s')
  end.

Definition members (kvs : list (string * any)) (name : string) : list any :=
  (List.filter (fun kv => String.eqb (foldName kv.1) name) kvs).*2.

(** How one member changes the value a field holds. *)
Definition step (A : Type) : Type := A -> any -> result A.

Definition read {A} (f : step A) (zero : A) (kvs : list (string * any)) (name : string) : result A :=
  foldl (fun acc v => a ← acc; f a v) (Ok zero) (members kvs name).

Definition known_fields (names : list string) (kvs : list (string * any)) : result unit :=
  if forallb (fun kv => existsb (String.eqb (foldName kv.1)) names) kvs then Ok tt
  else Err (EPlain "json: unknown field").

(** A field of a plain kind; a pointer; a map; a slice, which a later member replaces. *)
Definition plain {A} (dec : any -> result A) : step A := fun a v =>
  match v with ANull => Ok a | _ => dec v end.
Definition pointer {A} (dec : any -> result A) : step (option A) := fun _ v =>
  match v with ANull => Ok None | _ => a ← dec v; Ok (Some a) end.
Definition map_field : step gomap := fun m v =>
  match v with
  | ANull => Ok None
  | AObj kvs => Ok (Some (map_of_obj kvs ∪ default ∅ m))
  | _ => cannot_unmarshal
  end.
Fixpoint dec_elements {A} (dec : any -> result A) (l : list any) : result (list A) :=
  match l with
  | [] => Ok []
  | v :: l' => a ← dec v; r ← dec_elements dec l'; Ok (a :: r)
  end.
Definition slice {A} (dec : any -> result A) : step (option (list A)) := fun _ v =>
  match v with
  | ANull => Ok None
  | AArr l => r ← dec_elements dec l; Ok (Some r)
  | _ => cannot_unmarshal
  end.
Definition dec_bool (v : any) : result bool := match v with ABool b => Ok b | _ => cannot_unmarshal end.

(** An element of a slice starts from the zero value, so [null] leaves that. *)
Definition element {A} (zero : A) (dec : any -> result A) (v : any) : result A := plain dec zero v.

(** A struct that [DecodeJSON] reads. *)
Class Decodable (A : Type) := {
  decode_members : list (string * any) -> result A;
  decode_zero : A;
}.

Definition decode_value {A} `{Decodable A} (v : any) : result A :=
  match v with
  | ANull => Ok decode_zero
  | AObj kvs => decode_members kvs
  | _ => cannot_unmarshal
  end.

Definition max_body : Z := 2^20.

Definition DecodeJSON {A} `{Decodable A} (r : Request) : result A :=
  match rq_Body r with
  | BodyEmpty => Err (NewValidationError "request body is required" None)
  | BodyMalformed msg => Err (NewValidationError ("invalid JSON: " +:+ msg) None)
  | BodyJson len v =>
      if max_body <? len then Err (NewValidationError "invalid JSON: http: request body too large" None)
      else match decode_value v with
           | Ok a => Ok a
           | Err err => Err (NewValidationError ("invalid JSON: " +:+ Error err) None)
           end
  end.

(** ** The structs *)

Record PreviewTemplateRequest := MkPreviewTemplateRequest { pt_Payload : gomap }.
(** The anonymous body of [WSTokenHandler.Issue]. *)
Record WSTokenBody := MkWSTokenBody { wt_RecipientID : string }.

Section Structs.
Context `{UuidText}.

Definition str : step string := plain dec_string.
Definition dec_time (v : any) : result gotime := time_UnmarshalJSON zero_time v.

#[global] Instance SendRequest_decode : Decodable SendRequest := {|
  decode_members kvs :=
    _ ← known_fields ["type"; "channel"; "recipient_id"; "recipient_address"; "template_id"; "payload"; "priority";
                      "idempotency_key"; "scheduled_at"] kvs;
    ty ← read str "" kvs "type";
    ch ← read str "" kvs "channel";
    rid ← read str "" kvs "recipient_id";
    raddr ← read str "" kvs "recipient_address";
    tmpl ← read (pointer dec_uuid) None kvs "template_id";
    pl ← read map_field None kvs "payload";
    prio ← read (plain dec_int) 0 kvs "priority";
    key ← read (pointer dec_string) None kvs "idempotency_key";
    sched ← read (pointer dec_time) None kvs "scheduled_at";
    Ok (MkSendRequest ty ch rid raddr tmpl pl prio key sched);
  decode_zero := MkSendRequest "" "" "" "" None None 0 None None |}.

#[global] Instance Recipient_decode : Decodable Recipient := {|
  decode_members kvs :=
    _ ← known_fields ["recipient_id"; "recipient_address"; "payload"] kvs;
    rid ← read str "" kvs "recipient_id";
    raddr ← read str "" kvs "recipient_address";
    pl ← read map_field None kvs "payload";
    Ok (MkRecipient rid raddr pl);
  decode_zero := MkRecipient "" "" None |}.

#[global] Instance BulkSendRequest_decode : Decodable BulkSendRequest := {|
  decode_members kvs :=
    _ ← known_fields ["type"; "channel"; "template_id"; "payload"; "priority"; "recipients"] kvs;
    ty ← read str "" kvs "type";
    ch ← read str "" kvs "channel";
    tmpl ← read (pointer dec_uuid) None kvs "template_id";
    pl ← read map_field None kvs "payload";
    prio ← read (plain dec_int) 0 kvs "priority";
    rs ← read (slice decode_value) None kvs "recipients";
    Ok (MkBulkSendRequest ty ch tmpl pl prio rs);
  decode_zero := MkBulkSendRequest "" "" None None 0 None |}.

#[global] Instance CreateTemplateRequest_decode : Decodable CreateTemplateRequest := {|
  decode_members kvs :=
    _ ← known_fields ["name"; "channel"; "subject_template"; "body_template"; "metadata"] kvs;
    nm ← read str "" kvs "name";
    ch ← read str "" kvs "channel";
    st ← read (pointer dec_string) None kvs "subject_template";
    bt ← read str "" kvs "body_template";
    md ← read map_field None kvs "metadata";
    Ok (MkCreateTemplateRequest nm ch st bt md);
  decode_zero := MkCreateTemplateRequest "" "" None "" None |}.

#[global] Instance UpdateTemplateRequest_decode : Decodable UpdateTemplateRequest := {|
  decode_members kvs :=
    _ ← known_fields ["subject_template"; "body_template"; "metadata"; "is_active"] kvs;
    st ← read (pointer dec_string) None kvs "subject_template";
    bt ← read (pointer dec_string) None kvs "body_template";
    md ← read map_field None kvs "metadata";
    act ← read (pointer dec_bool) None kvs "is_active";
    Ok (MkUpdateTemplateRequest st bt md act);
  decode_zero := MkUpdateTemplateRequest None None None None |}.

#[global] Instance PreviewTemplateRequest_decode : Decodable PreviewTemplateRequest := {|
  decode_members kvs :=
    _ ← known_fields ["payload"] kvs;
    pl ← read map_field None kvs "payload";
    Ok (MkPreviewTemplateRequest pl);
  decode_zero := MkPreviewTemplateRequest None |}.

#[global] Instance UpsertPreferenceRequest_decode : Decodable UpsertPreferenceRequest := {|
  decode_members kvs :=
    _ ← known_fields ["enabled"; "quiet_hours_start"; "quiet_hours_end"; "frequency_cap"; "frequency_window_minutes";
                      "timezone"] kvs;
    en ← read (plain dec_bool) false kvs "enabled";
    qs ← read (pointer dec_string) None kvs "quiet_hours_start";
    qe ← read (pointer dec_string) None kvs "quiet_hours_end";
    cap ← read (pointer dec_int) None kvs "frequency_cap";
    win ← read (pointer dec_int) None kvs "frequency_window_minutes";
    tz ← read (pointer dec_string) None kvs "timezone";
    Ok (MkUpsertPreferenceRequest en qs qe cap win tz);
  decode_zero := MkUpsertPreferenceRequest false None None None None None |}.

#[global] Instance RegisterDeviceTokenRequest_decode : Decodable RegisterDeviceTokenRequest := {|
  decode_members kvs :=
    _ ← known_fields ["user_id"; "token"; "platform"] kvs;
    u ← read str "" kvs "user_id";
    t ← read str "" kvs "token";
    p ← read str "" kvs "platform";
    Ok (MkRegisterDeviceTokenRequest u t p);
  decode_zero := MkRegisterDeviceTokenRequest "" "" "" |}.

#[global] Instance CreateTenantRequest_decode : Decodable CreateTenantRequest := {|
  decode_members kvs :=
    _ ← known_fields ["name"] kvs; nm ← read str "" kvs "name"; Ok (MkCreateTenantRequest nm);
  decode_zero := MkCreateTenantRequest "" |}.

#[global] Instance CreateAPIKeyRequest_decode : Decodable CreateAPIKeyRequest := {|
  decode_members kvs :=
    _ ← known_fields ["name"] kvs; nm ← read str "" kvs "name"; Ok (MkCreateAPIKeyRequest nm);
  decode_zero := MkCreateAPIKeyRequest "" |}.

#[global] Instance WSTokenBody_decode : Decodable WSTokenBody := {|
  decode_members kvs :=
    _ ← known_fields ["recipient_id"] kvs; rid ← read str "" kvs "recipient_id"; Ok (MkWSTokenBody rid);
  decode_zero := MkWSTokenBody "" |}.

(** The [Events] slices: the service refuses a nil and an empty one alike. *)
#[global] Instance CreateWebhookEndpointRequest_decode : Decodable CreateWebhookEndpointRequest := {|
  decode_members kvs :=
    _ ← known_fields ["url"; "secret"; "events"] kvs;
    u ← read str "" kvs "url";
    s ← read str "" kvs "secret";
    es ← read (slice (element "" dec_string)) None kvs "events";
    Ok (MkCreateWebhookEndpointRequest u s (default [] es));
  decode_zero := MkCreateWebhookEndpointRequest "" "" [] |}.

#[global] Instance UpdateWebhookEndpointRequest_decode : Decodable UpdateWebhookEndpointRequest := {|
  decode_members kvs :=
    _ ← known_fields ["url"; "events"; "is_active"] kvs;
    u ← read str "" kvs "url";
    es ← read (slice (element "" dec_string)) None kvs "events";
    act ← read (plain dec_bool) false kvs "is_active";
    Ok (MkUpdateWebhookEndpointRequest u (default [] es) act);
  decode_zero := MkUpdateWebhookEndpointRequest "" [] false |}.
End Structs.

(** ** What a body means *)

(** The members a client writes for a [SendRequest], by its field tags. *)
Definition SendRequest_members `{UuidText} (req : SendRequest) : result (list (string * any)) :=
  sched ← match sr_ScheduledAt req with
          | Some t => v ← time_MarshalJSON t; Ok [("scheduled_at", v)]
          | None => Ok []
          end;
  Ok ([("type", AStr (sr_Type req)); ("channel", AStr (sr_Channel req));
       ("recipient_id", AStr (sr_RecipientID req)); ("recipient_address", AStr (sr_RecipientAddress req))]
      ++ opt_uuid "template_id" (sr_TemplateID req)
      ++ [("payload", json_of_gomap (sr_Payload req)); ("priority", AInt (sr_Priority req))]
      ++ match sr_IdempotencyKey req with Some k => [("idempotency_key", AStr k)] | None => [] end
      ++ sched).

(** Every failure of [DecodeJSON] is a validation error. *)
Lemma DecodeJSON_error {A} `{Decodable A} r e :
  @DecodeJSON A _ r = Err e -> exists msg, e = NewValidationError msg None.
Proof.
  unfold DecodeJSON. destruct (rq_Body r) as [|len v|msg]; [by intros [= <-]; eauto| |by intros [= <-]; eauto].
  destruct (max_body <? len); [by intros [= <-]; eauto|]. destruct (decode_value v); intros [= <-]; eauto.
Qed.

(** *** The order of distinct members is irrelevant *)

Definition distinct_members (kvs : list (string * any)) : Prop := NoDup (foldName <$> kvs.*1).

#[global] Instance distinct_members_dec kvs : Decision (distinct_members kvs).
Proof. unfold distinct_members. apply _. Defined.

Lemma members_cons kv kvs name :
  members (kv :: kvs) name = if String.eqb (foldName kv.1) name then kv.2 :: members kvs name else members kvs name.
Proof. unfold members. simpl. by destruct (String.eqb _ _). Qed.

Lemma members_fresh kvs name : name ∉ (foldName <$> kvs.*1) -> members kvs name = [].
Proof.
  induction kvs as [|kv kvs IH]; [done|]. rewrite members_cons. cbn [fmap list_fmap].
  rewrite not_elem_of_cons. intros [Hne Hin]. rewrite IH by done.
  destruct (String.eqb_spec (foldName kv.1) name); congruence.
Qed.

Lemma members_perm kvs kvs' name : distinct_members kvs -> kvs ≡ₚ kvs' -> members kvs name = members kvs' name.
Proof.
  intros Hd Hp. induction Hp as [|x l l' Hp IH|x y l|l1 l2 l3 H1 IH1 H2 IH2]; [done| | |].
  - apply NoDup_cons in Hd as [_ Hd]. rewrite !members_cons. by rewrite IH.
  - rewrite !members_cons. destruct (String.eqb_spec (foldName x.1) name), (String.eqb_spec (foldName y.1) name);
      try done. exfalso. apply NoDup_cons in Hd as [Hd _]. apply Hd. rewrite e0, <-e. apply list_elem_of_here.
  - rewrite IH1 by done. apply IH2. unfold distinct_members in *. by rewrite <-H1.
Qed.

(** One member, or none. *)
Lemma read_one {A} (f : step A) zero kvs name v : members kvs name = [v] -> read f zero kvs name = f zero v.
Proof. unfold read. by intros ->. Qed.
Lemma read_none {A} (f : step A) zero kvs name : members kvs name = [] -> read f zero kvs name = Ok zero.
Proof. unfold read. by intros ->. Qed.
Lemma known_fields_ok names kvs :
  forallb (fun kv => existsb (String.eqb (foldName kv.1)) names) kvs = true -> known_fields names kvs = Ok tt.
Proof. unfold known_fields. by intros ->. Qed.

Lemma read_perm {A} (f : step A) zero kvs kvs' name :
  distinct_members kvs -> kvs ≡ₚ kvs' -> read f zero kvs name = read f zero kvs' name.
Proof. intros. unfold read. by rewrite (members_perm kvs kvs'). Qed.

Lemma known_fields_perm names kvs kvs' : kvs ≡ₚ kvs' -> known_fields names kvs = known_fields names kvs'.
Proof.
  intros Hp. unfold known_fields. assert (forall f : string * any -> bool, forallb f kvs = forallb f kvs') as ->; [|done].
  intros f. induction Hp as [|x l l' Hp IH|x y l|? ? ? ? IH1 ? IH2]; simpl; [done|by rewrite IH| |by rewrite IH1].
  destruct (f x), (f y); done.
Qed.

(** A struct whose decoding does not depend on the order of distinct members. *)
Class OrderFree (A : Type) `{Decodable A} : Prop :=
  order_free : forall kvs kvs', distinct_members kvs -> kvs ≡ₚ kvs' -> decode_members kvs = decode_members kvs'.

Ltac order_free := intros kvs kvs' Hd Hp; simpl; rewrite (known_fields_perm _ _ _ Hp);
  repeat rewrite (read_perm _ _ kvs kvs' _ Hd Hp); reflexivity.

#[global] Instance SendRequest_order_free `{UuidText} : OrderFree SendRequest.
Proof. order_free. Qed.
#[global] Instance BulkSendRequest_order_free `{UuidText} : OrderFree BulkSendRequest.
Proof. order_free. Qed.
#[global] Instance CreateTemplateRequest_order_free : OrderFree CreateTemplateRequest.
Proof. order_free. Qed.
#[global] Instance UpdateTemplateRequest_order_free : OrderFree UpdateTemplateRequest.
Proof. order_free. Qed.
#[global] Instance UpsertPreferenceRequest_order_free : OrderFree UpsertPreferenceRequest.
Proof. order_free. Qed.

(** *** A printed request reads back *)

(** An omitempty pointer: absent when nil, or one member that reads back. *)
Definition optional {A} (dec : any -> result A) (name : string) (o : option A) (l : list (string * any)) : Prop :=
  l = [] /\ o = None \/ exists a v, o = Some a /\ l = [(name, v)] /\ pointer dec None v = Ok (Some a).

Lemma optional_uuid `{UuidTextLaws} name o : optional dec_uuid name o (opt_uuid name o).
Proof.
  destruct o as [u|]; [right|by left]. exists u, (json_uuid u). split; [done|]. split; [done|]. simpl.
  by rewrite uuid_parse_string.
Qed.

Lemma optional_time t v name : time_MarshalJSON t = Ok v -> optional dec_time name (Some t) [(name, v)].
Proof.
  intros Hv. right. exists t, v. split; [done|]. split; [done|]. pose proof (time_json_roundtrip t v zero_time Hv) as Ht.
  unfold pointer, dec_time. rewrite Ht. destruct v; try done.
  unfold time_MarshalJSON in Hv. destruct ((0 <=? Year_of t) && (Year_of t <=? 9999)); congruence.
Qed.

Lemma SendRequest_members_decode `{UuidTextLaws} req kvs :
  - 2^63 <= sr_Priority req < 2^63 -> SendRequest_members req = Ok kvs ->
  distinct_members kvs /\ decode_members kvs = Ok req.
Proof.
  destruct req as [ty ch rid ra tmpl pl prio key sched]. unfold SendRequest_members. cbn [sr_ScheduledAt sr_Priority].
  intros Hprio Hk.
  assert (exists l, optional dec_time "scheduled_at" sched l /\
    kvs = [("type", AStr ty); ("channel", AStr ch); ("recipient_id", AStr rid); ("recipient_address", AStr ra)]
      ++ opt_uuid "template_id" tmpl ++ [("payload", json_of_gomap pl); ("priority", AInt prio)]
      ++ match key with Some k => [("idempotency_key", AStr k)] | None => [] end ++ l) as (l & Hl & ->).
  { destruct sched as [t|]; [|injection Hk as <-; exists []; split; [by left|done]].
    destruct (time_MarshalJSON t) as [v|] eqn:Ht; [|done]. injection Hk as <-.
    exists [("scheduled_at", v)]. split; [by apply optional_time|done]. }
  clear Hk. assert ((- 2^63 <=? prio) && (prio <? 2^63) = true) as Hp by lia.
  assert (map_field None (json_of_gomap pl) = Ok pl) as Hm
    by (destruct pl as [m|]; simpl; [by rewrite map_of_obj_sorted, map_union_empty|done]).
  pose proof (optional_uuid "template_id" tmpl) as Hu. generalize dependent (opt_uuid "template_id" tmpl).
  generalize dependent (json_of_gomap pl). intros j Hm lu Hu.
  destruct Hl as [[-> ->]|(t & v & -> & -> & Hv)], Hu as [[-> ->]|(u & ju & -> & -> & Hu)], key as [k|].
  all: split; [apply (bool_decide_eq_true_1 (distinct_members _)); vm_compute; reflexivity|].
  all: cbn [decode_members SendRequest_decode]; rewrite known_fields_ok by (vm_compute; reflexivity).
  all: repeat first [erewrite read_one by (vm_compute; reflexivity) | rewrite read_none by (vm_compute; reflexivity)].
  all: rewrite ?Hm, ?Hv, ?Hu; simpl; by rewrite Hp.
Qed.
