(* ===== verification/Handlers.v ===== *)
(** * The HTTP handlers ([internal/api/handler])

    One definition per handler: it reads the client of the context, the path, the query
    and the body, calls the service and writes the answer.  A handler's error outcome is
    a Go panic; the only one the code can raise is the nil dereference of a request that
    has no client in its context. *)

From S2P Require Import Prelude Time Domain Json World Db Repository Schema Queue.
From S2P Require Import Provider RateLimit Preference Template Notification Webhook Http Dlq Access Requests.

(** ** What the answers carry ([json] tags of [internal/domain]) *)

Definition opt_ptr {A} (enc : A -> any) (name : string) (o : option A) : list (string * any) :=
  match o with Some a => [(name, enc a)] | None => [] end.
Definition opt_time (name : string) (o : option gotime) : result (list (string * any)) :=
  match o with Some t => v ← time_MarshalJSON t; Ok [(name, v)] | None => Ok [] end.

Section Views.
Context `{UuidText}.

Definition marshal_Notification (n : Notification) : result any :=
  sched ← opt_time "scheduled_at" (n_ScheduledAt n);
  created ← time_MarshalJSON (n_CreatedAt n);
  updated ← time_MarshalJSON (n_UpdatedAt n);
  Ok (AObj ([("id", json_uuid (n_ID n)); ("tenant_id", json_uuid (n_TenantID n))]
    ++ opt_ptr AStr "idempotency_key" (n_IdempotencyKey n)
    ++ [("type", AStr (n_Type n)); ("channel", AStr (n_Channel n)); ("recipient_id", AStr (n_RecipientID n));
        ("recipient_address", AStr (n_RecipientAddress n))]
    ++ opt_uuid "template_id" (n_TemplateID n)
    ++ [("payload", json_of_gomap (n_Payload n)); ("priority", AInt (n_Priority n)); ("status", AStr (n_Status n))]
    ++ sched ++ [("created_at", created); ("updated_at", updated)])).

Definition marshal_Template (t : Template) : result any :=
  created ← time_MarshalJSON (t_CreatedAt t);
  updated ← time_MarshalJSON (t_UpdatedAt t);
  Ok (AObj ([("id", json_uuid (t_ID t)); ("name", AStr (t_Name t)); ("channel", AStr (t_Channel t))]
    ++ opt_ptr AStr "subject_template" (t_SubjectTemplate t)
    ++ [("body_template", AStr (t_BodyTemplate t)); ("metadata", json_of_gomap (t_Metadata t));
        ("version", AInt (t_Version t)); ("is_active", ABool (t_IsActive t));
        ("created_at", created); ("updated_at", updated)])).

Definition marshal_Preview (p : PreviewTemplateResponse) : result any :=
  Ok (AObj (opt_str "subject" (pt_Subject p) ++ [("body", AStr (pt_Body p))])).

Definition marshal_Preference (p : Preference) : result any :=
  created ← time_MarshalJSON (p_CreatedAt p);
  updated ← time_MarshalJSON (p_UpdatedAt p);
  Ok (AObj ([("id", json_uuid (p_ID p)); ("user_id", AStr (p_UserID p)); ("channel", AStr (p_Channel p));
             ("enabled", ABool (p_Enabled p))]
    ++ opt_ptr AStr "quiet_hours_start" (p_QuietHoursStart p) ++ opt_ptr AStr "quiet_hours_end" (p_QuietHoursEnd p)
    ++ opt_ptr AInt "frequency_cap" (p_FrequencyCap p)
    ++ [("frequency_window_minutes", AInt (p_FrequencyWindowMinutes p)); ("timezone", AStr (p_Timezone p));
        ("created_at", created); ("updated_at", updated)])).

Definition marshal_DeviceToken (d : DeviceToken) : result any :=
  created ← time_MarshalJSON (dt_CreatedAt d);
  updated ← time_MarshalJSON (dt_UpdatedAt d);
  Ok (AObj [("id", json_uuid (dt_ID d)); ("tenant_id", json_uuid (dt_TenantID d)); ("user_id", AStr (dt_UserID d));
            ("token", AStr (dt_Token d)); ("platform", AStr (dt_Platform d)); ("is_active", ABool (dt_IsActive d));
            ("created_at", created); ("updated_at", updated)]).

Definition marshal_Tenant (t : Tenant) : result any :=
  created ← time_MarshalJSON (tn_CreatedAt t);
  updated ← time_MarshalJSON (tn_UpdatedAt t);
  Ok (AObj [("id", json_uuid (tn_ID t)); ("name", AStr (tn_Name t)); ("is_active", ABool (tn_IsActive t));
            ("created_at", created); ("updated_at", updated)]).

Definition marshal_APIKey (k : CreateAPIKeyResponse) : result any :=
  Ok (AObj [("id", json_uuid (ak_ID k)); ("tenant_id", json_uuid (ak_TenantID k)); ("name", AStr (ak_Name k));
            ("api_key", AStr (ak_APIKey k))]).

(** The secret is tagged out of the document. *)
Definition marshal_WebhookEndpoint (e : WebhookEndpoint) : result any :=
  created ← time_MarshalJSON (we_CreatedAt e);
  updated ← time_MarshalJSON (we_UpdatedAt e);
  Ok (AObj [("id", json_uuid (we_ID e)); ("tenant_id", json_uuid (we_TenantID e)); ("url", AStr (we_URL e));
            ("events", json_strings (we_Events e)); ("is_active", ABool (we_IsActive e));
            ("created_at", created); ("updated_at", updated)]).

Definition marshal_list {A} (enc : A -> result any) (l : list A) : result any :=
  vs ← json_array (enc <$> l); Ok (AArr vs).

Definition marshal_bulk (out : list Notification * list error) : result any :=
  accepted ← marshal_list marshal_Notification out.1;
  Ok (AObj ([("accepted", accepted)]
    ++ match out.2 with [] => [] | errs => [("errors", AArr ((fun e => AStr (Error e)) <$> errs))] end)).
End Views.

(** ** Reading a request *)

Definition nil_dereference : error := EPlain "runtime error: invalid memory address or nil pointer dereference".

(** [middleware.ClientFromContext(r.Context()).TenantID] *)
Definition with_tenant (r : Request) (k : uuid -> M Response) : M Response :=
  match ClientFromContext r with
  | Some client => k (ac_TenantID client)
  | None => throw nil_dereference
  end.

Definition with_body {A} `{Decodable A} (r : Request) (k : A -> M Response) : M Response :=
  match DecodeJSON r with
  | Err appErr => mret (JSONError appErr (rq_ID r))
  | Ok req => k req
  end.

Definition with_id_param `{UuidText} (r : Request) (msg : string) (k : uuid -> M Response) : M Response :=
  match uuid_Parse (rq_Param r "id") with
  | None => mret (JSONError (NewValidationError msg None) (rq_ID r))
  | Some id => k id
  end.

(** [n, _ := strconv.Atoi(v)] *)
Definition Atoi_value (s : string) : Z := (Atoi_result s).1.
Definition page_of (r : Request) : Z := let n := Atoi_value (rq_Query r "page") in if n <? 1 then 1 else n.
Definition per_page_of (r : Request) : Z := let n := Atoi_value (rq_Query r "per_page") in if n <? 1 then 20 else n.

Section Handlers.
Context `{Env} `{UuidText} `{Propagator} `{TextTemplate} `{UrlCheck} `{KeySource}.
Variable maxRetries : Z.

(** ** notification.go *)

Definition NotificationHandler_Send (r : Request) : M Response :=
  with_tenant r (fun tenantID => with_body r (fun req =>
    respond (Send maxRetries tenantID req) (rq_ID r) (fun n =>
      JSON StatusAccepted (marshal_Notification n) (rq_ID r)))).

Definition NotificationHandler_SendBulk (r : Request) : M Response :=
  with_tenant r (fun tenantID => with_body r (fun req =>
    out ← SendBulk maxRetries tenantID req;
    mret (match out.1, out.2 with
          | [], err :: _ => JSONError (toAppError err) (rq_ID r)
          | _, _ => JSON StatusAccepted (marshal_bulk out) (rq_ID r)
          end))).

Definition NotificationHandler_GetByID (r : Request) : M Response :=
  with_tenant r (fun tenantID => with_id_param r "invalid notification id" (fun id =>
    respond (NotificationService_GetByID tenantID id) (rq_ID r) (fun n =>
      JSON StatusOK (marshal_Notification n) (rq_ID r)))).

Definition NotificationHandler_List (r : Request) : M Response :=
  with_tenant r (fun tenantID =>
    let filter := {| lf_RecipientID := rq_Query r "recipient_id"; lf_Channel := rq_Query r "channel";
                     lf_Status := rq_Query r "status"; lf_Page := page_of r; lf_PerPage := per_page_of r |} in
    respond (NotificationService_List tenantID filter) (rq_ID r) (fun out =>
      JSONList StatusOK (marshal_list marshal_Notification out.1) (page_of r) (per_page_of r) out.2 (rq_ID r))).

Definition NotificationHandler_Cancel (r : Request) : M Response :=
  with_tenant r (fun tenantID => with_id_param r "invalid notification id" (fun id =>
    respond (NotificationService_Cancel tenantID id) (rq_ID r) (fun n =>
      JSON StatusOK (marshal_Notification n) (rq_ID r)))).

(** ** template.go *)

Definition TemplateHandler_Create (r : Request) : M Response :=
  with_tenant r (fun tenantID => with_body r (fun req =>
    respond (TemplateService_Create tenantID req) (rq_ID r) (fun t =>
      JSON StatusCreated (marshal_Template t) (rq_ID r)))).

Definition TemplateHandler_List (r : Request) : M Response :=
  with_tenant r (fun tenantID =>
    respond (TemplateService_List tenantID (rq_Query r "channel") (page_of r) (per_page_of r)) (rq_ID r) (fun out =>
      JSONList StatusOK (marshal_list marshal_Template out.1) (page_of r) (per_page_of r) out.2 (rq_ID r))).

Definition TemplateHandler_GetByID (r : Request) : M Response :=
  with_tenant r (fun tenantID => with_id_param r "invalid template id" (fun id =>
    respond (TemplateService_GetByID tenantID id) (rq_ID r) (fun t =>
      JSON StatusOK (marshal_Template t) (rq_ID r)))).

Definition TemplateHandler_Update (r : Request) : M Response :=
  with_tenant r (fun tenantID => with_id_param r "invalid template id" (fun id => with_body r (fun req =>
    respond (TemplateService_Update tenantID id req) (rq_ID r) (fun t =>
      JSON StatusOK (marshal_Template t) (rq_ID r))))).

Definition TemplateHandler_Delete (r : Request) : M Response :=
  with_tenant r (fun tenantID => with_id_param r "invalid template id" (fun id =>
    respond (TemplateService_Delete tenantID id) (rq_ID r) (fun t =>
      JSON StatusOK (marshal_Template t) (rq_ID r)))).

Definition TemplateHandler_Preview (r : Request) : M Response :=
  with_tenant r (fun tenantID => with_id_param r "invalid template id" (fun id => with_body r (fun req =>
    respond (Preview tenantID id (pt_Payload req)) (rq_ID r) (fun p =>
      JSON StatusOK (marshal_Preview p) (rq_ID r))))).

(** ** preference.go *)

Definition with_channel (r : Request) (k : Channel -> M Response) : M Response :=
  let channel := rq_Param r "channel" in
  if IsValid channel then k channel
  else mret (JSONError (NewValidationError "invalid channel"
               (Some {["channel" := AStr "must be one of: email, push, sms, inapp"]})) (rq_ID r)).

Definition PreferenceHandler_ListByUser (r : Request) : M Response :=
  with_tenant r (fun tenantID =>
    respond (PreferenceService_ListByUser tenantID (rq_Param r "user_id")) (rq_ID r) (fun prefs =>
      JSON StatusOK (marshal_list marshal_Preference prefs) (rq_ID r))).

Definition PreferenceHandler_Upsert (r : Request) : M Response :=
  with_tenant r (fun tenantID => with_channel r (fun channel => with_body r (fun req =>
    respond (PreferenceService_Upsert tenantID (rq_Param r "user_id") channel req) (rq_ID r) (fun pref =>
      JSON StatusOK (marshal_Preference pref) (rq_ID r))))).

Definition PreferenceHandler_Delete (r : Request) : M Response :=
  with_tenant r (fun tenantID => with_channel r (fun channel =>
    respond (PreferenceService_Delete tenantID (rq_Param r "user_id") channel) (rq_ID r) (fun _ => NoContent))).

(** ** device_token.go *)

Definition DeviceTokenHandler_Register (r : Request) : M Response :=
  with_tenant r (fun tenantID => with_body r (fun req =>
    respond (DeviceTokenService_Register tenantID req) (rq_ID r) (fun dt =>
      JSON StatusCreated (marshal_DeviceToken dt) (rq_ID r)))).

Definition DeviceTokenHandler_Deregister (r : Request) : M Response :=
  with_tenant r (fun tenantID =>
    respond (DeviceTokenService_Deregister tenantID (rq_Param r "token")) (rq_ID r) (fun _ => NoContent)).

(** ** tenant.go (behind [AdminAuth]: no client) *)

Definition TenantHandler_CreateTenant (r : Request) : M Response :=
  with_body r (fun req =>
    respond (TenantService_CreateTenant req) (rq_ID r) (fun t => JSON StatusCreated (marshal_Tenant t) (rq_ID r))).

Definition TenantHandler_CreateAPIKey (r : Request) : M Response :=
  with_id_param r "invalid tenant id" (fun tenantID => with_body r (fun req =>
    respond (TenantService_CreateAPIKey tenantID req) (rq_ID r) (fun k =>
      JSON StatusCreated (marshal_APIKey k) (rq_ID r)))).

(** ** webhook_admin.go *)

Definition WebhookHandler_Create (r : Request) : M Response :=
  with_tenant r (fun tenantID => with_body r (fun req =>
    respond (WebhookService_Create tenantID req) (rq_ID r) (fun ep =>
      JSON StatusCreated (marshal_WebhookEndpoint ep) (rq_ID r)))).

Definition WebhookHandler_List (r : Request) : M Response :=
  with_tenant r (fun tenantID =>
    respond (WebhookService_List tenantID) (rq_ID r) (fun eps =>
      JSON StatusOK (marshal_list marshal_WebhookEndpoint eps) (rq_ID r))).

Definition WebhookHandler_GetByID (r : Request) : M Response :=
  with_tenant r (fun tenantID => with_id_param r "invalid id" (fun id =>
    respond (WebhookService_GetByID tenantID id) (rq_ID r) (fun ep =>
      JSON StatusOK (marshal_WebhookEndpoint ep) (rq_ID r)))).

Definition WebhookHandler_Update (r : Request) : M Response :=
  with_tenant r (fun tenantID => with_id_param r "invalid id" (fun id => with_body r (fun req =>
    respond (WebhookService_Update tenantID id req) (rq_ID r) (fun ep =>
      JSON StatusOK (marshal_WebhookEndpoint ep) (rq_ID r))))).

Definition WebhookHandler_Delete (r : Request) : M Response :=
  with_tenant r (fun tenantID => with_id_param r "invalid id" (fun id =>
    respond (WebhookService_Delete tenantID id) (rq_ID r) (fun _ => NoContent))).

(** ** inbox.go: the REST endpoints *)

Definition recipientIDFromHeader (r : Request) : result string :=
  let id := rq_Header r "X-Recipient-ID" in
  if decide (id = "") then Err (NewValidationError "X-Recipient-ID header required" None) else Ok id.

Definition with_recipient (r : Request) (k : string -> M Response) : M Response :=
  match recipientIDFromHeader r with
  | Err appErr => mret (JSONError appErr (rq_ID r))
  | Ok recipientID => k recipientID
  end.

(** The query the parameters of a request describe: a cursor overrules the offset. *)
Definition inbox_query (r : Request) (tenantID : uuid) (recipientID : string) : InboxQuery :=
  let after := if decide (rq_Query r "after_id" = "") then None else uuid_Parse (rq_Query r "after_id") in
  {| iq_TenantID := tenantID; iq_RecipientID := recipientID;
     iq_UnreadOnly := bool_decide (rq_Query r "unread" = "true");
     iq_Limit := query_int r "limit" (fun n => (0 <? n) && (n <=? 200)) 50;
     iq_Offset := match after with Some _ => 0 | None => query_int r "offset" (fun n => 0 <=? n) 0 end;
     iq_AfterID := after |}.

Definition InboxHandler_List (r : Request) : M Response :=
  with_tenant r (fun tenantID => with_recipient r (fun recipientID =>
    respond (InAppRepo_List (inbox_query r tenantID recipientID)) (rq_ID r) (fun msgs =>
      JSON StatusOK (marshal_list marshal_InAppMessage msgs) (rq_ID r)))).

Definition InboxHandler_UnreadCount (r : Request) : M Response :=
  with_tenant r (fun tenantID => with_recipient r (fun recipientID =>
    respond (InAppRepo_CountUnread tenantID recipientID) (rq_ID r) (fun count =>
      JSON StatusOK (Ok (AObj [("unread", AInt count)])) (rq_ID r)))).

Definition InboxHandler_MarkRead (r : Request) : M Response :=
  with_tenant r (fun tenantID => with_recipient r (fun recipientID => with_id_param r "invalid id" (fun id =>
    respond (InAppRepo_MarkRead tenantID id recipientID) (rq_ID r) (fun _ => NoContent)))).

Definition InboxHandler_MarkAllRead (r : Request) : M Response :=
  with_tenant r (fun tenantID => with_recipient r (fun recipientID =>
    respond (InAppRepo_MarkAllRead tenantID recipientID) (rq_ID r) (fun _ => NoContent))).
End Handlers.
