(* ===== verification/SendApi.v ===== *)
(** * A send request from its bytes to the queue

    [POST /api/v1/notifications/] as a whole: the body a client writes, the handler
    ([internal/api/handler/notification.go]), the service, the row, the Kafka record and
    the answer. *)

From S2P Require Import Prelude Time Domain Json World Db Repository Schema Queue Notification.
From S2P Require Import Http Access Requests Handlers.

Section SendApi.
Context `{UuidTextLaws}.

(** A body with the request's members, in any order, reads as the request. *)
Lemma DecodeJSON_members req kvs kvs' len r :
  fits_int (sr_Priority req) -> SendRequest_members req = Ok kvs -> kvs ≡ₚ kvs' ->
  rq_Body r = BodyJson len (AObj kvs') -> len <= max_body -> DecodeJSON r = Ok req.
Proof.
  intros Hprio Hk Hp Hb Hlen. destruct (SendRequest_members_decode req kvs Hprio Hk) as [Hd Hdec].
  unfold DecodeJSON. rewrite Hb. destruct (Z.ltb_spec max_body len); [lia|]. cbn [decode_value].
  rewrite <-(order_free kvs kvs' Hd Hp), Hdec. done.
Qed.

(** A member the request does not have is refused. *)
Lemma DecodeJSON_unknown kvs len r name v :
  rq_Body r = BodyJson len (AObj kvs) -> (name, v) ∈ kvs ->
  foldName name ∉ ["type"; "channel"; "recipient_id"; "recipient_address"; "template_id"; "payload"; "priority";
                   "idempotency_key"; "scheduled_at"] ->
  exists msg, DecodeJSON (A := SendRequest) r = Err (NewValidationError msg None).
Proof.
  intros Hb Hin Hno. unfold DecodeJSON. rewrite Hb. destruct (max_body <? len); [by eexists|]. simpl.
  unfold known_fields. destruct (forallb _ kvs) eqn:E; [|by eexists]. exfalso.
  rewrite forallb_forall in E. specialize (E (name, v) (proj1 (list_elem_of_In _ _) Hin)).
  apply existsb_exists in E as (x & Hx%list_elem_of_In & He%String.eqb_eq). simpl in He. subst x. done.
Qed.
End SendApi.

(** C19. A client that posts a send request, its members in any order, gets 202 with the
    notification exactly when the service accepted it: an earlier notification of its
    tenant under the same idempotency key, with nothing written, or a new row for exactly
    the request it wrote, pending when it is scheduled and otherwise queued with one Kafka
    record.  Otherwise the answer is an error status and no row is left queued without a
    record, and a valid request is only refused when some call failed.  A body with an
    unknown member is refused with 422 before anything is done. *)
Theorem send_request_end_to_end `{Env} `{UuidTextLaws} `{Propagator} maxRetries client req kvs kvs' len r w :
  fits_int maxRetries -> rq_Client r = Some client -> rq_Body r = BodyJson len (AObj kvs') -> len <= max_body ->
  let '(out, w') := NotificationHandler_Send maxRetries r w in
  let tenantID := ac_TenantID client in
  exists resp, out = Ok resp /\
  (fits_int (sr_Priority req) -> SendRequest_members req = Ok kvs -> kvs ≡ₚ kvs' ->
    (exists n, resp = JSON StatusAccepted (marshal_Notification n) (rq_ID r) /\
      ((exists key row, sr_IdempotencyKey req = Some key /\ key <> "" /\ row ∈ notifications (w_db w)
         /\ by_idem_tenant key tenantID row = true /\ n = dbNotificationToDomain row /\ view w' = view w)
       \/ sent_new maxRetries tenantID req (w_now w) (notifications (w_db w)) (w_kafka w) n w'))
    \/ 400 <= rs_Status resp <= 500 /\ send_failed tenantID req (notifications (w_db w)) (w_kafka w) w' /\
       ~ (validate_Struct req = None /\ faultless /\ insertable tenantID req (w_db w)
          /\ forall t, w_now w <= t <= w_now w' -> printable t)) /\
  (forall name v, (name, v) ∈ kvs' ->
     foldName name ∉ ["type"; "channel"; "recipient_id"; "recipient_address"; "template_id"; "payload"; "priority";
                      "idempotency_key"; "scheduled_at"] -> rs_Status resp = 422 /\ w' = w).
Proof.
  intros Hfit Hc Hb Hlen. unfold NotificationHandler_Send, with_tenant, ClientFromContext. rewrite Hc. unfold with_body.
  destruct (DecodeJSON r) as [got|e] eqn:Hdec.
  - unfold respond, mbind, ST_bind, try.
    pose proof (Send_outcome maxRetries (ac_TenantID client) got w Hfit) as Hs.
    destruct (Send maxRetries (ac_TenantID client) got w) as [out w'] eqn:E. cbn.
    eexists. split; [reflexivity|]. split.
    + intros Hprio Hk Hp. rewrite (DecodeJSON_members req kvs kvs' len r Hprio Hk Hp Hb Hlen) in Hdec. injection Hdec as <-.
      destruct out as [n|e]; [left; by exists n|right]. split; [apply JSONError_status|exact Hs].
    + intros name v Hin Hno. destruct (DecodeJSON_unknown kvs' len r name v Hb Hin Hno) as [msg Hm]. congruence.
  - cbn. eexists. split; [reflexivity|]. split.
    + intros Hprio Hk Hp. rewrite (DecodeJSON_members req kvs kvs' len r Hprio Hk Hp Hb Hlen) in Hdec. done.
    + intros name v Hin Hno. apply DecodeJSON_error in Hdec as [msg ->]. done.
Qed.

(** Tenant 1 sends, its members reversed. *)
Definition demo_client_1 : APIClient :=
  {| ac_ID := 3; ac_TenantID := 1; ac_Name := "ci"; ac_IsActive := true |}.
Definition demo_kvs : list (string * any) :=
  match @SendRequest_members bits_uuid (demo_request None) with Ok kvs => kvs | Err _ => [] end.
Definition demo_post : Request :=
  {| rq_Method := "POST"; rq_Path := "/api/v1/notifications/"; rq_Header := fun _ => ""; rq_Query := fun _ => "";
     rq_Param := fun _ => ""; rq_Body := BodyJson 200 (AObj (reverse demo_kvs)); rq_ID := "r1";
     rq_Client := Some demo_client_1 |}.
Definition demo_posted : result Response * world := @NotificationHandler_Send calm bits_uuid demo_trace 3 demo_post demo_tenants.

Lemma send_request_end_to_end_witness :
  exists resp n, demo_posted.1 = Ok resp /\ rs_Status resp = 202 /\
  @sent_new bits_uuid 3 1 (demo_request None) (w_now demo_tenants) (notifications (w_db demo_tenants)) (w_kafka demo_tenants) n demo_posted.2.
Proof.
  assert (match demo_posted.1 with Ok resp => rs_Status resp | Err _ => 0 end = 202) as Hst by (vm_compute; reflexivity).
  pose proof (@send_request_end_to_end calm bits_uuid bits_uuid_laws demo_trace 3 demo_client_1 (demo_request None)
    demo_kvs (reverse demo_kvs) 200 demo_post demo_tenants) as Hs.
  unfold demo_posted in Hst |- *. destruct (@NotificationHandler_Send _ _ _ _ _ _) as [out w'].
  destruct Hs as (resp & -> & Hok & _); [unfold fits_int; lia|reflexivity|reflexivity|vm_compute; discriminate|].
  destruct Hok as [(n & -> & [(key & row & Hk & _)|Hn])|[Hbad _]].
  - unfold fits_int. simpl. lia.
  - vm_compute. reflexivity.
  - symmetry. apply reverse_Permutation.
  - discriminate Hk.
  - eexists _, n. split; [reflexivity|]. split; [exact Hst|exact Hn].
  - simpl in Hst. lia.
Defined.
