(* ===== verification/WsToken.v ===== *)
(** * WebSocket tokens ([internal/auth/jwt.go], [internal/api/handler/ws_token.go])

    Short-lived signed tokens that carry a tenant and a recipient.  Signing, parsing and
    claim validation are github.com/golang-jwt/jwt. *)

From S2P Require Import Prelude Time Domain Json World Http Access Requests Handlers.

(** [WSClaims] with the registered claims the program sets; a [NumericDate] is a number
    of seconds. *)
Record WSClaims := MkWSClaims {
  wc_TenantID : uuid;
  wc_RecipientID : string;
  wc_IssuedAt : option Z;
  wc_ExpiresAt : option Z;
}.

(** What [jwt.ParseUnverified] finds: the algorithm of the header, whether it is an
    HMAC, and the claims. *)
Record JwtToken := MkJwtToken { tk_Alg : string; tk_HMAC : bool; tk_Claims : WSClaims }.

Class Jwt := {
  jwt_SignedString : string -> WSClaims -> result string;     (* HS256 with a secret *)
  jwt_ParseUnverified : string -> result JwtToken;
  jwt_VerifySignature : string -> string -> bool;             (* of a token, with a secret *)
  jwt_Validate : gotime -> WSClaims -> option error;          (* the default validator *)
}.

(** What the library documents: a signed token parses to its claims and verifies under
    its secret, and the default validator refuses exactly an expired token (it does not
    look at [iat]). *)
Class JwtLaws `{Jwt} : Prop := {
  jwt_sign_parse : forall secret c s, jwt_SignedString secret c = Ok s ->
    jwt_ParseUnverified s = Ok (MkJwtToken "HS256" true c);
  jwt_sign_verify : forall secret c s, jwt_SignedString secret c = Ok s -> jwt_VerifySignature s secret = true;
  jwt_validate_exp : forall t c e, wc_ExpiresAt c = Some e -> (jwt_Validate t c = None <-> t < e * ns_per_s);
}.

(** [jwt.NewNumericDate] cuts to seconds. *)
Definition NewNumericDate (t : gotime) : Z := t / ns_per_s.

Record WSTokenService := MkWSTokenService { ts_secret : string; ts_ttl : Z }.
Definition NewWSTokenService (secret : string) (ttlSeconds : Z) : WSTokenService :=
  MkWSTokenService secret (int64 (ttlSeconds * Second)).

Section WsToken.
Context `{Jwt}.
Variable s : WSTokenService.

Definition ws_claims (tenantID : uuid) (recipientID : string) (t : gotime) : WSClaims :=
  {| wc_TenantID := tenantID; wc_RecipientID := recipientID;
     wc_IssuedAt := Some (NewNumericDate t); wc_ExpiresAt := Some (NewNumericDate (t + ts_ttl s)) |}.

Definition WSToken_Issue (tenantID : uuid) (recipientID : string) : M string :=
  t ← now;
  or_else (lift (jwt_SignedString (ts_secret s) (ws_claims tenantID recipientID t))) (EWrap "ws jwt: sign").

(** [jwt.ParseWithClaims] with the key function of [Verify]. *)
Definition ParseWithClaims (tokenStr : string) (t : gotime) : result WSClaims :=
  token ← jwt_ParseUnverified tokenStr;
  if negb (tk_HMAC token) then Err (EPlain ("ws jwt: unexpected signing method: " +:+ tk_Alg token))
  else if negb (jwt_VerifySignature tokenStr (ts_secret s)) then Err (EPlain "token signature is invalid")
  else match jwt_Validate t (tk_Claims token) with
       | Some err => Err err
       | None => Ok (tk_Claims token)
       end.

Definition WSToken_Verify (tokenStr : string) : M WSClaims :=
  t ← now;
  claims ← or_else (lift (ParseWithClaims tokenStr t)) (EWrap "ws jwt");
  if decide (wc_RecipientID claims = "") then throw (EPlain "ws jwt: missing recipient_id") else mret claims.

(** ** handler/ws_token.go *)

Definition WSTokenHandler_Issue (r : Request) : M Response :=
  with_tenant r (fun tenantID => with_body r (fun body =>
    if decide (wt_RecipientID body = "") then
      mret (JSONError (NewValidationError "recipient_id required" None) (rq_ID r))
    else
      token ← try (WSToken_Issue tenantID (wt_RecipientID body));
      mret (match token with
            | Err err => JSONError (NewInternalError "failed to issue token" err) (rq_ID r)
            | Ok token => JSON StatusOK (Ok (AObj [("expires_in", AInt 60); ("token", AStr token)])) (rq_ID r)
            end))).
End WsToken.

(** ** Round trip and lifetime *)

Section Lifetime.
Context `{JwtLaws}.
Variable svc : WSTokenService.

(** A token is accepted, with its claims, exactly before the second its lifetime ends
    in, and refused from then on. *)
Lemma verify_issued tenant recipient t tok w :
  recipient <> "" -> jwt_SignedString (ts_secret svc) (ws_claims svc tenant recipient t) = Ok tok ->
  wp (WSToken_Verify svc tok) (fun r w' => w' = w /\
    if decide (w_now w < (t + ts_ttl svc) / ns_per_s * ns_per_s)
    then r = Ok (ws_claims svc tenant recipient t) else exists e, r = Err e) w.
Proof.
  intros Hr Hs. apply wp_bind, wp_gets, wp_bind, wp_or_else, wp_lift. unfold ParseWithClaims.
  rewrite (jwt_sign_parse _ _ _ Hs). simpl. rewrite (jwt_sign_verify _ _ _ Hs). simpl.
  pose proof (jwt_validate_exp (w_now w) (ws_claims svc tenant recipient t) _ eq_refl) as Hv.
  unfold NewNumericDate in Hv. destruct (jwt_Validate _ _) as [e|].
  - rewrite decide_False; [split; eauto|]. intros Hlt. by apply Hv in Hlt.
  - rewrite decide_False by done. apply wp_ret. rewrite decide_True by by apply Hv. done.
Qed.

Lemma floor_second t : t - ns_per_s < t / ns_per_s * ns_per_s <= t.
Proof. pose proof (Z.mul_div_le t ns_per_s eq_refl). pose proof (Z.mod_pos_bound t ns_per_s eq_refl).
  pose proof (Z.div_mod t ns_per_s). unfold ns_per_s in *. lia. Qed.
End Lifetime.

(** C36. A token issued for a recipient verifies to exactly that tenant and recipient as
    long as less than the time to live minus one second has passed, and is refused once
    the time to live has passed. *)
Theorem ws_token_roundtrip `{JwtLaws} svc tenant recipient w tok w1 w2 :
  recipient <> "" -> WSToken_Issue svc tenant recipient w = (Ok tok, w1) ->
  let age := w_now w2 - w_now w in
  let '(r, w3) := WSToken_Verify svc tok w2 in
  w3 = w2 /\
  (age <= ts_ttl svc - ns_per_s ->
     exists c, r = Ok c /\ wc_TenantID c = tenant /\ wc_RecipientID c = recipient) /\
  (ts_ttl svc <= age -> exists e, r = Err e).
Proof.
  intros Hr Hi age. unfold WSToken_Issue, mbind, ST_bind, now, gets, or_else, lift in Hi.
  destruct (jwt_SignedString _ _) as [t'|] eqn:Hs; [|done]. injection Hi as -> <-.
  apply wp_pair. eapply wp_mono; [by apply (verify_issued svc tenant recipient (w_now w))|].
  intros r w3 [-> Hv]. split; [done|]. pose proof (floor_second (w_now w + ts_ttl svc)). split; intros Ha.
  - rewrite decide_True in Hv by lia. subst r. eexists. by split_and!.
  - by rewrite decide_False in Hv by lia.
Qed.

(** Tokens that carry their secret and claims in the clear, for evaluation. *)
#[global] Instance WSClaims_eq : EqDecision WSClaims.
Proof. solve_decision. Defined.
#[global] Instance WSClaims_countable : Countable WSClaims.
Proof.
  refine (inj_countable' (fun c => (wc_TenantID c, wc_RecipientID c, wc_IssuedAt c, wc_ExpiresAt c))
            (fun '(t, r, i, e) => MkWSClaims t r i e) _); by intros [].
Defined.

Definition clear_token (s : string) : option (string * WSClaims) := p ← parse_bits s; decode p.
Definition clear_jwt : Jwt := {|
  jwt_SignedString secret c := Ok (bits_text (encode (secret, c)));
  jwt_ParseUnverified s := match clear_token s with
                           | Some (_, c) => Ok (MkJwtToken "HS256" true c)
                           | None => Err (EPlain "token is malformed")
                           end;
  jwt_VerifySignature s secret := match clear_token s with
                                  | Some (k, _) => bool_decide (k = secret)
                                  | None => false
                                  end;
  jwt_Validate t c := match wc_ExpiresAt c with
                      | Some e => if decide (t < e * ns_per_s) then None else Some (EPlain "token is expired")
                      | None => None
                      end |}.

Lemma clear_jwt_laws : @JwtLaws clear_jwt.
Proof.
  split; simpl.
  - intros secret c s [= <-]. unfold clear_token. rewrite parse_bits_text. simpl. by rewrite decode_encode.
  - intros secret c s [= <-]. unfold clear_token. rewrite parse_bits_text. simpl. rewrite decode_encode.
    by apply bool_decide_eq_true.
  - intros t c e ->. by destruct (decide _).
Qed.

Definition demo_tokens : WSTokenService := NewWSTokenService "s3cret" 60.

Lemma ws_token_roundtrip_witness :
  let '(r, w1) := @WSToken_Issue clear_jwt demo_tokens 1 "alice" empty_world in
  exists tok, r = Ok tok /\
    (exists c, (@WSToken_Verify clear_jwt demo_tokens tok (advance (30 * Second) w1)).1 = Ok c /\ wc_RecipientID c = "alice")
    /\ exists e, (@WSToken_Verify clear_jwt demo_tokens tok (advance (60 * Second) w1)).1 = Err e.
Proof.
  eexists. split; [reflexivity|].
  pose proof (@ws_token_roundtrip clear_jwt clear_jwt_laws demo_tokens 1 "alice" empty_world _ empty_world
    (advance (30 * Second) empty_world) ltac:(discriminate) eq_refl) as H30.
  pose proof (@ws_token_roundtrip clear_jwt clear_jwt_laws demo_tokens 1 "alice" empty_world _ empty_world
    (advance (60 * Second) empty_world) ltac:(discriminate) eq_refl) as H60.
  cbv zeta in H30, H60. destruct (WSToken_Verify _ _ (advance (30 * Second) _)) as [r30 w30].
  destruct (WSToken_Verify _ _ (advance (60 * Second) _)) as [r60 w60]. split.
  - destruct H30 as (_ & Hok & _). destruct Hok as (c & -> & _ & Hc); [vm_compute; discriminate|]. exists c. by split.
  - destruct H60 as (_ & _ & Hno). apply Hno. vm_compute. discriminate.
Defined.
