(* ===== verification/Stream.v ===== *)
(** * The WebSocket stream ([internal/api/handler/inbox.go], [Stream])

    A connection is a state machine that shares the hub, the database and the Redis
    publications with everything else that runs: it subscribes, reads the gap since the
    client's last message, writes it as history frames, and then forwards what its
    channel receives.  Redis may lose any publication (its pub/sub delivers at most
    once, and not while the hub reconnects).  The hub's calls are atomic here; their own
    interleavings are in [Realtime]. *)

From S2P Require Import Prelude Time Domain Json World Db Repository Schema Inbox Realtime Provider Http WsToken.

(** ** Opening a connection *)

Record InboxTimers := MkInboxTimers { it_heartbeat : Z; it_readTimeout : Z }.

(** [NewInboxHandler]: products of durations wrap, what is not positive is replaced. *)
Definition NewInboxHandler (HeartbeatSeconds ReadTimeoutSeconds : Z) : InboxTimers :=
  let hb := int64 (HeartbeatSeconds * Second) in
  let rt := int64 (ReadTimeoutSeconds * Second) in
  {| it_heartbeat := if hb <=? 0 then 25 * Second else hb;
     it_readTimeout := if rt <=? 0 then 60 * Second else rt |}.

(** [websocket.Accept] (github.com/coder/websocket): nothing, or the answer it wrote. *)
Class WsAccept := ws_Accept : Request -> option Response.

(** Whose messages a connection streams, and from where. *)
Record stream_id := MkStreamId { si_tenant : uuid; si_recipient : string; si_since : option uuid }.

Section Open.
Context `{UuidText} `{Jwt} `{WsAccept}.
Variable wsToken : WSTokenService.

Definition Stream_open (r : Request) : M (Response + stream_id) :=
  let tokenStr := rq_Query r "token" in
  if decide (tokenStr = "") then mret (inl (http_Error "token required" 401))
  else
    claims ← try (WSToken_Verify wsToken tokenStr);
    match claims with
    | Err _ => mret (inl (http_Error "unauthorized" 401))
    | Ok claims =>
        let sinceID := if decide (rq_Query r "since" = "") then None else uuid_Parse (rq_Query r "since") in
        match ws_Accept r with
        | Some resp => mret (inl resp)
        | None =>
            _ ← Inc "InAppWSConnections" [];
            mret (inr (MkStreamId (wc_TenantID claims) (wc_RecipientID claims) sinceID))
        end
    end.
End Open.

(** How a connection ends: a failed write of a live frame is counted, and the deferred
    [Dec] runs. *)
Definition Stream_close (write_failed : bool) : M unit :=
  _ ← (if write_failed then Inc "InAppWSDropped" [] else mret tt);
  Dec "InAppWSConnections" [].

(** ** Frames *)

Inductive ws_frame := FHistory (m : InAppMessage) | FMessage (raw : bytes) | FPing.

Definition frame_bytes `{UuidText} (f : ws_frame) : bytes :=
  match f with
  | FHistory m =>
      match marshal_InAppMessage m with
      | Ok data => BJson (AObj [("type", AStr "history"); ("data", data)])
      | Err _ => BRaw ""
      end
  | FMessage (BJson data) => BJson (AObj [("type", AStr "message"); ("data", data)])
  | FMessage (BRaw s) =>
      let q := String "034" "" in
      BRaw ("{" +:+ q +:+ "type" +:+ q +:+ ":" +:+ q +:+ "message" +:+ q +:+ "," +:+ q +:+ "data" +:+ q +:+ ":" +:+ s +:+ "}")
  | FPing => BJson (AObj [("type", AStr "ping")])
  end.

(** ** The connection *)

Inductive phase :=
  | Subscribing
  | Fetching (ch : nat)
  | Replaying (ch : nat) (rest : list InAppMessage)
  | Live (ch : nat)
  | Closed.

Definition phase_chan (p : phase) : option nat :=
  match p with Fetching ch | Replaying ch _ | Live ch => Some ch | Subscribing | Closed => None end.

(** Publications a connection was not handed: dropped on its full buffer, or lost by
    Redis, by position. *)
Record unsent := MkUnsent { us_dropped : list bytes; us_lost : list nat }.

Record stream_state := MkStreamState {
  ss_world : world;
  ss_hub : hub;
  ss_pos : nat;                 (* the publications Redis is done with *)
  ss_phase : phase;
  ss_frames : list ws_frame;       (* written to the client *)
  (* history variables *)
  ss_from : nat;                (* [ss_pos] when the channel was made *)
  ss_snapshot : world;          (* the world in which the gap was read *)
  ss_missed : option (list InAppMessage);    (* what was read *)
  ss_unsent : unsent;           (* what never reached the channel *)
}.

Definition received (fs : list ws_frame) : list bytes := omap (fun f => match f with FMessage b => Some b | _ => None end) fs.
Definition history (fs : list ws_frame) : list InAppMessage := omap (fun f => match f with FHistory m => Some m | _ => None end) fs.

(** Receiving from the channel takes the head of its buffer. *)
Definition pop_chan (ch : nat) (rest : list bytes) (h : hub) : hub :=
  MkHub (h_conns h) (h_maps h) (<[ch := MkChan rest false]> (h_chans h)) (h_bufSize h).

(** [Run] takes a publication on [channel] to the subscribers of [key]. *)
Definition routes_to (channel key : string) : bool :=
  match route channel with Some (t, r) => bool_decide (hub_key t r = key) | None => false end.

(** What [Run] drops for the connection when it hands on [payload]. *)
Definition drops (p : phase) (key channel : string) (payload : bytes) (h : hub) : list bytes :=
  match ch ← phase_chan p; h_chans h !! ch with
  | Some c => if routes_to channel key && negb (Z.of_nat (length (c_buf c)) <? h_bufSize h) then [payload] else []
  | None => []
  end.

Section Connection.
Context `{Env} `{UuidText}.
Variable id : stream_id.

Definition stream_key : string := hub_key (uuid_String (si_tenant id)) (si_recipient id).

(** The stored messages, by what never changes of them. *)
Definition stored_ids (w : world) : list (uuid * uuid * string) :=
  (fun r => (ir_ID r, ir_TenantID r, ir_RecipientID r)) <$> inapp_messages (w_db w).

(** What everything else may do to the world: inbox rows are never deleted, and a
    publication announces a message that is stored already. *)
Definition announces (w : world) (entry : string * bytes) : Prop :=
  exists m j, marshal_InAppMessage m = Ok j /\ entry.2 = BJson j /\
    entry.1 = RedisChannel (uuid_String (im_TenantID m)) (im_RecipientID m) /\ (im_ID m, im_TenantID m, im_RecipientID m) ∈ stored_ids w.
Definition honest (w w' : world) : Prop :=
  (forall x, x ∈ stored_ids w -> x ∈ stored_ids w') /\
  exists new, w_pubsub w' = w_pubsub w ++ new /\ forall e, e ∈ new -> announces w' e.

Inductive stream_step : stream_state -> stream_state -> Prop :=
  | st_subscribe w h pos fs from snap ms ds ch h' :
      Hub_Subscribe (uuid_String (si_tenant id)) (si_recipient id) h = (ch, h') ->
      stream_step (MkStreamState w h pos Subscribing fs from snap ms ds)
                  (MkStreamState w h' pos (Fetching ch) fs pos snap ms ds)
  | st_no_since w h pos ch fs from snap ms ds :
      si_since id = None ->
      stream_step (MkStreamState w h pos (Fetching ch) fs from snap ms ds)
                  (MkStreamState w h pos (Live ch) fs from w ms ds)
  | st_fetch w h pos ch fs from snap ms ds since missed w' :
      si_since id = Some since ->
      InAppRepo_ListSince (si_tenant id) (si_recipient id) since w = (Ok missed, w') ->
      stream_step (MkStreamState w h pos (Fetching ch) fs from snap ms ds)
                  (MkStreamState w' h pos (Replaying ch missed) fs from w (Some missed) ds)
  | st_fetch_failed w h pos ch fs from snap ms ds since err w' :
      si_since id = Some since ->
      InAppRepo_ListSince (si_tenant id) (si_recipient id) since w = (Err err, w') ->
      stream_step (MkStreamState w h pos (Fetching ch) fs from snap ms ds)
                  (MkStreamState w' h pos (Live ch) fs from w ms ds)
  | st_replay w h pos ch m rest fs from snap ms ds :
      stream_step (MkStreamState w h pos (Replaying ch (m :: rest)) fs from snap ms ds)
                  (MkStreamState w h pos (Replaying ch rest) (fs ++ [FHistory m]) from snap ms ds)
  | st_replayed w h pos ch fs from snap ms ds :
      stream_step (MkStreamState w h pos (Replaying ch []) fs from snap ms ds)
                  (MkStreamState w h pos (Live ch) fs from snap ms ds)
  | st_forward w h pos ch raw rest fs from snap ms ds :
      h_chans h !! ch = Some (MkChan (raw :: rest) false) ->
      stream_step (MkStreamState w h pos (Live ch) fs from snap ms ds)
                  (MkStreamState w (pop_chan ch rest h) pos (Live ch) (fs ++ [FMessage raw]) from snap ms ds)
  | st_ping w h pos ch fs from snap ms ds :
      stream_step (MkStreamState w h pos (Live ch) fs from snap ms ds)
                  (MkStreamState w h pos (Live ch) (fs ++ [FPing]) from snap ms ds)
  (* a failed write, the client gone or the server stopping: the deferred calls run *)
  | st_close w h pos ch p fs from snap ms ds h' :
      phase_chan p = Some ch -> (forall c, p <> Fetching c) ->
      cancel_close ch (cancel_remove stream_key ch h) = Some h' ->
      stream_step (MkStreamState w h pos p fs from snap ms ds)
                  (MkStreamState (Stream_close false w).2 h' pos Closed fs from snap ms ds)
  | st_forward_failed w h pos ch raw rest fs from snap ms ds h' :
      h_chans h !! ch = Some (MkChan (raw :: rest) false) ->
      cancel_close ch (cancel_remove stream_key ch (pop_chan ch rest h)) = Some h' ->
      stream_step (MkStreamState w h pos (Live ch) fs from snap ms ds)
                  (MkStreamState (Stream_close true w).2 h' pos Closed fs from snap ms ds)
  (* the rest of the system *)
  | env_world w h pos p fs from snap ms ds w' :
      honest w w' ->
      stream_step (MkStreamState w h pos p fs from snap ms ds) (MkStreamState w' h pos p fs from snap ms ds)
  | env_deliver w h pos p fs from snap ms ds channel payload h' :
      w_pubsub w !! pos = Some (channel, payload) -> Run_message channel payload h = Some h' ->
      stream_step (MkStreamState w h pos p fs from snap ms ds)
                  (MkStreamState w h' (S pos) p fs from snap ms
                     (MkUnsent (us_dropped ds ++ drops p stream_key channel payload h) (us_lost ds)))
  | env_lose w h pos p fs from snap ms ds e :
      w_pubsub w !! pos = Some e ->
      stream_step (MkStreamState w h pos p fs from snap ms ds)
                  (MkStreamState w h (S pos) p fs from snap ms (MkUnsent (us_dropped ds) (us_lost ds ++ [pos])))
  | env_subscribe w h pos p fs from snap ms ds t r ch h' :
      Hub_Subscribe t r h = (ch, h') ->
      stream_step (MkStreamState w h pos p fs from snap ms ds) (MkStreamState w h' pos p fs from snap ms ds)
  | env_receive w h pos p fs from snap ms ds ch raw rest :
      phase_chan p <> Some ch -> h_chans h !! ch = Some (MkChan (raw :: rest) false) ->
      stream_step (MkStreamState w h pos p fs from snap ms ds) (MkStreamState w (pop_chan ch rest h) pos p fs from snap ms ds)
  | env_cancel w h pos p fs from snap ms ds key ch h' :
      phase_chan p <> Some ch -> ch ∈ subscribers key h ->
      cancel_close ch (cancel_remove key ch h) = Some h' ->
      stream_step (MkStreamState w h pos p fs from snap ms ds) (MkStreamState w h' pos p fs from snap ms ds).

(** A hub that starts listening sees the publications from then on. *)
Definition stream_init (w : world) (bufSize : Z) : stream_state :=
  MkStreamState w (NewHub bufSize) (length (w_pubsub w)) Subscribing [] 0 w None (MkUnsent [] []).
Definition stream_reach (w : world) (bufSize : Z) : stream_state -> Prop :=
  rtc stream_step (stream_init w bufSize).
End Connection.

(** ** Atomic hub calls keep the hub in order *)

Record hub_ok (h : hub) : Prop := MkHubOk {
  ho_inj : forall k1 k2 m, h_conns h !! k1 = Some m -> h_conns h !! k2 = Some m -> k1 = k2;
  ho_maps : forall k m, h_conns h !! k = Some m -> is_Some (h_maps h !! m);
  ho_open : forall k ch, ch ∈ subscribers k h -> exists buf, h_chans h !! ch = Some (MkChan buf false);
  ho_own : forall k1 k2 ch, ch ∈ subscribers k1 h -> ch ∈ subscribers k2 h -> k1 = k2;
}.

Lemma hub_ok_init bufSize : hub_ok (NewHub bufSize).
Proof. split; unfold subscribers; simpl; intros; by rewrite ?lookup_empty in *; set_solver. Qed.

Lemma subscribers_Subscribe h t r ch h' k :
  hub_ok h -> Hub_Subscribe t r h = (ch, h') ->
  subscribers k h' = if decide (k = hub_key t r) then {[ch]} ∪ subscribers k h else subscribers k h.
Proof.
  intros Hok [= <- <-]. unfold subscribers at 1. simpl. destruct (decide (k = hub_key t r)) as [->|Hne].
  { rewrite lookup_insert_eq. simpl. by rewrite lookup_insert_eq. }
  rewrite lookup_insert_ne by done. unfold subscribers. destruct (h_conns h !! k) as [m|] eqn:Hm; [|done].
  simpl. rewrite lookup_insert_ne; [done|]. destruct (h_conns h !! hub_key t r) as [m'|] eqn:Hm'; simpl.
  - intros ->. by rewrite (ho_inj _ Hok _ _ _ Hm Hm') in Hne.
  - intros <-. destruct (ho_maps _ Hok _ _ Hm) as [? Hs]. apply (is_fresh (dom (h_maps h))). by apply elem_of_dom_2 in Hs.
Qed.

Lemma fresh_chan h t r ch h' : Hub_Subscribe t r h = (ch, h') ->
  h_chans h !! ch = None /\ h_chans h' = <[ch := MkChan [] false]> (h_chans h).
Proof. intros [= <- <-]. split; [|done]. apply not_elem_of_dom, is_fresh. Qed.

Lemma hub_ok_subscribe h t r ch h' : hub_ok h -> Hub_Subscribe t r h = (ch, h') -> hub_ok h'.
Proof.
  intros Hok Hs. destruct (fresh_chan _ _ _ _ _ Hs) as [Hnew Hch].
  assert (forall k, ch ∉ subscribers k h) as Hni.
  { intros k Hin. destruct (ho_open _ Hok _ _ Hin) as [? Hc]. congruence. }
  assert (forall k, subscribers k h' = _) as Hsub by (intros k; by apply (subscribers_Subscribe h t r ch h' k)).
  split.
  - injection Hs as _ <-. simpl. intros k1 k2 m [[<- <-]|[Hn1 H1]]%lookup_insert_Some [[<- Hm]|[Hn2 H2]]%lookup_insert_Some;
      [done| | |by eapply ho_inj].
    + destruct (h_conns h !! hub_key t r) as [m'|] eqn:E; simpl in *; [by eapply (ho_inj _ Hok)|].
      destruct (ho_maps _ Hok _ _ H2) as [? Hx]. exfalso. apply (is_fresh (dom (h_maps h))). by apply elem_of_dom_2 in Hx.
    + destruct (h_conns h !! hub_key t r) as [m'|] eqn:E; simpl in *; subst; [by eapply (ho_inj _ Hok)|].
      destruct (ho_maps _ Hok _ _ H1) as [? Hx]. exfalso. apply (is_fresh (dom (h_maps h))). by apply elem_of_dom_2 in Hx.
  - injection Hs as _ <-. simpl. intros k m [[<- <-]|[Hn H1]]%lookup_insert_Some; [by rewrite lookup_insert_eq|].
    apply lookup_insert_is_Some'. right. by eapply ho_maps.
  - intros k ch' Hin. rewrite Hsub in Hin. rewrite Hch. destruct (decide (ch' = ch)) as [->|Hne];
      [rewrite lookup_insert_eq; eauto|]. rewrite lookup_insert_ne by done. apply (ho_open _ Hok k).
    destruct (decide _); set_solver.
  - intros k1 k2 ch'. rewrite !Hsub. pose proof (ho_own _ Hok k1 k2 ch'). pose proof (Hni k1). pose proof (Hni k2).
    destruct (decide (k1 = hub_key t r)), (decide (k2 = hub_key t r)); [congruence|set_solver..|auto].
Qed.

Lemma subscribers_remove h key ch k :
  hub_ok h -> subscribers k (cancel_remove key ch h)
    = if decide (k = key) then subscribers k h ∖ {[ch]} else subscribers k h.
Proof.
  intros Hok. unfold cancel_remove. destruct (h_conns h !! key) as [m|] eqn:Hm.
  2: { destruct (decide _) as [->|]; [|done]. unfold subscribers. rewrite Hm. simpl. set_solver. }
  destruct (decide (k = key)) as [->|Hne].
  - unfold subscribers at 1. simpl. destruct (decide _) as [He|].
    + rewrite lookup_delete_eq. simpl. by rewrite He.
    + rewrite Hm. simpl. by rewrite lookup_insert_eq.
  - unfold subscribers at 1. simpl. replace ((if decide _ then _ else _) !! k) with (h_conns h !! k)
      by (destruct (decide _); by rewrite ?lookup_delete_ne by done).
    unfold subscribers. destruct (h_conns h !! k) as [m'|] eqn:Hm'; [|done]. simpl. rewrite lookup_insert_ne; [done|].
    intros ->. apply Hne. by eapply (ho_inj _ Hok).
Qed.

Lemma hub_ok_cancel h key ch h' :
  hub_ok h -> ch ∈ subscribers key h -> cancel_close ch (cancel_remove key ch h) = Some h' ->
  hub_ok h' /\ (forall k, subscribers k h' = if decide (k = key) then subscribers k h ∖ {[ch]} else subscribers k h)
  /\ (forall ch', ch' <> ch -> h_chans h' !! ch' = h_chans h !! ch').
Proof.
  intros Hok Hin Hc. assert (forall k, subscribers k (cancel_remove key ch h) = _) as Hsub
    by (intros k; by apply (subscribers_remove h key ch k)).
  assert (h_chans (cancel_remove key ch h) = h_chans h) as Hch by (unfold cancel_remove; by destruct (_ !! _)).
  unfold cancel_close in Hc. rewrite Hch in Hc. destruct (h_chans h !! ch) as [c|]; [|done]. simpl in Hc.
  destruct (c_closed c); [done|]. injection Hc as <-.
  assert (forall k ch', ch' ∈ subscribers k (cancel_remove key ch h) -> ch' <> ch /\ ch' ∈ subscribers k h) as Hleft.
  { intros k ch'. rewrite Hsub. destruct (decide (k = key)) as [->|Hne]; [set_solver|]. intros Hk. split; [|done].
    intros ->. apply Hne. by eapply (ho_own _ Hok). }
  split_and!; [|exact Hsub|by intros; simpl; rewrite lookup_insert_ne].
  split; simpl.
  - intros k1 k2 m. unfold cancel_remove. destruct (h_conns h !! key); simpl; [|by apply (ho_inj _ Hok)].
    destruct (decide _); [rewrite !lookup_delete_Some|]; [intros [_ H1] [_ H2]|intros H1 H2]; by eapply (ho_inj _ Hok).
  - intros k m. unfold cancel_remove. destruct (h_conns h !! key) eqn:E; simpl; [|by apply (ho_maps _ Hok)].
    intros Hm. apply lookup_insert_is_Some'. right. apply (ho_maps _ Hok k).
    destruct (decide _); [by apply lookup_delete_Some in Hm as [_ ?]|done].
  - intros k ch' Hk. destruct (Hleft k ch' Hk) as [Hne Hk']. rewrite lookup_insert_ne by done. by apply (ho_open _ Hok k).
  - intros k1 k2 ch' H1 H2. apply (ho_own _ Hok k1 k2 ch'); by apply Hleft.
Qed.

Lemma hub_ok_pop h ch rest : hub_ok h -> hub_ok (pop_chan ch rest h).
Proof.
  intros Hok. split; simpl; [apply (ho_inj _ Hok)|apply (ho_maps _ Hok)| |apply (ho_own _ Hok)].
  intros k ch' Hin. destruct (decide (ch' = ch)) as [->|]; [rewrite lookup_insert_eq; eauto|].
  rewrite lookup_insert_ne by done. by apply (ho_open _ Hok k).
Qed.

Lemma send_all_keeps chs msg h h' :
  send_all chs msg h = Some h' -> h_conns h' = h_conns h /\ h_maps h' = h_maps h.
Proof.
  revert h. induction chs as [|ch chs IH]; intros h; cbn [send_all]; [by intros [= <-]|].
  unfold Hub_send. destruct (h_chans h !! ch) as [c|]; [|done]. simpl. destruct (c_closed c); [done|].
  destruct (_ <? _); simpl; intros Hs; by apply IH in Hs.
Qed.

(** What handing on a publication does to the channels. *)
Lemma Run_message_spec h channel payload h' :
  hub_ok h -> Run_message channel payload h = Some h' ->
  hub_ok h' /\ (forall k, subscribers k h' = subscribers k h) /\
  forall k ch, ch ∈ subscribers k h -> h_chans h' !! ch =
    if routes_to channel k then delivered_chan (h_bufSize h) payload <$> h_chans h !! ch else h_chans h !! ch.
Proof.
  intros Hok Hrun. unfold Run_message, routes_to in *. destruct (route channel) as [[t r]|]; [|by injection Hrun as <-].
  unfold Hub_Publish in Hrun. destruct (send_all_keeps _ _ _ _ Hrun) as [Hco Hma].
  assert (forall k, subscribers k h' = subscribers k h) as Hsub by (intros k; unfold subscribers; by rewrite Hco, Hma).
  set (key := hub_key t r) in *.
  destruct (send_all_spec (elements (subscribers key h)) payload h) as (h2 & Hs & _ & _ & Hch).
  { apply NoDup_elements. }
  { intros ch Hin%elem_of_elements. destruct (ho_open _ Hok _ _ Hin) as [buf Hb]. by exists (MkChan buf false). }
  rewrite Hrun in Hs. injection Hs as <-.
  assert (forall k ch, ch ∈ subscribers k h -> h_chans h' !! ch =
    if bool_decide (key = k) then delivered_chan (h_bufSize h) payload <$> h_chans h !! ch else h_chans h !! ch) as Hall.
  { intros k ch Hin. rewrite Hch. destruct (bool_decide_reflect (key = k)) as [->|Hne].
    - by rewrite decide_True by by apply elem_of_elements.
    - rewrite decide_False; [done|]. intros Hk%elem_of_elements. apply Hne. by eapply (ho_own _ Hok). }
  split_and!; [|done|done]. split.
  - rewrite Hco. apply (ho_inj _ Hok).
  - rewrite Hco, Hma. apply (ho_maps _ Hok).
  - intros k ch. rewrite Hsub. intros Hin. rewrite (Hall k ch Hin). destruct (ho_open _ Hok _ _ Hin) as [buf ->].
    destruct (bool_decide _); [|eauto]. simpl. unfold delivered_chan. simpl. destruct (_ <? _); eauto.
  - intros k1 k2 ch. rewrite !Hsub. apply (ho_own _ Hok).
Qed.

(** ** No message falls between history and live *)

Section NoGap.
Context `{Env} `{UuidText}.
Variables (id : stream_id) (w0 : world).
Abbreviation start := (length (w_pubsub w0)).
Abbreviation key := (stream_key id).

Lemma announces_mono w w' e : (forall x, x ∈ stored_ids w -> x ∈ stored_ids w') -> announces w e -> announces w' e.
Proof. intros Hids (m & j & Hj & Hp & Hc & Hin). exists m, j. auto. Qed.

(** The publication is with the client, in its buffer, or was dropped at a full one. *)
Definition handed_on (h : hub) (ch : nat) (fs : list ws_frame) (ds : unsent) (payload : bytes) : Prop :=
  payload ∈ received fs \/ payload ∈ us_dropped ds \/ exists buf, h_chans h !! ch = Some (MkChan buf false) /\ payload ∈ buf.

Definition replay_ok (p : phase) (fs : list ws_frame) (ms : option (list InAppMessage)) : Prop :=
  match p with
  | Replaying _ rest => ms = Some (history fs ++ rest)
  | Live _ => ms = None \/ ms = Some (history fs)
  | _ => ms = None /\ history fs = []
  end.

Record conn_ok (w : world) (h : hub) (pos : nat) (p : phase) (fs : list ws_frame) (from : nat) (snap : world)
    (ms : option (list InAppMessage)) (ds : unsent) (ch : nat) : Prop := MkConnOk {
  ck_sub : ch ∈ subscribers key h;
  ck_from : (start <= from <= pos)%nat;
  ck_live : forall i channel payload, (from <= i < pos)%nat -> w_pubsub w !! i = Some (channel, payload) ->
    routes_to channel key = true -> i ∈ us_lost ds \/ handed_on h ch fs ds payload;
  ck_snap : p <> Fetching ch -> forall i e, (start <= i < from)%nat -> w_pubsub w !! i = Some e -> announces snap e;
  ck_replay : replay_ok p fs ms;
  ck_missed : forall missed, ms = Some missed -> exists since w', si_since id = Some since /\
    InAppRepo_ListSince (si_tenant id) (si_recipient id) since snap = (Ok missed, w');
}.

Record stream_inv (s : stream_state) : Prop := MkStreamInv {
  sv_hub : hub_ok (ss_hub s);
  sv_pos : (start <= ss_pos s <= length (w_pubsub (ss_world s)))%nat;
  sv_announced : forall i e, (start <= i)%nat -> w_pubsub (ss_world s) !! i = Some e -> announces (ss_world s) e;
  sv_conn : match phase_chan (ss_phase s) with
            | Some ch => conn_ok (ss_world s) (ss_hub s) (ss_pos s) (ss_phase s) (ss_frames s) (ss_from s)
                           (ss_snapshot s) (ss_missed s) (ss_unsent s) ch
            | None => ss_phase s = Closed \/ ss_frames s = [] /\ ss_missed s = None
            end;
}.

Lemma received_app fs gs : received (fs ++ gs) = received fs ++ received gs.
Proof. apply omap_app. Qed.
Lemma history_app fs gs : history (fs ++ gs) = history fs ++ history gs.
Proof. apply omap_app. Qed.

(** The world moves on: publications and rows are only added. *)
Lemma stream_inv_world w w' h pos p fs from snap ms ds :
  honest w w' -> stream_inv (MkStreamState w h pos p fs from snap ms ds) ->
  stream_inv (MkStreamState w' h pos p fs from snap ms ds).
Proof.
  intros (Hids & new & Hps & Hnew) [Hh Hp Ha Hc]. simpl in *. split; simpl; [done|rewrite Hps, length_app; lia| |].
  - intros i e Hi. rewrite Hps. intros [He|[_ He]]%lookup_app_Some; [by eapply announces_mono, Ha|].
    apply Hnew. by eapply list_elem_of_lookup_2.
  - destruct (phase_chan p) as [ch|]; [|done]. destruct Hc as [Hs Hf Hl Hsn Hr Hm]. split; try done.
    + intros i c y Hi. rewrite Hps, lookup_app_l by lia. by apply Hl.
    + intros Hp' i e Hi. rewrite Hps, lookup_app_l by lia. by apply Hsn.
Qed.

(** A world that differs in neither. *)
Lemma honest_same w w' : w_db w' = w_db w -> w_pubsub w' = w_pubsub w -> honest w w'.
Proof. intros Hd Hp. unfold honest, stored_ids. rewrite Hd, Hp. split; [done|]. exists []. rewrite app_nil_r. set_solver. Qed.

(** The hub changes for others: the connection keeps its place and its buffer. *)
Lemma conn_ok_hub w h h' pos p fs from snap ms ds ch :
  subscribers key h ⊆ subscribers key h' \/ ch ∈ subscribers key h' -> h_chans h' !! ch = h_chans h !! ch ->
  conn_ok w h pos p fs from snap ms ds ch -> conn_ok w h' pos p fs from snap ms ds ch.
Proof.
  intros Hsub Hch [Hs Hf Hl Hsn Hr Hm]. split; try done; [set_solver|].
  intros i c y Hi Hps Hrt. unfold handed_on. rewrite Hch. apply (Hl i c y); done.
Qed.

(** One publication is handed on. *)
Lemma conn_ok_deliver w h h' pos p fs from snap ms ds ch channel payload :
  hub_ok h -> phase_chan p = Some ch -> w_pubsub w !! pos = Some (channel, payload) ->
  Run_message channel payload h = Some h' -> conn_ok w h pos p fs from snap ms ds ch ->
  conn_ok w h' (S pos) p fs from snap ms (MkUnsent (us_dropped ds ++ drops p key channel payload h) (us_lost ds)) ch.
Proof.
  intros Hok Hp He Hrun [Hs Hf Hl Hsn Hr Hm]. destruct (Run_message_spec _ _ _ _ Hok Hrun) as (_ & Hsub & Hch).
  destruct (ho_open _ Hok _ _ Hs) as [buf Hb]. specialize (Hch key ch Hs). rewrite Hb in Hch.
  split; try done; [by rewrite Hsub|lia|]. intros i c y Hi Hy Hrt. unfold handed_on, drops. rewrite Hp. simpl. rewrite Hb.
  destruct (decide (i = pos)) as [->|Hne].
  - right. rewrite He in Hy. injection Hy as <- <-. rewrite Hrt in *. simpl in *. unfold delivered_chan in Hch. simpl in Hch.
    destruct (_ <? _); simpl in *; [right; right; rewrite Hch; eexists; split; [done|set_solver]|right; left; set_solver].
  - destruct (Hl i c y) as [?|[?|[?|(buf' & Hb' & Hin)]]]; [lia|done|done|by left|right; by left|right; right; left; set_solver|].
    right. right. right. rewrite Hb in Hb'. injection Hb' as <-. rewrite Hch. destruct (routes_to channel key); [|eauto].
    simpl. unfold delivered_chan. simpl. destruct (_ <? _); eexists; (split; [done|set_solver]).
Qed.

(** One publication is lost. *)
Lemma conn_ok_lose w h pos p fs from snap ms ds ch :
  conn_ok w h pos p fs from snap ms ds ch ->
  conn_ok w h (S pos) p fs from snap ms (MkUnsent (us_dropped ds) (us_lost ds ++ [pos])) ch.
Proof.
  intros [Hs Hf Hl Hsn Hr Hm]. split; try done; [lia|]. intros i c y Hi Hy Hrt. simpl.
  destruct (decide (i = pos)) as [->|Hne]; [left; set_solver|].
  destruct (Hl i c y) as [?|?]; [lia|done|done|left; set_solver|by right].
Qed.

Lemma ListSince_reads t r since w out w' :
  InAppRepo_ListSince t r since w = (out, w') -> w_db w' = w_db w /\ w_pubsub w' = w_pubsub w.
Proof.
  intros Hrun. assert (w' = (InAppRepo_ListSince t r since w).2) as -> by by rewrite Hrun.
  unfold InAppRepo_ListSince. split; [apply (frame (f := w_db))|apply (frame (f := w_pubsub))]; apply _.
Qed.

Lemma Stream_close_same b w : w_db (Stream_close b w).2 = w_db w /\ w_pubsub (Stream_close b w).2 = w_pubsub w.
Proof. by destruct b, w. Qed.

(** Only the frames and the phase of the connection change. *)
Lemma stream_inv_step w h pos p fs from snap ms ds ch p' fs' h' :
  phase_chan p = Some ch -> phase_chan p' = Some ch -> p <> Fetching ch -> p' <> Fetching ch ->
  hub_ok h' -> subscribers key h' = subscribers key h -> replay_ok p' fs' ms ->
  (forall payload, handed_on h ch fs ds payload -> handed_on h' ch fs' ds payload) ->
  stream_inv (MkStreamState w h pos p fs from snap ms ds) ->
  stream_inv (MkStreamState w h' pos p' fs' from snap ms ds).
Proof.
  intros Hp Hp' Hn Hn' Hok Hsub Hr' Hh' [Hh Hpos Ha Hc]. simpl in *. rewrite Hp in Hc. destruct Hc as [Hs Hf Hl Hsn Hr Hm].
  split; simpl; try done. rewrite Hp'. split; try done; [by rewrite Hsub| |].
  - intros i c y Hi Hy Hrt. destruct (Hl i c y Hi Hy Hrt); [by left|right; by apply Hh'].
  - intros _. by apply Hsn.
Qed.

(** The gap has been read, or there is none to read. *)
Lemma stream_inv_fetched w w' h pos ch fs from snap ms ds p' ms' :
  w_db w' = w_db w -> w_pubsub w' = w_pubsub w -> phase_chan p' = Some ch -> p' <> Fetching ch ->
  (ms' = None /\ p' = Live ch \/ exists missed since w2, ms' = Some missed /\ p' = Replaying ch missed /\
     si_since id = Some since /\ InAppRepo_ListSince (si_tenant id) (si_recipient id) since w = (Ok missed, w2)) ->
  stream_inv (MkStreamState w h pos (Fetching ch) fs from snap ms ds) ->
  stream_inv (MkStreamState w' h pos p' fs from w ms' ds).
Proof.
  intros Hd Hps Hp' Hn' Hms Hi. pose proof (stream_inv_world _ _ _ _ _ _ _ _ _ _ (honest_same _ _ Hd Hps) Hi) as Hi'.
  destruct Hi as [_ _ Ha Hc]. destruct Hi' as [Hh Hpos Ha' Hc']. simpl in *. split; simpl; try done. rewrite Hp'.
  destruct Hc' as [Hs Hf Hl _ [-> Hhist] _]. split; try done.
  - intros _ i e Hi He. rewrite Hps in He. apply (Ha i e); [lia|done].
  - destruct Hms as [[-> ->]|(missed & since & w2 & -> & -> & _)]; simpl; [by left|by rewrite Hhist].
  - intros m Hm. destruct Hms as [[-> _]|(missed & since & w2 & -> & _ & Hsi & Hls)]; [done|].
    injection Hm as <-. eauto.
Qed.

Lemma stream_step_inv s s' : stream_step id s s' -> stream_inv s -> stream_inv s'.
Proof.
  destruct 1 as [w h pos fs from snap ms ds ch h' Hsub|w h pos ch fs from snap ms ds Hno
    |w h pos ch fs from snap ms ds since missed w' Hsi Hls|w h pos ch fs from snap ms ds since err w' Hsi Hls
    |w h pos ch m rest fs from snap ms ds|w h pos ch fs from snap ms ds|w h pos ch raw rest fs from snap ms ds Hch
    |w h pos ch fs from snap ms ds|w h pos ch p fs from snap ms ds h' Hp Hnf Hc
    |w h pos ch raw rest fs from snap ms ds h' Hch Hc|w h pos p fs from snap ms ds w' Hw
    |w h pos p fs from snap ms ds channel payload h' He Hrun|w h pos p fs from snap ms ds e He
    |w h pos p fs from snap ms ds t r ch h' Hsub
    |w h pos p fs from snap ms ds ch raw rest Hne Hch|w h pos p fs from snap ms ds key' ch h' Hne Hin Hc]; intros Hi.
  - destruct Hi as [Hh Hpos Ha Hc]. simpl in *. destruct Hc as [?|[-> ->]]; [done|].
    split; simpl; [by eapply hub_ok_subscribe|done|done|]. split; try done.
    + rewrite (subscribers_Subscribe _ _ _ _ _ _ Hh Hsub), decide_True by done. set_solver.
    + lia.
    + intros i c y Hi. lia.
  - pose proof (ck_replay _ _ _ _ _ _ _ _ _ _ (sv_conn _ Hi)) as [Hms _]. simpl in Hms. subst.
    eapply stream_inv_fetched; [..|done]; try done. by left.
  - destruct (ListSince_reads _ _ _ _ _ _ Hls). eapply stream_inv_fetched; [..|done]; try done. right. by eauto 10.
  - destruct (ListSince_reads _ _ _ _ _ _ Hls). pose proof (ck_replay _ _ _ _ _ _ _ _ _ _ (sv_conn _ Hi)) as [Hms _].
    simpl in Hms. subst. eapply stream_inv_fetched; [..|done]; try done. by left.
  - pose proof (ck_replay _ _ _ _ _ _ _ _ _ _ (sv_conn _ Hi)) as Hms. eapply stream_inv_step; [..|done]; try done.
    + apply (sv_hub _ Hi).
    + simpl in *. by rewrite history_app, <-app_assoc.
    + unfold handed_on. intros y. rewrite received_app. simpl. by rewrite app_nil_r.
  - pose proof (ck_replay _ _ _ _ _ _ _ _ _ _ (sv_conn _ Hi)) as Hms. eapply stream_inv_step; [..|done]; try done.
    + apply (sv_hub _ Hi).
    + simpl in *. right. by rewrite app_nil_r in Hms.
  - pose proof (ck_replay _ _ _ _ _ _ _ _ _ _ (sv_conn _ Hi)) as Hms. eapply stream_inv_step; [..|done]; try done.
    + apply hub_ok_pop, (sv_hub _ Hi).
    + simpl in *. by rewrite history_app, app_nil_r.
    + unfold handed_on. intros y. rewrite received_app. simpl. rewrite lookup_insert_eq.
      intros [?|[?|(buf & Hb & Hin)]]; [left; set_solver|by auto|]. rewrite Hch in Hb. injection Hb as <-.
      apply elem_of_cons in Hin as [->|Hin]; [left; set_solver|right; right; eauto].
  - pose proof (ck_replay _ _ _ _ _ _ _ _ _ _ (sv_conn _ Hi)) as Hms. eapply stream_inv_step; [..|done]; try done.
    + apply (sv_hub _ Hi).
    + simpl in *. by rewrite history_app, app_nil_r.
    + unfold handed_on. intros y. rewrite received_app. simpl. by rewrite app_nil_r.
  - destruct (Stream_close_same false w) as [Hd Hps].
    pose proof (stream_inv_world _ _ _ _ _ _ _ _ _ _ (honest_same _ _ Hd Hps) Hi) as [Hh Hpos Ha Hcn]. cbn in Hcn.
    rewrite Hp in Hcn. split; [|done|done|by left]. by eapply hub_ok_cancel; [| |exact Hc]; [|by destruct Hcn].
  - destruct (Stream_close_same true w) as [Hd Hps].
    pose proof (stream_inv_world _ _ _ _ _ _ _ _ _ _ (honest_same _ _ Hd Hps) Hi) as [Hh Hpos Ha Hcn]. cbn in Hcn.
    split; [|done|done|by left].
    eapply hub_ok_cancel; [by apply hub_ok_pop| |exact Hc]. by destruct Hcn.
  - by eapply stream_inv_world.
  - destruct Hi as [Hh Hpos Ha Hc]. simpl in *. destruct (Run_message_spec _ _ _ _ Hh Hrun) as (Hh' & _).
    split; simpl; [done|apply lookup_lt_Some in He; lia|done|]. destruct (phase_chan p) as [ch|] eqn:Hp; [|done].
    by eapply conn_ok_deliver.
  - destruct Hi as [Hh Hpos Ha Hc]. simpl in *. split; simpl; [done|apply lookup_lt_Some in He; lia|done|].
    destruct (phase_chan p) as [ch|]; [|done]. by apply conn_ok_lose.
  - destruct Hi as [Hh Hpos Ha Hc]. simpl in *. split; simpl; [by eapply hub_ok_subscribe|done|done|].
    destruct (phase_chan p) as [ch'|]; [|done]. destruct (fresh_chan _ _ _ _ _ Hsub) as [Hnew Hch].
    eapply conn_ok_hub; [| |done].
    + left. rewrite (subscribers_Subscribe _ _ _ _ _ key Hh Hsub). destruct (decide _); set_solver.
    + rewrite Hch, lookup_insert_ne; [done|]. intros ->. destruct (ho_open _ Hh _ _ (ck_sub _ _ _ _ _ _ _ _ _ _ Hc)). congruence.
  - destruct Hi as [Hh Hpos Ha Hc]. simpl in *. split; simpl; [by apply hub_ok_pop|done|done|].
    destruct (phase_chan p) as [ch'|]; [|done]. eapply conn_ok_hub; [| |done]; [by left|].
    simpl. rewrite lookup_insert_ne; [done|congruence].
  - destruct Hi as [Hh Hpos Ha Hcn]. simpl in *. destruct (hub_ok_cancel _ _ _ _ Hh Hin Hc) as (Hh' & Hsub & Hch).
    split; simpl; [done..|]. destruct (phase_chan p) as [ch'|]; [|done]. assert (ch' <> ch) by congruence.
    eapply conn_ok_hub; [| |done]; [|by apply Hch]. right. rewrite Hsub.
    pose proof (ck_sub _ _ _ _ _ _ _ _ _ _ Hcn). destruct (decide _); set_solver.
Qed.

Lemma stream_reach_inv bufSize s : stream_reach id w0 bufSize s -> stream_inv s.
Proof.
  assert (forall a b, rtc (stream_step id) a b -> stream_inv a -> stream_inv b) as Hrtc.
  { induction 1; eauto using stream_step_inv. }
  intros Hr. apply (Hrtc _ _ Hr). split; simpl; [apply hub_ok_init|lia| |right; done].
  intros i e Hi He. apply lookup_lt_Some in He. lia.
Qed.
End NoGap.

(** ** The senders are honest *)

Lemma inapp_Send_honest `{Env} `{UuidText} n w : honest w (inapp_Send n w).2.
Proof.
  assert (wp (inapp_Send n) (fun _ w' => honest w w') w) as Hwp; [|exact Hwp].
  assert (forall dt, honest w (advance dt w)) as Hadv by (intros dt; apply honest_same; by destruct w).
  assert (honest w w) as Hrefl by by apply honest_same.
  unfold inapp_Send. destruct (extractTitleBody _) as [title body].
  destruct (decide _); [done|]. destruct (decide _); [done|].
  apply wp_bind, wp_or_else, wp_bind, wp_or_else, wp_sql; [by intros; apply Hadv|]. intros dt u t m. unfold insert_row.
  destruct (violated _).
  { split; intros; apply honest_same; by destruct w. }
  set (w1 := set_db _ _). assert (w_pubsub w1 = w_pubsub w /\ stored_ids w1
      = stored_ids w ++ [(u, n_TenantID n, n_RecipientID n)]) as [Hps Hst].
  { destruct w as [[] ? ? ? ? ? ?]. unfold w1, stored_ids. simpl. by rewrite fmap_app. }
  assert (honest w w1) as Hh.
  { split; [intros x Hx; rewrite Hst; set_solver|]. exists []. rewrite app_nil_r. set_solver. }
  split; [done|]. apply wp_ret. destruct (marshal_InAppMessage _) as [j|] eqn:Hj; [|by apply wp_ret].
  apply wp_ignore, wp_external. intros ev dt2 msg2.
  assert (honest w (advance dt2 w1)) as Hh2.
  { unfold honest, announces, stored_ids in *. destruct (advance_obs dt2 w1) as (-> & _ & _ & -> & _). done. }
  assert (honest w (set_pubsub (fun l => l ++ [(RedisChannel (uuid_String (n_TenantID n)) (n_RecipientID n), BJson j)])
    (advance dt2 w1))) as Hh3.
  { assert (stored_ids (set_pubsub (fun l => l ++ [(RedisChannel (uuid_String (n_TenantID n)) (n_RecipientID n), BJson j)])
      (advance dt2 w1)) = stored_ids w1) as Hs3 by by destruct w1.
    assert (w_pubsub (set_pubsub (fun l => l ++ [(RedisChannel (uuid_String (n_TenantID n)) (n_RecipientID n), BJson j)])
      (advance dt2 w1)) = w_pubsub w1 ++ [(RedisChannel (uuid_String (n_TenantID n)) (n_RecipientID n), BJson j)])
      as Hp3 by by destruct w1.
    split; [intros x Hx; rewrite Hs3, Hst; set_solver|]. eexists. split; [by rewrite Hp3, Hps|].
    intros e ->%list_elem_of_singleton. eexists _, j. split; [exact Hj|]. split; [done|]. split; [done|].
    simpl. rewrite Hs3, Hst. set_solver. }
  by split_and!.
Qed.

(** ** What a live connection has passed on *)

Section Passed.
Context `{Env} `{UuidTextLaws}.
Hypothesis uuid_no_colon : forall u, str_mem ":" (uuid_String u) = false.

Lemma RedisChannel_inj t t' r r' :
  RedisChannel (uuid_String t) r = RedisChannel (uuid_String t') r' -> t = t' /\ r = r'.
Proof using All.
  intros He. pose proof (route_RedisChannel (uuid_String t) r (uuid_no_colon t)) as Hrt.
  rewrite He, route_RedisChannel in Hrt by done. injection Hrt as Hu ->. split; [|done].
  apply (f_equal uuid_Parse) in Hu. rewrite !uuid_parse_string in Hu. congruence.
Qed.

Lemma routes_to_own id : routes_to (RedisChannel (uuid_String (si_tenant id)) (si_recipient id)) (stream_key id) = true.
Proof using All. unfold routes_to. rewrite route_RedisChannel by done. by apply bool_decide_eq_true. Qed.

(** An announced message that was stored belongs to the recipient's inbox. *)
Lemma announced_row id w j :
  announces w (RedisChannel (uuid_String (si_tenant id)) (si_recipient id), BJson j) ->
  exists m row, marshal_InAppMessage m = Ok j /\ ir_ID row = im_ID m /\
    row ∈ inbox_history (si_tenant id) (si_recipient id) (w_db w).
Proof using All.
  intros (m & j' & Hj & Hp & Hc & Hin). simpl in *. injection Hp as ->.
  apply RedisChannel_inj in Hc as [Ht Hr]. unfold stored_ids in Hin.
  apply list_elem_of_fmap in Hin as (row & Hrow & Hin). injection Hrow as Hid Htn Hrc. exists m, row.
  split; [done|]. split; [done|]. unfold inbox_history. apply sort_by_elem, elem_of_where. split; [|done].
  unfold inbox_of. rewrite <-Htn, <-Hrc, Ht, Hr, !bool_decide_eq_true_2 by done. done.
Qed.
End Passed.

(** C18. Nothing falls between history and live.  Take a connection that has gone live
    after a successful read of the gap since a message [c] of the recipient's inbox, and
    any publication to the recipient, after the hub started, that Redis is done with.
    Then Redis lost it after the connection had subscribed; or it is written to the
    client, in its buffer, or was dropped at a full one; or its message was stored when
    the gap was read, and then the client had passed it ([c] or before), it was written
    as a history frame, or it lies beyond the first 200 after [c], which the read leaves
    out.  So no publication slips between the read and the subscription, even one that
    Redis lost before it. *)
Theorem stream_misses_nothing `{Env} `{UuidTextLaws} id w0 bufSize s ch c pre rest i j :
  (forall u, str_mem ":" (uuid_String u) = false) ->
  stream_reach id w0 bufSize s -> ss_phase s = Live ch -> is_Some (ss_missed s) ->
  si_since id = Some (ir_ID c) -> ir_TenantID c = si_tenant id -> schema (ss_snapshot s) ->
  inbox_history (si_tenant id) (si_recipient id) (w_db (ss_snapshot s)) = pre ++ c :: rest ->
  (length (w_pubsub w0) <= i < ss_pos s)%nat ->
  w_pubsub (ss_world s) !! i = Some (RedisChannel (uuid_String (si_tenant id)) (si_recipient id), BJson j) ->
  (i ∈ us_lost (ss_unsent s) /\ (ss_from s <= i)%nat) \/
  handed_on (ss_hub s) ch (ss_frames s) (ss_unsent s) (BJson j) \/
  exists m row, marshal_InAppMessage m = Ok j /\ ir_ID row = im_ID m /\
    (row ∈ pre ++ [c] \/ fromDBInApp row ∈ history (ss_frames s) \/ row ∈ drop 200 rest).
Proof.
  intros Hcolon Hreach Hph [missed Hms] Hsince Hten Hsch Hinbox Hi He.
  pose proof (stream_reach_inv id w0 bufSize s Hreach) as [_ _ _ Hc]. rewrite Hph in Hc. simpl in Hc.
  destruct (decide (ss_from s <= i)%nat) as [Hle|Hlt].
  { destruct (ck_live _ _ _ _ _ _ _ _ _ _ _ _ Hc i _ _ ltac:(lia) He) as [?|?]; [by apply routes_to_own|by left|right; by left]. }
  right. right. pose proof (ck_snap _ _ _ _ _ _ _ _ _ _ _ _ Hc ltac:(done) i _ ltac:(lia) He) as Hann.
  destruct (announced_row Hcolon id _ _ Hann) as (m & row & Hj & Hid & Hin). exists m, row.
  split; [done|]. split; [done|]. rewrite Hinbox in Hin.
  destruct (ck_missed _ _ _ _ _ _ _ _ _ _ _ _ Hc _ Hms) as (since & w' & Hs & Hls).
  rewrite Hsince in Hs. injection Hs as <-. rewrite <-Hten in Hls, Hinbox.
  pose proof (ListSince_gap (si_recipient id) c pre rest (ss_snapshot s) Hsch Hinbox) as Hgap. rewrite Hls in Hgap. simpl in Hgap.
  pose proof (ck_replay _ _ _ _ _ _ _ _ _ _ _ _ Hc) as Hr. rewrite Hms in Hr. simpl in Hr. destruct Hr as [?|[= Hh]]; [done|].
  rewrite <-Hh, Hgap. apply elem_of_app in Hin as [Hin|[->|Hin]%elem_of_cons]; [left; set_solver..|].
  right. rewrite <-(take_drop 200 rest), elem_of_app in Hin. destruct Hin as [Hin|Hin]; [left|by right].
  by apply list_elem_of_fmap_2.
Qed.

(** ** A reconnecting client, whose last message Redis lost before it subscribed *)

Lemma bits_no_colon u : str_mem ":" (@uuid_String bits_uuid u) = false.
Proof. destruct u as [|p]; [done|]. simpl. induction p as [p IH|p IH|]; simpl; [exact IH|exact IH|done]. Qed.

Definition demo_announced : any :=
  match @marshal_InAppMessage bits_uuid (fromDBInApp (demo_inapp 2 20)) with Ok j => j | Err _ => ANull end.
Definition demo_published : world :=
  set_pubsub (fun l => l ++ [(RedisChannel (@uuid_String bits_uuid 1) "u1", BJson demo_announced)]) demo_inbox.
Definition demo_stream : stream_id := MkStreamId 1 "u1" (Some 3%N).
Definition demo_gap : list InAppMessage := [fromDBInApp (demo_inapp 1 20); fromDBInApp (demo_inapp 2 20)].
Definition demo_live : stream_state :=
  MkStreamState (@InAppRepo_ListSince calm 1 "u1" 3 demo_published).2
    (Hub_Subscribe (@uuid_String bits_uuid 1) "u1" (NewHub 8)).2 1 (Live 0) (FHistory <$> demo_gap) 1 demo_published
    (Some demo_gap) (MkUnsent [] [0%nat]).

Lemma demo_live_reach : @stream_reach calm bits_uuid demo_stream demo_inbox 8 demo_live.
Proof.
  eapply rtc_l; [apply (env_world _ _ _ _ _ _ _ _ _ _ demo_published)|].
  { split; [done|]. eexists. split; [reflexivity|]. intros e ->%list_elem_of_singleton.
    exists (fromDBInApp (demo_inapp 2 20)), demo_announced. split_and!; try reflexivity.
    apply (bool_decide_unpack _). vm_compute. exact I. }
  eapply rtc_l; [by eapply env_lose|]. eapply rtc_l; [by eapply st_subscribe|].
  eapply rtc_l; [eapply (st_fetch _ _ _ _ _ _ _ _ _ _ 3%N demo_gap); vm_compute; reflexivity|].
  eapply rtc_l; [apply st_replay|]. eapply rtc_l; [apply st_replay|]. eapply rtc_l; [apply st_replayed|]. apply rtc_refl.
Qed.

Lemma stream_misses_nothing_witness :
  (0%nat ∈ us_lost (ss_unsent demo_live) /\ (ss_from demo_live <= 0)%nat) \/
  handed_on (ss_hub demo_live) 0 (ss_frames demo_live) (ss_unsent demo_live) (BJson demo_announced) \/
  exists m row, @marshal_InAppMessage bits_uuid m = Ok demo_announced /\ ir_ID row = im_ID m /\
    (row ∈ [] ++ [demo_inapp 3 10] \/ fromDBInApp row ∈ history (ss_frames demo_live)
     \/ row ∈ drop 200 [demo_inapp 1 20; demo_inapp 2 20]).
Proof.
  apply (@stream_misses_nothing calm bits_uuid bits_uuid_laws demo_stream demo_inbox 8 demo_live 0 (demo_inapp 3 10) []
    [demo_inapp 1 20; demo_inapp 2 20] 0 demo_announced bits_no_colon demo_live_reach).
  - reflexivity.
  - by eexists.
  - reflexivity.
  - reflexivity.
  - exact demo_inbox_schema.
  - vm_compute. reflexivity.
  - vm_compute. lia.
  - vm_compute. reflexivity.
Defined.

(** The heartbeat is positive, as [time.NewTicker] demands, for any configuration. *)
Lemma heartbeat_positive hb rt : 0 < it_heartbeat (NewInboxHandler hb rt).
Proof. unfold NewInboxHandler. simpl. destruct (Z.leb_spec (int64 (hb * Second)) 0); [done|lia]. Qed.
