(* ===== verification/Health.v ===== *)
(** * Health checks ([internal/observability/health.go], [internal/api/handler/health.go])

    Probes run concurrently, each writing its own slot of the result; the model runs
    them in any order of completion. *)

From S2P Require Import Prelude Time Domain Json World Http.

Record Probe := MkProbe { pb_Name : string; pb_Check : M unit }.
Record probeResult := MkProbeResult { pr_name : string; pr_err : option error }.

Definition StatusServiceUnavailable : Z := 503.

Section Health.
Context `{Env}.

(** A round trip to a service that only answers. *)
Definition ping : M unit := external (fun _ w => (Ok tt, w)).

Definition PostgresProbe : Probe := MkProbe "postgres" ping.
Definition RedisProbe : Probe := MkProbe "redis" ping.
(** Dial the first broker, then read the partitions. *)
Definition KafkaProbe (brokers : list string) : Probe :=
  MkProbe "kafka" (match brokers with [] => mret tt | _ => _ ← ping; ping end).

Definition check (p : Probe) : M probeResult :=
  r ← try (pb_Check p);
  mret (MkProbeResult (pb_Name p) (match r with Ok _ => None | Err e => Some e end)).

(** The goroutines in the order [order] in which they finish; [results] starts as
    [make([]probeResult, n)]. *)
Fixpoint run_goroutines (probes : list Probe) (order : list nat) (results : list probeResult) : M (list probeResult) :=
  match order with
  | [] => mret results
  | idx :: order' =>
      match probes !! idx with
      | Some probe => r ← check probe; run_goroutines probes order' (<[idx := r]> results)
      | None => run_goroutines probes order' results
      end
  end.
Definition runProbes (probes : list Probe) (order : list nat) : M (list probeResult) :=
  run_goroutines probes order (replicate (length probes) (MkProbeResult "" None)).

Definition json_body (status : Z) (b : any) : Response :=
  {| rs_Status := status; rs_Header := [("Content-Type", "application/json")]; rs_Body := Some b |}.

Definition Checker_Live : M Response := mret (json_body StatusOK (AObj [("status", AStr "ok")])).

Definition failed (res : probeResult) : bool := bool_decide (is_Some (pr_err res)).

Definition Checker_Ready (probes : list Probe) (order : list nat) : M Response :=
  results ← runProbes probes order;
  mret (if existsb failed results then json_body StatusServiceUnavailable (AObj [("status", AStr "degraded")])
        else json_body StatusOK (AObj [("status", AStr "ok")])).

Definition check_text (e : option error) : string :=
  match e with Some err => "unavailable: " +:+ Error err | None => "ok" end.

(** [checks[res.name] = ...] for each result. *)
Definition checks_of (results : list probeResult) : gmap string any :=
  foldl (fun m res => <[pr_name res := AStr (check_text (pr_err res))]> m) ∅ results.

Definition health_body (healthy : bool) (checks : gmap string any) : Response :=
  json_body (if healthy then StatusOK else StatusServiceUnavailable)
    (AObj ([("status", AStr (if healthy then "ok" else "degraded"))] ++ opt_map "checks" (Some checks))).

Definition Checker_Health (probes : list Probe) (order : list nat) : M Response :=
  results ← runProbes probes order;
  mret (health_body (negb (existsb failed results)) (checks_of results)).

(** handler/health.go: Postgres, then Redis, one after the other. *)
Definition HealthHandler_Health : M Response :=
  pg ← check PostgresProbe;
  rd ← check RedisProbe;
  mret (health_body (negb (existsb failed [pg; rd])) (checks_of [pg; rd])).
End Health.

(** ** Every slot is filled, whatever the order *)

Section Probes.
Context `{Env}.

(** What a slot holds: the probe's own name, and an error only if its check failed. *)
Definition reports (p : Probe) (res : probeResult) : Prop :=
  pr_name res = pb_Name p /\ match pr_err res with
    | None => exists w w', pb_Check p w = (Ok tt, w')
    | Some e => exists w w', pb_Check p w = (Err e, w')
    end.

Lemma wp_check p w : wp (check p) (fun r _ => exists res, r = Ok res /\ reports p res) w.
Proof.
  apply wp_bind, wp_try. eapply wp_mono; [apply wp_eq|]. intros r w' Hr. apply wp_ret. eexists. split; [done|].
  split; [done|]. destruct r as [[]|e]; simpl; eauto.
Qed.

Lemma wp_run_goroutines probes order results w :
  NoDup order -> length results = length probes -> Forall (fun i => (i < length probes)%nat) order ->
  wp (run_goroutines probes order results) (fun r _ => exists out, r = Ok out /\ length out = length probes /\
    forall i, (i ∈ order -> exists p res, probes !! i = Some p /\ out !! i = Some res /\ reports p res) /\
              (i ∉ order -> out !! i = results !! i)) w.
Proof.
  revert results w. induction order as [|idx order IH]; intros results w Hnd Hlen Hin; cbn [run_goroutines].
  { apply wp_ret. exists results. split_and!; [done|done|]. intros i. split; [set_solver|done]. }
  apply NoDup_cons in Hnd as [Hni Hnd]. apply Forall_cons in Hin as [Hidx Hin].
  destruct (probes !! idx) as [p|] eqn:Hp; [|apply lookup_ge_None in Hp; lia].
  apply wp_bind. eapply wp_mono; [apply wp_check|]. intros ? w' (res & -> & Hres).
  eapply wp_mono; [apply IH; [done|by rewrite length_insert|done]|]. intros ? w'' (out & -> & Hl & Hout).
  exists out. split_and!; [done|done|]. intros i. destruct (Hout i) as [Hyes Hno]. split.
  - intros [->|Hi]%elem_of_cons; [|by apply Hyes]. exists p, res. split_and!; [done| |done].
    destruct (Hout idx) as [_ ->]; [|done]. apply list_lookup_insert_eq. lia.
  - intros Hi. apply not_elem_of_cons in Hi as [Hne Hi]. rewrite Hno by done. by rewrite list_lookup_insert_ne.
Qed.

Lemma wp_runProbes probes order w :
  order ≡ₚ seq 0 (length probes) ->
  wp (runProbes probes order) (fun r _ => exists out, r = Ok out /\ Forall2 reports probes out) w.
Proof.
  intros Hp. eapply wp_mono; [apply wp_run_goroutines|].
  - rewrite Hp. apply NoDup_seq.
  - apply length_replicate.
  - apply Forall_forall. intros i. rewrite Hp, elem_of_seq. lia.
  - intros r w' (out & -> & Hl & Hout). exists out. split; [done|]. apply Forall2_same_length_lookup. split; [done|].
    intros i p res Hpi Hri. destruct (Hout i) as [Hyes _]. destruct Hyes as (p' & res' & Hp' & Hr' & Hrep).
    { rewrite Hp, elem_of_seq. apply lookup_lt_Some in Hpi. lia. }
    by simplify_eq.
Qed.
End Probes.

(** The checks of distinct probes keep their texts. *)
Lemma checks_of_lookup results res :
  NoDup (pr_name <$> results) -> res ∈ results -> checks_of results !! pr_name res = Some (AStr (check_text (pr_err res))).
Proof.
  unfold checks_of. intros Hnd Hin.
  assert (forall (rs : list probeResult) (m : gmap string any), res ∈ rs -> NoDup (pr_name <$> rs) ->
    foldl (fun m r => <[pr_name r := AStr (check_text (pr_err r))]> m) m rs !! pr_name res
      = Some (AStr (check_text (pr_err res)))) as Hgen; [|by apply Hgen].
  assert (forall (rs : list probeResult) (m : gmap string any), pr_name res ∉ pr_name <$> rs ->
    foldl (fun m r => <[pr_name r := AStr (check_text (pr_err r))]> m) m rs !! pr_name res = m !! pr_name res) as Hout.
  { induction rs as [|r rs IH]; intros m; [done|]. rewrite fmap_cons, not_elem_of_cons. intros [Hne Hn]. simpl.
    rewrite IH by done. by rewrite lookup_insert_ne. }
  induction rs as [|r rs IH]; intros m; [set_solver|]. rewrite fmap_cons, NoDup_cons. simpl.
  intros [->|Hr]%elem_of_cons [Hni Hrs]; [|by apply IH]. rewrite Hout by done. by rewrite lookup_insert_eq.
Qed.

(** [Ready] and [Health] agree with the probes in whatever order the goroutines
    finish: every probe has run and is reported under its own name; the answer is 200
    if none of them failed and 503 otherwise, and [Health] carries each one's text. *)
Theorem health_reports_every_probe `{Env} probes order w :
  order ≡ₚ seq 0 (length probes) -> NoDup (pb_Name <$> probes) ->
  exists results w', runProbes probes order w = (Ok results, w') /\ Forall2 reports probes results /\
    (exists ready, Checker_Ready probes order w = (Ok ready, w') /\
       (rs_Status ready = 200 <-> Forall (fun r => pr_err r = None) results) /\
       (rs_Status ready = 503 <-> ~ Forall (fun r => pr_err r = None) results)) /\
    exists ok, Checker_Health probes order w = (Ok (health_body ok (checks_of results)), w') /\
      (ok = true <-> Forall (fun r => pr_err r = None) results) /\
      forall r, r ∈ results -> checks_of results !! pr_name r = Some (AStr (check_text (pr_err r))).
Proof.
  intros Hp Hnd. pose proof (wp_runProbes probes order w Hp) as Hr. unfold wp in Hr.
  unfold Checker_Ready, Checker_Health, mbind, ST_bind.
  destruct (runProbes probes order w) as [r w']. destruct Hr as (results & Hr & Hrep). simpl in Hr. subst r.
  assert (existsb failed results = false <-> Forall (fun r => pr_err r = None) results) as Hall.
  { clear. induction results as [|r rs IH]; simpl; [by split|]. rewrite Forall_cons, orb_false_iff, IH. unfold failed.
    rewrite bool_decide_eq_false, <-eq_None_not_Some. done. }
  exists results, w'. split; [done|]. split; [done|]. split.
  - eexists. split; [done|]. rewrite <-Hall. destruct (existsb failed results); simpl; unfold StatusOK, StatusServiceUnavailable;
      split; split; congruence.
  - eexists. split; [done|]. rewrite negb_true_iff. split; [exact Hall|]. intros r Hin. apply checks_of_lookup; [|done].
    replace (pr_name <$> results) with (pb_Name <$> probes); [done|]. clear -Hrep.
    induction Hrep as [|p res ps rs [Hn _] _ IH]; [done|]. by rewrite !fmap_cons, IH, Hn.
Qed.

(** Redis is down, and the probes finish in the order kafka, postgres, redis. *)
Definition redis_down : Env := fun i => Event 1000 (if decide (i = 3)%nat then FailBefore "refused" else NoFault) 1 false.
Definition demo_probes : list Probe :=
  [@PostgresProbe redis_down; @RedisProbe redis_down; @KafkaProbe redis_down ["localhost:9092"]].
Lemma health_reports_every_probe_witness :
  exists ready w', @Checker_Ready demo_probes [2; 0; 1]%nat empty_world = (Ok ready, w') /\ rs_Status ready = 503.
Proof.
  destruct (@health_reports_every_probe redis_down demo_probes [2; 0; 1]%nat empty_world) as (results & w' & Hr & _ & Hready & _).
  - apply (bool_decide_unpack _). vm_compute. exact I.
  - apply (bool_decide_unpack _). vm_compute. exact I.
  - destruct Hready as (ready & He & _ & Hs). exists ready, w'. split; [exact He|]. apply Hs.
    vm_compute in Hr. injection Hr as <- _. intros Hf. apply Forall_cons_1 in Hf as [_ [Hf _]%Forall_cons_1]. discriminate Hf.
Defined.
