(* ===== verification/Router.v ===== *)
(** * The router and its middleware ([internal/api/router.go], [internal/api/middleware])

    The route table with the middleware each route sits behind, and the chain every
    request passes.  Which route a path selects is github.com/go-chi/chi. *)

From S2P Require Import Prelude Time Domain Json World Db Repository Schema Tenancy Queue.
From S2P Require Import Provider RateLimit Preference Template Notification Webhook Http Dlq Access Requests.
From S2P Require Import Handlers WsToken Stream Health.

(** ** The middleware of every request *)

Section Middleware.
Context `{Env} `{UuidText}.

Definition RequestID (next : Request -> M Response) (r : Request) : M Response :=
  let header := rq_Header r "X-Request-ID" in
  id ← (if decide (header = "") then u ← uuid_New; mret (uuid_String u) else mret header);
  resp ← next (with_id id r);
  mret (add_header "X-Request-ID" id resp).

(** [Logging] hands the request on; it only reads the status. *)
Definition Logging (next : Request -> M Response) (r : Request) : M Response :=
  resp ← next r;
  mret resp.

(** A panic, the error outcome of what it wraps, becomes a 500. *)
Definition Recovery (next : Request -> M Response) (r : Request) : M Response :=
  out ← try (next r);
  mret (match out with
        | Ok resp => resp
        | Err _ => JSONError (EApp ErrCodeInternal "an unexpected error occurred" None None) (RequestIDFromContext r)
        end).

(** The counters are updated after the handler has returned, so not for a panic. *)
Definition MetricsMiddleware (next : Request -> M (Response * string)) (r : Request) : M Response :=
  out ← next r;
  let route := if decide (out.2 = "") then "unmatched" else out.2 in
  _ ← Inc "HTTPRequests" [rq_Method r; route; pretty (rs_Status out.1)];
  _ ← Observe "HTTPDuration" [rq_Method r; route];
  mret out.1.
End Middleware.

(** ** The routes *)

(** The group a route is registered in: none, [AdminAuth], or [Auth] and [RateLimit]. *)
Inductive gate := GatePublic | GateAdmin | GateClient.

Record route_entry := MkRoute {
  rt_Method : string;           (* "" for [Handle], any method *)
  rt_Pattern : string;
  rt_Gate : gate;
  rt_Handler : Request -> M Response;
}.

(** [RouterDeps]: what the routes are configured with, and which optional handlers are
    there. *)
Record RouterDeps := MkRouterDeps {
  rd_AdminToken : string;
  rd_RateLimitRPM : Z;
  rd_maxRetries : Z;
  rd_wsToken : WSTokenService;
  rd_probes : list Probe;
  rd_DLQ : bool;
  rd_Inbox : bool;
  rd_DeviceToken : bool;
  rd_WSToken : bool;
  rd_Webhook : bool;
}.

(** chi's choice for a method and a path among registered methods and patterns: a route
    with its parameters, nothing, or a path that exists for other methods only; each with
    the pattern it walked. *)
Inductive mux_result :=
  | MuxFound (i : nat) (params : string -> string) (pattern : string)
  | MuxNotFound (pattern : string)
  | MuxMethodNotAllowed (pattern : string).
Class ChiMux := chi_find : list (string * string) -> string -> string -> mux_result.

(** The text the Prometheus handler serves. *)
Class PromText := prom_text : gmap (string * list string) Z -> string.

Section Router.
Context `{Env} `{UuidText} `{Propagator} `{RedisCommands} `{TextTemplate} `{UrlCheck} `{KeySource}
  `{Jwt} `{WsAccept} `{ChiMux} `{PromText}.
Variable deps : RouterDeps.
(** The order in which the probes of a health check finish. *)
Variable probe_order : list nat.

Definition Metrics_Handler (r : Request) : M Response :=
  m ← gets w_metrics;
  mret {| rs_Status := 200; rs_Header := [("Content-Type", "text/plain; version=0.0.4")];
          rs_Body := Some (AStr (prom_text m)) |}.

(** [Stream] up to the upgrade; the connection itself is [stream_step]. *)
Definition InboxHandler_Stream (r : Request) : M Response :=
  out ← Stream_open (rd_wsToken deps) r;
  mret (match out with
        | inl resp => resp
        | inr _ => {| rs_Status := 101; rs_Header := [("Upgrade", "websocket")]; rs_Body := None |}
        end).

Definition when {A} (b : bool) (l : list A) : list A := if b then l else [].

Definition routes : list route_entry :=
  [MkRoute "" "/metrics" GatePublic Metrics_Handler;
   MkRoute "GET" "/livez" GatePublic (fun _ => Checker_Live);
   MkRoute "GET" "/readyz" GatePublic (fun _ => Checker_Ready (rd_probes deps) probe_order);
   MkRoute "GET" "/health" GatePublic (fun _ => Checker_Health (rd_probes deps) probe_order);
   MkRoute "POST" "/internal/tenants/" GateAdmin TenantHandler_CreateTenant;
   MkRoute "POST" "/internal/tenants/{id}/api-keys" GateAdmin TenantHandler_CreateAPIKey]
  ++ when (rd_DLQ deps)
  [MkRoute "GET" "/internal/dlq/" GateAdmin DLQ_List;
   MkRoute "GET" "/internal/dlq/{id}" GateAdmin DLQ_GetByID;
   MkRoute "POST" "/internal/dlq/{id}/replay" GateAdmin (DLQ_Replay (rd_maxRetries deps));
   MkRoute "DELETE" "/internal/dlq/{id}" GateAdmin DLQ_Delete]
  ++
  [MkRoute "POST" "/api/v1/notifications/" GateClient (NotificationHandler_Send (rd_maxRetries deps));
   MkRoute "POST" "/api/v1/notifications/bulk" GateClient (NotificationHandler_SendBulk (rd_maxRetries deps));
   MkRoute "GET" "/api/v1/notifications/" GateClient NotificationHandler_List;
   MkRoute "GET" "/api/v1/notifications/{id}" GateClient NotificationHandler_GetByID;
   MkRoute "DELETE" "/api/v1/notifications/{id}" GateClient NotificationHandler_Cancel;
   MkRoute "POST" "/api/v1/templates/" GateClient TemplateHandler_Create;
   MkRoute "GET" "/api/v1/templates/" GateClient TemplateHandler_List;
   MkRoute "GET" "/api/v1/templates/{id}" GateClient TemplateHandler_GetByID;
   MkRoute "PUT" "/api/v1/templates/{id}" GateClient TemplateHandler_Update;
   MkRoute "DELETE" "/api/v1/templates/{id}" GateClient TemplateHandler_Delete;
   MkRoute "POST" "/api/v1/templates/{id}/preview" GateClient TemplateHandler_Preview;
   MkRoute "GET" "/api/v1/users/{user_id}/preferences/" GateClient PreferenceHandler_ListByUser;
   MkRoute "PUT" "/api/v1/users/{user_id}/preferences/{channel}" GateClient PreferenceHandler_Upsert;
   MkRoute "DELETE" "/api/v1/users/{user_id}/preferences/{channel}" GateClient PreferenceHandler_Delete]
  ++ when (rd_WSToken deps)
  [MkRoute "POST" "/api/v1/ws-token" GateClient (WSTokenHandler_Issue (rd_wsToken deps))]
  ++ when (rd_DeviceToken deps)
  [MkRoute "POST" "/api/v1/device-tokens/" GateClient DeviceTokenHandler_Register;
   MkRoute "DELETE" "/api/v1/device-tokens/{token}" GateClient DeviceTokenHandler_Deregister]
  ++ when (rd_Inbox deps)
  [MkRoute "GET" "/api/v1/inbox/" GateClient InboxHandler_List;
   MkRoute "GET" "/api/v1/inbox/unread-count" GateClient InboxHandler_UnreadCount;
   MkRoute "POST" "/api/v1/inbox/read-all" GateClient InboxHandler_MarkAllRead;
   MkRoute "POST" "/api/v1/inbox/{id}/read" GateClient InboxHandler_MarkRead]
  ++ when (rd_Webhook deps)
  [MkRoute "POST" "/api/v1/webhooks/" GateClient WebhookHandler_Create;
   MkRoute "GET" "/api/v1/webhooks/" GateClient WebhookHandler_List;
   MkRoute "GET" "/api/v1/webhooks/{id}" GateClient WebhookHandler_GetByID;
   MkRoute "PUT" "/api/v1/webhooks/{id}" GateClient WebhookHandler_Update;
   MkRoute "DELETE" "/api/v1/webhooks/{id}" GateClient WebhookHandler_Delete]
  ++ when (rd_Inbox deps)
  [MkRoute "GET" "/api/v1/inbox/stream" GatePublic InboxHandler_Stream].

(** A path below a mounted subrouter passes its group's middleware even when nothing
    below it matches. *)
Definition mounts : list (string * gate) :=
  [("/internal/tenants", GateAdmin)]
  ++ when (rd_DLQ deps) [("/internal/dlq", GateAdmin)]
  ++ [("/api/v1", GateClient)].
Definition below (mount path : string) : bool :=
  bool_decide (path = mount) || String.prefix (mount +:+ "/") path.
Definition gate_of_path (path : string) : gate :=
  match List.find (fun m => below m.1 path) mounts with Some (_, g) => g | None => GatePublic end.

Definition guard (g : gate) (h : Request -> M Response) : Request -> M Response :=
  match g with
  | GatePublic => h
  | GateAdmin => AdminAuth (rd_AdminToken deps) h
  | GateClient => Auth (RateLimitMiddleware (rd_RateLimitRPM deps) (fun client r => h (with_client client r)))
  end.

Definition NotFound : Response := http_Error "404 page not found" 404.
Definition MethodNotAllowed : Response := {| rs_Status := 405; rs_Header := []; rs_Body := None |}.

Definition registered : list (string * string) := (fun e => (rt_Method e, rt_Pattern e)) <$> routes.

(** The routed request: its answer and the pattern it took. *)
Definition dispatch (r : Request) : M (Response * string) :=
  match chi_find registered (rq_Method r) (rq_Path r) with
  | MuxFound i params pattern =>
      match routes !! i with
      | Some e => resp ← guard (rt_Gate e) (rt_Handler e) (with_params params r); mret (resp, pattern)
      | None => mret (NotFound, pattern)
      end
  | MuxNotFound pattern =>
      resp ← guard (gate_of_path (rq_Path r)) (fun _ => mret NotFound) r; mret (resp, pattern)
  | MuxMethodNotAllowed pattern =>
      resp ← guard (gate_of_path (rq_Path r)) (fun _ => mret MethodNotAllowed) r; mret (resp, pattern)
  end.

(** A request as the server hands it over has nothing in its context. *)
Definition fresh_context (r : Request) : Request :=
  MkRequest (rq_Method r) (rq_Path r) (rq_Header r) (rq_Query r) (fun _ => "") (rq_Body r) "" None.

Definition ServeHTTP (r : Request) : M Response :=
  RequestID (Logging (Recovery (MetricsMiddleware dispatch))) (fresh_context r).
End Router.

(** ** No request panics *)

Create HintDb handlers.

#[global] Instance total_respond {A} (m : M A) reqID ok : Total (respond m reqID ok).
Proof. unfold respond. apply _. Qed.
#[global] Instance total_with_body {A} `{Decodable A} r (k : A -> M Response) :
  (forall a, Total (k a)) -> Total (with_body r k).
Proof. intros. unfold with_body. apply _. Qed.
#[global] Instance total_with_id_param `{UuidText} r msg k : (forall id, Total (k id)) -> Total (with_id_param r msg k).
Proof. intros. unfold with_id_param. apply _. Qed.
#[global] Instance total_with_channel r k : (forall c, Total (k c)) -> Total (with_channel r k).
Proof. intros. unfold with_channel. apply _. Qed.
#[global] Instance total_with_recipient r k : (forall c, Total (k c)) -> Total (with_recipient r k).
Proof. intros. unfold with_recipient. apply _. Qed.
#[global] Instance total_with_tenant_id `{UuidText} r k : (forall t i, Total (k t i)) -> Total (with_tenant_id r k).
Proof. intros. unfold with_tenant_id. apply _. Qed.
#[global] Instance total_Inc name ls : Total (Inc name ls).
Proof. done. Qed.
#[global] Instance total_Observe name ls : Total (Observe name ls).
Proof. done. Qed.

(** Behind [Auth] the client is there. *)
Lemma total_with_tenant r c k : rq_Client r = Some c -> (forall t, Total (k t)) -> Total (with_tenant r k).
Proof. intros Hc Hk. unfold with_tenant, ClientFromContext. rewrite Hc. apply Hk. Qed.

(** A fact of every route, checked group by group. *)
Lemma Forall_when {A} (P : A -> Prop) b l : Forall P l -> Forall P (when b l).
Proof. by destruct b. Qed.
Ltac each_route := unfold routes; repeat first
  [ apply Forall_nil_2 | apply Forall_cons_2 | apply Forall_when | apply Forall_app_2 ]; cbn [rt_Handler rt_Gate].

Section Progress.
Context `{Env} `{UuidText} `{Propagator} `{RedisCommands} `{TextTemplate} `{UrlCheck} `{KeySource}
  `{Jwt} `{WsAccept} `{ChiMux} `{PromText}.
Variables (deps : RouterDeps) (probe_order : list nat).

Lemma total_send_each maxRetries t req rs : Total (send_each maxRetries t req rs).
Proof. induction rs as [|r rs IH]; cbn [send_each]; apply _. Qed.

Lemma total_run_goroutines probes order results : Total (run_goroutines probes order results).
Proof.
  revert results. induction order as [|i order IH]; intros results; cbn [run_goroutines]; [apply _|].
  unfold check. destruct (probes !! i); [apply total_bind; [apply _|intros; apply IH]|apply IH].
Qed.

#[local] Hint Unfold Metrics_Handler Checker_Live TenantHandler_CreateTenant TenantHandler_CreateAPIKey
  DLQ_List DLQ_GetByID DLQ_Replay DLQ_Delete InboxHandler_Stream Stream_open
  WSTokenHandler_Issue : handlers.

(** Every handler answers, given the client of a route behind [Auth]. *)
Lemma handlers_total r :
  Forall (fun e => (rt_Gate e = GateClient -> is_Some (rq_Client r)) -> Total (rt_Handler e r)) (routes deps probe_order).
Proof.
  each_route; intros Hc;
    try (destruct (Hc eq_refl) as [c Hr]; eapply total_with_tenant; [exact Hr|]; intros t); autounfold with handlers; try apply _.
  - unfold Checker_Ready, runProbes. apply total_bind; [apply total_run_goroutines|apply _].
  - unfold Checker_Health, runProbes. apply total_bind; [apply total_run_goroutines|apply _].
  - apply total_with_body. intros req. unfold SendBulk.
    apply total_bind; [destruct (validate_Struct req); [apply _|apply total_send_each]|apply _].
Qed.

Lemma guard_total g h r :
  (forall r', (g = GateClient -> is_Some (rq_Client r')) -> Total (h r')) -> Total (guard deps g h r).
Proof.
  intros Hh. destruct g; cbn [guard]; [by apply Hh| |].
  - unfold AdminAuth. destruct (decide _); [apply _|]. destruct (_ || _); [apply _|]. by apply Hh.
  - unfold Auth. apply total_bind; [unfold authenticate; apply _|]. intros [resp|client]; [apply _|].
    unfold RateLimitMiddleware. assert (Total (h (with_client client r))) by (apply Hh; simpl; eauto). apply _.
Qed.

Lemma dispatch_total r : Total (dispatch deps probe_order r).
Proof.
  unfold dispatch. destruct (chi_find _ _ _) as [i params pat|pat|pat].
  2, 3: apply total_bind; [apply guard_total; apply _|apply _].
  destruct (routes deps probe_order !! i) as [e|] eqn:He; [|apply _].
  apply total_bind; [|apply _]. apply guard_total. intros r'.
  apply (Forall_lookup_1 _ _ _ _ (handlers_total r') He).
Qed.
End Progress.

(** The series a request is counted under. *)
Definition route_label (pattern : string) : string := if decide (pattern = "") then "unmatched" else pattern.

(** C21. Every request is answered: whatever the method, path, headers, body and the state
    of the services, the routed handler returns (a stream request: up to the upgrade of
    its connection) without reading a client that [Auth] has not put into the context,
    the nil dereference that the recovery middleware would turn into a 500.  The answer
    carries the request id, the client's own if it sent one, and is counted once, under
    its method, status and the pattern of its route (never its path), and under no other
    series; the middleware around the handler changes no table. *)
Theorem requests_always_answered `{Env} `{UuidText} `{Propagator} `{RedisCommands} `{TextTemplate} `{UrlCheck}
    `{KeySource} `{Jwt} `{WsAccept} `{ChiMux} `{PromText} deps order r w :
  exists id w1 resp pattern w2 w3,
    dispatch deps order (with_id id (fresh_context r)) w1 = (Ok (resp, pattern), w2) /\
    ServeHTTP deps order r w = (Ok (add_header "X-Request-ID" id resp), w3) /\
    (rq_Header r "X-Request-ID" <> "" -> id = rq_Header r "X-Request-ID") /\
    w_db w1 = w_db w /\ w_db w3 = w_db w2 /\
    forall labels, metric w3 "HTTPRequests" labels = metric w2 "HTTPRequests" labels
      + (if decide (labels = [rq_Method r; route_label pattern; pretty (rs_Status resp)]) then 1 else 0).
Proof.
  unfold ServeHTTP, RequestID. set (hdr := rq_Header (fresh_context r) "X-Request-ID").
  assert (exists id w1, (if decide (hdr = "") then u ← uuid_New; mret (uuid_String u) else mret hdr : M string) w = (Ok id, w1)
    /\ w_db w1 = w_db w /\ (hdr <> "" -> id = hdr)) as (id & w1 & Hid & Hdb & Hgiven).
  { destruct (decide (hdr = "")); [eexists _, (advance 0 w); split; [done|]; by destruct w|by exists hdr, w]. }
  unfold mbind at 1, ST_bind at 1. rewrite Hid.
  destruct (total_run (dispatch deps order (with_id id (fresh_context r))) w1 (dispatch_total deps order _))
    as ([resp pattern] & w2 & Hd).
  set (route := route_label pattern).
  set (inc := (Inc "HTTPRequests" [rq_Method r; route; pretty (rs_Status resp)] w2).2).
  exists id, w1, resp, pattern, w2, (Observe "HTTPDuration" [rq_Method r; route] inc).2.
  split; [done|]. split.
  { unfold Logging, Recovery, MetricsMiddleware, mbind, ST_bind, try. rewrite Hd. done. }
  split; [done|]. split; [done|]. split; [by destruct w2|]. intros labels.
  unfold Observe, inc, Inc. rewrite !metric_add_metric.
  rewrite (decide_False (P := (("HTTPDuration" +:+ "_count")%string, _) = _)) by (injection 1; discriminate).
  rewrite Z.add_0_r. fold route. destruct (decide (labels = _)) as [->|Hne]; [by rewrite decide_True|].
  by rewrite decide_False by congruence.
Qed.
