(* ===== verification/Isolation.v ===== *)
(** * Isolation of whole requests

    What the rows of one tenant are safe from: any request to the API that does not
    carry a key of that tenant or the admin token. *)

From S2P Require Import Prelude Strings Time Domain Json World Db Repository Schema Tenancy Queue.
From S2P Require Import Provider RateLimit Preference Template Notification Webhook Http Dlq Access Requests.
From S2P Require Import Handlers WsToken Stream Health Router.

Create HintDb services.

Section Services.
Context `{Env} `{UuidText} `{Propagator} `{RedisCommands} `{TextTemplate} `{UrlCheck} `{KeySource} `{Jwt}.
Variables (t : uuid) (maxRetries : Z).
(** The tables as the request finds them. *)
Variable d0 : db.
Abbreviation f0 := (foreign t d0).
Abbreviation safe m := (Keeps (untouched t f0) m).

(** The repository methods the services call for the tenant. *)
#[local] Ltac method := apply (tenant_method_isolated t); by constructor.
#[local] Instance safe_notification_get id : safe (NotificationRepo_GetByID t id). Proof. method. Qed.
#[local] Instance safe_notification_idem k : safe (NotificationRepo_GetByIdempotencyKey t k). Proof. method. Qed.
#[local] Instance safe_notification_list f : safe (NotificationRepo_List t f). Proof. method. Qed.
#[local] Instance safe_notification_cancel id : safe (NotificationRepo_Cancel t id). Proof. method. Qed.
#[local] Instance safe_notification_create req : safe (NotificationRepo_Create t req). Proof. method. Qed.
#[local] Instance safe_template_create req : safe (TemplateRepo_Create t req). Proof. method. Qed.
#[local] Instance safe_template_get id : safe (TemplateRepo_GetByID t id). Proof. method. Qed.
#[local] Instance safe_template_list c p pp : safe (TemplateRepo_List t c p pp). Proof. method. Qed.
#[local] Instance safe_template_update id req : safe (TemplateRepo_Update t id req). Proof. method. Qed.
#[local] Instance safe_template_delete id : safe (TemplateRepo_Delete t id). Proof. method. Qed.
#[local] Instance safe_preference_list u : safe (PreferenceRepo_ListByUser t u). Proof. method. Qed.
#[local] Instance safe_preference_upsert u c req : safe (PreferenceRepo_Upsert t u c req). Proof. method. Qed.
#[local] Instance safe_preference_delete u c : safe (PreferenceRepo_Delete t u c). Proof. method. Qed.
#[local] Instance safe_inapp_unread r : safe (InAppRepo_CountUnread t r). Proof. method. Qed.
#[local] Instance safe_inapp_read id r : safe (InAppRepo_MarkRead t id r). Proof. method. Qed.
#[local] Instance safe_inapp_all_read r : safe (InAppRepo_MarkAllRead t r). Proof. method. Qed.
#[local] Instance safe_endpoint_get id : safe (WebhookRepo_GetEndpoint t id). Proof. method. Qed.
#[local] Instance safe_endpoint_list : safe (WebhookRepo_ListEndpoints t). Proof. method. Qed.
#[local] Instance safe_endpoint_delete id : safe (WebhookRepo_DeleteEndpoint t id). Proof. method. Qed.
#[local] Instance safe_token_upsert req : safe (DeviceTokenRepo_Upsert t req). Proof. method. Qed.
#[local] Instance safe_token_deactivate k : safe (DeviceTokenRepo_Deactivate t k). Proof. method. Qed.
#[local] Instance safe_inapp_list r recipient : safe (InAppRepo_List (inbox_query r t recipient)). Proof. method. Qed.

#[local] Instance frame_Publish_tables topic key payload : Frame w_db (Queue.Publish topic key payload).
Proof. apply frame_or_else, frame_external; [apply _|]. by intros ? []. Qed.
#[local] Instance frame_AllowKey_tables key win cap : Frame w_db (AllowKey key win cap).
Proof.
  unfold AllowKey, now. apply frame_bind; [apply _|]. intros a. apply frame_bind; [|apply _].
  apply frame_or_else, frame_external; [apply _|]. by intros ? [].
Qed.
(** What leaves the tables alone is safe. *)
#[local] Instance safe_tables {A} (m : M A) : Frame w_db m -> safe m | 50.
Proof. intros Hm. by apply isolated_frame. Qed.

(** [UpdateStatus] goes by the id alone: it is safe for an id of the tenant. *)
Definition owned (id : uuid) (w : world) : Prop :=
  forall row, row ∈ notifications (w_db w) -> nr_ID row = id -> nr_TenantID row = Some t.

Lemma wp_UpdateStatus_safe id status w :
  owned id w -> untouched t f0 w -> wp (NotificationRepo_UpdateStatus id status) (fun _ => untouched t f0) w.
Proof.
  intros Hown [Hf Hu]. apply wp_bind, wp_or_else, wp_sql; [intros dt m; by destruct w|]. intros dt u n m.
  unfold update_returning.
  assert (foreign t (set_notifications (update_where (fun r => bool_decide (nr_ID r = id)) (set_status status n)) (w_db w))
    = foreign t (w_db w)) as Hf'.
  { unfold owned in Hown. unfold foreign, foreign_deliveries. destruct (w_db w). simpl in *.
    replace (foreign_opt nr_TenantID t (update_where _ _ _)) with (foreign_opt nr_TenantID t notifications); [done|].
    symmetry. apply where_update_disjoint_in. intros r Hr Hid%bool_decide_eq_true.
    specialize (Hown r Hr Hid). destruct r. simpl in *. subst. unfold null_eq. by rewrite bool_decide_eq_true_2. }
  assert (endpoints_unique (set_notifications (update_where (fun r => bool_decide (nr_ID r = id)) (set_status status n)) (w_db w)))
    as Hu' by by destruct (w_db w).
  rewrite Hf in Hf'. unfold untouched. destruct (where_ _ _); simpl; (split; [|try apply wp_ret]); by destruct w.
Qed.

Lemma safe_create_and_enqueue req : safe (create_and_enqueue maxRetries t req).
Proof.
  intros w Hw. assert (wp (create_and_enqueue maxRetries t req) (fun _ => untouched t f0) w) as Hwp; [|exact Hwp].
  apply wp_bind. eapply wp_mono; [apply wp_and; [apply (wp_Create t req w); reflexivity|
    apply (wp_keeps (untouched t f0)); [apply _|exact Hw]]|].
  intros [n|e] w1 [Hc Hf]; [|done]. apply wp_bind, wp_gets. destruct (match _ with Some _ => _ | None => _ end); [done|].
  apply wp_bind. eapply wp_mono; [apply (wp_frame w_db); unfold enqueue, now; apply _|].
  intros [[]|e] w2 Hd2; [|by unfold untouched; rewrite Hd2].
  apply wp_bind. eapply wp_mono; [apply (wp_frame w_db); unfold Inc; apply _|].
  intros [[]|e] w3 Hd3; [|by unfold untouched; rewrite Hd3, Hd2].
  apply wp_UpdateStatus_safe; [|by unfold untouched; rewrite Hd3, Hd2].
  destruct Hc as (row & Hv & -> & (u & ct & ->) & Hni). intros x. rewrite Hd3, Hd2. injection Hv as Hn _. rewrite Hn.
  intros [Hx| ->%list_elem_of_singleton]%elem_of_app Hid; [|done]. exfalso. apply Hni. simpl in *. rewrite <-Hid.
  by apply list_elem_of_fmap_2.
Qed.

#[local] Instance safe_Send req : safe (Send maxRetries t req).
Proof.
  unfold Send. destruct (validate_Struct req); [apply _|]. apply keeps_bind; [apply _|]. intros [n|]; [apply _|].
  apply safe_create_and_enqueue.
Qed.
#[local] Instance safe_send_each req rs : safe (send_each maxRetries t req rs).
Proof. induction rs as [|r rs IH]; cbn [send_each]; apply _. Qed.

#[local] Hint Unfold with_body with_id_param with_channel with_recipient SendBulk NotificationService_GetByID
  NotificationService_List NotificationService_Cancel TemplateService_Create TemplateService_GetByID TemplateService_List
  TemplateService_Update TemplateService_Delete Preview PreferenceService_ListByUser PreferenceService_Upsert
  PreferenceService_Delete WebhookService_Create WebhookService_List WebhookService_GetByID WebhookService_Update
  WebhookService_Delete DeviceTokenService_Register DeviceTokenService_Deregister WSToken_Issue now : services.

(** What a handler does for the client it finds. *)
Lemma safe_with_tenant r k : (forall c, rq_Client r = Some c -> ac_TenantID c = t) -> safe (k t) -> safe (with_tenant r k).
Proof.
  intros Hc Hk. unfold with_tenant, ClientFromContext. destruct (rq_Client r) as [c|]; [|apply _]. by rewrite (Hc c eq_refl).
Qed.

#[local] Hint Extern 1 (Keeps _ (WebhookRepo_CreateEndpoint _)) =>
  apply (tenant_method_isolated t), TM_endpoint_create; reflexivity : typeclass_instances.
#[local] Hint Extern 1 (Keeps _ (WebhookRepo_UpdateEndpoint _)) =>
  apply (tenant_method_isolated t), TM_endpoint_update; reflexivity : typeclass_instances.

Context `{WsAccept} `{ChiMux} `{PromText}.
Variables (deps : RouterDeps) (probe_order : list nat).
Hypothesis deps_retries : rd_maxRetries deps = maxRetries.

Lemma handlers_safe r :
  (forall c, rq_Client r = Some c -> ac_TenantID c = t) ->
  Forall (fun e => rt_Gate e = GateClient -> safe (rt_Handler e r)) (routes deps probe_order).
Proof using deps_retries.
  intros Hc. each_route; intros Hg; try discriminate Hg; rewrite ?deps_retries;
    (apply safe_with_tenant; [exact Hc|]); autounfold with services; try apply _.
Qed.
End Services.

Section Requests.
Context `{Env} `{UuidText} `{Propagator} `{RedisCommands} `{TextTemplate} `{UrlCheck} `{KeySource} `{Jwt} `{WsAccept}
  `{ChiMux} `{PromText}.
Variables (deps : RouterDeps) (probe_order : list nat).
Hypothesis probes_read : Forall (fun p => Frame w_db (pb_Check p)) (rd_probes deps).

Lemma frame_run_goroutines order results : Frame w_db (run_goroutines (rd_probes deps) order results).
Proof using probes_read.
  revert results. induction order as [|i order IH]; intros results; cbn [run_goroutines]; [apply _|].
  destruct (rd_probes deps !! i) as [p|] eqn:Hp; [|apply IH]. apply frame_bind; [|intros; apply IH].
  assert (Frame w_db (pb_Check p)) by apply (Forall_lookup_1 _ _ _ _ probes_read Hp). unfold check. apply _.
Qed.

(** The open routes leave the tables alone. *)
Lemma public_frames r :
  Forall (fun e => rt_Gate e = GatePublic -> Frame w_db (rt_Handler e r)) (routes deps probe_order).
Proof using probes_read.
  each_route; intros Hg; try discriminate Hg; unfold Metrics_Handler, Checker_Live, Checker_Ready, Checker_Health, runProbes,
    InboxHandler_Stream, Stream_open, WSToken_Verify, now, Inc.
  all: try (apply frame_bind; [apply frame_run_goroutines|]); apply _.
Qed.

(** What [guard] lets a request do to the tables. *)
Definition confined (r : Request) (w w' : world) : Prop :=
  w_db w' = w_db w \/
  (rd_AdminToken deps <> "" /\ rq_Header r "X-Admin-Token" = rd_AdminToken deps) \/
  exists row, row ∈ api_clients (w_db w) /\ cr_ApiKeyHash row = hashKey (rq_Header r "X-API-Key") /\
    cr_IsActive row = true /\
    foreign (ac_TenantID (client_of row)) (w_db w') = foreign (ac_TenantID (client_of row)) (w_db w).

Lemma guard_confined g h r w :
  (g = GatePublic -> Frame w_db (h r)) ->
  (g = GateClient -> forall client d0,
     Keeps (untouched (ac_TenantID client) (foreign (ac_TenantID client) d0)) (h (with_client client r))) ->
  endpoints_unique (w_db w) -> confined r w (guard deps g h r w).2.
Proof.
  intros Hpub Hcl Hu. destruct g; cbn [guard].
  - left. by apply Hpub.
  - unfold AdminAuth. destruct (decide _) as [He|He]; [by left|].
    destruct (bool_decide_reflect (rd_AdminToken deps = "")); simpl; [by left|].
    destruct (bool_decide_reflect (rq_Header r "X-Admin-Token" = rd_AdminToken deps)); [|by left]. right. by left.
  - unfold Auth, mbind, ST_bind. pose proof (wp_authenticate r w) as Ha. unfold wp in Ha.
    destruct (authenticate r w) as [out w1]. destruct Ha as (Hd & who & Hout & Hwho & _). simpl in *. subst out.
    destruct who as [resp|client]; [left; done|]. right. right. destruct Hwho as (row & rest & Hrow & _ & ->).
    assert (row ∈ where_ (fun x => bool_decide (cr_ApiKeyHash x = hashKey (rq_Header r "X-API-Key")) && cr_IsActive x)
      (api_clients (w_db w))) as [Hk Hin]%elem_of_where by (rewrite Hrow; set_solver).
    apply andb_true_iff in Hk as [Hk%bool_decide_eq_true Hact]. exists row. split_and!; try done.
    rewrite <-Hd. rewrite <-Hd in Hu. specialize (Hcl eq_refl (client_of row)).
    assert (Keeps (untouched (ac_TenantID (client_of row)) (foreign (ac_TenantID (client_of row)) (w_db w1)))
      (RateLimitMiddleware (rd_RateLimitRPM deps) (fun client r => h (with_client client r)) (client_of row) r)) as Hf;
      [|by apply (Hf w1)].
    unfold RateLimitMiddleware, Inc. apply keeps_bind; [apply keeps_try, isolated_frame|].
    + unfold AllowKey, now. apply frame_bind; [apply _|]. intros a. apply frame_bind; [|apply _].
      apply frame_or_else, frame_external; [apply _|]. by intros ? [].
    + intros [[]|e]; try (apply keeps_bind; [apply isolated_frame, _|intros _]); first [apply Hcl | apply isolated_frame, _].
Qed.

Lemma dispatch_confined r w : endpoints_unique (w_db w) -> confined r w (dispatch deps probe_order r w).2.
Proof using probes_read.
  intros Hu. unfold dispatch. assert (forall (m : M Response) (pat : string) w, (resp ← m; mret (resp, pat) : M (Response * string)) w
    = ((match (m w).1 with Ok resp => Ok (resp, pat) | Err e => Err e end), (m w).2)) as Hbind.
  { intros m pat w'. unfold mbind, ST_bind. by destruct (m w') as [[] ?]. }
  destruct (chi_find _ _ _) as [i params pat|pat|pat].
  2, 3: rewrite Hbind; apply guard_confined; intros; done || apply _.
  destruct (routes deps probe_order !! i) as [e|] eqn:He; [|by left]. rewrite Hbind.
  apply (guard_confined (rt_Gate e) (rt_Handler e) (with_params params r) w).
  - apply (Forall_lookup_1 _ _ _ _ (public_frames _) He).
  - intros Hg client d0. eapply (Forall_lookup_1 _ _ _ _ (handlers_safe (ac_TenantID client) (rd_maxRetries deps) d0 deps probe_order
      eq_refl (with_client client (with_params params r)) _) He Hg). Unshelve. by intros c [= <-].
  - exact Hu.
Qed.
End Requests.

(** C9. A request changes only its own tenant's rows: whatever a request to the API asks
    for, it changes nothing at all, or it carries the admin token, or it carries the key
    of an active client and every row of every other tenant (a webhook delivery is its
    endpoint's tenant's), the tenants and the delivery log stay as they are. *)
Theorem requests_isolate_tenants `{Env} `{UuidText} `{Propagator} `{RedisCommands} `{TextTemplate} `{UrlCheck}
    `{KeySource} `{Jwt} `{WsAccept} `{ChiMux} `{PromText} deps order r w :
  schema w -> Forall (fun p => Frame w_db (pb_Check p)) (rd_probes deps) ->
  confined deps r w (ServeHTTP deps order r w).2.
Proof.
  intros Hs Hp. unfold ServeHTTP, RequestID. set (hdr := rq_Header (fresh_context r) "X-Request-ID").
  assert (exists id w1, (if decide (hdr = "") then u ← uuid_New; mret (uuid_String u) else mret hdr : M string) w = (Ok id, w1)
    /\ w_db w1 = w_db w) as (id & w1 & Hid & Hdb).
  { destruct (decide (hdr = "")); [eexists _, (advance 0 w); split; [done|]; by destruct w|by exists hdr, w]. }
  unfold mbind at 1, ST_bind at 1. rewrite Hid.
  pose proof (dispatch_confined deps order Hp (with_id id (fresh_context r)) w1) as Hc.
  specialize (Hc ltac:(rewrite Hdb; apply Hs)). unfold confined in *. rewrite Hdb in Hc.
  unfold Logging, Recovery, MetricsMiddleware, Inc, Observe, mbind, ST_bind, try.
  destruct (dispatch deps order (with_id id (fresh_context r)) w1) as [[[resp pat]|e] w2]; [|exact Hc].
  assert (w_db (metric_add ("HTTPDuration" +:+ "_count") [rq_Method (with_id id (fresh_context r));
      if decide (pat = "") then "unmatched" else pat] 1 (metric_add "HTTPRequests"
      [rq_Method (with_id id (fresh_context r)); if decide (pat = "") then "unmatched" else pat; pretty (rs_Status resp)] 1 w2).2).2
    = w_db w2) as Hw by by destruct w2.
  simpl in *. rewrite Hw. exact Hc.
Qed.

(** ** A routed request, evaluated *)

(** Patterns matched segment by segment, the first registered one first. *)
Fixpoint match_segments (pattern path : list string) : option (list (string * string)) :=
  match pattern, path with
  | [], [] => Some []
  | p :: pattern', s :: path' =>
      rest ← match_segments pattern' path';
      if HasPrefix p "{" then Some ((TrimPrefix p "{", s) :: rest) else if decide (p = s) then Some rest else None
  | _, _ => None
  end.
Definition url_param (params : list (string * string)) (name : string) : string :=
  match List.find (fun kv => String.eqb kv.1 (name +:+ "}")) params with Some (_, v) => v | None => "" end.
Fixpoint first_route (i : nat) (l : list (string * string)) (method path : string) (seen : bool) : mux_result :=
  match l with
  | [] => if seen then MuxMethodNotAllowed "" else MuxNotFound ""
  | (m, pattern) :: l' =>
      match match_segments (Split "/" pattern) (Split "/" path) with
      | Some params =>
          if decide (m = "" \/ m = method) then MuxFound i (url_param params) pattern
          else first_route (S i) l' method path true
      | None => first_route (S i) l' method path seen
      end
  end.
Definition segment_mux : ChiMux := fun l method path => first_route 0 l method path false.

(** A client of tenant 1, a template of tenant 2, and the client asking to delete it. *)
Definition two_tenants : world :=
  set_db (set_templates (fun _ => [demo_template 2]))
    (@TenantService_CreateAPIKey calm demo_keys 1 (MkCreateAPIKeyRequest "ci") demo_tenants).2.
Definition demo_deps : RouterDeps :=
  {| rd_AdminToken := "root"; rd_RateLimitRPM := 100; rd_maxRetries := 3; rd_wsToken := demo_tokens;
     rd_probes := [@PostgresProbe calm; @RedisProbe calm]; rd_DLQ := true; rd_Inbox := true; rd_DeviceToken := true;
     rd_WSToken := true; rd_Webhook := true |}.
Definition delete_foreign : Request :=
  {| rq_Method := "DELETE"; rq_Path := "/api/v1/templates/" +:+ @uuid_String bits_uuid 7;
     rq_Header := fun k => if String.eqb k "X-API-Key" then "k" else ""; rq_Query := fun _ => ""; rq_Param := fun _ => "";
     rq_Body := BodyEmpty; rq_ID := ""; rq_Client := None |}.
Definition demo_serve (r : Request) (w : world) : result Response * world :=
  @ServeHTTP calm bits_uuid demo_trace redis_ref plain_text (fun _ => true) demo_keys clear_jwt (fun _ => None) segment_mux
    (fun _ => "") demo_deps [0%nat; 1%nat] r w.

Lemma two_tenants_schema : schema two_tenants.
Proof.
  split; try (apply (bool_decide_unpack _); vm_compute; exact I);
    intros l Hl; change (l ∈ []) in Hl; by apply not_elem_of_nil in Hl.
Qed.

Lemma requests_isolate_tenants_witness :
  (exists resp, (demo_serve delete_foreign two_tenants).1 = Ok resp /\ rs_Status resp = 404) /\
  @confined demo_keys demo_deps delete_foreign two_tenants (demo_serve delete_foreign two_tenants).2.
Proof.
  split; [vm_compute; eexists; split; reflexivity|].
  apply (@requests_isolate_tenants calm bits_uuid demo_trace redis_ref plain_text (fun _ => true) demo_keys clear_jwt
    (fun _ => None) segment_mux (fun _ => "") demo_deps [0%nat; 1%nat] delete_foreign two_tenants two_tenants_schema).
  repeat constructor; unfold pb_Check; simpl; unfold ping; apply frame_external; done || apply _.
Defined.
