(* ===== verification/Logging.v ===== *)
(** * Structured logging ([internal/observability/logging.go], [buildLogger] of [cmd/])

    [log/slog]'s handler interface as a class, the [TraceHandler] that wraps any handler,
    and the logger the processes build from it.  The wrapped JSON handler is an instance of
    the interface that is left open. *)

From S2P Require Import Prelude.

(** ** log/slog *)

Inductive Level := LevelDebug | LevelInfo | LevelWarn | LevelError.
Definition level_value (l : Level) : Z :=
  match l with LevelDebug => -4 | LevelInfo => 0 | LevelWarn => 4 | LevelError => 8 end.

Definition Attr : Type := string * any.
Record LogRecord := MkLogRecord { lg_Level : Level; lg_Message : string; lg_Attrs : list Attr }.
(** [Record.AddAttrs] *)
Definition AddAttrs (r : LogRecord) (attrs : list Attr) : LogRecord :=
  MkLogRecord (lg_Level r) (lg_Message r) (lg_Attrs r ++ attrs).

(** What of a [context.Context] a handler reads: the trace and span id of a valid span. *)
Definition LogContext : Type := option (string * string).

(** [slog.Handler]; handling a record yields the line that is written. *)
Class SlogHandler (H : Type) := {
  Enabled : H -> LogContext -> Level -> bool;
  Handle : H -> LogContext -> LogRecord -> result any;
  WithAttrs : H -> list Attr -> H;
  WithGroup : H -> string -> H;
}.

(** A logger derived with [With] and [WithGroup] calls. *)
Inductive derivation := DAttrs (attrs : list Attr) | DGroup (name : string).
Definition derive1 {H} `{SlogHandler H} (h : H) (d : derivation) : H :=
  match d with DAttrs attrs => WithAttrs h attrs | DGroup name => WithGroup h name end.
Definition derive {H} `{SlogHandler H} (h : H) (ds : list derivation) : H := foldl derive1 h ds.

(** [Logger.Log]: a record below the level is not made. *)
Definition Log {H} `{SlogHandler H} (h : H) (ctx : LogContext) (level : Level) (msg : string) (attrs : list Attr) : option (result any) :=
  if Enabled h ctx level then Some (Handle h ctx (MkLogRecord level msg attrs)) else None.

(** ** TraceHandler *)

Record TraceHandler (H : Type) := NewTraceHandler { th_inner : H }.
Arguments NewTraceHandler {H} th_inner.
Arguments th_inner {H} t.

Section TraceHandler.
Context {H : Type} `{SlogHandler H}.

Definition TraceHandler_Enabled (h : TraceHandler H) (ctx : LogContext) (level : Level) : bool :=
  Enabled (th_inner h) ctx level.
Definition trace_attrs (ctx : LogContext) : list Attr :=
  match ctx with
  | Some (traceID, spanID) => [("trace_id", AStr traceID); ("span_id", AStr spanID)]
  | None => []
  end.
Definition TraceHandler_Handle (h : TraceHandler H) (ctx : LogContext) (r : LogRecord) : result any :=
  match ctx with
  | Some _ => Handle (th_inner h) ctx (AddAttrs r (trace_attrs ctx))
  | None => Handle (th_inner h) ctx r
  end.
Definition TraceHandler_WithAttrs (h : TraceHandler H) (attrs : list Attr) : TraceHandler H :=
  NewTraceHandler (WithAttrs (th_inner h) attrs).
Definition TraceHandler_WithGroup (h : TraceHandler H) (name : string) : TraceHandler H :=
  NewTraceHandler (WithGroup (th_inner h) name).

#[global] Instance TraceHandler_slog : SlogHandler (TraceHandler H) := {|
  Enabled := TraceHandler_Enabled; Handle := TraceHandler_Handle;
  WithAttrs := TraceHandler_WithAttrs; WithGroup := TraceHandler_WithGroup |}.
End TraceHandler.

(** [slog.NewJSONHandler] on the process's output, by its level. *)
Class JsonHandler (H : Type) := { json_slog :: SlogHandler H; NewJSONHandler : Level -> H }.
(** It writes the records at its level and above, and deriving does not change that. *)
Class JsonHandlerLaws (H : Type) `{JsonHandler H} : Prop := {
  json_level : forall level ctx l ds,
    Enabled (derive (NewJSONHandler level) ds) ctx l = (level_value level <=? level_value l);
}.

Definition NewLogger {H} `{JsonHandler H} (level : Level) : TraceHandler H := NewTraceHandler (NewJSONHandler level).

(** [buildLogger] of both processes. *)
Definition buildLogger {H} `{JsonHandler H} (level : string) : TraceHandler H :=
  NewLogger (if decide (level = "debug") then LevelDebug
             else if decide (level = "warn") then LevelWarn
             else if decide (level = "error") then LevelError
             else LevelInfo).

(** ** What a logger writes *)

Lemma derive_trace {H} `{SlogHandler H} (h : H) ds : derive (NewTraceHandler h) ds = NewTraceHandler (derive h ds).
Proof. revert h. induction ds as [|d ds IH]; intros h; [done|]. unfold derive in *. simpl. destruct d; apply IH. Qed.

(** The process's logger, however it is derived, writes what the JSON handler derived
    the same way writes for the record with the active span's trace and span id appended
    (and for the record itself when there is no span); and it writes exactly the records
    at or above the level LOG_LEVEL names, "info" for an unknown name. *)
Theorem logger_adds_trace {H} `{JsonHandlerLaws H} level ds ctx l msg attrs :
  let min := if decide (level = "debug") then LevelDebug else if decide (level = "warn") then LevelWarn
             else if decide (level = "error") then LevelError else LevelInfo in
  Log (derive (buildLogger level) ds) ctx l msg attrs =
    if level_value min <=? level_value l
    then Some (Handle (derive (NewJSONHandler min) ds) ctx (MkLogRecord l msg (attrs ++ trace_attrs ctx)))
    else None.
Proof.
  intros min. unfold buildLogger, NewLogger. fold min. rewrite derive_trace. unfold Log. simpl.
  unfold TraceHandler_Enabled. simpl. rewrite json_level. destruct (_ <=? _); [|done]. f_equal.
  destruct ctx as [[t s]|]; [done|]. simpl. by rewrite app_nil_r.
Qed.

(** A handler that writes one flat object, its own attributes first. *)
Record flat_handler := MkFlat { fh_level : Level; fh_attrs : list Attr; fh_prefix : string }.
Definition qualified (h : flat_handler) (attrs : list Attr) : list Attr :=
  (fun a => (fh_prefix h +:+ a.1, a.2)) <$> attrs.
#[global] Instance flat_slog : SlogHandler flat_handler := {|
  Enabled := fun h _ l => level_value (fh_level h) <=? level_value l;
  Handle := fun h _ r => Ok (AObj (("msg", AStr (lg_Message r)) :: fh_attrs h ++ qualified h (lg_Attrs r)));
  WithAttrs := fun h attrs => MkFlat (fh_level h) (fh_attrs h ++ qualified h attrs) (fh_prefix h);
  WithGroup := fun h name => MkFlat (fh_level h) (fh_attrs h) (fh_prefix h +:+ name +:+ ".") |}.
#[global] Instance flat_json : JsonHandler flat_handler := {| NewJSONHandler := fun l => MkFlat l [] "" |}.
#[global] Instance flat_laws : JsonHandlerLaws flat_handler.
Proof.
  split. intros level ctx l ds.
  assert (forall h : flat_handler, fh_level (derive h ds) = fh_level h) as Hl.
  { induction ds as [|d ds IH]; intros h; [done|]. unfold derive in *. simpl. rewrite IH. by destruct d. }
  simpl. by rewrite Hl.
Qed.

Lemma logger_adds_trace_witness :
  Log (derive (buildLogger (H := flat_handler) "") [DAttrs [("svc", AStr "api")]]) (Some ("t1", "s1")) LevelInfo "hi" []
    = Some (Ok (AObj [("msg", AStr "hi"); ("svc", AStr "api"); ("trace_id", AStr "t1"); ("span_id", AStr "s1")])) /\
  Log (buildLogger (H := flat_handler) "error") None LevelWarn "quiet" [] = None.
Proof.
  split.
  - exact (eq_trans (@logger_adds_trace flat_handler flat_json flat_laws "" [DAttrs [("svc", AStr "api")]] (Some ("t1", "s1"))
      LevelInfo "hi" []) eq_refl).
  - exact (eq_trans (@logger_adds_trace flat_handler flat_json flat_laws "error" [] None LevelWarn "quiet" []) eq_refl).
Defined.
