(* ===== verification/Wiring.v ===== *)
(** * The two processes ([cmd/worker/main.go], [cmd/api/main.go])

    What the processes build from their configuration before they serve: providers,
    processor, consumers, topics and router.  A step that fails ends the process with
    exit code 1, the [Err] outcome here.  The SDKs, drivers and the collector are
    parameters: what their constructors answer at start-up. *)

From S2P Require Import Prelude Strings Time Domain Json World Db Repository Schema Queue Realtime.
From S2P Require Import Provider RateLimit Preference Template Notification Webhook Processor Pipeline.
From S2P Require Import Http Config Access WsToken Stream Health Router.

(** ** Observability ([internal/observability/tracing.go]) *)

Record TracingConfig `{Floats} := MkTracingConfig {
  tc_Endpoint : string;
  tc_Insecure : bool;
  tc_ServiceName : string;
  tc_Version : string;
  tc_Environment : string;
  tc_SampleRatio : float;
}.
Inductive tracer `{Floats} := NoopTracer | OtlpTracer (ratio : float).

(** ** What the libraries answer at start-up *)

Record RedisOptions := MkRedisOptions { ro_Addr : string; ro_Password : string }.
Record PoolConfig := MkPoolConfig { pc_URL : string; pc_MaxConns : Z; pc_MinConns : Z }.
Record TopicConfig := MkTopicConfig { to_Topic : string; to_NumPartitions : Z; to_ReplicationFactor : Z }.

Class Infra := {
  aws_Client : string -> result (nat -> SendEmailInput -> result string);       (* LoadDefaultConfig, NewFromConfig *)
  firebase_App : string -> result unit;
  firebase_Messaging : string -> result (nat -> FcmMessage -> result string);
  twilio_Client : string -> string -> nat -> CreateMessageParams -> result string;
  otel_Resource : result unit;                                   (* Err: not even a partial resource *)
  grpc_Dial : string -> bool -> result unit;
  otlp_Exporter : string -> result unit;
  pgx_ParseConfig : string -> result unit;
  pgx_NewWithConfig : PoolConfig -> result unit;
  pgx_Ping : PoolConfig -> result unit;
  redis_ParseURL : string -> result RedisOptions;
  redis_Ping : RedisOptions -> result unit;
  ResolveTCPAddr : string -> result string;
  kafka_DialLeader : string -> string -> Z -> result string;     (* gives the broker connected to *)
  kafka_Dial : string -> result string;
  kafka_Controller : string -> result (string * Z);
  kafka_CreateTopics : string -> list TopicConfig -> result unit;
}.

Definition wrap {A} (text : string) (r : result A) : result A :=
  match r with Ok a => Ok a | Err e => Err (EWrap text e) end.

Section Infrastructure.
Context `{Floats} `{Infra}.

Definition InitTracer (cfg : TracingConfig) : result tracer :=
  if decide (tc_Endpoint cfg = "") then Ok NoopTracer
  else
    _ ← wrap "create otel resource" otel_Resource;
    _ ← wrap ("dial otel collector " +:+ tc_Endpoint cfg) (grpc_Dial (tc_Endpoint cfg) (tc_Insecure cfg));
    _ ← wrap "create otlp trace exporter" (otlp_Exporter (tc_Endpoint cfg));
    Ok (OtlpTracer (if float_nonpos (tc_SampleRatio cfg) then float_tenth else tc_SampleRatio cfg)).

(** [int32(cfg.DatabaseMaxConns)] wraps. *)
Definition buildPool (cfg : Config) : result PoolConfig :=
  _ ← pgx_ParseConfig (c_DatabaseURL cfg);
  let poolCfg := MkPoolConfig (c_DatabaseURL cfg) (int32 (c_DatabaseMaxConns cfg)) (int32 (c_DatabaseMinConns cfg)) in
  _ ← pgx_NewWithConfig poolCfg;
  _ ← pgx_Ping poolCfg;
  Ok poolCfg.

Definition buildRedis (cfg : Config) : result RedisOptions :=
  opts ← redis_ParseURL (c_RedisURL cfg);
  let opts := if decide (c_RedisPassword cfg = "") then opts
              else MkRedisOptions (ro_Addr opts) (c_RedisPassword cfg) in
  _ ← redis_Ping opts;
  Ok opts.

(** [EnsureTopics] ([internal/queue/admin.go]): the topics it asks the controller for, and
    the broker's answer, which it only logs. *)
Definition topic_specs : list TopicConfig := (fun t => MkTopicConfig t 1 1) <$> allTopics.
Definition EnsureTopics (brokers : list string) : result (list TopicConfig * result unit) :=
  match brokers with
  | [] => Err (EPlain "index out of range")
  | broker :: _ =>
      addr ← wrap "resolve broker address" (ResolveTCPAddr broker);
      conn ← match kafka_DialLeader addr "__consumer_offsets" 0 with
             | Ok conn => Ok conn
             | Err _ => wrap "connect to kafka broker" (kafka_Dial addr)
             end;
      '(host, port) ← wrap "get controller" (kafka_Controller conn);
      controllerConn ← wrap "connect to controller" (kafka_Dial (host +:+ ":" +:+ pretty port));
      Ok (topic_specs, kafka_CreateTopics controllerConn topic_specs)
  end.
End Infrastructure.

(** ** The worker *)

Definition Millisecond : Z := 1000000.

Definition kafkaGroupID : string := "notifyhub-worker".
Definition schedulerInterval : Z := 15 * Second.
Definition schedulerBatch : Z := 100.

Record Consumer := MkConsumer { cs_brokers : list string; cs_topic : string; cs_group : string }.
Inductive task :=
  | TPool (ch : Channel) (c : Consumer) (concurrency : Z)
  | TDLQConsumer (ch : Channel) (c : Consumer)
  | TScheduler (interval batch maxRetries : Z)
  | TWebhookWorker (c : Consumer) (retryDelay : Z).

Record worker := MkWorker {
  wk_deps : ProcessorDeps;
  wk_tasks : list task;
  wk_requested : list TopicConfig;
  wk_created : result unit;       (* the answer to that request, logged *)
  wk_probes : list Probe;
  wk_port : string;
}.

Section Worker.
Context `{Floats} `{Infra} `{Env} `{UuidText} `{Propagator}.
Variables version commit : string.

Definition with_build (cfg : Config) : Config :=
  match cfg with
  | MkConfig _ a1 a2 a3 a4 a5 a6 a7 a8 a9 a10 a11 a12 a13 a14 a15 a16 a17 a18 a19 a20 a21 a22 a23 a24 a25 a26 a27 a28 a29
      a30 a31 a32 a33 a34 a35 a36 a37 a38 a39 a40 a41 a42 a43 a44 a45 _ _ a48 =>
      MkConfig _ a1 a2 a3 a4 a5 a6 a7 a8 a9 a10 a11 a12 a13 a14 a15 a16 a17 a18 a19 a20 a21 a22 a23 a24 a25 a26 a27 a28 a29
      a30 a31 a32 a33 a34 a35 a36 a37 a38 a39 a40 a41 a42 a43 a44 a45 version commit a48
  end.

Definition tracing_config (service : string) (cfg : Config) : TracingConfig :=
  MkTracingConfig _ (c_OTELEndpoint cfg) (c_OTELInsecure cfg) service (c_ServiceVersion cfg) (c_Environment cfg)
    (c_OTELSampleRatio cfg).

(** The backends' constructors ([ses.New], [fcm.New], [twilio.New]). *)
Definition ses_New (region fromEmail : string) : result Provider :=
  if decide (fromEmail = "") then Err (EPlain "ses: from email required")
  else
    client ← wrap "ses: load aws config" (aws_Client region);
    Ok (ses_Provider client fromEmail).
Definition fcm_New (credentialsFile : string) : result Provider :=
  if decide (credentialsFile = "") then Err (EPlain "fcm: credentials file required")
  else
    _ ← wrap "fcm: initialize app" (firebase_App credentialsFile);
    client ← wrap "fcm: initialize messaging client" (firebase_Messaging credentialsFile);
    Ok (fcm_Provider client).
Definition twilio_New (accountSID authToken fromNumber messagingSvcID : string) : result Provider :=
  if bool_decide (accountSID = "") || bool_decide (authToken = "") then
    Err (EPlain "twilio: account SID and auth token required")
  else if bool_decide (fromNumber = "") && bool_decide (messagingSvcID = "") then
    Err (EPlain "twilio: either from number or messaging service ID required")
  else Ok (twilio_Provider (twilio_Client accountSID authToken) fromNumber messagingSvcID).

Definition or_mock (ch : Channel) (p : result Provider) : Provider :=
  match p with Ok p => p | Err _ => mock_Provider ch end.
Definition buildEmailProvider (cfg : Config) : Provider :=
  if decide (c_SESFromEmail cfg = "") then mock_Provider ChannelEmail
  else or_mock ChannelEmail (ses_New (c_SESRegion cfg) (c_SESFromEmail cfg)).
Definition buildPushProvider (cfg : Config) : Provider :=
  if decide (c_FCMCredentialsFile cfg = "") then mock_Provider ChannelPush
  else or_mock ChannelPush (fcm_New (c_FCMCredentialsFile cfg)).
Definition buildSMSProvider (cfg : Config) : Provider :=
  if bool_decide (c_TwilioAccountSID cfg = "") || bool_decide (c_TwilioAuthToken cfg = "") then mock_Provider ChannelSMS
  else or_mock ChannelSMS (twilio_New (c_TwilioAccountSID cfg) (c_TwilioAuthToken cfg) (c_TwilioFromNumber cfg) "").

Definition buildRegistry (cfg : Config) : Registry :=
  Register (Register (Register (Register NewRegistry (buildEmailProvider cfg)) (buildPushProvider cfg))
    (buildSMSProvider cfg)) inapp_Provider.

Definition rate_caps (cfg : Config) : gmap Channel Z :=
  {[ChannelEmail := c_RateLimitEmailPerHour cfg; ChannelPush := c_RateLimitPushPerHour cfg;
    ChannelSMS := c_RateLimitSMSPerHour cfg; ChannelInApp := c_RateLimitInAppPerHour cfg]}.

Definition processor_deps (cfg : Config) : ProcessorDeps :=
  {| d_Registry := buildRegistry cfg; d_RateCaps := rate_caps cfg;
     d_RetryDelay := int64 (c_WorkerRetryBaseDelayMS cfg * Millisecond);
     d_DLQPublisher := true; d_DLQEnabled := c_DLQEnabled cfg;
     d_Webhook := Some (Dispatch (c_WebhookMaxAttempts cfg)) |}.

Definition startPools (cfg : Config) : list task :=
  (fun '(ch, concurrency) => TPool ch (MkConsumer (c_KafkaBrokers cfg) (TopicForChannel ch) kafkaGroupID) concurrency) <$>
    [(ChannelEmail, c_WorkerEmailConcurrency cfg); (ChannelPush, c_WorkerPushConcurrency cfg);
     (ChannelSMS, c_WorkerSMSConcurrency cfg); (ChannelInApp, c_WorkerInAppConcurrency cfg)].
Definition startDLQConsumers (cfg : Config) : list task :=
  if negb (c_DLQConsumerEnabled cfg) then []
  else (fun ch => TDLQConsumer ch (MkConsumer (c_KafkaBrokers cfg) (DLQTopicForChannel ch) (c_DLQGroupID cfg))) <$>
    [ChannelEmail; ChannelPush; ChannelSMS; ChannelInApp].
Definition startWebhookWorker (cfg : Config) : list task :=
  if negb (c_WebhookEnabled cfg) then []
  else [TWebhookWorker (MkConsumer (c_KafkaBrokers cfg) WebhookTopic (c_WebhookGroupID cfg))
          (int64 (c_WebhookRetryBaseMS cfg * Millisecond))].

Definition probes (cfg : Config) : list Probe := [PostgresProbe; RedisProbe; KafkaProbe (c_KafkaBrokers cfg)].

Definition worker_main (getenv : string -> string) : result worker :=
  cfg ← Load getenv;
  let cfg := with_build cfg in
  _ ← InitTracer (tracing_config "notifyhub-worker" cfg);
  _ ← buildPool cfg;
  _ ← buildRedis cfg;
  '(requested, created) ← EnsureTopics (c_KafkaBrokers cfg);
  Ok {| wk_deps := processor_deps cfg;
        wk_tasks := startPools cfg ++ startDLQConsumers cfg
                    ++ [TScheduler schedulerInterval schedulerBatch (c_WorkerRetryMaxAttempts cfg)]
                    ++ startWebhookWorker cfg;
        wk_requested := requested; wk_created := created; wk_probes := probes cfg; wk_port := c_MetricsPort cfg |}.

(** The worker's admin server: the paths of its [http.ServeMux], any method. *)
Definition startAdminServer `{PromText} (w : worker) (order : list nat) : list (string * (Request -> M Response)) :=
  [("/metrics", Metrics_Handler); ("/livez", fun _ => Checker_Live);
   ("/readyz", fun _ => Checker_Ready (wk_probes w) order); ("/health", fun _ => Checker_Health (wk_probes w) order)].

(** ** The API *)

Record api := MkApi {
  ap_deps : RouterDeps;
  ap_hub : hub;
  ap_timers : InboxTimers;
  ap_webhookAttempts : Z;
  ap_port : string;
}.

Definition api_main (getenv : string -> string) : result api :=
  cfg ← Load getenv;
  let cfg := with_build cfg in
  _ ← InitTracer (tracing_config "notifyhub-api" cfg);
  _ ← buildPool cfg;
  _ ← buildRedis cfg;
  Ok {| ap_deps :=
          {| rd_AdminToken := c_AdminToken cfg; rd_RateLimitRPM := c_RateLimitAPIRPM cfg;
             rd_maxRetries := c_WorkerRetryMaxAttempts cfg;
             rd_wsToken := NewWSTokenService (c_WSJWTSecret cfg) (c_WSJWTTTLSeconds cfg);
             rd_probes := probes cfg; rd_DLQ := true; rd_Inbox := true; rd_DeviceToken := true;
             rd_WSToken := true; rd_Webhook := true |};
        ap_hub := NewHub (c_InAppWSBufferSize cfg);
        ap_timers := NewInboxHandler (c_InAppWSHeartbeatSeconds cfg) (c_InAppWSReadTimeoutSeconds cfg);
        ap_webhookAttempts := c_WebhookMaxAttempts cfg;
        ap_port := c_Port cfg |}.
End Worker.

(** ** What a started worker holds *)

(** The SDK clients do not answer with the program's own delivery errors. *)
Class InfraLaws `{Infra} : Prop := {
  aws_errors : forall region c t r e, aws_Client region = Ok c -> c t r = Err e -> library_error e;
  firebase_errors : forall file c t r e, firebase_Messaging file = Ok c -> c t r = Err e -> library_error e;
  twilio_errors : forall sid token t r e, twilio_Client sid token t r = Err e -> library_error e;
}.

Definition task_topic (t : task) : option string :=
  match t with
  | TPool _ c _ | TDLQConsumer _ c | TWebhookWorker c _ => Some (cs_topic c)
  | TScheduler _ _ _ => None
  end.
Definition consumed (w : worker) : list string := omap task_topic (wk_tasks w).
Definition pool_on (ch : Channel) (t : task) : bool := bool_decide (task_topic t = Some (TopicForChannel ch)).

Section Wired.
Context `{Floats} `{Infra} `{!InfraLaws} `{Env} `{UuidTextLaws} `{Propagator}.
Variables version commit : string.

Definition serves (ch : Channel) (p : Provider) : Prop := pv_Channel p = ch /\ ProviderContract p.

Lemma mock_serves ch : serves ch (mock_Provider ch).
Proof. by split; [|apply _]. Qed.
Lemma email_serves cfg : serves ChannelEmail (buildEmailProvider cfg).
Proof.
  unfold buildEmailProvider, ses_New. repeat case_decide; try apply mock_serves.
  destruct (aws_Client _) as [c|] eqn:E; [|apply mock_serves]. split; [done|]. apply ses_contract.
  intros. by eapply aws_errors.
Qed.
Lemma push_serves cfg : serves ChannelPush (buildPushProvider cfg).
Proof.
  unfold buildPushProvider, fcm_New. repeat case_decide; try apply mock_serves.
  destruct (firebase_App _); [|apply mock_serves]. simpl.
  destruct (firebase_Messaging _) as [c|] eqn:E; [|apply mock_serves]. split; [done|]. apply fcm_contract.
  intros. by eapply firebase_errors.
Qed.
Lemma sms_serves cfg : serves ChannelSMS (buildSMSProvider cfg).
Proof.
  unfold buildSMSProvider, twilio_New. destruct (_ || _); [apply mock_serves|]. destruct (_ && _); [apply mock_serves|].
  split; [done|]. apply twilio_contract. intros. by eapply twilio_errors.
Qed.
Lemma inapp_serves : serves ChannelInApp inapp_Provider.
Proof. by split; [|apply _]. Qed.

(** The four channels have a provider each, and nothing else has one. *)
Lemma buildRegistry_lookup cfg ch :
  match buildRegistry cfg !! ch with Some p => IsValid ch = true /\ serves ch p | None => IsValid ch = false end.
Proof.
  destruct (email_serves cfg) as [He Ce], (push_serves cfg) as [Hp Cp], (sms_serves cfg) as [Hs Cs], inapp_serves as [Hi Ci].
  unfold buildRegistry, Register. rewrite He, Hp, Hs, Hi. unfold NewRegistry, Registry. rewrite !lookup_insert.
  destruct (decide (ChannelInApp = ch)) as [<-|]; [done|]. destruct (decide (ChannelSMS = ch)) as [<-|]; [done|].
  destruct (decide (ChannelPush = ch)) as [<-|]; [done|]. destruct (decide (ChannelEmail = ch)) as [<-|]; [done|].
  rewrite lookup_empty. unfold IsValid. by rewrite !bool_decide_false by congruence.
Qed.

Lemma processor_deps_contract cfg : fits_int (c_WebhookMaxAttempts cfg) -> DepsContract (processor_deps cfg).
Proof.
  intros Hfit. split.
  - intros ch p Hp. pose proof (buildRegistry_lookup cfg ch) as Hr. simpl in Hp. rewrite Hp in Hr. apply Hr.
  - intros f [= <-]. by apply Dispatch_contract.
Qed.

Definition all_tasks (cfg : Config) : list task :=
  startPools cfg ++ startDLQConsumers cfg
  ++ [TScheduler schedulerInterval schedulerBatch (c_WorkerRetryMaxAttempts cfg)] ++ startWebhookWorker cfg.

(** A worker that started was built from a configuration that loads. *)
Lemma worker_main_inv getenv wk : worker_main version commit getenv = Ok wk -> exists cfg,
  Load getenv = Ok cfg /\ wk_deps wk = processor_deps (with_build version commit cfg) /\
  wk_tasks wk = all_tasks (with_build version commit cfg) /\ wk_requested wk = topic_specs.
Proof.
  unfold worker_main. destruct (Load getenv) as [cfg|]; [|done]. simpl.
  destruct (InitTracer _); [|done]. simpl. destruct (buildPool _); [|done]. simpl.
  destruct (buildRedis _); [|done]. simpl. destruct (EnsureTopics _) as [[requested created]|] eqn:He; [|done].
  intros [= <-]. exists cfg. split_and!; [done..|]. simpl. unfold EnsureTopics in He. destruct (c_KafkaBrokers _); [done|].
  destruct (ResolveTCPAddr _); [|done]. simpl in He.
  destruct (match kafka_DialLeader _ _ _ with Ok _ => _ | Err _ => _ end); [|done]. simpl in He.
  destruct (kafka_Controller _) as [[host port]|]; [|done]. simpl in He.
  destruct (kafka_Dial _); simpl in He; by simplify_eq.
Qed.

Lemma with_build_fields cfg :
  c_WebhookMaxAttempts (with_build version commit cfg) = c_WebhookMaxAttempts cfg /\
  c_DLQConsumerEnabled (with_build version commit cfg) = c_DLQConsumerEnabled cfg /\
  c_WebhookEnabled (with_build version commit cfg) = c_WebhookEnabled cfg.
Proof. by destruct cfg. Qed.

Lemma load_webhook_attempts getenv cfg : Load getenv = Ok cfg -> fits_int (c_WebhookMaxAttempts cfg).
Proof.
  intros Hl. pose proof (Load_spec getenv) as Hs. rewrite Hl in Hs. destruct Hs as (_ & _ & Hi & _).
  pose proof (int_settings_fit getenv cfg Hi) as Hf. rewrite Forall_forall in Hf.
  apply (Hf ("WEBHOOK_MAX_ATTEMPTS", 5, c_WebhookMaxAttempts)). set_solver.
Qed.

Lemma rate_caps_valid cfg ch : is_Some (rate_caps cfg !! ch) <-> IsValid ch = true.
Proof.
  unfold rate_caps. rewrite !lookup_insert, lookup_singleton. unfold IsValid.
  repeat (destruct (decide _) as [<-|]; [by split|]). rewrite !bool_decide_false by congruence.
  split; [by intros []|done].
Qed.

(** The tasks of the four switch settings. *)
Lemma pools_unique cfg ch : IsValid ch = true -> exists brokers concurrency,
  List.filter (pool_on ch) (all_tasks cfg) = [TPool ch (MkConsumer brokers (TopicForChannel ch) kafkaGroupID) concurrency].
Proof.
  unfold IsValid, all_tasks, startPools, startDLQConsumers, startWebhookWorker.
  destruct (c_DLQConsumerEnabled cfg), (c_WebhookEnabled cfg);
    repeat (case_bool_decide; [intros _; subst ch; eexists _, _; reflexivity|]); done.
Qed.

Lemma consumed_topics cfg :
  omap task_topic (all_tasks cfg) =
    (TopicForChannel <$> all_channels) ++ (if c_DLQConsumerEnabled cfg then DLQTopicForChannel <$> all_channels else [])
    ++ (if c_WebhookEnabled cfg then [WebhookTopic] else []).
Proof.
  unfold all_tasks, startPools, startDLQConsumers, startWebhookWorker.
  by destruct (c_DLQConsumerEnabled cfg), (c_WebhookEnabled cfg).
Qed.

Lemma consumed_nodup cfg : NoDup (omap task_topic (all_tasks cfg)).
Proof.
  rewrite consumed_topics. destruct (c_DLQConsumerEnabled cfg), (c_WebhookEnabled cfg);
    (eapply bool_decide_eq_true_1; vm_compute; reflexivity).
Qed.

Lemma topic_specs_names : to_Topic <$> topic_specs = allTopics.
Proof. unfold topic_specs. rewrite <-list_fmap_compose. apply list_fmap_id. Qed.

Lemma consumed_all cfg : c_DLQConsumerEnabled cfg = true -> c_WebhookEnabled cfg = true ->
  omap task_topic (all_tasks cfg) ≡ₚ allTopics.
Proof. intros Hd Hh. rewrite consumed_topics, Hd, Hh. eapply bool_decide_eq_true_1. vm_compute. reflexivity. Qed.

Lemma consumed_created cfg : omap task_topic (all_tasks cfg) ⊆ allTopics.
Proof.
  rewrite consumed_topics. destruct (c_DLQConsumerEnabled cfg), (c_WebhookEnabled cfg);
    (eapply bool_decide_eq_true_1; vm_compute; reflexivity).
Qed.
End Wired.

(** C20. Every environment a worker starts with gives a processor whose dependencies keep
    their contracts (so every guarantee of the pipeline holds of it), with a provider and
    a rate cap for exactly the valid channels and one pool on each channel's topic, in the
    shared consumer group; every topic a task consumes is consumed by one task and is
    among those the start-up asks the broker to create (whether the broker did is only
    logged, so the worker starts either way), and with the dead-letter consumers and the
    webhook worker on, the consumed topics are all topics. *)
Theorem worker_wired `{Floats} `{Infra} `{!InfraLaws} `{Env} `{UuidTextLaws} `{Propagator} version commit getenv wk :
  worker_main version commit getenv = Ok wk ->
  DepsContract (wk_deps wk) /\
  (forall ch, match d_Registry (wk_deps wk) !! ch with
              | Some p => IsValid ch = true /\ pv_Channel p = ch
              | None => IsValid ch = false
              end /\ (is_Some (d_RateCaps (wk_deps wk) !! ch) <-> IsValid ch = true)) /\
  (forall ch, IsValid ch = true -> exists brokers concurrency,
     List.filter (pool_on ch) (wk_tasks wk) = [TPool ch (MkConsumer brokers (TopicForChannel ch) kafkaGroupID) concurrency]) /\
  NoDup (consumed wk) /\ consumed wk ⊆ (to_Topic <$> wk_requested wk) /\
  (flag getenv "DLQ_CONSUMER_ENABLED" = true -> flag getenv "WEBHOOK_ENABLED" = true -> consumed wk ≡ₚ allTopics).
Proof.
  intros Hwk. destruct (worker_main_inv _ _ _ _ Hwk) as (cfg & Hl & Hd & Ht & Hc).
  pose proof (Load_spec getenv) as Hs. rewrite Hl in Hs. destruct Hs as (_ & _ & _ & _ & Hflags & _).
  destruct (with_build_fields version commit cfg) as (Hw & Hdlq & Hhook).
  unfold consumed. rewrite Hd, Ht, Hc. set (cfg' := with_build version commit cfg) in *.
  split; [apply processor_deps_contract; rewrite Hw; by eapply load_webhook_attempts|]. split.
  { intros ch. split.
    - pose proof (buildRegistry_lookup cfg' ch) as Hr. simpl. case_match; [|done]. by destruct Hr as [? []].
    - apply rate_caps_valid. }
  split; [apply pools_unique|]. rewrite topic_specs_names. split_and!; [apply consumed_nodup|apply consumed_created|].
  rewrite Forall_forall in Hflags.
  pose proof (Hflags ("DLQ_CONSUMER_ENABLED", c_DLQConsumerEnabled) ltac:(set_solver)) as Hf1.
  pose proof (Hflags ("WEBHOOK_ENABLED", c_WebhookEnabled) ltac:(set_solver)) as Hf2. simpl in Hf1, Hf2.
  intros Hf3 Hf4. apply consumed_all; congruence.
Qed.

(** ** Secrets left unset *)

Lemma api_main_secret `{Floats} `{Infra} `{Env} version commit getenv a :
  api_main version commit getenv = Ok a -> ts_secret (rd_wsToken (ap_deps a)) = getenv "WS_JWT_SECRET"
    /\ rd_AdminToken (ap_deps a) = getenv "ADMIN_TOKEN".
Proof.
  unfold api_main. pose proof (Load_spec getenv) as Hs. destruct (Load getenv) as [cfg|]; [|done]. simpl.
  destruct (InitTracer _); [|done]. simpl. destruct (buildPool _); [|done]. simpl.
  destruct (buildRedis _); [|done]. simpl. intros [= <-]. simpl. destruct Hs as (_ & _ & _ & Ht & _).
  rewrite Forall_forall in Ht. pose proof (Ht ("WS_JWT_SECRET", "", c_WSJWTSecret) ltac:(set_solver)) as Hw.
  pose proof (Ht ("ADMIN_TOKEN", "", c_AdminToken) ltac:(set_solver)) as Had. simpl in Hw, Had.
  rewrite getEnv_plain in Hw, Had. by destruct cfg.
Qed.

(** C40. Starting the API without WS_JWT_SECRET leaves the streams open: the tokens are then
    signed with the empty key, so a token that anyone makes with it, for any tenant and
    recipient, opens that recipient's stream.  The admin routes are safe in the same
    state: without ADMIN_TOKEN none of them runs. *)
Theorem unset_secrets `{Floats} `{Infra} `{Env} `{UuidText} `{JwtLaws} `{WsAccept} `{RedisCommands} `{KeySource} version commit getenv a :
  api_main version commit getenv = Ok a ->
  (getenv "WS_JWT_SECRET" = "" -> forall tenant recipient exp r w,
     recipient <> "" -> rq_Query r "token" <> "" ->
     jwt_SignedString "" (MkWSClaims tenant recipient None (Some exp)) = Ok (rq_Query r "token") ->
     w_now w < exp * ns_per_s -> ws_Accept r = None ->
     exists id w', Stream_open (rd_wsToken (ap_deps a)) r w = (Ok (inr id), w') /\
       si_tenant id = tenant /\ si_recipient id = recipient) /\
  (getenv "ADMIN_TOKEN" = "" -> forall h r w, exists resp,
     guard (ap_deps a) GateAdmin h r w = (Ok resp, w) /\ (rs_Status resp = 401 \/ rs_Status resp = 403)).
Proof.
  intros Ha. destruct (api_main_secret _ _ _ _ Ha) as [Hsec Hadm]. split.
  - intros Hempty tenant recipient exp r w Hr Hq Hsign Hnow Hacc. rewrite Hempty in Hsec.
    unfold Stream_open. rewrite decide_False by done.
    assert (WSToken_Verify (rd_wsToken (ap_deps a)) (rq_Query r "token") w
      = (Ok (MkWSClaims tenant recipient None (Some exp)), w)) as Hv.
    { unfold WSToken_Verify, ParseWithClaims, mbind, ST_bind, now, gets, or_else, lift.
      rewrite (jwt_sign_parse _ _ _ Hsign), Hsec. simpl. rewrite (jwt_sign_verify _ _ _ Hsign). simpl.
      rewrite (proj2 (jwt_validate_exp (w_now w) (MkWSClaims tenant recipient None (Some exp)) exp eq_refl) Hnow).
      simpl. by rewrite decide_False. }
    unfold mbind, ST_bind, try. rewrite Hv. rewrite Hacc. eexists _, _. split; [reflexivity|done].
  - intros Hempty h r w. rewrite Hempty in Hadm. unfold guard. rewrite Hadm. unfold AdminAuth.
    destruct (decide _); [eexists; split; [done|by left]|]. eexists. split; [done|by right].
Qed.

(** ** A start-up, evaluated *)

(** Thousandths, of which one text can be read. *)
Definition milli_floats : Floats :=
  {| float := Z; ParseFloat s := if String.eqb s "0.5" then Some 500 else None; float_tenth := 100;
     float_nonpos x := x <=? 0 |}.
Definition demo_infra : Infra :=
  {| aws_Client _ := Ok demo_ses; firebase_App _ := Err (EPlain "no such file"); firebase_Messaging _ := Ok demo_fcm;
     twilio_Client _ _ := demo_twilio; otel_Resource := Ok tt; grpc_Dial _ _ := Err (EPlain "deadline exceeded");
     otlp_Exporter _ := Ok tt; pgx_ParseConfig _ := Ok tt; pgx_NewWithConfig _ := Ok tt; pgx_Ping _ := Ok tt;
     redis_ParseURL url := Ok (MkRedisOptions url ""); redis_Ping _ := Ok tt; ResolveTCPAddr := Ok;
     kafka_DialLeader _ _ _ := Err (EPlain "unknown topic"); kafka_Dial := Ok; kafka_Controller _ := Ok ("k1", 9092);
     kafka_CreateTopics _ _ := Err (EPlain "TopicAlreadyExists") |}.
Lemma demo_infra_laws : @InfraLaws demo_infra.
Proof. split; simpl; [intros region c t r e [= <-] [= <-]|intros file c t r e [= <-] [= <-]|intros sid token t r e [= <-]]; by split. Qed.

Definition demo_getenv (key : string) : string :=
  if String.eqb key "DATABASE_URL" then "postgres://db" else if String.eqb key "SES_FROM_EMAIL" then "a@b.c" else "".
Definition demo_boot : result worker := @worker_main milli_floats demo_infra calm bits_uuid demo_trace "1" "c0" demo_getenv.

Lemma worker_wired_witness :
  exists wk, demo_boot = Ok wk /\ length (wk_tasks wk) = 10%nat /\ DepsContract (wk_deps wk) /\ consumed wk ≡ₚ allTopics.
Proof.
  assert (match demo_boot with Ok wk => length (wk_tasks wk) | Err _ => 0%nat end = 10%nat) as Hn by (vm_compute; reflexivity).
  destruct demo_boot as [wk|e] eqn:E; [|discriminate Hn]. exists wk. split; [done|].
  pose proof (@worker_wired milli_floats demo_infra demo_infra_laws calm bits_uuid bits_uuid_laws demo_trace
    "1" "c0" demo_getenv wk E) as (Hd & _ & _ & _ & _ & Hall).
  split; [exact Hn|]. split; [exact Hd|]. apply Hall; reflexivity.
Defined.

Definition accept_all : WsAccept := fun _ => None.
Definition forged_claims : WSClaims := MkWSClaims 7 "victim" None (Some 100).
Definition forged_request : Request :=
  {| rq_Method := "GET"; rq_Path := "/api/v1/inbox/stream"; rq_Header := fun _ => "";
     rq_Query := fun k => if String.eqb k "token" then bits_text (encode ("", forged_claims)) else "";
     rq_Param := fun _ => ""; rq_Body := BodyEmpty; rq_ID := ""; rq_Client := None |}.

Lemma unset_secrets_witness :
  exists a, @api_main milli_floats demo_infra calm "1" "c0" demo_getenv = Ok a /\
  exists id w', @Stream_open bits_uuid clear_jwt accept_all (rd_wsToken (ap_deps a)) forged_request empty_world = (Ok (inr id), w')
    /\ si_tenant id = 7%N /\ si_recipient id = "victim".
Proof.
  eexists. split; [reflexivity|].
  apply (@unset_secrets milli_floats demo_infra calm bits_uuid clear_jwt clear_jwt_laws accept_all redis_ref demo_keys "1" "c0" demo_getenv _ eq_refl)
    with (exp := 100); vm_compute; (reflexivity || discriminate).
Defined.
