(* ===== verification/Loader.v ===== *)
(** * Template files ([internal/template/loader.go])

    A template file is front matter of "key: value" lines between two "---" lines,
    followed by the body. *)

From S2P Require Import Prelude Strings Time Domain Json World.

Record TemplateFile := MkTemplateFile {
  tf_Name : string;
  tf_Channel : Channel;
  tf_SubjectTemplate : option string;
  tf_BodyTemplate : string;
}.

Definition newline : ascii := "010".
Definition marker : string := String "-" (String "-" (String "-" (String newline ""))).

(** One line of the front matter. *)
Definition parse_line (parsed : TemplateFile) (line : string) : TemplateFile :=
  let line := TrimSpace line in
  if decide (line = "") then parsed
  else match cut_byte ":" line with      (* strings.SplitN(line, ":", 2) *)
       | None => parsed
       | Some (k, v) =>
           let key := TrimSpace k in
           let val := TrimSpace v in
           if decide (key = "name") then
             MkTemplateFile val (tf_Channel parsed) (tf_SubjectTemplate parsed) (tf_BodyTemplate parsed)
           else if decide (key = "channel") then
             MkTemplateFile (tf_Name parsed) val (tf_SubjectTemplate parsed) (tf_BodyTemplate parsed)
           else if decide (key = "subject") then
             MkTemplateFile (tf_Name parsed) (tf_Channel parsed) (Some val) (tf_BodyTemplate parsed)
           else parsed
       end.

Definition parse_content (content : string) : result TemplateFile :=
  if negb (HasPrefix content marker) then Err (EPlain "template must start with ---")
  else match Cut marker (TrimPrefix content marker) with
       | None => Err (EPlain "missing closing --- in front-matter")
       | Some (frontMatter, rest) =>
           let body := TrimSpace rest in
           if decide (body = "") then Err (EPlain "template body is empty")
           else
             let parsed := foldl parse_line (MkTemplateFile "" "" None body) (Split newline frontMatter) in
             if decide (tf_Name parsed = "") then Err (EPlain "template name is required in front-matter")
             else if negb (IsValid (tf_Channel parsed)) then
               Err (EPlain ("invalid channel " +:+ tf_Channel parsed +:+ " in front-matter"))
             else Ok parsed
       end.

(** The file system: the entries of a directory in the order [os.ReadDir] gives them,
    and what reading each gives. *)
Record DirEntry := MkDirEntry { de_Name : string; de_IsDir : bool; de_Content : result string }.

Definition parseFile (entry : DirEntry) : result TemplateFile :=
  content ← de_Content entry;
  parse_content content.

Section Loader.
Context `{Env}.

(** [domain.Template{...}]: the fields not named are zero. *)
Definition template_of_file (id : uuid) (f : TemplateFile) : Template :=
  {| t_ID := id; t_Name := tf_Name f; t_Channel := tf_Channel f; t_SubjectTemplate := tf_SubjectTemplate f;
     t_BodyTemplate := tf_BodyTemplate f; t_Metadata := None; t_Version := 1; t_IsActive := false;
     t_CreatedAt := zero_time; t_UpdatedAt := zero_time |}.

Fixpoint load_entries (dir : string) (entries : list DirEntry) : M (list Template) :=
  match entries with
  | [] => mret []
  | entry :: rest =>
      if de_IsDir entry then load_entries dir rest
      else if negb (HasSuffix (de_Name entry) ".tmpl") then load_entries dir rest
      else
        parsed ← or_else (lift (parseFile entry)) (EWrap ("parse " +:+ dir +:+ "/" +:+ de_Name entry));
        id ← uuid_New;
        ts ← load_entries dir rest;
        mret (template_of_file id parsed :: ts)
  end.

Definition LoadFromDir (dir : string) (entries : result (list DirEntry)) : M (list Template) :=
  es ← or_else (lift entries) (EWrap ("read dir " +:+ dir));
  load_entries dir es.
End Loader.

(** ** Printing a template file *)

Definition line (key val : string) : string := key +:+ ": " +:+ val +:+ String newline "".

Definition print_file (f : TemplateFile) : string :=
  marker +:+ line "name" (tf_Name f) +:+ line "channel" (tf_Channel f)
  +:+ match tf_SubjectTemplate f with Some s => line "subject" s | None => "" end
  +:+ marker +:+ tf_BodyTemplate f.

(** A value that fits on a line and does not end it like a marker. *)
Definition line_value (v : string) : Prop :=
  TrimSpace v = v /\ str_mem newline v = false /\ HasSuffix v "---" = false.
Definition file_ok (f : TemplateFile) : Prop :=
  line_value (tf_Name f) /\ tf_Name f <> "" /\ IsValid (tf_Channel f) = true /\
  (forall s, tf_SubjectTemplate f = Some s -> line_value s) /\
  TrimSpace (tf_BodyTemplate f) = tf_BodyTemplate f /\ tf_BodyTemplate f <> "".

(** ** Reading back *)

Lemma prefix_cons a p b s : String.prefix (String a p) (String b s) = bool_decide (a = b) && String.prefix p s.
Proof. cbn [String.prefix]. destruct (ascii_dec a b); [by rewrite bool_decide_true|by rewrite bool_decide_false]. Qed.

Ltac next_byte v :=
  destruct v as [|? v]; [done|rewrite append_cons, prefix_cons; case_bool_decide as Hc; [simpl; subst|done]].

(** A line that does not end in dashes holds no marker. *)
Lemma no_marker d v rest :
  str_mem newline (String d v) = false -> HasSuffix (String d v) "---" = false ->
  String.prefix marker (String d v +:+ String newline rest) = false.
Proof.
  intros Hn Hs. unfold marker. rewrite append_cons, prefix_cons. case_bool_decide; [simpl; subst|done].
  next_byte v. next_byte v. destruct v as [|a v]; [discriminate Hs|].
  rewrite append_cons, prefix_cons. case_bool_decide; [subst|done].
  exfalso. revert Hn. cbn. done.
Qed.

Lemma Cut_line v rest :
  str_mem newline v = false -> HasSuffix v "---" = false ->
  Cut marker (v +:+ String newline rest) = ('(x, y) ← Cut marker rest; Some (v +:+ String newline x, y)).
Proof.
  induction v as [|d v IH]; intros Hn Hs.
  { change ("" +:+ String newline rest) with (String newline rest). simpl. by destruct (Cut _ rest) as [[x y]|]. }
  pose proof (no_marker d v rest Hn Hs) as Hp. rewrite append_cons in *. cbn [Cut]. rewrite Hp.
  simpl in Hn, Hs. apply orb_false_iff in Hn as [_ Hn], Hs as [_ Hs]. rewrite IH by done.
  by destruct (Cut marker rest) as [[x y]|].
Qed.

Lemma Cut_marker b : Cut marker (marker +:+ b) = Some ("", b).
Proof.
  pose proof (prefix_app marker b) as Hp. pose proof (TrimPrefix_app marker b) as Ht.
  destruct (marker +:+ b) as [|c s] eqn:E; [done|]. cbn [Cut]. by rewrite Hp, Ht.
Qed.

Definition entry_key (key : string) : Prop := key = "name" \/ key = "channel" \/ key = "subject".

(** The lines of the front matter. *)
Lemma parse_line_value f key v :
  v <> "" -> TrimSpace v = v -> entry_key key ->
  parse_line f (key +:+ ": " +:+ v) =
    if decide (key = "name") then MkTemplateFile v (tf_Channel f) (tf_SubjectTemplate f) (tf_BodyTemplate f)
    else if decide (key = "channel") then MkTemplateFile (tf_Name f) v (tf_SubjectTemplate f) (tf_BodyTemplate f)
    else MkTemplateFile (tf_Name f) (tf_Channel f) (Some v) (tf_BodyTemplate f).
Proof.
  intros Hne Hv Hk. unfold parse_line.
  assert (key +:+ ": " +:+ v = (key +:+ ":") +:+ String " " v) as He by (by destruct Hk as [->|[->| ->]]).
  rewrite He, TrimSpace_prefixed; [|by destruct Hk as [->|[->| ->]]|done|done].
  rewrite decide_False by (by destruct Hk as [->|[->| ->]]). rewrite <-He.
  assert (cut_byte ":" (key +:+ ": " +:+ v) = Some (key, String " " v)) as ->
    by (apply (cut_byte_app ":" key (String " " v)); by destruct Hk as [->|[->| ->]]).
  rewrite TrimSpace_value by done. by destruct Hk as [->|[->| ->]].
Qed.

Lemma line_app key v rest : line key v +:+ rest = (key +:+ ": " +:+ v) +:+ String newline rest.
Proof. unfold line. by rewrite !append_assoc. Qed.

Lemma line_no_newline key v : entry_key key -> line_value v -> str_mem newline (key +:+ ": " +:+ v) = false.
Proof. intros [->|[->| ->]] (_ & Hn & _); exact Hn. Qed.

Lemma Cut_entry key v rest : entry_key key -> line_value v ->
  Cut marker (line key v +:+ rest) = ('(x, y) ← Cut marker rest; Some (line key v +:+ x, y)).
Proof.
  intros Hk Hv. rewrite line_app, Cut_line.
  - destruct (Cut marker rest) as [[x y]|]; [|done]. simpl. by rewrite line_app.
  - by apply line_no_newline.
  - destruct Hv as (_ & _ & Hs). by destruct Hk as [->|[->| ->]]; exact Hs.
Qed.

Lemma Split_entry key v rest : entry_key key -> line_value v ->
  Split newline (line key v +:+ rest) = (key +:+ ": " +:+ v) :: Split newline rest.
Proof. intros Hk Hv. rewrite line_app. by apply Split_app, line_no_newline. Qed.

(** An empty subject is an entry too. *)
Lemma parse_line_subject f s : TrimSpace s = s ->
  parse_line f ("subject" +:+ ": " +:+ s) = MkTemplateFile (tf_Name f) (tf_Channel f) (Some s) (tf_BodyTemplate f).
Proof.
  intros Hs. destruct (decide (s = "")) as [->|Hne]; [reflexivity|].
  apply (parse_line_value f "subject" s); unfold entry_key; auto.
Qed.

Lemma channel_value c : IsValid c = true -> line_value c /\ c <> "".
Proof. intros Hc. unfold IsValid in Hc. unfold line_value. by repeat (case_bool_decide; [subst c; vm_compute|]). Qed.

(** The front matter of a printed file, and what its lines say. *)
Definition front_matter (f : TemplateFile) : string :=
  line "name" (tf_Name f) +:+ line "channel" (tf_Channel f)
  +:+ match tf_SubjectTemplate f with Some s => line "subject" s | None => "" end.

Lemma Cut_front_matter f b : file_ok f -> Cut marker (front_matter f +:+ marker +:+ b) = Some (front_matter f, b).
Proof.
  intros (Hn & _ & Hc & Hs & _). apply channel_value in Hc as [Hc _]. unfold front_matter.
  rewrite !append_assoc, Cut_entry, Cut_entry by (done || unfold entry_key; auto).
  destruct (tf_SubjectTemplate f) as [s|]; [rewrite Cut_entry by (unfold entry_key; auto)|rewrite append_nil];
    rewrite Cut_marker; simpl; [|done]. by rewrite append_nil_r.
Qed.

Lemma fold_front_matter f : file_ok f ->
  foldl parse_line (MkTemplateFile "" "" None (tf_BodyTemplate f)) (Split newline (front_matter f)) = f.
Proof.
  intros (Hn & Hne & Hc & Hs & _). apply channel_value in Hc as [Hc Hce]. unfold front_matter.
  rewrite !Split_entry by (done || unfold entry_key; auto). cbn [foldl].
  rewrite !parse_line_value by (done || unfold entry_key; auto || apply Hn || apply Hc).
  destruct f as [n c [s|] b]; cbn [tf_Name tf_Channel tf_SubjectTemplate tf_BodyTemplate] in *; [|done].
  rewrite <-(append_nil_r (line "subject" s)), Split_entry by (unfold entry_key; auto). cbn [foldl].
  rewrite parse_line_subject by (by apply Hs). done.
Qed.

(** C35. A template file written in the loader's format is read back exactly, whatever its
    name, channel, subject (also none, or an empty one) and body: front matter of
    "key: value" lines, a body that may itself hold "---" lines and colons.  The values
    must be trimmed and on one line, and must not end in "---", which the loader takes
    for the closing marker. *)
Theorem template_file_roundtrip (f : TemplateFile) :
  file_ok f -> parse_content (print_file f) = Ok f.
Proof.
  intros Hf. pose proof (Cut_front_matter f (tf_BodyTemplate f) Hf) as Hcut. pose proof (fold_front_matter f Hf) as Hfold.
  destruct Hf as (_ & Hne & Hc & _ & Hb & Hbe).
  assert (print_file f = marker +:+ (front_matter f +:+ marker +:+ tf_BodyTemplate f)) as ->
    by (unfold print_file, front_matter; by rewrite !append_assoc).
  unfold parse_content, HasPrefix. rewrite prefix_app. cbn [negb]. rewrite TrimPrefix_app, Hcut, Hb.
  by rewrite decide_False, Hfold, decide_False, Hc by done.
Qed.

Definition welcome_file : TemplateFile :=
  MkTemplateFile "welcome" "email" (Some "Hi: {{.name}}") ("Dear {{.name}}," +:+ String newline marker +:+ "bye").
Lemma template_file_roundtrip_witness :
  file_ok welcome_file /\ parse_content (print_file welcome_file) = Ok welcome_file.
Proof.
  assert (file_ok welcome_file) as Hok.
  { do 3 (split; [vm_compute; done|]). split; [intros ? [= <-]; vm_compute; done|]. split; vm_compute; done. }
  split; [exact Hok|exact (template_file_roundtrip welcome_file Hok)].
Defined.
