(* ===== verification/Seed.v ===== *)
(** * The seed script ([scripts/seed.go])

    It provisions a tenant, an API client and the starter templates; its three
    statements are upserts. *)

From S2P Require Import Prelude Strings Time Domain Json World Db Schema Access Loader.

Section Seed.
Context `{Env} `{KeySource}.

(** [INSERT INTO tenants .. ON CONFLICT (name) DO UPDATE SET name = EXCLUDED.name RETURNING id] *)
Definition UpsertTenant (name : string) : M TenantRow :=
  sql (fun u t d =>
    match violated [(varchar 255 name, too_long)] with
    | Some msg => (Err (EPlain msg), d)
    | None =>
        match where_ (fun r => bool_decide (xr_Name r = name)) (tenants d) with
        | [] => insert_row [fresh_id xr_ID (tenants d) u]
                  {| xr_ID := u; xr_Name := name; xr_IsActive := true; xr_CreatedAt := t; xr_UpdatedAt := t |} set_tenants d
        | r :: _ => (Ok r, d)
        end
    end).

(** [.. ON CONFLICT (api_key_hash) DO UPDATE SET name = EXCLUDED.name RETURNING id]: the
    tenant of the row stays. *)
Definition set_client_name (name : string) (r : ApiClientRow) : ApiClientRow :=
  {| cr_ID := cr_ID r; cr_Name := name; cr_ApiKeyHash := cr_ApiKeyHash r; cr_IsActive := cr_IsActive r;
     cr_CreatedAt := cr_CreatedAt r; cr_UpdatedAt := cr_UpdatedAt r; cr_TenantID := cr_TenantID r |}.
Definition UpsertAPIClient (tenant : uuid) (name hash : string) : M ApiClientRow :=
  sql (fun u t d =>
    match violated [(varchar 255 name, too_long); (varchar 255 hash, too_long)] with
    | Some msg => (Err (EPlain msg), d)
    | None =>
        match where_ (fun r => bool_decide (cr_ApiKeyHash r = hash)) (api_clients d) with
        | [] => insert_row [fresh_id cr_ID (api_clients d) u; (tenant_exists d tenant, fk_violation)]
                  {| cr_ID := u; cr_Name := name; cr_ApiKeyHash := hash; cr_IsActive := true;
                     cr_CreatedAt := t; cr_UpdatedAt := t; cr_TenantID := Some tenant |} set_api_clients d
        | _ :: _ => update_returning (fun r => bool_decide (cr_ApiKeyHash r = hash)) (set_client_name name)
                      api_clients set_api_clients d
        end
    end).

(** [.. ON CONFLICT (name) DO UPDATE SET subject_template, body_template, updated_at]: the
    tenant and the channel of the row stay. *)
Definition set_template_text (subject : option string) (body : string) (t : gotime) (r : TemplateRow) : TemplateRow :=
  {| tr_ID := tr_ID r; tr_Name := tr_Name r; tr_Channel := tr_Channel r; tr_SubjectTemplate := subject;
     tr_BodyTemplate := body; tr_Metadata := tr_Metadata r; tr_Version := tr_Version r; tr_IsActive := tr_IsActive r;
     tr_CreatedAt := tr_CreatedAt r; tr_UpdatedAt := t; tr_TenantID := tr_TenantID r |}.
Definition named (name : string) (r : TemplateRow) : bool := bool_decide (tr_Name r = name).
Definition UpsertTemplate (tenant : uuid) (f : Template) : M TemplateRow :=
  sql (fun u t d =>
    match violated [(varchar 255 (t_Name f), too_long); (varchar 50 (t_Channel f), too_long)] with
    | Some msg => (Err (EPlain msg), d)
    | None =>
        match where_ (named (t_Name f)) (templates d) with
        | [] => insert_row [fresh_id tr_ID (templates d) u; (tenant_exists d tenant, fk_violation)]
                  {| tr_ID := u; tr_Name := t_Name f; tr_Channel := t_Channel f; tr_SubjectTemplate := t_SubjectTemplate f;
                     tr_BodyTemplate := t_BodyTemplate f; tr_Metadata := None; tr_Version := 1; tr_IsActive := true;
                     tr_CreatedAt := t; tr_UpdatedAt := t; tr_TenantID := Some tenant |} set_templates d
        | _ :: _ => update_returning (named (t_Name f))
                      (set_template_text (t_SubjectTemplate f) (t_BodyTemplate f) t) templates set_templates d
        end
    end).

(** One directory: templates that fail are skipped with a warning. *)
Fixpoint seed_each (tenant : uuid) (ts : list Template) (count : Z) : M Z :=
  match ts with
  | [] => mret count
  | f :: ts' =>
      r ← try (UpsertTemplate tenant f);
      seed_each tenant ts' (match r with Ok _ => count + 1 | Err _ => count end)
  end.
Fixpoint seed_dirs (tenant : uuid) (dirs : list (string * result (list DirEntry))) (count : Z) : M Z :=
  match dirs with
  | [] => mret count
  | (dir, entries) :: dirs' =>
      ts ← try (LoadFromDir dir entries);
      count' ← match ts with Ok ts => seed_each tenant ts count | Err _ => mret count end;
      seed_dirs tenant dirs' count'
  end.

Record SeedFlags := MkSeedFlags { sf_db : string; sf_tenant : string; sf_name : string; sf_key : string }.
Record SeedReport := MkSeedReport { so_TenantID : uuid; so_ClientID : uuid; so_Key : string; so_Templates : Z }.

(** [fatalf] is the [Err] outcome; the two directories come with their entries. *)
Definition seed_main (flags : SeedFlags) (getenv : string -> string) (email sms : result (list DirEntry)) : M SeedReport :=
  let dbURL := if decide (sf_db flags = "") then getenv "DATABASE_URL" else sf_db flags in
  if decide (dbURL = "") then throw (EPlain "DATABASE_URL is required (use -db flag or set DATABASE_URL env var)")
  else
    tick ← gets w_tick;
    rawKey ← (if decide (sf_key flags = "") then or_else (lift (rand_hex tick)) (EWrap "generate random key")
              else mret (sf_key flags));
    _ ← or_else (external (fun _ w => (Ok tt, w))) (EWrap "ping db");
    tenant ← or_else (UpsertTenant (sf_tenant flags)) (EWrap "insert tenant");
    client ← or_else (UpsertAPIClient (xr_ID tenant) (sf_name flags) (hashKey rawKey)) (EWrap "insert api_client");
    count ← seed_dirs (xr_ID tenant) [("templates/email", email); ("templates/sms", sms)] 0;
    mret (MkSeedReport (xr_ID tenant) (cr_ID client) rawKey count).
End Seed.

(** ** What an upsert keeps *)

Section Upserts.
Context `{Env} `{KeySource}.

#[global] Instance keeps_UpsertTenant name : Keeps schema (UpsertTenant name).
Proof.
  apply keeps_sql. intros u t d Hd. cbv zeta. destruct (violated _); [done|]. destruct (where_ _ (tenants d)) eqn:E; [|done].
  apply insert_row_wf; [done|]. intros Hc. checked. rewrite where_nil in E. wf_fields; eauto with schema.
  apply unique_snoc; [done|]. intros (r & Hk & Hr)%list_elem_of_fmap. specialize (E r Hr). simpl in *.
  rewrite bool_decide_eq_false in E. congruence.
Qed.
#[global] Instance keeps_UpsertAPIClient tenant name hash : Keeps schema (UpsertAPIClient tenant name hash).
Proof.
  apply keeps_sql. intros u t d Hd. cbv zeta. destruct (violated _); [done|]. destruct (where_ _ (api_clients d)) eqn:E.
  - apply insert_row_wf; [done|]. intros Hc. checked. rewrite where_nil in E. wf_fields; eauto with schema.
    apply unique_snoc; [done|]. intros (r & Hk & Hr)%list_elem_of_fmap. specialize (E r Hr). simpl in *.
    rewrite bool_decide_eq_false in E. congruence.
  - wf_fields; apply unique_update; by try intros [] ?.
Qed.
#[global] Instance keeps_UpsertTemplate tenant f : Keeps schema (UpsertTemplate tenant f).
Proof.
  apply keeps_sql. intros u t d Hd. cbv zeta. destruct (violated _); [done|].
  destruct (where_ (named _) (templates d)) eqn:E.
  - apply insert_row_wf; [done|]. intros Hc. checked. rewrite where_nil in E. wf_fields; eauto with schema.
    apply unique_snoc; [done|]. intros (r & Hk & Hr)%list_elem_of_fmap. specialize (E r Hr). unfold named in E. simpl in *.
    rewrite bool_decide_eq_false in E. congruence.
  - wf_fields; apply unique_update; by try intros [] ?.
Qed.

Lemma keeps_load_entries dir entries : Keeps schema (load_entries dir entries).
Proof.
  assert (Keeps schema uuid_New) by (intros w Hw; by apply schema_advance).
  induction entries as [|e entries IH]; cbn [load_entries]; apply _.
Qed.
Lemma keeps_seed_each tenant ts count : Keeps schema (seed_each tenant ts count).
Proof. revert count. induction ts as [|f ts IH]; intros count; cbn [seed_each]; apply _. Qed.
Lemma keeps_seed_dirs tenant dirs count : Keeps schema (seed_dirs tenant dirs count).
Proof.
  revert count. induction dirs as [|[dir entries] dirs IH]; intros count; cbn [seed_dirs]; [apply _|].
  apply keeps_bind; [apply keeps_try; unfold LoadFromDir; apply keeps_bind; [apply _|intros; apply keeps_load_entries]|].
  intros ts. apply keeps_bind; [destruct ts; [apply keeps_seed_each|apply _]|intros; apply IH].
Qed.

(** Seeding leaves the schema intact, also when it stops halfway. *)
Lemma seed_keeps_schema flags getenv email sms : Keeps schema (seed_main flags getenv email sms).
Proof.
  unfold seed_main. destruct (decide _); [apply _|]. apply keeps_bind; [apply _|]. intros tick.
  apply keeps_bind; [apply _|]. intros key.
  apply keeps_bind; [apply keeps_or_else; intros w Hw; unfold external; destruct (ev_fault _); by apply schema_advance|].
  intros _. apply keeps_bind; [apply _|]. intros tenant. apply keeps_bind; [apply _|]. intros client.
  apply keeps_bind; [apply keeps_seed_dirs|apply _].
Qed.
End Upserts.

Lemma where_update {A} (P : A -> bool) f t : (forall x, P (f x) = P x) -> where_ P (update_where P f t) = f <$> where_ P t.
Proof.
  intros Hf. unfold where_, update_where. induction t as [|x t IH]; [done|]. cbn [fmap list_fmap List.filter].
  destruct (P x) eqn:E; [rewrite Hf, E; cbn [fmap list_fmap]; by f_equal|by rewrite E].
Qed.

(** Template names are unique across tenants and channels, and the seed upserts by name:
    seeding a template whose name exists, for another tenant or another channel, leaves
    the one row its tenant and channel and replaces its subject and body.  The shipped
    [email/alert.tmpl] and [sms/alert.tmpl] share the name "alert", so the e-mail template
    ends up with the text message's body. *)
Theorem seed_overwrites_by_name `{Env} tenant f old w row w' :
  schema w -> old ∈ templates (w_db w) -> tr_Name old = t_Name f -> UpsertTemplate tenant f w = (Ok row, w') ->
  exists t, row = set_template_text (t_SubjectTemplate f) (t_BodyTemplate f) t old /\
    where_ (named (t_Name f)) (templates (w_db w')) = [row].
Proof.
  intros Hs Hin Hname Hrun. assert (where_ (named (t_Name f)) (templates (w_db w)) = [old]) as Hw.
  { apply (where_key_unique tr_Name); [apply (wf_template_name _ Hs)|done| |].
    - unfold named. by apply bool_decide_eq_true.
    - intros y _ Hy%bool_decide_eq_true. congruence. }
  refine (wp_run _ (fun r w' => forall row, r = Ok row -> exists t,
    row = set_template_text (t_SubjectTemplate f) (t_BodyTemplate f) t old /\
    where_ (named (t_Name f)) (templates (w_db w')) = [row]) w _ _ _ Hrun row eq_refl).
  apply wp_sql; [done|]. intros dt u t msg. destruct (violated _); [by split|]. rewrite Hw. unfold update_returning.
  rewrite Hw. split; [done|]. intros r [= <-]. exists t. split; [done|].
  destruct w as [[]]. simpl in *. rewrite where_update by (by intros []). by rewrite Hw.
Qed.
