(* ===== verification/System.v ===== *)
(** * The whole program

    The entry points of the two processes over one world: a request to the API, the gap
    a stream replays and its end, the scheduler's tick, and one turn of each consumer.  An invariant
    that the statements and calls of the program keep one by one is kept by every run of
    the entry points, in any order and under any faults; the schema and the safety of the
    metrics are two such invariants. *)

From S2P Require Import Prelude Time Domain Json World Metrics Db Repository Schema Queue.
From S2P Require Import Provider RateLimit Preference Template Notification Webhook Processor Pipeline WebhookWorker.
From S2P Require Import Http Config Dlq Access Requests Handlers WsToken Stream Health Router Isolation Wiring.

Create HintDb entries.

(** ** What an invariant has to keep *)

(** The statements and calls whose arguments do not matter to an invariant; a metric is
    only updated as its collector allows, and no status goes back to "pending". *)
Class Statements `{Env} `{RedisCommands} (I : world -> Prop) : Prop := {
  inv_read :: forall A (q : gotime -> db -> result A), Keeps I (sql_read q);
  inv_call :: forall A (q : world -> result A), Keeps I (external (fun _ w => (q w, w)));
  inv_wait :: forall d, Keeps I (wait d);
  inv_idle : forall dt w, I w -> I (advance dt w);
  inv_AllowKey :: forall key win cap, Keeps I (AllowKey key win cap);
  inv_add : forall name ls n, add_ok name ls n = true -> Keeps I (metric_add name ls n);
  inv_set : forall name ls v, set_ok name ls = true -> Keeps I (metric_set name ls v);
  inv_UpdateNotificationStatus : forall id st, st <> StatusPending -> Keeps I (UpdateNotificationStatus id st);
  inv_CancelNotification :: forall id t, Keeps I (CancelNotification id t);
  inv_InsertDeliveryLog :: forall p, Keeps I (InsertDeliveryLog p);
  inv_InsertTemplate :: forall t n c s b m, Keeps I (InsertTemplate t n c s b m);
  inv_UpdateTemplate :: forall id s b m a t, Keeps I (UpdateTemplate id s b m a t);
  inv_DeleteTemplate :: forall id t, Keeps I (DeleteTemplate id t);
  inv_UpsertPreference :: forall p, Keeps I (UpsertPreference p);
  inv_DeletePreference :: forall t u c, Keeps I (DeletePreference t u c);
  inv_DeleteDeadLetter :: forall id t, Keeps I (DeleteDeadLetter id t);
  inv_MarkDeadLetterReplayed :: forall id t, Keeps I (MarkDeadLetterReplayed id t);
  inv_MarkInAppMessageRead :: forall id t r, Keeps I (MarkInAppMessageRead id t r);
  inv_MarkAllInAppMessagesRead :: forall t r, Keeps I (MarkAllInAppMessagesRead t r);
  inv_InsertWebhookEndpoint :: forall t u s e a, Keeps I (InsertWebhookEndpoint t u s e a);
  inv_UpdateWebhookEndpoint :: forall id t u e a, Keeps I (UpdateWebhookEndpoint id t u e a);
  inv_DeleteWebhookEndpoint :: forall id t, Keeps I (DeleteWebhookEndpoint id t);
  inv_InsertWebhookDelivery :: forall p, Keeps I (InsertWebhookDelivery p);
  inv_UpdateWebhookDelivery :: forall id s a n l r, Keeps I (UpdateWebhookDelivery id s a n l r);
  inv_UpsertDeviceToken :: forall te us tok pl, Keeps I (UpsertDeviceToken te us tok pl);
  inv_DeactivateDeviceToken :: forall t k, Keeps I (DeactivateDeviceToken t k);
  inv_InsertTenant :: forall n, Keeps I (InsertTenant n);
  inv_InsertAPIClient :: forall t n h, Keeps I (InsertAPIClient t n h);
}.

(** The ones that bring something new into the queue or the tables it is fed from. *)
Class Invariant `{Env} `{Propagator} `{RedisCommands} (I : world -> Prop) : Prop := {
  inv_Statements :: Statements I;
  inv_Publish :: forall topic key payload, Keeps I (Queue.Publish topic key payload);
  inv_InsertNotification : forall p, in_Status p = StatusPending -> Keeps I (InsertNotification p);
  inv_CreateDeadLetter :: forall p, Keeps I (CreateDeadLetter p);
}.

#[global] Hint Extern 1 (Keeps ?I (metric_add _ _ _)) => apply inv_add; reflexivity : typeclass_instances.
#[global] Hint Extern 1 (Keeps ?I (Inc _ _)) => apply inv_add; reflexivity : typeclass_instances.
#[global] Hint Extern 1 (Keeps ?I (Dec _ _)) => apply inv_add; reflexivity : typeclass_instances.
#[global] Hint Extern 1 (Keeps ?I (Observe _ _)) => apply inv_add; reflexivity : typeclass_instances.
#[global] Hint Extern 1 (Keeps ?I (metric_set _ _ _)) => apply inv_set; reflexivity : typeclass_instances.
#[global] Hint Extern 1 (Keeps ?I (UpdateNotificationStatus _ _)) =>
  apply inv_UpdateNotificationStatus; discriminate : typeclass_instances.
#[global] Hint Extern 1 (Keeps ?I (InsertNotification _)) => apply inv_InsertNotification; reflexivity : typeclass_instances.

(** ** Entry points *)

Section System.
Context `{Env} `{UuidText} `{Propagator} `{RedisCommands} `{TimeZones} `{TextTemplate} `{UrlCheck} `{HttpClient}
  `{KeySource} `{Jwt} `{WsAccept} `{ChiMux} `{PromText}.
(** The configuration of the processes. *)
Variables (deps : ProcessorDeps) (rdeps : RouterDeps) (maxRetries batchSize webhookMaxAttempts webhookRetryDelay : Z).

Inductive entry : forall A, M A -> Prop :=
  | E_request order r : entry _ (ServeHTTP rdeps order r)
  | E_replay_gap t r id : entry _ (InAppRepo_ListSince t r id)
  | E_stream_close write_failed : entry _ (Stream_close write_failed)
  | E_tick : entry _ (tick maxRetries batchSize)
  | E_process msg : entry _ (Process deps msg)
  | E_webhook_turn raw : entry _ (webhook_handle webhookRetryDelay raw)
  | E_dlq_turn raw : entry _ (dlq_handle raw).

(** One entry point runs, or time passes. *)
Inductive system_step : world -> world -> Prop :=
  | step_entry A (m : M A) w : entry A m -> system_step w (m w).2
  | step_idle dt w : system_step w (advance dt w).

(** ** The entry points keep an invariant *)

Variable I : world -> Prop.

Section Keeping.
Context `{!Statements I}.

(** *** The worker, given that its dead letters and webhook events keep the invariant *)

Section Worker.
Variable msg : Message.
Hypothesis providers_keep : forall ch p n, d_Registry deps !! ch = Some p -> Keeps I (pv_Send p n).
Hypothesis deadLetter_keeps : forall reason e, Keeps I (deadLetter deps msg reason e).
Hypothesis dispatch_keeps : forall n e, Keeps I (dispatchWebhook deps n e).

#[local] Instance keeps_logDelivery n st e c t : Keeps I (logDelivery deps msg n st e c t).
Proof. unfold logDelivery, DeliveryRepo_Create, now. apply _. Qed.
#[local] Instance keeps_fail_delivery n reason e : Keeps I (fail_delivery deps msg n reason e).
Proof using Statements0 deadLetter_keeps dispatch_keeps. unfold fail_delivery, updateStatus, NotificationRepo_UpdateStatus. apply _. Qed.
#[local] Instance keeps_drop n reason : Keeps I (drop deps msg n reason).
Proof using Statements0 dispatch_keeps. unfold drop, updateStatus, NotificationRepo_UpdateStatus. apply _. Qed.

Lemma keeps_send_loop retries prov n attempt :
  (forall n, Keeps I (pv_Send prov n)) -> Keeps I (send_loop deps retries prov n msg attempt).
Proof using Statements0.
  intros Hp. revert attempt. induction retries as [|r IH]; intros attempt; cbn [send_loop].
  all: apply keeps_bind; [unfold send_once, Inc, Observe; apply keeps_bind; [apply keeps_try, Hp|apply _]|].
  all: intros [|err]; [apply _|destruct (_ || _); [apply _|apply keeps_bind; [apply _|intros []; apply _]]].
Qed.

#[local] Instance keeps_deliver n : Keeps I (deliver deps msg n).
Proof using Statements0 providers_keep deadLetter_keeps dispatch_keeps.
  unfold deliver. apply keeps_bind.
  { destruct (n_TemplateID n); [|apply _]. unfold Render, TemplateRepo_GetByID, Observe. apply _. }
  intros [payload|err]; [|apply _]. destruct (Registry_Get _ _) as [prov|err] eqn:Hg; [|apply _].
  assert (forall m, Keeps I (pv_Send prov m)) as Hp.
  { intros m. unfold Registry_Get in Hg. case_match eqn:E; simplify_eq. by eapply providers_keep. }
  apply keeps_bind; [apply keeps_try; by apply keeps_send_loop|]. intros [|e]; [|apply _].
  unfold updateStatus, NotificationRepo_UpdateStatus, now. apply _.
Qed.

Lemma keeps_Process : Keeps I (Process deps msg).
Proof using Statements0 providers_keep deadLetter_keeps dispatch_keeps.
  unfold Process, process_steps, process_fetched, NotificationRepo_GetByID, NotificationRepo_UpdateStatus, IsAllowed,
    PreferenceRepo_Get, Allow, Inc, Dec, now. apply _.
Qed.
End Worker.

(** *** The webhook worker *)

#[local] Instance keeps_post msg : Keeps I (post msg).
Proof.
  unfold post, webhook_send. destruct (http_NewRequest _); [|apply _]. apply keeps_bind; [|apply _].
  apply keeps_try, (inv_call _ (fun w => http_Do (w_tick w) _)).
Qed.
#[local] Instance keeps_markDelivered msg a c : Keeps I (markDelivered msg a c).
Proof. unfold markDelivered, WebhookRepo_UpdateDelivery. apply _. Qed.
#[local] Instance keeps_markFailed msg c e : Keeps I (markFailed msg c e).
Proof. unfold markFailed, WebhookRepo_UpdateDelivery. apply _. Qed.

Lemma keeps_process_loop retries msg attempt : Keeps I (process_loop webhookRetryDelay retries msg attempt).
Proof.
  revert attempt. induction retries as [|r IH]; intros attempt; cbn [process_loop].
  all: apply keeps_bind; [apply keeps_post|]; intros [code [err|]]; cbn [fst snd].
  2, 4: unfold Inc; apply keeps_bind; [apply _|intros _; apply keeps_markDelivered].
  all: destruct (_ <=? _); [unfold Inc; apply keeps_bind; [apply _|intros _; apply keeps_markFailed]|].
  all: apply keeps_bind; [apply inv_wait|]; intros []; [apply keeps_throw|].
  - apply keeps_throw.
  - apply IH.
Qed.

Lemma keeps_webhook_handle raw : Keeps I (webhook_handle webhookRetryDelay raw).
Proof.
  unfold webhook_handle, webhook_process. destruct (Unmarshal_bytes _); [|apply _].
  apply keeps_bind; [apply keeps_try, keeps_process_loop|apply _].
Qed.

Lemma keeps_replay_gap t r id : Keeps I (InAppRepo_ListSince t r id).
Proof. unfold InAppRepo_ListSince. apply _. Qed.

Lemma keeps_Stream_close b : Keeps I (Stream_close b).
Proof. unfold Stream_close. destruct b; apply _. Qed.

(** *** The API, given that sending and replaying keep the invariant *)

Section Api.
Hypothesis probes_keep : Forall (fun p => Keeps I (pb_Check p)) (rd_probes rdeps).
Hypothesis Send_keeps : forall t req, Keeps I (Send (rd_maxRetries rdeps) t req).
Hypothesis replay_keeps : forall t id, Keeps I (replay (rd_maxRetries rdeps) t id).

#[local] Instance keeps_send_each t req rs : Keeps I (send_each (rd_maxRetries rdeps) t req rs).
Proof using Send_keeps. induction rs as [|r rs IH]; cbn [send_each]; apply _. Qed.

#[local] Hint Unfold NotificationHandler_Send NotificationHandler_SendBulk NotificationHandler_GetByID NotificationHandler_List
  NotificationHandler_Cancel TemplateHandler_Create TemplateHandler_List TemplateHandler_GetByID
  TemplateHandler_Update TemplateHandler_Delete TemplateHandler_Preview PreferenceHandler_ListByUser
  PreferenceHandler_Upsert PreferenceHandler_Delete DeviceTokenHandler_Register DeviceTokenHandler_Deregister
  TenantHandler_CreateTenant TenantHandler_CreateAPIKey WebhookHandler_Create WebhookHandler_List
  WebhookHandler_GetByID WebhookHandler_Update WebhookHandler_Delete inbox_query
  InboxHandler_List InboxHandler_UnreadCount InboxHandler_MarkRead InboxHandler_MarkAllRead : entries.
#[local] Hint Unfold SendBulk NotificationService_GetByID NotificationService_List NotificationService_Cancel
  NotificationRepo_GetByID NotificationRepo_List NotificationRepo_Cancel
  TemplateService_Create TemplateService_GetByID TemplateService_List TemplateService_Update TemplateService_Delete
  Preview TemplateRepo_Create TemplateRepo_GetByID TemplateRepo_List TemplateRepo_Update TemplateRepo_Delete
  PreferenceService_ListByUser PreferenceService_Upsert PreferenceService_Delete
  PreferenceRepo_ListByUser PreferenceRepo_Upsert PreferenceRepo_Delete
  WebhookService_Create WebhookService_List WebhookService_GetByID WebhookService_Update WebhookService_Delete
  WebhookRepo_CreateEndpoint WebhookRepo_ListEndpoints WebhookRepo_GetEndpoint WebhookRepo_UpdateEndpoint
  WebhookRepo_DeleteEndpoint DeviceTokenService_Register DeviceTokenService_Deregister
  DeviceTokenRepo_Upsert DeviceTokenRepo_Deactivate InAppRepo_List InAppRepo_ListSince InAppRepo_CountUnread
  InAppRepo_MarkRead InAppRepo_MarkAllRead TenantService_CreateTenant TenantService_CreateAPIKey generateKey
  TenantRepo_Create TenantRepo_GetByID APIClientRepo_CreateForTenant APIClientRepo_GetByKeyHash authenticate
  DLQ_List DLQ_GetByID DLQ_Replay DLQ_Delete with_tenant_id DeadLetterRepo_List DeadLetterRepo_GetByID
  DeadLetterRepo_Delete with_tenant with_body with_id_param with_channel with_recipient WSTokenHandler_Issue WSToken_Issue
  TenantHandler_CreateTenant TenantHandler_CreateAPIKey Metrics_Handler Checker_Live InboxHandler_Stream Stream_open
  WSToken_Verify now Inc : entries.

Lemma keeps_run_goroutines order results : Keeps I (run_goroutines (rd_probes rdeps) order results).
Proof using probes_keep.
  revert results. induction order as [|i order IH]; intros results; cbn [run_goroutines]; [apply _|].
  destruct (rd_probes rdeps !! i) as [p|] eqn:Hp; [|apply IH]. apply keeps_bind; [|intros; apply IH].
  assert (Keeps I (pb_Check p)) by apply (Forall_lookup_1 _ _ _ _ probes_keep Hp). unfold check. apply _.
Qed.

Lemma handlers_keep order r : Forall (fun e => Keeps I (rt_Handler e r)) (routes rdeps order).
Proof using Statements0 probes_keep Send_keeps replay_keeps.
  each_route; try (autounfold with entries; apply _).
  all: unfold Checker_Ready, Checker_Health, runProbes; apply keeps_bind; [apply keeps_run_goroutines|apply _].
Qed.

Lemma guard_keeps g h r : (forall r', Keeps I (h r')) -> Keeps I (guard rdeps g h r).
Proof using Statements0.
  intros Hh. destruct g; cbn [guard]; [apply Hh|unfold AdminAuth; apply _|].
  unfold Auth, authenticate, APIClientRepo_GetByKeyHash, RateLimitMiddleware. apply _.
Qed.

#[local] Instance keeps_dispatch order r : Keeps I (dispatch rdeps order r).
Proof using Statements0 probes_keep Send_keeps replay_keeps.
  unfold dispatch. destruct (chi_find _ _ _) as [i params pat|pat|pat].
  2, 3: apply keeps_bind; [apply guard_keeps; apply _|apply _].
  destruct (routes rdeps order !! i) as [e|] eqn:He; [|apply _]. apply keeps_bind; [|apply _].
  apply guard_keeps. intros r'. apply (Forall_lookup_1 _ _ _ _ (handlers_keep order r') He).
Qed.

Lemma keeps_ServeHTTP order r : Keeps I (ServeHTTP rdeps order r).
Proof using Statements0 probes_keep Send_keeps replay_keeps.
  unfold ServeHTTP, RequestID, Logging, Recovery, MetricsMiddleware.
  assert (Keeps I uuid_New) by (intros w Hw; by apply inv_idle). apply _.
Qed.

End Api.
End Keeping.

(** *** All of them *)

Context `{!Invariant I}.
Hypothesis providers_keep : forall ch p n, d_Registry deps !! ch = Some p -> Keeps I (pv_Send p n).
Hypothesis probes_keep : Forall (fun p => Keeps I (pb_Check p)) (rd_probes rdeps).
Hypothesis wired_webhooks : d_Webhook deps = None \/ d_Webhook deps = Some (Dispatch webhookMaxAttempts).

#[local] Instance keeps_dispatchWebhook n e : Keeps I (dispatchWebhook deps n e).
Proof.
  unfold dispatchWebhook. destruct wired_webhooks as [-> | ->]; [apply _|].
  unfold Dispatch, dispatch_one, WebhookRepo_CreateDelivery, WebhookRepo_ListActiveForEvent, now.
  apply keeps_ignore, keeps_bind; [apply _|]. intros eps. destruct eps as [|ep eps]; [apply _|].
  apply keeps_bind; [apply _|]. intros t. apply keeps_for_each. intros x. apply _.
Qed.
#[local] Instance keeps_deadLetter msg reason e : Keeps I (deadLetter deps msg reason e).
Proof. unfold deadLetter, PublishDLQ, now, Inc. apply _. Qed.
#[local] Instance keeps_Send retries t req : Keeps I (Send retries t req).
Proof.
  unfold Send, create_and_enqueue, enqueue, NotificationRepo_Create, NotificationRepo_GetByIdempotencyKey,
    NotificationRepo_UpdateStatus, now. apply _.
Qed.
#[local] Instance keeps_tick : Keeps I (tick maxRetries batchSize).
Proof.
  unfold tick, NotificationRepo_ListDueScheduled. apply keeps_bind; [apply _|]. intros [batch|e]; [|apply _].
  apply keeps_for_each. intros n. unfold tick_one, Scheduler_enqueue, NotificationRepo_UpdateStatus, now. apply _.
Qed.
#[local] Instance keeps_dlq_handle raw : Keeps I (dlq_handle raw).
Proof. unfold dlq_handle, DeadLetterRepo_Create, now, Inc. apply _. Qed.
#[local] Instance keeps_replay attempts t id : Keeps I (replay attempts t id).
Proof. unfold replay, DeadLetterRepo_GetByID, DeadLetterRepo_MarkReplayed, now. apply _. Qed.

Lemma entry_keeps A (m : M A) : entry A m -> Keeps I m.
Proof using All.
  destruct 1.
  - apply keeps_ServeHTTP; [done|apply _|apply _].
  - apply keeps_replay_gap.
  - apply keeps_Stream_close.
  - apply _.
  - apply keeps_Process; [done|apply _|apply _].
  - apply keeps_webhook_handle.
  - apply _.
Qed.

Lemma system_keeps w w' : rtc system_step w w' -> I w -> I w'.
Proof using All.
  induction 1 as [w|w w1 w2 Hstep _ IH]; [done|]. intros Hw. apply IH.
  destruct Hstep as [A m w He|dt w]; [by apply (entry_keeps A m He)|by apply inv_idle].
Qed.
End System.

(** ** The schema and the metrics *)

Section Invariants.
Context `{Env} `{Propagator} `{RedisCommands}.

Lemma keeps_external_schema {A} (q : event -> world -> result A * world) :
  (forall ev w, w_db (q ev w).2 = w_db w) -> Keeps schema (external q).
Proof.
  intros Hq w Hw. unfold external, schema in *. set (w1 := advance _ w).
  assert (db_wf (w_db w1)) as Hd by by destruct w.
  destruct (ev_fault _); simpl; [by rewrite Hq|done|by rewrite Hq].
Qed.
Lemma keeps_external_metrics {A} (q : event -> world -> result A * world) :
  (forall ev w, w_metrics (q ev w).2 = w_metrics w) -> Keeps metrics_ok (external q).
Proof. intros Hq. apply keeps_metrics_frame. apply frame_external; [by intros ? []|done]. Qed.

#[global] Instance schema_statements : Statements schema.
Proof.
  split; intros; try apply _.
  - by apply keeps_external_schema.
  - by apply schema_advance.
  - unfold AllowKey, now. apply keeps_bind; [apply _|]. intros t. apply keeps_bind; [|apply _].
    apply keeps_or_else, keeps_external_schema. by intros ? [].
Qed.
#[global] Instance schema_invariant : Invariant schema.
Proof. split; intros; try apply _. apply keeps_or_else, keeps_external_schema. by intros ? []. Qed.

Lemma keeps_sql_metrics {A} (q : uuid -> gotime -> db -> result A * db) : Keeps metrics_ok (sql q).
Proof. apply keeps_external_metrics. intros ev []. simpl. by destruct (q _ _ _). Qed.

#[global] Instance metrics_statements : Statements metrics_ok.
Proof.
  split; intros; try apply keeps_sql_metrics.
  - by apply keeps_external_metrics.
  - by apply keeps_external_metrics.
  - apply keeps_metrics_frame. intros w. unfold wait. destruct (ev_done _); by destruct w.
  - by destruct w.
  - unfold AllowKey, now. apply keeps_bind; [apply _|]. intros t. apply keeps_bind; [|apply _].
    apply keeps_or_else, keeps_external_metrics. by intros ? [].
  - by apply keeps_add_ok.
  - by apply keeps_set_ok.
Qed.
#[global] Instance metrics_invariant : Invariant metrics_ok.
Proof.
  split; intros; try apply keeps_sql_metrics; [apply _|].
  apply keeps_or_else, keeps_external_metrics. by intros ? [].
Qed.

(** Providers and probes that keep their contracts keep both. *)
Lemma provider_keeps_metrics p n : ProviderContract p -> Keeps metrics_ok (pv_Send p n).
Proof. intros Hp. apply keeps_metrics_frame. intros w. pose proof (send_frame (p := p) n w) as Hf.
  unfold worker_view in Hf. congruence. Qed.
End Invariants.

(** ** The started processes *)

Section Started.
Context `{Floats} `{Infra} `{!InfraLaws} `{Env} `{UuidTextLaws} `{Propagator} `{RedisCommands} `{TimeZones} `{TextTemplate}
  `{UrlCheck} `{HttpClient} `{KeySource} `{Jwt} `{WsAccept} `{ChiMux} `{PromText}.
Variables (version commit : string) (env_worker env_api : string -> string) (wk : worker) (a : api).
Hypothesis worker_started : worker_main version commit env_worker = Ok wk.
Hypothesis api_started : api_main version commit env_api = Ok a.

Lemma started_probes (I : world -> Prop) : Statements I -> Forall (fun p => Keeps I (pb_Check p)) (rd_probes (ap_deps a)).
Proof using api_started.
  intros HI. assert (exists cfg, rd_probes (ap_deps a) = probes cfg) as [cfg ->].
  { revert api_started. unfold api_main. destruct (Load _) as [cfg|]; [|done]. simpl. destruct (InitTracer _); [|done]. simpl.
    destruct (buildPool _); [|done]. simpl. destruct (buildRedis _); [|done]. intros [= <-]. by eexists. }
  assert (Keeps I ping) by apply (inv_call _ (fun _ => Ok tt)).
  unfold probes. repeat constructor; simpl; [apply _|apply _|]. destruct (c_KafkaBrokers cfg); apply _.
Qed.

Lemma started_worker : DepsContract (wk_deps wk) /\ exists attempts, d_Webhook (wk_deps wk) = Some (Dispatch attempts).
Proof using All.
  destruct (worker_main_inv _ _ _ _ worker_started) as (cfg & Hl & -> & _). split; [|by eexists].
  apply processor_deps_contract. destruct (with_build_fields version commit cfg) as [-> _]. by eapply load_webhook_attempts.
Qed.

(** An invariant that providers keep holds in every run of the two processes. *)
Lemma started_keeps (I : world -> Prop) maxRetries batchSize hookDelay w w' : Invariant I ->
  (forall p n, ProviderContract p -> Keeps I (pv_Send p n)) ->
  rtc (system_step (wk_deps wk) (ap_deps a) maxRetries batchSize hookDelay) w w' -> I w -> I w'.
Proof using All.
  intros HI Hp. destruct started_worker as [Hd [attempts Hw]]. apply (system_keeps _ _ _ _ attempts _ I).
  - intros ch p n Hch. apply Hp. by eapply deps_providers.
  - apply started_probes, _.
  - by right.
Qed.
End Started.

(** The schema (primary keys, unique columns, foreign keys) is an invariant of the
    whole program: from a database that satisfies it, every sequence of API requests,
    stream replays and closes, scheduler ticks, worker, webhook and dead-letter turns of the two
    processes, started with any environments and under any faults, ends in one that
    does. *)
Theorem system_keeps_schema `{Floats} `{Infra} `{!InfraLaws} `{Env} `{UuidTextLaws} `{Propagator} `{RedisCommands}
    `{TimeZones} `{TextTemplate} `{UrlCheck} `{HttpClient} `{KeySource} `{Jwt} `{WsAccept} `{ChiMux} `{PromText}
    version commit env_worker env_api wk a maxRetries batchSize hookDelay w w' :
  worker_main version commit env_worker = Ok wk -> api_main version commit env_api = Ok a -> schema w ->
  rtc (system_step (wk_deps wk) (ap_deps a) maxRetries batchSize hookDelay) w w' -> schema w'.
Proof.
  intros Hwk Ha Hs Hrun. revert Hs.
  apply (started_keeps version commit env_worker env_api wk a Hwk Ha schema maxRetries batchSize hookDelay); [apply _| |done].
  intros p n Hp. apply send_schema.
Qed.

(** C22. The metrics are well formed: the collectors register without a name clash, and in
    every run of the two processes (requests, stream replays and closes, ticks and worker
    turns) each series belongs to a registered collector, with as many label values as it
    has labels, and no counter goes below zero.  These are two of the three ways an update
    panics in the client library; the third, a label value that is not UTF-8, is not
    modelled. *)
Theorem metrics_well_typed `{Floats} `{Infra} `{!InfraLaws} `{Env} `{UuidTextLaws} `{Propagator} `{RedisCommands}
    `{TimeZones} `{TextTemplate} `{UrlCheck} `{HttpClient} `{KeySource} `{Jwt} `{WsAccept} `{ChiMux} `{PromText}
    version commit env env_worker env_api wk a maxRetries batchSize hookDelay w :
  worker_main version commit env_worker = Ok wk -> api_main version commit env_api = Ok a -> w_metrics w = ∅ ->
  exists w1, NewMetrics version commit env w = (Ok tt, w1) /\
    forall w2, rtc (system_step (wk_deps wk) (ap_deps a) maxRetries batchSize hookDelay) w1 w2 -> metrics_ok w2.
Proof.
  intros Hwk Ha Hw. destruct (NewMetrics_ok version commit env w Hw) as (w1 & Hn & Hok). exists w1. split; [done|].
  intros w2 Hrun. revert Hok. eapply (started_keeps version commit env_worker env_api wk a Hwk Ha metrics_ok);
    [apply _|apply provider_keeps_metrics|done].
Qed.

(** ** A run, evaluated *)

Definition demo_http : HttpClient :=
  {| http_NewRequest := fun _ => Ok tt; http_Do := fun _ _ => Ok 200; computeHMAC := fun _ _ => "00" |}.
Definition demo_urls : UrlCheck := fun _ => true.
Definition api_getenv (key : string) : string := if String.eqb key "ADMIN_TOKEN" then "root" else demo_getenv key.
Definition demo_api : result api := @api_main milli_floats demo_infra calm "1" "c0" api_getenv.

(** The administrator creates a tenant. *)
Definition create_tenant : Request :=
  {| rq_Method := "POST"; rq_Path := "/internal/tenants/";
     rq_Header := fun k => if String.eqb k "X-Admin-Token" then "root" else ""; rq_Query := fun _ => "";
     rq_Param := fun _ => ""; rq_Body := BodyJson 15 (AObj [("name", AStr "acme")]); rq_ID := ""; rq_Client := None |}.
Definition serve (a : api) (r : Request) (w : world) : world :=
  (@ServeHTTP calm bits_uuid demo_trace redis_ref plain_text demo_urls demo_keys clear_jwt accept_all segment_mux
     (fun _ => "") (ap_deps a) [0%nat] r w).2.

Lemma system_keeps_schema_witness :
  exists wk a, demo_boot = Ok wk /\ demo_api = Ok a /\
  schema (serve a create_tenant empty_world) /\ length (tenants (w_db (serve a create_tenant empty_world))) = 1%nat.
Proof.
  assert (match demo_boot with Ok wk => length (wk_tasks wk) | Err _ => 0%nat end = 10%nat) as Hn by (vm_compute; reflexivity).
  destruct demo_boot as [wk|e] eqn:E; [|discriminate Hn]. exists wk. eexists. split; [done|]. split; [reflexivity|].
  split; [|vm_compute; reflexivity].
  eapply (@system_keeps_schema milli_floats demo_infra demo_infra_laws calm bits_uuid bits_uuid_laws demo_trace redis_ref
    demo_zones plain_text demo_urls demo_http demo_keys clear_jwt accept_all segment_mux (fun _ => "")
    "1" "c0" demo_getenv api_getenv wk _ 3 100 Second empty_world _ E eq_refl); [exact empty_db_wf|].
  eapply rtc_l; [|apply rtc_refl]. apply step_entry, E_request.
Defined.

Lemma metrics_well_typed_witness :
  exists wk a w1, demo_boot = Ok wk /\ demo_api = Ok a /\ NewMetrics "1" "c0" "dev" empty_world = (Ok tt, w1) /\
  metrics_ok (serve a create_tenant w1) /\
  metric (serve a create_tenant w1) "HTTPRequests" ["POST"; "/internal/tenants/"; "201"] = 1.
Proof.
  assert (match demo_boot with Ok wk => length (wk_tasks wk) | Err _ => 0%nat end = 10%nat) as Hn by (vm_compute; reflexivity).
  destruct demo_boot as [wk|e] eqn:E; [|discriminate Hn]. exists wk. eexists.
  destruct (@metrics_well_typed milli_floats demo_infra demo_infra_laws calm bits_uuid bits_uuid_laws demo_trace redis_ref
    demo_zones plain_text demo_urls demo_http demo_keys clear_jwt accept_all segment_mux (fun _ => "")
    "1" "c0" "dev" demo_getenv api_getenv wk _ 3 100 Second empty_world E eq_refl eq_refl) as (w1 & Hw1 & Hok).
  exists w1. split; [done|]. split; [reflexivity|]. split; [exact Hw1|]. split.
  - apply Hok. eapply rtc_l; [|apply rtc_refl]. apply step_entry, E_request.
  - assert (w1 = (NewMetrics "1" "c0" "dev" empty_world).2) as -> by (rewrite Hw1; reflexivity). vm_compute. reflexivity.
Defined.
