(* ===== verification/Tracing.v ===== *)
(** * Spans ([internal/observability/span.go], [internal/queue/producer.go])

    The two operations that open a span, [Send] and [Process], with every call on it, as
    computations over the world and the span.  Forgetting the span gives the definitions
    the rest of the development is about; what the span tells of the outcome, and how the
    trace crosses the queue, is proved of the traced ones. *)

From S2P Require Import Prelude Time Domain Json World Metrics Db Repository Schema Queue.
From S2P Require Import Provider RateLimit Preference Template Notification Webhook Processor Pipeline WebhookWorker.
From S2P Require Import Http Config Dlq Access Requests Handlers WsToken Stream Health Router Isolation Wiring System.

(** ** go.opentelemetry.io/otel *)

Record SpanContext := MkSpanContext { sc_TraceID : string; sc_SpanID : string }.

(** An id of zeros is none; a span context with both ids is valid. *)
Definition zero_context : SpanContext := MkSpanContext "00000000000000000000000000000000" "0000000000000000".
Definition valid (sc : SpanContext) : Prop := sc_TraceID sc <> sc_TraceID zero_context /\ sc_SpanID sc <> sc_SpanID zero_context.

(** The global tracer and propagator: the tracer's choice of a span context, under a parent
    or as a root, by the number of calls made before; and what the propagator writes and
    reads back. *)
Class Otel := {
  tracer_Start : option SpanContext -> nat -> SpanContext;
  propagator_Inject : SpanContext -> list (string * string);
  propagator_Extract : gmap string string -> option SpanContext;
}.
(** The SDK's tracer and W3C propagator: a span is valid and joins the trace of a valid
    parent; what is injected of a valid context is extracted. *)
Class OtelLaws `{Otel} : Prop := {
  start_valid : forall parent i, valid (tracer_Start parent i);
  start_child : forall parent i, valid parent -> sc_TraceID (tracer_Start (Some parent) i) = sc_TraceID parent;
  extract_inject : forall sc, valid sc -> propagator_Extract (header_map (propagator_Inject sc)) = Some sc;
}.

(** What [InitTracer] leaves installed: the SDK's, or the no-op tracer, which hands on the
    parent's context, and otel's default propagator, which does nothing. *)
Definition noop_otel : Otel :=
  {| tracer_Start := fun parent _ => default zero_context parent; propagator_Inject := fun _ => [];
     propagator_Extract := fun _ => None |}.
Definition installed `{Floats} (sdk : Otel) (t : tracer) : Otel := match t with NoopTracer => noop_otel | OtlpTracer _ => sdk end.

(** [ExtractTraceContext]: the parent a worker's span gets. *)
Definition ExtractTraceContext `{Otel} (rec : KafkaRecord) : option SpanContext :=
  propagator_Extract (header_map (k_Headers rec)).

Record Span := MkSpan {
  sp_Name : string;
  sp_Context : SpanContext;
  sp_Parent : option SpanContext;
  sp_Attributes : list (string * any);
  sp_Errors : list error;               (* [RecordError] *)
  sp_Status : option string;            (* [SetStatus(codes.Error, _)] *)
  sp_Ends : nat;                        (* calls of [End] *)
}.

(** ** Computations with a span *)

Abbreviation TM := (ST (world * Span)).

Definition quietly {A} (m : M A) : TM A := fun ws => let '(r, w') := m ws.1 in (r, (w', ws.2)).
Definition on_span (f : Span -> Span) : TM unit := modify (fun ws => (ws.1, f ws.2)).

Definition RecordError (err : error) : TM unit :=
  on_span (fun s => MkSpan (sp_Name s) (sp_Context s) (sp_Parent s) (sp_Attributes s) (sp_Errors s ++ [err]) (sp_Status s) (sp_Ends s)).
Definition SetStatus (description : string) : TM unit :=
  on_span (fun s => MkSpan (sp_Name s) (sp_Context s) (sp_Parent s) (sp_Attributes s) (sp_Errors s) (Some description) (sp_Ends s)).
Definition SetAttributes (attrs : list (string * any)) : TM unit :=
  on_span (fun s => MkSpan (sp_Name s) (sp_Context s) (sp_Parent s) (sp_Attributes s ++ attrs) (sp_Errors s) (sp_Status s) (sp_Ends s)).
Definition ended (s : Span) : Span :=
  MkSpan (sp_Name s) (sp_Context s) (sp_Parent s) (sp_Attributes s) (sp_Errors s) (sp_Status s) (S (sp_Ends s)).

(** [ctx, span := Tracer(_).Start(ctx, name, WithSpanAttrs(attrs)); defer span.End()] *)
Definition with_span `{Otel} {A} (parent : option SpanContext) (name : string) (attrs : list (string * any))
    (body : SpanContext -> TM A) (w : world) : (result A * world) * Span :=
  let sc := tracer_Start parent (w_tick w) in
  let '(r, (w', s)) := body sc (w, MkSpan name sc parent attrs [] None 0) in
  ((r, w'), ended s).

(** [setSpanErr] *)
Definition setSpanErr (op : string) (err : error) : TM unit :=
  _ ← RecordError err; SetStatus (op +:+ " failed").

(** A call whose error is noted on the span and returned, wrapped by [wrap]. *)
Definition noting {A} (m : M A) (note : error -> TM unit) (wrap : error -> error) : TM A :=
  r ← try (quietly m);
  match r with
  | Ok a => mret a
  | Err err => _ ← note err; throw (wrap err)
  end.

(** ** [Send] *)

Section Send.
Context `{Env} `{UuidText} `{Otel}.
Variable maxRetries : Z.

Definition failed (description : string) (err : error) : TM unit := _ ← RecordError err; SetStatus description.

Definition create_body (tenantID : uuid) (req : SendRequest) (sc : SpanContext) : TM Notification :=
  n ← noting (NotificationRepo_Create tenantID req) (failed "create failed") id;
  _ ← SetAttributes [("notifyhub.notification_id", AStr (uuid_String (n_ID n)))];
  t ← quietly now;
  if match sr_ScheduledAt req with Some at_ => t <? at_ | None => false end then mret n
  else
    _ ← noting (@enqueue _ _ (propagator_Inject sc) maxRetries tenantID n) (failed "enqueue failed") (EWrap "enqueue notification");
    _ ← quietly (Inc "NotifEnqueued" [n_Channel n]);
    noting (NotificationRepo_UpdateStatus (n_ID n) StatusQueued) (failed "status update failed") id.

Definition Send_body (tenantID : uuid) (req : SendRequest) (sc : SpanContext) : TM Notification :=
  match validate_Struct req with
  | Some err => throw (toValidationError err)
  | None =>
      existing ← match sr_IdempotencyKey req with
                 | Some key => if decide (key = "") then mret None
                               else noting (NotificationRepo_GetByIdempotencyKey tenantID key)
                                      (failed "idempotency check failed") id
                 | None => mret None
                 end;
      match existing with
      | Some n => _ ← SetAttributes [("notifyhub.idempotent_hit", ABool true)]; mret n
      | None => create_body tenantID req sc
      end
  end.

Definition Send_traced (parent : option SpanContext) (tenantID : uuid) (req : SendRequest) : world -> (result Notification * world) * Span :=
  with_span parent "NotificationService.Send"
    [("notifyhub.tenant_id", AStr (uuid_String tenantID)); ("notifyhub.channel", AStr (sr_Channel req))]
    (Send_body tenantID req).
End Send.

(** ** [Process] *)

Section Process.
Context `{Env} `{UuidText} `{Otel} `{RedisCommands} `{TimeZones} `{TextTemplate}.
(** The dependencies, which publish in the context they are given. *)
Variable deps : Propagator -> ProcessorDeps.

Definition step {A} (op : string) (m : M A) : TM A := noting m (setSpanErr op) (EWrap op).

Definition process_fetched_body (sc : SpanContext) (msg : Message) (n : Notification) : TM string :=
  let ds := deps (propagator_Inject sc) in
  _ ← step "mark processing" (NotificationRepo_UpdateStatus (n_ID n) StatusProcessing);
  allowed ← step "preference check" (IsAllowed (m_TenantID msg) (n_RecipientID n) (n_Channel n));
  if negb (allowed.1) then
    _ ← quietly (drop ds msg n allowed.2);
    mret LabelDroppedPref
  else
    let cap := default 0 (d_RateCaps ds !! n_Channel n) in
    ok ← (if 0 <? cap then
            ok ← step "rate limit check" (Allow (n_RecipientID n) (n_Channel n) Hour cap);
            _ ← quietly (Inc "RateLimitDecisions" [ScopeWorker; if (ok : bool) then OutcomeAllowed else OutcomeDenied]);
            mret ok
          else mret true);
    if (ok : bool) then noting (@deliver _ _ (propagator_Inject sc) _ ds msg n) (setSpanErr "deliver") id
    else
      _ ← quietly (drop ds msg n "rate limit exceeded");
      mret LabelDroppedRateLim.

Definition Process_body (msg : Message) (sc : SpanContext) : TM unit :=
  _ ← quietly (Inc "WorkerInflight" [m_Channel msg]);
  t ← quietly now;
  _ ← quietly (if m_EnqueuedAt msg =? zero_time then mret tt
               else metric_set "QueueLagSeconds" [m_Channel msg] (t - m_EnqueuedAt msg));
  r ← try (n ← step "fetch notification" (NotificationRepo_GetByID (m_TenantID msg) (m_NotificationID msg));
           process_fetched_body sc msg n);
  _ ← quietly (Inc "NotifProcessed" [m_Channel msg; match r with Ok outcome => outcome | Err _ => LabelDelivered end]);
  _ ← quietly (Dec "WorkerInflight" [m_Channel msg]);
  match r with
  | Ok _ => mret tt
  | Err err => throw err
  end.

Definition Process_traced (parent : option SpanContext) (msg : Message) : world -> (result unit * world) * Span :=
  with_span parent "worker.Process"
    [("notifyhub.tenant_id", AStr (uuid_String (m_TenantID msg))); ("notifyhub.channel", AStr (m_Channel msg));
     ("notifyhub.notification_id", AStr (uuid_String (m_NotificationID msg)));
     ("notifyhub.recipient_id", AStr (m_RecipientID msg)); ("notifyhub.attempt", AInt (m_Attempt msg))]
    (Process_body msg).
End Process.

(** ** Forgetting the span *)

Class Erases {A} (t : TM A) (m : M A) : Prop :=
  erases : forall w s, exists s', t (w, s) = ((m w).1, ((m w).2, s')).

#[global] Instance erases_ret {A} (a : A) : Erases (mret a) (mret a).
Proof. intros w s. by exists s. Qed.
#[global] Instance erases_throw {A} e : Erases (A := A) (throw e) (throw e).
Proof. intros w s. by exists s. Qed.
#[global] Instance erases_quietly {A} (m : M A) : Erases (quietly m) m.
Proof. intros w s. exists s. unfold quietly. simpl. by destruct (m w). Qed.
#[global] Instance erases_bind {A B} (t : TM A) m (f : A -> TM B) g :
  Erases t m -> (forall a, Erases (f a) (g a)) -> Erases (t ≫= f) (m ≫= g).
Proof.
  intros Ht Hf w s. unfold mbind, ST_bind. destruct (Ht w s) as [s1 ->]. destruct (m w) as [[a|e] w']; simpl; [apply Hf|by exists s1].
Qed.
#[global] Instance erases_try {A} (t : TM A) m : Erases t m -> Erases (try t) (try m).
Proof. intros Ht w s. unfold try. destruct (Ht w s) as [s1 ->]. exists s1. by destruct (m w). Qed.
(** What is done to the span alone is forgotten. *)
Lemma erases_span {A} f (t : TM A) m : Erases t m -> Erases (_ ← on_span f; t) m.
Proof. intros Ht w s. apply (Ht w (f s)). Qed.

(** A note on the span: it has no other effect. *)
Class Note (note : error -> TM unit) := { note_on : error -> Span -> Span; note_spec : forall e ws, note e ws = (Ok tt, (ws.1, note_on e ws.2)) }.
#[global, program] Instance note_failed d : Note (failed d) := {| note_on := fun e s =>
  MkSpan (sp_Name s) (sp_Context s) (sp_Parent s) (sp_Attributes s) (sp_Errors s ++ [e]) (Some d) (sp_Ends s) |}.
Next Obligation. done. Qed.
#[global, program] Instance note_setSpanErr op : Note (setSpanErr op) := {| note_on := fun e s =>
  MkSpan (sp_Name s) (sp_Context s) (sp_Parent s) (sp_Attributes s) (sp_Errors s ++ [e]) (Some (op +:+ " failed")) (sp_Ends s) |}.
Next Obligation. done. Qed.

Lemma noting_run {A} (m : M A) note {N : Note note} wrap w s :
  noting m note wrap (w, s) =
  match m w with (Ok a, w') => (Ok a, (w', s)) | (Err e, w') => (Err (wrap e), (w', note_on e s)) end.
Proof.
  unfold noting, mbind, ST_bind, try, quietly. simpl. destruct (m w) as [[a|e] w']; [done|]. by rewrite (note_spec e (w', s)).
Qed.
#[global] Instance erases_noting {A} (m : M A) note {N : Note note} wrap : Erases (noting m note wrap) (or_else m wrap).
Proof. intros w s. rewrite (noting_run m note). unfold or_else. destruct (m w) as [[a|e] w']; eexists; reflexivity. Qed.
Lemma erases_noting_id {A} (m : M A) note {N : Note note} : Erases (noting m note id) m.
Proof. intros w s. rewrite (noting_run m note). destruct (m w) as [[a|e] w']; eexists; reflexivity. Qed.

Section Erasure.
Context `{Env} `{UuidText} `{Otel} `{RedisCommands} `{TimeZones} `{TextTemplate}.

Lemma erases_Send maxRetries tenantID req sc :
  Erases (Send_body maxRetries tenantID req sc) (@Send _ _ (propagator_Inject sc) maxRetries tenantID req).
Proof.
  unfold Send_body, Send. destruct (validate_Struct req); [apply _|]. apply erases_bind.
  { destruct (sr_IdempotencyKey req) as [key|]; [|apply _]. destruct (decide (key = "")); [apply _|]. refine (erases_noting_id _ _). }
  intros [n|]; [apply erases_span, _|]. unfold create_body, create_and_enqueue. apply erases_bind; [refine (erases_noting_id _ _)|].
  intros n. apply erases_span, erases_bind; [apply _|]. intros t. case_match; [apply _|].
  apply erases_bind; [apply _|]. intros _. apply erases_bind; [apply _|]. intros _. refine (erases_noting_id _ _).
Qed.

Lemma erases_Process deps msg sc :
  Erases (Process_body deps msg sc) (@Process _ _ (propagator_Inject sc) _ _ _ (deps (propagator_Inject sc)) msg).
Proof.
  unfold Process_body, Process, process_steps, process_fetched_body, process_fetched, step.
  apply erases_bind; [apply _|]. intros _. apply erases_bind; [apply _|]. intros t. apply erases_bind; [apply _|]. intros _.
  apply erases_bind.
  - apply erases_try, erases_bind; [apply _|]. intros n. apply erases_bind; [apply _|]. intros _.
    apply erases_bind; [apply _|]. intros allowed. destruct (negb _); [apply _|].
    apply erases_bind; [destruct (_ <? _); apply _|]. intros []; [refine (erases_noting_id _ _)|apply _].
  - intros r. apply erases_bind; [apply _|]. intros _. apply erases_bind; [apply _|]. intros _. destruct r; apply _.
Qed.
End Erasure.

(** ** What the span tells *)

Lemma wp_noting {A} (m : M A) note {N : Note note} wrap Q w s :
  (forall a w', m w = (Ok a, w') -> Q (Ok a) (w', s)) ->
  (forall e w', m w = (Err e, w') -> Q (Err (wrap e)) (w', note_on e s)) -> wp (noting m note wrap) Q (w, s).
Proof.
  intros Hok Herr. unfold wp. rewrite (noting_run m note). destruct (m w) as [[a|e] w']; [by apply Hok|by apply Herr].
Qed.

Lemma wp_quietly {A} (m : M A) Q w s : Total m -> (forall a w', m w = (Ok a, w') -> Q (Ok a) (w', s)) -> wp (quietly m) Q (w, s).
Proof. intros Ht Hok. destruct (total_run m w Ht) as (a & w' & E). unfold wp, quietly. simpl. rewrite E. by apply Hok. Qed.

(** The span as it was started, with attributes added; with one error noted as well. *)
Definition unnoted (s0 s : Span) : Prop := exists more,
  s = MkSpan (sp_Name s0) (sp_Context s0) (sp_Parent s0) (sp_Attributes s0 ++ more) (sp_Errors s0) (sp_Status s0) (sp_Ends s0).
Definition noted (s0 s : Span) (description : string) (cause : error) : Prop := exists more,
  s = MkSpan (sp_Name s0) (sp_Context s0) (sp_Parent s0) (sp_Attributes s0 ++ more) (sp_Errors s0 ++ [cause]) (Some description) (sp_Ends s0).

Lemma unnoted_refl s : unnoted s s.
Proof. exists []. rewrite app_nil_r. by destruct s. Qed.
Lemma noted_failed d e s : noted s (note_on (note := failed d) e s) d e.
Proof. exists []. rewrite app_nil_r. by destruct s. Qed.
Lemma noted_setSpanErr op e s : noted s (note_on (note := setSpanErr op) e s) (op +:+ " failed") e.
Proof. exists []. rewrite app_nil_r. by destruct s. Qed.

(** The faults of [Process] from the state [w1] in which it fetches the notification: the
    name of the call that failed, its error, the error returned, and the state after it. *)
Section Faults.
Context `{Env} `{UuidText} `{P : Propagator} `{RedisCommands} `{TimeZones} `{TextTemplate}.

Inductive process_fault (ds : ProcessorDeps) (msg : Message) (w1 : world) : string -> error -> error -> world -> Prop :=
  | pf_fetch cause w2 :
      NotificationRepo_GetByID (m_TenantID msg) (m_NotificationID msg) w1 = (Err cause, w2) ->
      process_fault ds msg w1 "fetch notification" cause (EWrap "fetch notification" cause) w2
  | pf_mark n w2 cause w3 :
      NotificationRepo_GetByID (m_TenantID msg) (m_NotificationID msg) w1 = (Ok n, w2) ->
      NotificationRepo_UpdateStatus (n_ID n) StatusProcessing w2 = (Err cause, w3) ->
      process_fault ds msg w1 "mark processing" cause (EWrap "mark processing" cause) w3
  | pf_preference n w2 marked w3 cause w4 :
      NotificationRepo_GetByID (m_TenantID msg) (m_NotificationID msg) w1 = (Ok n, w2) ->
      NotificationRepo_UpdateStatus (n_ID n) StatusProcessing w2 = (Ok marked, w3) ->
      IsAllowed (m_TenantID msg) (n_RecipientID n) (n_Channel n) w3 = (Err cause, w4) ->
      process_fault ds msg w1 "preference check" cause (EWrap "preference check" cause) w4
  | pf_rate n w2 marked w3 allowed w4 cause w5 :
      NotificationRepo_GetByID (m_TenantID msg) (m_NotificationID msg) w1 = (Ok n, w2) ->
      NotificationRepo_UpdateStatus (n_ID n) StatusProcessing w2 = (Ok marked, w3) ->
      IsAllowed (m_TenantID msg) (n_RecipientID n) (n_Channel n) w3 = (Ok allowed, w4) -> allowed.1 = true ->
      Allow (n_RecipientID n) (n_Channel n) Hour (default 0 (d_RateCaps ds !! n_Channel n)) w4 = (Err cause, w5) ->
      process_fault ds msg w1 "rate limit check" cause (EWrap "rate limit check" cause) w5
  | pf_deliver n w2 marked w3 allowed w4 w5 cause w6 :
      NotificationRepo_GetByID (m_TenantID msg) (m_NotificationID msg) w1 = (Ok n, w2) ->
      NotificationRepo_UpdateStatus (n_ID n) StatusProcessing w2 = (Ok marked, w3) ->
      IsAllowed (m_TenantID msg) (n_RecipientID n) (n_Channel n) w3 = (Ok allowed, w4) -> allowed.1 = true ->
      deliver ds msg n w5 = (Err cause, w6) ->
      process_fault ds msg w1 "deliver" cause cause w6.

(** The faults of [Send] from the state [w]: the description of the call that failed, its
    error, the error returned, and the state after it. *)
Definition looked_up (tenantID : uuid) (req : SendRequest) (w w1 : world) : Prop :=
  match sr_IdempotencyKey req with
  | Some key => if decide (key = "") then w1 = w else NotificationRepo_GetByIdempotencyKey tenantID key w = (Ok None, w1)
  | None => w1 = w
  end.
Inductive send_fault (maxRetries : Z) (tenantID : uuid) (req : SendRequest) (w : world) : string -> error -> error -> world -> Prop :=
  | sf_idempotency key cause w1 :
      sr_IdempotencyKey req = Some key -> NotificationRepo_GetByIdempotencyKey tenantID key w = (Err cause, w1) ->
      send_fault maxRetries tenantID req w "idempotency check failed" cause cause w1
  | sf_create w1 cause w2 :
      looked_up tenantID req w w1 -> NotificationRepo_Create tenantID req w1 = (Err cause, w2) ->
      send_fault maxRetries tenantID req w "create failed" cause cause w2
  | sf_enqueue w1 n w2 cause w3 :
      looked_up tenantID req w w1 -> NotificationRepo_Create tenantID req w1 = (Ok n, w2) ->
      enqueue maxRetries tenantID n w2 = (Err cause, w3) ->
      send_fault maxRetries tenantID req w "enqueue failed" cause (EWrap "enqueue notification" cause) w3
  | sf_status w1 n w2 w3 cause w4 :
      looked_up tenantID req w w1 -> NotificationRepo_Create tenantID req w1 = (Ok n, w2) ->
      enqueue maxRetries tenantID n w2 = (Ok tt, w3) ->
      NotificationRepo_UpdateStatus (n_ID n) StatusQueued (Inc "NotifEnqueued" [n_Channel n] w3).2 = (Err cause, w4) ->
      send_fault maxRetries tenantID req w "status update failed" cause cause w4.

(** After [Process]: nothing is noted when it returns nil, and otherwise the call that
    failed and its error. *)
Definition process_tells (ds : ProcessorDeps) (msg : Message) (w : world) (s0 : Span) {A} (r : result A) (w' : world) (s : Span) : Prop :=
  match r with
  | Ok _ => unnoted s0 s
  | Err e => exists w1 op cause wf, w_db w1 = w_db w /\ process_fault ds msg w1 op cause e wf /\ w_db w' = w_db wf /\
      noted s0 s (op +:+ " failed") cause
  end.

(** After [Send]: the attribute of an idempotent hit or of the created notification; and an
    error is noted with the call that failed, but for a refused request. *)
Definition send_tells (maxRetries : Z) (tenantID : uuid) (req : SendRequest) (w : world) (s0 : Span) (r : result Notification)
    (w' : world) (s : Span) : Prop :=
  match r with
  | Ok n => exists attr, s = MkSpan (sp_Name s0) (sp_Context s0) (sp_Parent s0) (sp_Attributes s0 ++ [attr]) (sp_Errors s0)
                               (sp_Status s0) (sp_Ends s0) /\
      (attr = ("notifyhub.idempotent_hit", ABool true) /\ (exists key, sr_IdempotencyKey req = Some key /\
         NotificationRepo_GetByIdempotencyKey tenantID key w = (Ok (Some n), w'))
       \/ exists w1 created w2, attr = ("notifyhub.notification_id", AStr (uuid_String (n_ID created))) /\
            looked_up tenantID req w w1 /\ NotificationRepo_Create tenantID req w1 = (Ok created, w2))
  | Err e => s = s0 /\ w' = w /\ (exists verr, validate_Struct req = Some verr /\ e = toValidationError verr)
      \/ exists d cause, send_fault maxRetries tenantID req w d cause e w' /\ noted s0 s d cause
  end.
End Faults.

Section Telling.
Context `{Env} `{UuidText} `{Otel} `{RedisCommands} `{TimeZones} `{TextTemplate}.

Lemma wp_step {A} op (m : M A) Q w s :
  (forall a w', m w = (Ok a, w') -> Q (Ok a) (w', s)) ->
  (forall e w' s', m w = (Err e, w') -> noted s s' (op +:+ " failed") e -> Q (Err (EWrap op e)) (w', s')) -> wp (step op m) Q (w, s).
Proof. intros Hok Herr. apply (wp_noting _ _); [exact Hok|]. intros e w' He. apply Herr; [done|apply noted_setSpanErr]. Qed.

#[local] Instance total_dispatchWebhook deps n e : Total (dispatchWebhook deps n e).
Proof. unfold dispatchWebhook. destruct (d_Webhook deps); apply _. Qed.
#[local] Instance total_drop {P : Propagator} deps msg n reason : Total (drop deps msg n reason).
Proof. unfold drop, logDelivery, updateStatus. apply _. Qed.

(** What the steps of [Process] tell, from the fetch on. *)
Lemma steps_tell deps msg sc w1 s :
  wp (n ← step "fetch notification" (NotificationRepo_GetByID (m_TenantID msg) (m_NotificationID msg));
      process_fetched_body deps sc msg n)
     (fun r ws => match r with
                  | Ok _ => unnoted s ws.2
                  | Err e => exists op cause, @process_fault _ _ (propagator_Inject sc) _ _ _ (deps (propagator_Inject sc)) msg w1 op
                               cause e ws.1 /\ noted s ws.2 (op +:+ " failed") cause
                  end) (w1, s).
Proof.
  apply wp_bind, wp_step; [|intros e w' s' He Hn; eexists _, e; split; [by eapply pf_fetch|done]]. intros n w2 E1.
  unfold process_fetched_body.
  apply wp_bind, wp_step; [|intros e w' s' He Hn; eexists _, e; split; [by eapply pf_mark|done]]. intros marked w3 E2.
  apply wp_bind, wp_step; [|intros e w' s' He Hn; eexists _, e; split; [by eapply pf_preference|done]]. intros allowed w4 E3.
  destruct (allowed.1) eqn:Hal; simpl; [|apply wp_bind, wp_quietly; [apply _|]; intros _ w' _; apply unnoted_refl].
  assert (forall w5, wp (noting (@deliver _ _ (propagator_Inject sc) _ (deps (propagator_Inject sc)) msg n) (setSpanErr "deliver") id)
     (fun r ws => match r with
                  | Ok _ => unnoted s ws.2
                  | Err e => exists op cause, @process_fault _ _ (propagator_Inject sc) _ _ _ (deps (propagator_Inject sc)) msg w1 op
                               cause e ws.1 /\ noted s ws.2 (op +:+ " failed") cause
                  end) (w5, s)) as Hdeliver.
  { intros w5. apply (wp_noting _ _); [intros; apply unnoted_refl|]. intros e w' He.
    exists "deliver", e. split; [by eapply pf_deliver|apply noted_setSpanErr]. }
  apply wp_bind. destruct (0 <? _); simpl; [|apply wp_ret, Hdeliver].
  apply wp_bind, wp_step; [|intros e w' s' He Hn; eexists _, e; split; [by eapply pf_rate|done]]. intros ok w5 _.
  apply wp_bind, wp_quietly; [apply _|]. intros _ w8 _. apply wp_ret. destruct ok; [apply Hdeliver|].
  apply wp_bind, wp_quietly; [apply _|]. intros _ w' _. apply unnoted_refl.
Qed.

Lemma metric_add_run name ls n w r w' : metric_add name ls n w = (r, w') -> w_db w' = w_db w.
Proof. intros [= _ <-]. by destruct w. Qed.

Lemma Process_body_tells deps msg sc w s :
  wp (Process_body deps msg sc)
     (fun r ws => @process_tells _ _ (propagator_Inject sc) _ _ _ (deps (propagator_Inject sc)) msg w s _ r ws.1 ws.2) (w, s).
Proof.
  unfold Process_body. apply wp_bind, wp_quietly; [apply _|]. intros _ w1 E1%metric_add_run.
  apply wp_bind, wp_quietly; [apply _|]. intros t w2 [= _ <-]. apply wp_bind, wp_quietly; [destruct (_ =? _); apply _|].
  intros u w3 E3. assert (w_db w3 = w_db w) as Hdb.
  { rewrite <-E1. destruct (_ =? _); [by injection E3 as _ <-|]. injection E3 as _ <-. by destruct w1. }
  clear u E3.
  apply wp_bind, wp_try. eapply wp_mono; [apply steps_tell|].
  intros r [w4 s4] Ht. simpl in Ht. apply wp_bind, wp_quietly; [apply _|]. intros _ w5 E5%metric_add_run.
  apply wp_bind, wp_quietly; [apply _|]. intros _ w6 E6%metric_add_run. destruct r as [o|e]; [done|].
  destruct Ht as (op & cause & Hf & Hn). exists w3, op, cause, w4. split_and!; [done|done|simpl; congruence|done].
Qed.

Lemma create_body_tells maxRetries tenantID req sc w w1 s :
  looked_up tenantID req w w1 ->
  wp (create_body maxRetries tenantID req sc)
     (fun r ws => @send_tells _ _ (propagator_Inject sc) maxRetries tenantID req w s r ws.1 ws.2) (w1, s).
Proof.
  intros Hl. apply wp_bind, (wp_noting _ _).
  2: { intros e w' He. right. eexists _, e. split; [by eapply sf_create|apply noted_failed]. }
  intros n w2 E1. apply wp_bind, wp_modify. simpl. set (attr := ("notifyhub.notification_id", _)).
  apply wp_bind, wp_quietly; [apply _|]. intros t w3 [= _ <-]. set (s1 := MkSpan _ _ _ _ _ _ _).
  assert (forall m w', @send_tells _ _ (propagator_Inject sc) maxRetries tenantID req w s (Ok m) w' s1) as Hok.
  { intros m w'. exists attr. split; [done|]. right. by exists w1, n, w2. }
  assert (forall d e, noted s (note_on (note := failed d) e s1) d e) as Hn by (intros; by exists [attr]).
  destruct (match sr_ScheduledAt req with Some _ => _ | None => _ end); [apply Hok|].
  apply wp_bind, (wp_noting _ _); [|intros e w' He; right; eexists _, e; split; [by eapply sf_enqueue|apply Hn]].
  intros [] w3 E2. apply wp_bind, wp_quietly; [apply _|]. intros [] w4 E3. assert (w4 = (Inc "NotifEnqueued" [n_Channel n] w3).2) as ->
    by by rewrite E3.
  apply (wp_noting _ _); [intros; apply Hok|]. intros e w' He. right. eexists _, e. split; [by eapply sf_status|apply Hn].
Qed.

Lemma Send_body_tells maxRetries tenantID req sc w s :
  wp (Send_body maxRetries tenantID req sc)
     (fun r ws => @send_tells _ _ (propagator_Inject sc) maxRetries tenantID req w s r ws.1 ws.2) (w, s).
Proof.
  unfold Send_body. destruct (validate_Struct req) as [verr|] eqn:Hv; [left; split_and!; [done|done|by exists verr]|].
  apply wp_bind. destruct (sr_IdempotencyKey req) as [key|] eqn:Hk.
  2: { apply wp_ret, create_body_tells. unfold looked_up. by rewrite Hk. }
  destruct (decide (key = "")) as [Hz|Hz].
  { apply wp_ret, create_body_tells. unfold looked_up. by rewrite Hk, decide_True. }
  apply (wp_noting _ _).
  - intros [n|] w1 E1; [|apply create_body_tells; unfold looked_up; by rewrite Hk, decide_False].
    eexists. split; [reflexivity|]. left. split; [done|]. by exists key.
  - intros e w' He. right. eexists _, e. split; [by eapply sf_idempotency|apply noted_failed].
Qed.
End Telling.

(** [End] is called once more than in the body. *)
Lemma with_span_run `{Otel} {A} parent name attrs (body : SpanContext -> TM A) (m : SpanContext -> M A)
    (Q : SpanContext -> Span -> result A -> world -> Span -> Prop) w :
  (forall sc, Erases (body sc) (m sc)) ->
  (forall sc s0, wp (body sc) (fun r ws => Q sc s0 r ws.1 ws.2) (w, s0)) ->
  let sc := tracer_Start parent (w_tick w) in
  let s0 := MkSpan name sc parent attrs [] None 0 in
  exists s, with_span parent name attrs body w = (m sc w, ended s) /\ Q sc s0 (m sc w).1 (m sc w).2 s.
Proof.
  intros He Hq sc s0. specialize (Hq sc s0). destruct (He sc w s0) as [s Hs]. exists s.
  unfold wp in Hq. unfold with_span. fold sc s0. rewrite Hs in *. by destruct (m sc w).
Qed.

Lemma unnoted_ended s0 s : unnoted s0 s -> unnoted (ended s0) (ended s).
Proof. intros [more ->]. by exists more. Qed.
Lemma noted_ended s0 s d e : noted s0 s d e -> noted (ended s0) (ended s) d e.
Proof. intros [more ->]. by exists more. Qed.
Lemma process_tells_ended `{Env} `{UuidText} `{P : Propagator} `{RedisCommands} `{TimeZones} `{TextTemplate} {A} ds msg w s0
    (r : result A) w' s :
  process_tells ds msg w s0 r w' s -> process_tells ds msg w (ended s0) r w' (ended s).
Proof.
  destruct r as [a|e]; [apply unnoted_ended|]. intros (w1 & op & cause & wf & Hw1 & Hf & Hwf & Hn). exists w1, op, cause, wf.
  split_and!; [done..|by apply noted_ended].
Qed.
Lemma send_tells_ended `{Env} `{UuidText} `{P : Propagator} retries t req w s0 r w' s :
  send_tells retries t req w s0 r w' s -> send_tells retries t req w (ended s0) r w' (ended s).
Proof.
  destruct r as [n|e]; [intros (attr & -> & Ha); by exists attr|].
  intros [(-> & -> & Hv)|(d & cause & Hf & Hn)]; [by left|right; exists d, cause; split; [done|by apply noted_ended]].
Qed.

(** The spans as they end when nothing is noted. *)
Definition send_span `{UuidText} (sc : SpanContext) (parent : option SpanContext) (tenantID : uuid) (req : SendRequest) : Span :=
  MkSpan "NotificationService.Send" sc parent
    [("notifyhub.tenant_id", AStr (uuid_String tenantID)); ("notifyhub.channel", AStr (sr_Channel req))] [] None 1.
Definition process_span `{UuidText} (sc : SpanContext) (parent : option SpanContext) (msg : Message) : Span :=
  MkSpan "worker.Process" sc parent
    [("notifyhub.tenant_id", AStr (uuid_String (m_TenantID msg))); ("notifyhub.channel", AStr (m_Channel msg));
     ("notifyhub.notification_id", AStr (uuid_String (m_NotificationID msg)));
     ("notifyhub.recipient_id", AStr (m_RecipientID msg)); ("notifyhub.attempt", AInt (m_Attempt msg))] [] None 1.

Section Traced.
Context `{Env} `{UuidText} `{Otel} `{RedisCommands} `{TimeZones} `{TextTemplate}.

Lemma Send_traced_spec maxRetries parent tenantID req w :
  let sc := tracer_Start parent (w_tick w) in
  let '(out, s) := Send_traced maxRetries parent tenantID req w in
  out = @Send _ _ (propagator_Inject sc) maxRetries tenantID req w /\
  @send_tells _ _ (propagator_Inject sc) maxRetries tenantID req w (send_span sc parent tenantID req) out.1 out.2 s.
Proof.
  intros sc. destruct (with_span_run parent "NotificationService.Send"
      [("notifyhub.tenant_id", AStr (uuid_String tenantID)); ("notifyhub.channel", AStr (sr_Channel req))]
      (Send_body maxRetries tenantID req) (fun sc => @Send _ _ (propagator_Inject sc) maxRetries tenantID req)
      (fun sc s0 r w' s => @send_tells _ _ (propagator_Inject sc) maxRetries tenantID req w s0 r w' s) w) as (s & Hs & Ht).
  - intros sc'. apply erases_Send.
  - intros sc' s0. apply Send_body_tells.
  - unfold Send_traced. rewrite Hs. split; [done|]. by apply send_tells_ended in Ht.
Qed.

Lemma Process_traced_spec deps parent msg w :
  let sc := tracer_Start parent (w_tick w) in
  let '(out, s) := Process_traced deps parent msg w in
  out = @Process _ _ (propagator_Inject sc) _ _ _ (deps (propagator_Inject sc)) msg w /\
  @process_tells _ _ (propagator_Inject sc) _ _ _ (deps (propagator_Inject sc)) msg w (process_span sc parent msg) _ out.1 out.2 s.
Proof.
  intros sc. destruct (with_span_run parent "worker.Process"
      (sp_Attributes (process_span sc parent msg)) (Process_body deps msg)
      (fun sc => @Process _ _ (propagator_Inject sc) _ _ _ (deps (propagator_Inject sc)) msg)
      (fun sc s0 r w' s => @process_tells _ _ (propagator_Inject sc) _ _ _ (deps (propagator_Inject sc)) msg w s0 _ r w' s) w)
    as (s & Hs & Ht).
  - intros sc'. apply erases_Process.
  - intros sc' s0. apply Process_body_tells.
  - unfold Process_traced. simpl in Hs. rewrite Hs. split; [done|]. by apply process_tells_ended in Ht.
Qed.

Lemma process_tells_head {P : Propagator} {A} ds msg w s0 (r : result A) w' s :
  process_tells ds msg w s0 r w' s -> sp_Parent s = sp_Parent s0 /\ sp_Context s = sp_Context s0.
Proof. destruct r as [a|e]; [by intros [more ->]|]. by intros (w1 & op & cause & wf & _ & _ & _ & [more ->]). Qed.
End Traced.

(** C28. Tracing changes nothing and tells the outcome.  [Send] and [Process] with all calls
    on their spans compute exactly what they compute without them, publishing in the
    span's context.  Each span is started under the given parent with its operation's
    attributes and ended exactly once on every path.  It carries no error when the
    operation succeeds, and [Send] adds the created notification's id, or the idempotent
    hit when the lookup found one.  When a call of the operation fails, the span records
    that call's error and a status that names that very call (for [Send]: idempotency
    check, create, enqueue or status update; for [Process]: fetch, mark processing,
    preference check, rate limit check or deliver), the calls before it having succeeded;
    a refused request is not noted. *)
Theorem spans_tell_outcome `{Env} `{UuidText} `{Otel} `{RedisCommands} `{TimeZones} `{TextTemplate}
    maxRetries parent tenantID req deps msg w :
  let sc := tracer_Start parent (w_tick w) in
  (let '(out, s) := Send_traced maxRetries parent tenantID req w in
   out = @Send _ _ (propagator_Inject sc) maxRetries tenantID req w /\
   @send_tells _ _ (propagator_Inject sc) maxRetries tenantID req w (send_span sc parent tenantID req) out.1 out.2 s) /\
  (let '(out, s) := Process_traced deps parent msg w in
   out = @Process _ _ (propagator_Inject sc) _ _ _ (deps (propagator_Inject sc)) msg w /\
   @process_tells _ _ (propagator_Inject sc) _ _ _ (deps (propagator_Inject sc)) msg w (process_span sc parent msg) _ out.1 out.2 s).
Proof. split; [apply Send_traced_spec|apply Process_traced_spec]. Qed.

(** ** Across the queue *)

Section Carried.
Context `{Env} `{RedisCommands}.
Variables (fields : list (string * string)) (old : list KafkaRecord).
#[local] Instance active : Propagator := fields.

(** The log has grown by records whose headers are those fields. *)
Definition carried (w : world) : Prop :=
  exists recs, w_kafka w = old ++ recs /\ Forall (fun rec => header_map (k_Headers rec) = header_map fields) recs.

Lemma keeps_carried_frame {A} (m : M A) : Frame w_kafka m -> Keeps carried m.
Proof. intros Hf w Hw. unfold carried in *. by rewrite (frame (f := w_kafka) w). Qed.
Lemma keeps_carried_external {A} (q : event -> world -> result A * world) :
  (forall ev w, w_kafka (q ev w).2 = w_kafka w) -> Keeps carried (external q).
Proof. intros Hq. apply keeps_carried_frame, frame_external; [by intros ? []|done]. Qed.

#[global] Instance carried_statements : Statements carried.
Proof.
  split; intros; try (apply keeps_carried_frame, _).
  - by apply keeps_carried_external.
  - unfold carried in *. by destruct w.
  - unfold AllowKey, now. apply keeps_bind; [apply keeps_gets|]. intros t. apply keeps_bind; [|intros []; apply _].
    apply keeps_or_else, keeps_carried_external. by intros ? [].
Qed.

#[global] Instance carried_invariant : Invariant carried.
Proof using All.
  split; intros; try (apply keeps_carried_frame, _); [apply _|].
  apply keeps_or_else. intros w (recs & Hk & Hall). unfold external.
  set (rec := MkKafkaRecord _ _ _ _).
  assert (header_map (k_Headers rec) = header_map fields) as Hrec by apply (trace_headers_roundtrip fields).
  assert (forall dt, carried (advance dt w)) as Hkeep by (intros dt; exists recs; by destruct w).
  assert (forall dt, carried (set_kafka (fun l => l ++ [rec]) (advance dt w))) as Hadd.
  { intros dt. exists (recs ++ [rec]). destruct w. simpl in *. rewrite Hk, app_assoc. split; [done|].
    apply Forall_app. by split; [|constructor]. }
  destruct (ev_fault _); simpl; [apply Hadd|apply Hkeep|apply Hadd].
Qed.
End Carried.

Section Crossing.
Context `{Floats} `{Infra} `{!InfraLaws} `{Env} `{UuidTextLaws} `{RedisCommands} `{TimeZones} `{TextTemplate}.

Section Fields.
Variables (fields : list (string * string)) (old : list KafkaRecord).
#[local] Instance active_fields : Propagator := fields.
#[local] Instance carried_active : Invariant (carried fields old) := carried_invariant fields old.

Lemma Send_carries maxRetries tenantID req : Keeps (carried fields old) (Send maxRetries tenantID req).
Proof. exact (keeps_Send (carried fields old) maxRetries tenantID req). Qed.

Lemma Process_carries cfg msg : fits_int (c_WebhookMaxAttempts cfg) -> Keeps (carried fields old) (Process (processor_deps cfg) msg).
Proof.
  intros Hfit. apply (keeps_Process (processor_deps cfg) (carried fields old)).
  - intros ch p n Hp. pose proof (deps_providers (DepsContract := processor_deps_contract cfg Hfit) ch p Hp) as Hc.
    apply keeps_carried_frame. intros w. pose proof (send_frame (p := p) n w) as Hf. unfold worker_view in Hf. congruence.
  - intros reason e. exact (keeps_deadLetter _ (carried fields old) msg reason e).
  - intros n e. exact (keeps_dispatchWebhook (processor_deps cfg) (c_WebhookMaxAttempts cfg) (carried fields old) (or_intror eq_refl) n e).
Qed.
End Fields.

(** The traced operations publish with the fields of their span. *)
Lemma Send_traced_carries (O : Otel) maxRetries parent tenantID req w :
  carried (propagator_Inject (tracer_Start parent (w_tick w))) (w_kafka w) (Send_traced maxRetries parent tenantID req w).1.2.
Proof.
  pose proof (Send_traced_spec maxRetries parent tenantID req w) as Hs. destruct (Send_traced _ _ _ _ _) as [out s].
  destruct Hs as [-> _]. apply (Send_carries (propagator_Inject _) (w_kafka w) maxRetries tenantID req w).
  exists []. by rewrite app_nil_r.
Qed.
Lemma Process_traced_carries (O : Otel) cfg parent msg w :
  fits_int (c_WebhookMaxAttempts cfg) ->
  carried (propagator_Inject (tracer_Start parent (w_tick w))) (w_kafka w)
    (Process_traced (fun P : Propagator => processor_deps cfg) parent msg w).1.2.
Proof.
  intros Hfit. pose proof (Process_traced_spec (fun P : Propagator => processor_deps cfg) parent msg w) as Hs.
  destruct (Process_traced _ _ _ _) as [out s]. destruct Hs as [-> _].
  apply (Process_carries (propagator_Inject _) (w_kafka w) cfg msg Hfit w).
  exists []. by rewrite app_nil_r.
Qed.

(** What a process installs, by its endpoint. *)
Lemma InitTracer_installs version commit service cfg t (sdk : Otel) :
  InitTracer (tracing_config service (with_build version commit cfg)) = Ok t ->
  installed sdk t = if decide (c_OTELEndpoint cfg = "") then noop_otel else sdk.
Proof.
  unfold InitTracer. simpl. assert (c_OTELEndpoint (with_build version commit cfg) = c_OTELEndpoint cfg) as -> by by destruct cfg.
  destruct (decide _); [by intros [= <-]|]. destruct (wrap _ otel_Resource); [|done]. simpl. destruct (wrap _ (grpc_Dial _ _)); [|done]. simpl.
  destruct (wrap _ (otlp_Exporter _)); [|done]. by intros [= <-].
Qed.
End Crossing.

(** The records an operation published between two worlds. *)
Definition published_between (w w' : world) (P : KafkaRecord -> Prop) : Prop :=
  exists recs, w_kafka w' = w_kafka w ++ recs /\ Forall P recs.

(** C29. Where tracing is on, the trace crosses the queue.  Take the API and a worker as
    they start, each with its own environment.  With a collector endpoint configured, the
    span of an operation joins the trace of a valid parent, and every record that [Send]
    (in the API), or a dead letter or webhook event of [Process] (in the worker),
    publishes, in any state and under any faults, carries that span; and when a traced
    worker takes a record that carries a valid span, its own span is a child of it in the
    same trace, whatever the message and however it ends.  Without an endpoint the records
    a process publishes carry no trace header, and a worker's spans have no parent from
    the queue. *)
Theorem trace_crosses_queue `{Floats} `{Infra} `{!InfraLaws} `{Env} `{UuidTextLaws} `{sdk : Otel} `{!OtelLaws} `{RedisCommands}
    `{TimeZones} `{TextTemplate} version commit env_api env_worker ca cw ta tw maxRetries parent tenantID req msg w :
  Load env_api = Ok ca -> InitTracer (tracing_config "notifyhub-api" (with_build version commit ca)) = Ok ta ->
  Load env_worker = Ok cw -> InitTracer (tracing_config "notifyhub-worker" (with_build version commit cw)) = Ok tw ->
  let api := installed sdk ta in
  let worker := installed sdk tw in
  let deps := fun P : Propagator => processor_deps (with_build version commit cw) in
  let sent := (@Send_traced _ _ api maxRetries parent tenantID req w).1.2 in
  let processed := (@Process_traced _ _ worker _ _ _ deps parent msg w).1.2 in
  let joins (sc : SpanContext) := forall pc, parent = Some pc -> valid pc -> sc_TraceID sc = sc_TraceID pc in
  (c_OTELEndpoint ca <> "" ->
     let sc := @tracer_Start api parent (w_tick w) in
     joins sc /\ valid sc /\ published_between w sent (fun rec => @ExtractTraceContext sdk rec = Some sc)) /\
  (c_OTELEndpoint cw <> "" ->
     let sc := @tracer_Start worker parent (w_tick w) in
     joins sc /\ valid sc /\ published_between w processed (fun rec => @ExtractTraceContext sdk rec = Some sc) /\
     forall rec msg' w' sc', @ExtractTraceContext sdk rec = Some sc' -> valid sc' ->
       let s := (@Process_traced _ _ worker _ _ _ deps (@ExtractTraceContext worker rec) msg' w').2 in
       sp_Parent s = Some sc' /\ sc_TraceID (sp_Context s) = sc_TraceID sc') /\
  (c_OTELEndpoint ca = "" -> published_between w sent (fun rec => header_map (k_Headers rec) = ∅)) /\
  (c_OTELEndpoint cw = "" -> published_between w processed (fun rec => header_map (k_Headers rec) = ∅) /\
     forall rec, @ExtractTraceContext worker rec = None).
Proof.
  intros Hla Hta Hlw Htw api worker deps sent processed joins.
  pose proof (Send_traced_carries api maxRetries parent tenantID req w) as Hs. fold sent in Hs.
  pose proof (Process_traced_carries worker (with_build version commit cw) parent msg w) as Hp.
  destruct (with_build_fields version commit cw) as [Hb _]. specialize (Hp ltac:(rewrite Hb; by eapply load_webhook_attempts)). fold deps processed in Hp.
  pose proof (InitTracer_installs _ _ _ _ _ sdk Hta) as Ha. fold api in Ha. pose proof (InitTracer_installs _ _ _ _ _ sdk Htw) as Hw. fold worker in Hw.
  clearbody sent processed. clearbody api worker. split_and!.
  - intros He. rewrite decide_False in Ha by done. subst api. split_and!; [intros pc -> Hv; by apply start_child|apply start_valid..|].
    destruct Hs as (recs & Hk & Hall). exists recs. split; [done|]. eapply Forall_impl; [exact Hall|]. intros rec Hrec.
    unfold ExtractTraceContext. rewrite Hrec. apply extract_inject, start_valid.
  - intros He. rewrite decide_False in Hw by done. subst worker.
    split_and!; [intros pc -> Hv; by apply start_child|apply start_valid..| |].
    + destruct Hp as (recs & Hk & Hall). exists recs. split; [done|]. eapply Forall_impl; [exact Hall|]. intros rec Hrec.
      unfold ExtractTraceContext. rewrite Hrec. apply extract_inject, start_valid.
    + intros rec msg' w' sc' Hrec Hv. cbv zeta. rewrite Hrec.
      pose proof (@Process_traced_spec _ _ sdk _ _ _ deps (Some sc') msg' w') as Ht. destruct (Process_traced _ _ _ _) as [out s].
      destruct Ht as [_ Ht]. apply process_tells_head in Ht as [Hpar Hctx]. simpl. rewrite Hpar, Hctx. split; [done|by apply start_child].
  - intros He. rewrite decide_True in Ha by done. subst api. exact Hs.
  - intros He. rewrite decide_True in Hw by done. subst worker. split; [exact Hp|done].
Qed.

(** A W3C-like propagator, and [Send] with a parent, in an API with a collector. *)
Definition plain_otel : Otel := {|
  tracer_Start := fun parent i => MkSpanContext
    (match parent with Some p => if decide (sc_TraceID p = sc_TraceID zero_context) then "root" else sc_TraceID p | None => "root" end)
    ("s" +:+ pretty i);
  propagator_Inject := fun sc => [("traceparent", sc_TraceID sc); ("tracestate", sc_SpanID sc)];
  propagator_Extract := fun m => t ← m !! "traceparent"; s ← m !! "tracestate"; Some (MkSpanContext t s) |}.
Lemma plain_otel_laws : @OtelLaws plain_otel.
Proof.
  split.
  - intros parent i. split; simpl; [destruct parent as [p|]; [destruct (decide _)|]; done|]. discriminate.
  - intros parent i [Ht _]. simpl. by rewrite decide_False.
  - by intros [].
Qed.

Definition collector_infra : Infra :=
  {| aws_Client _ := Ok demo_ses; firebase_App _ := Err (EPlain "no such file"); firebase_Messaging _ := Ok demo_fcm;
     twilio_Client _ _ := demo_twilio; otel_Resource := Ok tt; grpc_Dial _ _ := Ok tt;
     otlp_Exporter _ := Ok tt; pgx_ParseConfig _ := Ok tt; pgx_NewWithConfig _ := Ok tt; pgx_Ping _ := Ok tt;
     redis_ParseURL url := Ok (MkRedisOptions url ""); redis_Ping _ := Ok tt; ResolveTCPAddr := Ok;
     kafka_DialLeader _ _ _ := Err (EPlain "unknown topic"); kafka_Dial := Ok; kafka_Controller _ := Ok ("k1", 9092);
     kafka_CreateTopics _ _ := Ok tt |}.
Lemma collector_infra_laws : @InfraLaws collector_infra.
Proof. split; simpl; [intros region c t r e [= <-] [= <-]|intros file c t r e [= <-] [= <-]|intros sid token t r e [= <-]]; by split. Qed.
Definition traced_getenv (key : string) : string := if String.eqb key "OTEL_EXPORTER_OTLP_ENDPOINT" then "otel:4317" else demo_getenv key.

Lemma trace_crosses_queue_witness :
  exists ca ta, @Load milli_floats traced_getenv = Ok ca /\
    @InitTracer milli_floats collector_infra (tracing_config "notifyhub-api" (with_build "1" "c0" ca)) = Ok ta /\ c_OTELEndpoint ca = "otel:4317" /\
  let out := @Send_traced calm bits_uuid (installed plain_otel ta) 3 (Some (MkSpanContext "t1" "s1")) 1%N (demo_request None) demo_tenants in
  is_ok out.1.1 = true /\ length (w_kafka out.1.2) = 1%nat /\
  Forall (fun rec => exists sc, @ExtractTraceContext plain_otel rec = Some sc /\ sc_TraceID sc = "t1") (w_kafka out.1.2).
Proof.
  destruct (@Load milli_floats traced_getenv) as [ca|] eqn:Hl; [|vm_compute in Hl; discriminate Hl].
  assert (c_OTELEndpoint ca = "otel:4317") as He.
  { assert (match @Load milli_floats traced_getenv with Ok c => c_OTELEndpoint c | Err _ => "" end = "otel:4317") as Hc by (vm_compute; reflexivity).
    by rewrite Hl in Hc. }
  destruct (@InitTracer milli_floats collector_infra (tracing_config "notifyhub-api" (with_build "1" "c0" ca))) as [ta|] eqn:Hta.
  2: { unfold InitTracer in Hta. destruct ca. simpl in Hta, He. rewrite He in Hta. discriminate Hta. }
  exists ca, ta. split; [done|]. split; [done|]. split; [done|]. intros out.
  assert (installed plain_otel ta = plain_otel) as Hi.
  { rewrite (InitTracer_installs _ _ _ _ _ plain_otel Hta). by rewrite decide_False by (rewrite He; done). }
  destruct (@trace_crosses_queue milli_floats collector_infra collector_infra_laws calm bits_uuid bits_uuid_laws plain_otel plain_otel_laws
    redis_ref demo_zones plain_text "1" "c0" traced_getenv traced_getenv ca ca ta ta 3 (Some (MkSpanContext "t1" "s1")) 1%N (demo_request None)
    demo_message demo_tenants Hl Hta Hl) as [Hon _].
  { exact Hta. }
  destruct (Hon ltac:(rewrite He; done)) as (Hj & _ & recs & Hk & Hall). fold out in Hk.
  split_and!; [subst out; rewrite Hi; vm_compute; reflexivity|subst out; rewrite Hi; vm_compute; reflexivity|].
  rewrite Hk. eapply Forall_impl; [exact Hall|]. intros rec Hr. eexists. split; [exact Hr|]. apply (Hj _ eq_refl). by split.
Defined.
