(* ===== verification/History.v ===== *)
(** * What the database never forgets

    Tenants, API clients, templates, device tokens and in-app messages are never deleted:
    there is no statement that does.  What a row of them may become is a preorder per table;
    every run of the started processes follows it.  An API key that was issued therefore
    authenticates in every later state. *)

From S2P Require Import Prelude Time Domain Json World Metrics Db Repository Schema Queue.
From S2P Require Import Provider RateLimit Preference Template Notification Webhook Processor Pipeline WebhookWorker.
From S2P Require Import Http Config Dlq Access Requests Handlers WsToken Stream Health Router Isolation Wiring System.

(** ** Tables that only grow *)

(** Each row is still in its place and became what [R] allows. *)
Definition later {A} (R : A -> A -> Prop) (t t' : list A) : Prop :=
  forall i r, t !! i = Some r -> exists r', t' !! i = Some r' /\ R r r'.

Section Later.
Context {A : Type} (R : A -> A -> Prop) `{!PreOrder R}.

#[global] Instance later_preorder : PreOrder (later R).
Proof using PreOrder0.
  split.
  - intros t i r Hr. by exists r.
  - intros t1 t2 t3 H12 H23 i r Hr. destruct (H12 i r Hr) as (r2 & Hr2 & HR). destruct (H23 i r2 Hr2) as (r3 & Hr3 & HR').
    exists r3. split; [done|by etrans].
Qed.
Lemma later_app t l : later R t (t ++ l).
Proof using PreOrder0. intros i r Hr. exists r. by rewrite (lookup_app_l_Some _ _ _ _ Hr). Qed.
Lemma later_update P f t : (forall r, P r = true -> R r (f r)) -> later R t (update_where P f t).
Proof using PreOrder0.
  intros Hf i r Hr. unfold update_where. rewrite list_lookup_fmap, Hr. eexists. split; [done|].
  destruct (P r) eqn:E; [by apply Hf|done].
Qed.
Lemma later_elem t t' r : later R t t' -> r ∈ t -> exists r', r' ∈ t' /\ R r r'.
Proof using.
  intros Hl [i Hi]%list_elem_of_lookup. destruct (Hl i r Hi) as (r' & Hr' & HR). exists r'. split; [|done].
  by eapply list_elem_of_lookup_2.
Qed.
End Later.

(** A template keeps its identity, its version never falls, and one version is one content. *)
Record later_template (r r' : TemplateRow) : Prop := MkLaterTemplate {
  lt_identity : tr_ID r' = tr_ID r /\ tr_TenantID r' = tr_TenantID r /\ tr_Name r' = tr_Name r /\ tr_Channel r' = tr_Channel r
    /\ tr_CreatedAt r' = tr_CreatedAt r;
  lt_version : tr_Version r <= tr_Version r';
  lt_content : tr_Version r' = tr_Version r ->
    tr_SubjectTemplate r' = tr_SubjectTemplate r /\ tr_BodyTemplate r' = tr_BodyTemplate r /\ tr_Metadata r' = tr_Metadata r;
}.
(** A device token stays its tenant's. *)
Definition later_token (r r' : DeviceTokenRow) : Prop :=
  kr_ID r' = kr_ID r /\ kr_TenantID r' = kr_TenantID r /\ kr_Token r' = kr_Token r /\ kr_CreatedAt r' = kr_CreatedAt r.
(** A message is read once and otherwise stays as it is. *)
Definition later_message (r r' : InappRow) : Prop := r' = r \/ ir_ReadAt r = None /\ exists t, r' = set_read t r.

#[global] Instance later_template_preorder : PreOrder later_template.
Proof.
  split; [by split|]. intros x y z [Hi Hv Hc] [Hi' Hv' Hc']. split; [intuition congruence|lia|].
  intros He. destruct (Hc ltac:(lia)) as (? & ? & ?), (Hc' ltac:(lia)) as (? & ? & ?). split_and!; congruence.
Qed.
#[global] Instance later_token_preorder : PreOrder later_token.
Proof. split; [done|]. unfold later_token. intros x y z ? ?. intuition congruence. Qed.
#[global] Instance later_message_preorder : PreOrder later_message.
Proof.
  split; [by left|]. intros x y z Hxy Hyz. destruct Hxy as [->|[Hn [t ->]]]; [done|].
  destruct Hyz as [->|[Hn' _]]; [by right; eauto|]. by destruct x.
Qed.

Record persists (d d' : db) : Prop := MkPersists {
  ps_tenants : tenants d `prefix_of` tenants d';
  ps_clients : api_clients d `prefix_of` api_clients d';
  ps_templates : later later_template (templates d) (templates d');
  ps_tokens : later later_token (device_tokens d) (device_tokens d');
  ps_messages : later later_message (inapp_messages d) (inapp_messages d');
}.
#[global] Instance persists_preorder : PreOrder persists.
Proof.
  split; [by split|]. intros x y z [] []. split; by etrans.
Qed.

(** ** Statements *)

Section Persistence.
Context `{Env} `{Propagator} `{RedisCommands}.
Variable d0 : db.

Definition since (w : world) : Prop := persists d0 (w_db w).

Lemma keeps_since_external {A} (q : event -> world -> result A * world) :
  (forall ev w, persists (w_db w) (w_db (q ev w).2)) -> Keeps since (external q).
Proof.
  intros Hq w Hw. unfold since, external in *. set (w1 := advance _ w).
  assert (persists d0 (w_db w1)) as Hw1 by by destruct w.
  destruct (ev_fault _); simpl; [|done|]; by (etrans; [exact Hw1|apply Hq]).
Qed.
Lemma keeps_since_sql {A} (q : uuid -> gotime -> db -> result A * db) :
  (forall u t d, persists d (q u t d).2) -> Keeps since (sql q).
Proof.
  intros Hq. apply keeps_since_external. intros ev w. specialize (Hq (ev_uuid ev) (pg_now (w_now w)) (w_db w)).
  destruct (q _ _ _) as [r d]. by destruct w.
Qed.
Lemma keeps_since_frame {A} (m : M A) : Frame w_db m -> Keeps since m.
Proof. intros Hf w Hw. unfold since. by rewrite (frame (f := w_db) w). Qed.
End Persistence.

(** A statement on one table: the others stay, and this one goes by [L]. *)
Ltac one_table L :=
  apply keeps_since_sql; intros u' t' []; unfold insert_row, update_returning; simpl;
  repeat case_match; simpl; split; simpl; try done; first [by apply prefix_app_r|apply later_app, _|apply later_update; [apply _|L]].

Section Statements.
Context `{Env} `{Propagator} `{RedisCommands}.
Variable d0 : db.

#[local] Instance since_UpdateTemplate id s b m a t : Keeps (since d0) (UpdateTemplate id s b m a t).
Proof. one_table ltac:(intros r _; split; simpl; [done|lia|lia]). Qed.
#[local] Instance since_DeleteTemplate id t : Keeps (since d0) (DeleteTemplate id t).
Proof. one_table ltac:(by intros r _). Qed.
#[local] Instance since_MarkRead id t r : Keeps (since d0) (MarkInAppMessageRead id t r).
Proof. one_table ltac:(intros x [_ Hn%bool_decide_eq_true]%andb_true_iff; right; eauto). Qed.
#[local] Instance since_MarkAllRead t r : Keeps (since d0) (MarkAllInAppMessagesRead t r).
Proof. one_table ltac:(intros x [_ Hn%bool_decide_eq_true]%andb_true_iff; right; eauto). Qed.

#[global] Instance since_statements : Statements (since d0).
Proof.
  split; try (intros; apply _); try (intros; one_table ltac:(by intros ? _)).
  - intros A q. apply keeps_since_frame, _.
  - intros A q. by apply keeps_since_external.
  - intros d. apply keeps_since_frame, _.
  - intros dt w Hw. by destruct w.
  - intros key win cap. unfold AllowKey, now. apply keeps_bind; [apply _|]. intros t. apply keeps_bind; [|apply _].
    apply keeps_or_else, keeps_since_frame, frame_external; [apply _|]. by intros ? [].
  - intros name ls n _. apply keeps_since_frame. by intros [].
  - intros name ls n _. apply keeps_since_frame. by intros [].
Qed.
#[global] Instance since_invariant : Invariant (since d0).
Proof.
  split; try apply _; try (intros; one_table ltac:(by intros ? _)).
  intros topic key payload. apply keeps_or_else, keeps_since_external. by intros ev [].
Qed.

Lemma provider_since p n : ProviderContract p -> Keeps (since d0) (pv_Send p n).
Proof.
  intros Hp w Hw. pose proof (send_frame (p := p) n w) as Hf.
  pose proof (send_inbox (p := p) n (inapp_messages (w_db w)) w (reflexivity _)) as [l Hi].
  unfold worker_view in Hf. unfold since in *. etrans; [exact Hw|]. destruct (pv_Send p n w) as [r w']. simpl in *.
  assert (tenants (w_db w') = tenants (w_db w) /\ api_clients (w_db w') = api_clients (w_db w) /\
    templates (w_db w') = templates (w_db w) /\ device_tokens (w_db w') = device_tokens (w_db w)) as (Ht & Hc & Htm & Hd)
    by (split_and!; congruence).
  split; [by rewrite Ht|by rewrite Hc|by rewrite Htm|by rewrite Hd|]. rewrite Hi. apply later_app, _.
Qed.
End Statements.

(** ** Runs of the started processes *)

(** C26. Nothing of what the program is told to keep is lost.  In every run of the two started
    processes, under any faults: tenants and API clients stay as they were stored, each
    template keeps its id, tenant, name, channel and creation time, its version never falls
    and its subject, body and metadata change only together with the version, each device
    token stays under its id with its tenant, and each in-app message stays as it is but for
    being marked read, at most once. *)
Theorem stored_records_persist `{Floats} `{Infra} `{!InfraLaws} `{Env} `{UuidTextLaws} `{Propagator} `{RedisCommands}
    `{TimeZones} `{TextTemplate} `{UrlCheck} `{HttpClient} `{KeySource} `{Jwt} `{WsAccept} `{ChiMux} `{PromText}
    version commit env_worker env_api wk a maxRetries batchSize hookDelay w w' :
  worker_main version commit env_worker = Ok wk -> api_main version commit env_api = Ok a ->
  rtc (system_step (wk_deps wk) (ap_deps a) maxRetries batchSize hookDelay) w w' -> persists (w_db w) (w_db w').
Proof.
  intros Hwk Ha Hrun. apply (started_keeps version commit env_worker env_api wk a Hwk Ha (since (w_db w)) maxRetries batchSize
    hookDelay w w'); [apply _|intros p n; apply provider_since|done|by unfold since].
Qed.

(** A row under a unique hash is the one the lookup finds. *)
Lemma client_found `{KeySource} d key row :
  unique cr_ApiKeyHash (api_clients d) -> row ∈ api_clients d -> cr_ApiKeyHash row = hashKey key -> cr_IsActive row = true ->
  where_ (fun x => bool_decide (cr_ApiKeyHash x = hashKey key) && cr_IsActive x) (api_clients d) = [row].
Proof.
  intros Hu Hrow Hh Ha. apply (where_key_unique cr_ApiKeyHash); [done|done|by rewrite Ha, bool_decide_true|].
  intros y _ [->%bool_decide_eq_true _]%andb_true_iff. done.
Qed.

(** C27. An issued key works from then on: after [CreateAPIKey] returned a key in any state with
    its constraints, a request that carries it in any later state of the two started
    processes gets exactly the client and tenant the key was issued for, unless a call
    fails, which is answered with 500. *)
Theorem issued_key_keeps_working `{Floats} `{Infra} `{!InfraLaws} `{Env} `{UuidTextLaws} `{Propagator} `{RedisCommands}
    `{TimeZones} `{TextTemplate} `{UrlCheck} `{HttpClient} `{KeyLaws} `{Jwt} `{WsAccept} `{ChiMux} `{PromText}
    version commit env_worker env_api wk a maxRetries batchSize hookDelay tenantID req w issued w1 w2 r :
  worker_main version commit env_worker = Ok wk -> api_main version commit env_api = Ok a -> schema w ->
  TenantService_CreateAPIKey tenantID req w = (Ok issued, w1) ->
  rtc (system_step (wk_deps wk) (ap_deps a) maxRetries batchSize hookDelay) w1 w2 ->
  rq_Header r "X-API-Key" = ak_APIKey issued ->
  let '(out, w3) := authenticate r w2 in
  exists who, out = Ok who /\
    (who = inr {| ac_ID := ak_ID issued; ac_TenantID := tenantID; ac_Name := xk_Name req; ac_IsActive := true |}
     \/ ~ faultless /\ exists resp, who = inl resp /\ rs_Status resp = 500).
Proof.
  intros Hwk Ha Hs Hissue Hrun Hkey.
  destruct (wp_run _ _ _ _ _ (wp_CreateAPIKey tenantID req w) Hissue issued eq_refl) as (row & old & Hrows & _ & Hh & Hne & Hact & <-).
  assert (schema w1) as Hs1.
  { replace w1 with (TenantService_CreateAPIKey tenantID req w).2 by by rewrite Hissue.
    assert (Keeps schema (TenantService_CreateAPIKey tenantID req)) as HK; [|exact (HK w Hs)].
    unfold TenantService_CreateAPIKey, TenantRepo_GetByID, APIClientRepo_CreateForTenant, generateKey. apply _. }
  assert (schema w2 /\ since (w_db w1) w2) as [Hs2 Hp].
  { pose proof (fun I HI Hp => started_keeps version commit env_worker env_api wk a Hwk Ha I maxRetries batchSize hookDelay w1 w2
      HI Hp Hrun) as Hkeeps. split; apply Hkeeps; try apply _; [|done| |by unfold since].
    - intros p n Hp. by apply send_schema.
    - intros p n. apply provider_since. }
  apply key_authenticates; [congruence|]. rewrite Hkey. apply client_found; [apply Hs2| |done|done].
  destruct Hp as [_ [more ->] _ _ _]. rewrite Hrows. set_solver.
Qed.

(** ** A run, evaluated *)

(** The administrator creates a second tenant: the first one stays. *)
Definition create_globex : Request :=
  {| rq_Method := "POST"; rq_Path := "/internal/tenants/";
     rq_Header := fun k => if String.eqb k "X-Admin-Token" then "root" else ""; rq_Query := fun _ => "";
     rq_Param := fun _ => ""; rq_Body := BodyJson 17 (AObj [("name", AStr "globex")]); rq_ID := ""; rq_Client := None |}.
Lemma stored_records_persist_witness :
  exists wk a, demo_boot = Ok wk /\ demo_api = Ok a /\
  persists (w_db demo_tenants) (w_db (serve a create_globex demo_tenants)) /\
  length (tenants (w_db (serve a create_globex demo_tenants))) = S (length (tenants (w_db demo_tenants))).
Proof.
  assert (match demo_boot with Ok wk => length (wk_tasks wk) | Err _ => 0%nat end = 10%nat) as Hn by (vm_compute; reflexivity).
  destruct demo_boot as [wk|e] eqn:E; [|discriminate Hn]. exists wk. eexists. split; [done|]. split; [reflexivity|].
  split; [|vm_compute; reflexivity].
  eapply (@stored_records_persist milli_floats demo_infra demo_infra_laws calm bits_uuid bits_uuid_laws demo_trace redis_ref
    demo_zones plain_text demo_urls demo_http demo_keys clear_jwt accept_all segment_mux (fun _ => "")
    "1" "c0" demo_getenv api_getenv wk _ 3 100 Second demo_tenants _ E eq_refl).
  eapply rtc_l; [|apply rtc_refl]. apply step_entry, E_request.
Defined.

(** Tenant 1's key, issued before that request, authenticates after it. *)
Definition key_issued : result CreateAPIKeyResponse * world :=
  @TenantService_CreateAPIKey calm demo_keys 1 (MkCreateAPIKeyRequest "ci") demo_tenants.

Lemma issued_key_keeps_working_witness :
  exists wk a iss, demo_boot = Ok wk /\ demo_api = Ok a /\ key_issued.1 = Ok iss /\
  exists who, (@authenticate calm demo_keys demo_key_request (serve a create_globex key_issued.2)).1 = Ok who /\
    who = inr {| ac_ID := ak_ID iss; ac_TenantID := 1; ac_Name := "ci"; ac_IsActive := true |}.
Proof.
  assert (match demo_boot with Ok wk => length (wk_tasks wk) | Err _ => 0%nat end = 10%nat) as Hn by (vm_compute; reflexivity).
  assert (match key_issued.1 with Ok iss => ak_APIKey iss | Err _ => "" end = "k") as Hk by (vm_compute; reflexivity).
  assert (schema demo_tenants) as Hs by (destruct empty_db_wf; split; try done; apply NoDup_singleton).
  destruct demo_boot as [wk|e] eqn:E; [|discriminate Hn]. destruct key_issued as [[iss|e] w1] eqn:Ei; [|discriminate Hk].
  exists wk. eexists. exists iss. split; [done|]. split; [reflexivity|]. split; [reflexivity|].
  set (w2 := serve _ _ _). pose proof (@issued_key_keeps_working milli_floats demo_infra demo_infra_laws calm bits_uuid bits_uuid_laws
    demo_trace redis_ref demo_zones plain_text demo_urls demo_http demo_keys demo_keys_laws clear_jwt accept_all segment_mux
    (fun _ => "") "1" "c0" demo_getenv api_getenv wk _ 3 100 Second 1 (MkCreateAPIKeyRequest "ci") demo_tenants iss w1 w2
    demo_key_request E eq_refl Hs Ei) as Hauth.
  destruct (@authenticate calm demo_keys demo_key_request w2) as [out w3]. destruct Hauth as (who & -> & [->|[Hf _]]).
  - eapply rtc_l; [|apply rtc_refl]. apply step_entry, E_request.
  - symmetry. exact Hk.
  - eexists. split; reflexivity.
  - destruct Hf. intros i. reflexivity.
Defined.
