(* ===== verification/Ledger.v ===== *)
(** * The ledger: what every run does to notifications, delivery log and queue

    An abstract account of the whole program: notifications are accepted as pending,
    move between statuses without ever becoming pending again, their deliveries are
    logged, and records are appended to Kafka; nothing else happens to the three.  Every
    run of the two processes refines it. *)

From S2P Require Import Prelude Time Domain Json World Metrics Db Repository Schema Queue.
From S2P Require Import Provider RateLimit Preference Template Notification Webhook Processor Pipeline WebhookWorker.
From S2P Require Import Http Config Dlq Access Requests Handlers WsToken Stream Health Router Isolation Wiring System.

Record ledger := MkLedger {
  l_notifications : list NotificationRow;
  l_logs : list DeliveryLogRow;
  l_records : list KafkaRecord;
}.

Definition ledger_of (w : world) : ledger :=
  MkLedger (notifications (w_db w)) (delivery_logs (w_db w)) (w_kafka w).

Inductive ledger_step : ledger -> ledger -> Prop :=
  | L_accept ns ls k row :
      nr_Status row = StatusPending -> nr_ID row ∉ nr_ID <$> ns ->
      (forall key, nr_IdempotencyKey row = Some key -> Some key ∉ nr_IdempotencyKey <$> ns) ->
      ledger_step (MkLedger ns ls k) (MkLedger (ns ++ [row]) ls k)
  | L_move ns ls k id st t :
      st <> StatusPending -> ledger_step (MkLedger ns ls k) (MkLedger (restatus id st t ns) ls k)
  | L_cancel ns ls k id tenant t :
      ledger_step (MkLedger ns ls k)
        (MkLedger (update_where (fun r => bool_decide (nr_ID r = id /\ nr_TenantID r = Some tenant
             /\ (nr_Status r = StatusPending \/ nr_Status r = StatusQueued))) (set_status StatusDropped t) ns) ls k)
  | L_log ns ls k row :
      lr_NotificationID row ∈ nr_ID <$> ns -> lr_ID row ∉ lr_ID <$> ls ->
      ledger_step (MkLedger ns ls k) (MkLedger ns (ls ++ [row]) k)
  | L_publish ns ls k rec : ledger_step (MkLedger ns ls k) (MkLedger ns ls (k ++ [rec])).

(** ** What the ledger promises *)

(** A row with its two columns that change blanked out. *)
Definition core (r : NotificationRow) : NotificationRow := set_status "" 0 r.

(** The later ledger extends the earlier one. *)
Record extends (l l' : ledger) : Prop := MkExtends {
  ext_rows : (core <$> l_notifications l) `prefix_of` (core <$> l_notifications l');
  ext_logs : l_logs l `prefix_of` l_logs l';
  ext_records : l_records l `prefix_of` l_records l';
  ext_started : forall i r r', l_notifications l !! i = Some r -> l_notifications l' !! i = Some r' ->
    nr_Status r' = StatusPending -> nr_Status r = StatusPending;
}.

#[global] Instance extends_refl : Reflexive extends.
Proof. intros l. split; [done..|]. intros i r r' -> [= ->]. done. Qed.
Lemma core_lookup ns ns' i (r : NotificationRow) : (core <$> ns) `prefix_of` (core <$> ns') -> ns !! i = Some r ->
  exists r', ns' !! i = Some r' /\ core r' = core r.
Proof.
  intros Hp Hi. assert ((core <$> ns) !! i = Some (core r)) as Hc by by rewrite list_lookup_fmap, Hi.
  eapply prefix_lookup_Some in Hc; [|exact Hp]. rewrite list_lookup_fmap in Hc.
  apply fmap_Some in Hc as (r' & ? & ?). eauto.
Qed.
#[global] Instance extends_trans : Transitive extends.
Proof.
  intros l1 l2 l3 [Hr1 Hl1 Hk1 Hs1] [Hr2 Hl2 Hk2 Hs2]. split; [by etrans..|].
  intros i r r'' Hi Hi' Hp. destruct (core_lookup _ _ _ _ Hr1 Hi) as (r' & Hr' & _). eauto.
Qed.
#[global] Instance extends_preorder : PreOrder extends.
Proof. split; apply _. Qed.

Lemma core_set_status st t r : core (set_status st t r) = core r.
Proof. by destruct r. Qed.
Lemma core_key r : nr_ID (core r) = nr_ID r /\ nr_TenantID (core r) = nr_TenantID r.
Proof. by destruct r. Qed.

Lemma extends_update P st t ns ls k : st <> StatusPending ->
  extends (MkLedger ns ls k) (MkLedger (update_where P (set_status st t) ns) ls k).
Proof.
  intros Hst. split; simpl; [|done..|].
  - rewrite fmap_update_where; [done|]. intros. apply core_set_status.
  - intros i r r' Hi Hi' Hp. unfold update_where in Hi'. rewrite list_lookup_fmap, Hi in Hi'.
    injection Hi' as <-. destruct (P r); [|done]. by destruct r.
Qed.

Lemma ledger_step_extends l l' : ledger_step l l' -> extends l l'.
Proof.
  destruct 1; [|by apply extends_update..| |].
  - split; simpl; [rewrite fmap_app; by eexists|done..|].
    intros i r r' Hi. rewrite (lookup_app_l_Some _ _ _ _ Hi). by intros [= ->].
  - split; simpl; [done|by eexists|done|]. by intros i r r' -> [= ->].
  - split; simpl; [done|done|by eexists|]. by intros i r r' -> [= ->].
Qed.
Lemma ledger_extends l l' : rtc ledger_step l l' -> extends l l'.
Proof. induction 1 as [|l1 l2 l3 Hs _ IH]; [done|]. etrans; [by apply ledger_step_extends|done]. Qed.

(** ** The program refines the ledger *)

#[global] Instance timeless_ledger : Timeless ledger_of.
Proof. by intros ? []. Qed.

(** The world's ledger is reachable from [l]. *)
Definition from_ledger (l : ledger) (w : world) : Prop := rtc ledger_step l (ledger_of w).

Lemma keeps_ledger_frame {A} l (m : M A) : Frame ledger_of m -> Keeps (from_ledger l) m.
Proof. intros Hf w Hw. unfold from_ledger in *. by rewrite (frame (f := ledger_of) w). Qed.

(** A call that takes at most one step of the ledger. *)
Lemma keeps_ledger_external `{Env} {A} l (q : event -> world -> result A * world) :
  (forall ev w, ledger_of (q ev w).2 = ledger_of w \/ ledger_step (ledger_of w) (ledger_of (q ev w).2)) ->
  Keeps (from_ledger l) (external q).
Proof.
  intros Hq w Hw. unfold from_ledger, external in *. rewrite <-(timeless (f := ledger_of) (ev_dt (env_event (w_tick w))) w) in Hw.
  assert (rtc ledger_step l (ledger_of (q (env_event (w_tick w)) (advance (ev_dt (env_event (w_tick w))) w)).2)) as Hq'.
  { destruct (Hq (env_event (w_tick w)) (advance (ev_dt (env_event (w_tick w))) w)) as [-> | Hs]; [done|].
    by eapply rtc_r. }
  by destruct (ev_fault _).
Qed.

Lemma frame_sql_ledger `{Env} {A} (q : uuid -> gotime -> db -> result A * db) :
  (forall u t d, notifications (q u t d).2 = notifications d /\ delivery_logs (q u t d).2 = delivery_logs d) ->
  Frame ledger_of (sql q).
Proof.
  intros Hq. apply frame_external; [apply _|]. intros ev w. specialize (Hq (ev_uuid ev) (pg_now (w_now w)) (w_db w)).
  destruct (q _ _ _) as [r d]. destruct w. unfold ledger_of. simpl in *. f_equal; apply Hq.
Qed.

Ltac other_tables :=
  apply keeps_ledger_frame, frame_sql_ledger; intros u' t' []; unfold insert_row, update_returning; simpl;
  repeat case_match; split; reflexivity.

Section Refinement.
Context `{Env} `{Propagator} `{RedisCommands}.
Variable l : ledger.

Lemma keeps_UpdateNotificationStatus id st :
  st <> StatusPending -> Keeps (from_ledger l) (UpdateNotificationStatus id st).
Proof.
  intros Hst. apply keeps_ledger_external. intros ev [[] ? ? ? ? ? ?]. right. by apply L_move.
Qed.
#[local] Instance keeps_CancelNotification id tenant : Keeps (from_ledger l) (CancelNotification id tenant).
Proof.
  apply keeps_ledger_external. intros ev []. simpl. destruct tenant as [x|].
  - right. unfold ledger_of. simpl. destruct w_db as [ns]. simpl.
    replace (update_where _ _ ns) with (update_where (fun r => bool_decide (nr_ID r = id /\ nr_TenantID r = Some x
      /\ (nr_Status r = StatusPending \/ nr_Status r = StatusQueued))) (set_status StatusDropped (pg_now w_now)) ns);
      [apply L_cancel|].
    apply list_fmap_ext. intros i r _. unfold null_eq.
    by rewrite !bool_decide_and, bool_decide_or, andb_assoc.
  - left. unfold ledger_of. simpl. destruct w_db as [ns]. simpl. f_equal.
    rewrite <-(list_fmap_id ns) at 2. apply list_fmap_ext. intros i r _. simpl. by rewrite andb_false_r.
Qed.
#[local] Instance keeps_InsertDeliveryLog p : Keeps (from_ledger l) (InsertDeliveryLog p).
Proof.
  apply keeps_ledger_external. intros ev [[] ? ? ? ? ? ?]. unfold insert_row. simpl w_db.
  destruct (violated _) eqn:E; [by left|]. right. apply violated_none in E. rewrite !Forall_cons in E.
  destruct E as (Hid%bool_decide_eq_true & _ & _ & _ & _ & _ & Hfk%bool_decide_eq_true & _). by apply L_log.
Qed.

#[global] Instance ledger_statements : Statements (from_ledger l).
Proof.
  split; try (intros; apply _); try (intros; other_tables).
  - intros A q. apply keeps_ledger_frame, _.
  - intros A q. apply keeps_ledger_frame, frame_external; [apply _|done].
  - intros d. apply keeps_ledger_frame, _.
  - intros dt w Hw. unfold from_ledger in *. by rewrite (timeless (f := ledger_of) dt w).
  - intros key win cap. unfold AllowKey, now. apply keeps_bind; [apply _|]. intros t. apply keeps_bind; [|apply _].
    apply keeps_or_else, keeps_ledger_frame, frame_external; [apply _|]. by intros ? [].
  - intros name ls n _. apply keeps_ledger_frame. by intros [].
  - intros name ls n _. apply keeps_ledger_frame. by intros [].
  - intros id st. by apply keeps_UpdateNotificationStatus.
Qed.

#[global] Instance ledger_invariant : Invariant (from_ledger l).
Proof.
  split; try apply _; try (intros; other_tables).
  - intros topic key payload. apply keeps_or_else, keeps_ledger_external. intros ev []. right. apply L_publish.
  - intros p Hp. apply keeps_ledger_external. intros ev [[] ? ? ? ? ? ?]. unfold insert_row. simpl w_db.
    destruct (violated _) eqn:E; [by left|]. right. apply violated_none in E. rewrite !Forall_cons in E.
    destruct E as (Hid%bool_decide_eq_true & _ & _ & _ & _ & _ & _ & _ & Hkey & _). apply L_accept; [done|done|].
    simpl in *. intros key Hk. rewrite Hk in Hkey. by apply bool_decide_eq_true in Hkey.
Qed.
End Refinement.

Lemma provider_keeps_ledger l p n : ProviderContract p -> Keeps (from_ledger l) (pv_Send p n).
Proof.
  intros Hp. apply keeps_ledger_frame. intros w. pose proof (send_frame (p := p) n w) as Hf.
  unfold worker_view, ledger_of in *. congruence.
Qed.

(** C8. Every run of the two processes (requests, stream replays, scheduler ticks, worker,
    webhook and dead-letter turns, in any order and under any faults) refines the ledger:
    on notifications, delivery log and queue it is a sequence of acceptances of a new
    pending row under a new id and an unused idempotency key, moves of a status to one
    that is not pending, cancellations of a pending or queued row of the caller's tenant,
    log rows about a stored notification, and appended records.  So no row is lost or
    changed in anything but status and update time, no log row or record is lost or
    changed, and a notification that left "pending" never returns to it. *)
Theorem system_refines_ledger `{Floats} `{Infra} `{!InfraLaws} `{Env} `{UuidTextLaws} `{Propagator} `{RedisCommands}
    `{TimeZones} `{TextTemplate} `{UrlCheck} `{HttpClient} `{KeySource} `{Jwt} `{WsAccept} `{ChiMux} `{PromText}
    version commit env_worker env_api wk a maxRetries batchSize hookDelay w w' :
  worker_main version commit env_worker = Ok wk -> api_main version commit env_api = Ok a ->
  rtc (system_step (wk_deps wk) (ap_deps a) maxRetries batchSize hookDelay) w w' ->
  rtc ledger_step (ledger_of w) (ledger_of w') /\ extends (ledger_of w) (ledger_of w').
Proof.
  intros Hwk Ha Hrun. assert (rtc ledger_step (ledger_of w) (ledger_of w')) as Hl; [|split; [done|by apply ledger_extends]].
  apply (started_keeps version commit env_worker env_api wk a Hwk Ha (from_ledger (ledger_of w)) maxRetries batchSize
    hookDelay w w'); [apply _|intros p n; apply provider_keeps_ledger|done|apply rtc_refl].
Qed.

(** The scheduler publishes two due notifications. *)
Lemma system_refines_ledger_witness :
  let w' := (@tick calm bits_uuid demo_trace 3 100 demo_due).2 in
  rtc ledger_step (ledger_of demo_due) (ledger_of w') /\ Forall (fun r => nr_Status r = StatusQueued) (notifications (w_db w'))
  /\ length (w_kafka w') = 2%nat.
Proof.
  assert (match demo_boot with Ok wk => length (wk_tasks wk) | Err _ => 0%nat end = 10%nat) as Hn by (vm_compute; reflexivity).
  destruct demo_boot as [wk|e] eqn:E; [|discriminate Hn]. split; [|split; [vm_compute; repeat constructor|vm_compute; reflexivity]].
  eapply (@system_refines_ledger milli_floats demo_infra demo_infra_laws calm bits_uuid bits_uuid_laws demo_trace redis_ref
    demo_zones plain_text demo_urls demo_http demo_keys clear_jwt accept_all segment_mux (fun _ => "")
    "1" "c0" demo_getenv api_getenv wk _ 3 100 Second demo_due _ E eq_refl).
  eapply rtc_l; [|apply rtc_refl]. apply step_entry, E_tick.
Defined.
