(* ===== verification/Integrity.v ===== *)
(** * Queue integrity: the program read as a closed system

    The consumers take only records the program itself has published, so the queue and
    the stored dead letters obey an invariant that no single component can see: every
    record decodes for its topic, and every message, dead letter and replay is about a
    stored notification and carries its columns. *)

From S2P Require Import Prelude Time Domain Json World Metrics Db Repository Schema Queue.
From S2P Require Import Provider RateLimit Preference Template Notification Webhook Processor Pipeline WebhookWorker.
From S2P Require Import Http Config Dlq Access Requests Handlers WsToken Stream Health Router Isolation Wiring System Ledger.

(** ** What the queue holds *)

(** The message [m] is about the notification with the columns [c]: the same recipient,
    content and priority, its tenant or (as the scheduler writes it) none, at the first
    attempt. *)
Record describes (c : NotificationRow) (m : Message) : Prop := MkDescribes {
  ds_id : m_NotificationID m = nr_ID c;
  ds_tenant : m_TenantID m = uuid_nil \/ nr_TenantID c = Some (m_TenantID m);
  ds_channel : m_Channel m = nr_Channel c;
  ds_recipient : m_RecipientID m = nr_RecipientID c /\ m_RecipientAddress m = default "" (nr_RecipientAddress c);
  ds_content : m_TemplateID m = nr_TemplateID c /\ m_Payload m = fromRawMessage (nr_Payload c);
  ds_priority : m_Priority m = nr_Priority c;
  ds_attempt : m_Attempt m = 1;
  ds_budget : fits_int (m_MaxAttempts m);
}.

(** A stored notification has a channel of the program and an integer priority. *)
Definition row_ok (c : NotificationRow) : Prop := IsValid (nr_Channel c) = true /\ fits_int (nr_Priority c).

(** A dead letter [d] of a notification among [cs]. *)
Definition dead_of (cs : list NotificationRow) (d : DLQMessage) : Prop :=
  q_OriginalTopic d = TopicForChannel (m_Channel (q_Original d)) /\ q_LastAttempt d = 1 /\
  exists c, c ∈ cs /\ row_ok c /\ describes c (q_Original d).

Section Queued.
Context `{UuidText}.

(** A record of the log is a notification, a dead letter or a webhook event, on its topic
    and under its key. *)
Inductive well_queued (cs : list NotificationRow) (rec : KafkaRecord) : Prop :=
  | Q_message c m j :
      c ∈ cs -> row_ok c -> describes c m -> Marshal m = Ok j -> k_Value rec = BJson j ->
      k_Topic rec = TopicForChannel (m_Channel m) -> k_Key rec = m_RecipientID m -> well_queued cs rec
  | Q_dead d j :
      dead_of cs d -> Marshal d = Ok j -> k_Value rec = BJson j ->
      k_Topic rec = DLQTopicForChannel (m_Channel (q_Original d)) -> k_Key rec = m_RecipientID (q_Original d) ->
      well_queued cs rec
  | Q_webhook m j :
      webhook_wf m -> Marshal m = Ok j -> k_Value rec = BJson j -> k_Topic rec = WebhookTopic -> well_queued cs rec.

(** A stored dead letter can be replayed. *)
Definition dead_ok (cs : list NotificationRow) (row : DeadLetterRow) : Prop :=
  exists d j, dead_of cs d /\ Marshal d = Ok j /\ dr_Payload row = Some j.

Record queue_ok (w : world) : Prop := MkQueueOk {
  qo_rows : Forall row_ok (core <$> notifications (w_db w));
  qo_log : Forall (well_queued (core <$> notifications (w_db w))) (w_kafka w);
  qo_dead : Forall (dead_ok (core <$> notifications (w_db w))) (dead_letters (w_db w));
}.

(** ... and the notifications [cs] are stored. *)
Definition knows (cs : list NotificationRow) (w : world) : Prop :=
  queue_ok w /\ cs ⊆ core <$> notifications (w_db w).

(** ** More notifications keep it *)

Lemma dead_of_mono cs cs' d : cs ⊆ cs' -> dead_of cs d -> dead_of cs' d.
Proof. intros Hs (? & ? & c & Hc & ?). split; [done|]. split; [done|]. exists c. split; [by apply Hs|done]. Qed.
Lemma well_queued_mono cs cs' rec : cs ⊆ cs' -> well_queued cs rec -> well_queued cs' rec.
Proof.
  intros Hs [c m j Hc|d j Hd|]; [by eapply Q_message; [apply Hs|..]|eapply Q_dead; [by eapply dead_of_mono|done..]|by eapply Q_webhook].
Qed.
Lemma dead_ok_mono cs cs' row : cs ⊆ cs' -> dead_ok cs row -> dead_ok cs' row.
Proof. intros Hs (d & j & Hd & ?). exists d, j. split; [by eapply dead_of_mono|done]. Qed.

Lemma knows_nil w : knows [] w <-> queue_ok w.
Proof. unfold knows. split; [tauto|]. intros. split; [done|set_solver]. Qed.
Lemma knows_row w row : queue_ok w -> row ∈ notifications (w_db w) -> knows [core row] w.
Proof. intros Hq Hr. split; [done|]. intros c ->%list_elem_of_singleton. by apply list_elem_of_fmap_2. Qed.
Lemma knows_weaken cs cs' w : cs' ⊆ cs -> knows cs w -> knows cs' w.
Proof. intros Hs [Hq Hc]. split; [done|]. by etrans. Qed.
Lemma knows_row_ok cs c w : knows cs w -> c ∈ cs -> row_ok c.
Proof. intros [[Hr _ _] Hs] Hc. rewrite Forall_forall in Hr. by apply Hr, Hs. Qed.

Lemma keeps_knows_nil {A} (m : M A) : Keeps (knows []) m -> Keeps queue_ok m.
Proof. intros Hm w Hw. apply knows_nil, Hm. by apply knows_nil. Qed.
Lemma keeps_nil_knows {A} (m : M A) : Keeps queue_ok m -> Keeps (knows []) m.
Proof. intros Hm w Hw. apply knows_nil, Hm, Hw. Qed.

(** ** What the invariant observes *)

Definition qview (w : world) := (core <$> notifications (w_db w), w_kafka w, dead_letters (w_db w)).
#[global] Instance timeless_qview : Timeless qview.
Proof. by intros ? []. Qed.

Lemma knows_qview cs w w' : qview w' = qview w -> knows cs w -> knows cs w'.
Proof.
  unfold qview. intros [= Hn Hk Hd] [[? ? ?] ?]. split; [split|]; by rewrite ?Hn, ?Hk, ?Hd.
Qed.
Lemma keeps_knows_frame {A} cs (m : M A) : Frame qview m -> Keeps (knows cs) m.
Proof. intros Hf w. apply knows_qview, Hf. Qed.

Lemma keeps_knows_external `{Env} {A} cs (q : event -> world -> result A * world) :
  (forall ev w, knows cs w -> knows cs (q ev w).2) -> Keeps (knows cs) (external q).
Proof.
  intros Hq w Hw. unfold external. set (ev := env_event _).
  assert (knows cs (advance (ev_dt ev) w)) as Hw1 by (eapply knows_qview; [apply timeless|done]).
  destruct (ev_fault ev); simpl; auto.
Qed.

(** A statement that changes no column of a notification but the status, and nothing of
    the dead letters. *)
Lemma frame_sql_qview `{Env} {A} (q : uuid -> gotime -> db -> result A * db) :
  (forall u t d, core <$> notifications (q u t d).2 = core <$> notifications d /\ dead_letters (q u t d).2 = dead_letters d) ->
  Frame qview (sql q).
Proof.
  intros Hq. apply frame_external; [apply _|]. intros ev w. specialize (Hq (ev_uuid ev) (pg_now (w_now w)) (w_db w)).
  destruct (q _ _ _) as [r d]. destruct w. unfold qview. simpl in *. destruct Hq as [-> ->]. done.
Qed.

(** A statement that only drops or re-dates dead letters. *)
Lemma keeps_dead_sql `{Env} {A} cs (r : result A) (f : gotime -> list DeadLetterRow -> list DeadLetterRow) :
  (forall t l x, x ∈ f t l -> exists y, y ∈ l /\ dr_Payload x = dr_Payload y) ->
  Keeps (knows cs) (sql (fun _ t d => (r, set_dead_letters (f t) d))).
Proof.
  intros Hf. apply keeps_knows_external. intros ev [[] k ? ? tm ? ?] [[Hr Hk Hd] Hs]. simpl in *.
  split; [split|]; simpl; [done|done| |done]. apply Forall_forall. intros x Hx.
  destruct (Hf _ _ _ Hx) as (y & Hy & He). rewrite Forall_forall in Hd. destruct (Hd y Hy) as (d & j & ? & ? & ?).
  exists d, j. by rewrite He.
Qed.
End Queued.

Ltac no_queue :=
  apply keeps_knows_frame, frame_sql_qview; intros u' t' []; unfold insert_row, update_returning; simpl;
  repeat case_match; split; reflexivity.

#[global] Instance knows_statements `{Env} `{UuidText} `{RedisCommands} cs : Statements (knows cs).
Proof.
  split; try (intros; no_queue).
  - intros A q. apply keeps_knows_frame, _.
  - intros A q. apply keeps_knows_frame, frame_external; [apply _|done].
  - intros d. apply keeps_knows_frame, _.
  - intros dt w. apply knows_qview, timeless.
  - intros key win cap. unfold AllowKey, now. apply keeps_bind; [apply _|]. intros t. apply keeps_bind; [|apply _].
    apply keeps_or_else, keeps_knows_frame, frame_external; [apply _|]. by intros ? [].
  - intros name ls n _. apply keeps_knows_frame. by intros [].
  - intros name ls n _. apply keeps_knows_frame. by intros [].
  - intros id st _. apply keeps_knows_frame, frame_sql_qview. intros u t []. simpl.
    split; [apply fmap_update_where; intros; apply core_set_status|done].
  - intros id t. apply keeps_knows_frame, frame_sql_qview. intros u t0 []. simpl.
    split; [apply fmap_update_where; intros; apply core_set_status|done].
  - intros id t. apply (keeps_dead_sql cs (Ok tt) (fun _ => delete_where (dead_letter_key id t))).
    intros _ l x [_ Hx]%elem_of_delete_where. eauto.
  - intros id t. apply (keeps_dead_sql cs (Ok tt) (fun t0 => update_where (dead_letter_key id t) (set_replayed t0))).
    intros t0 l x (y & Hy & ->)%elem_of_update_where. exists y. split; [done|]. case_match; [by destruct y|done].
Qed.

(** ** What is published *)

Section Publishing.
Context `{Env} `{UuidTextLaws} `{Propagator} `{RedisCommands}.
Variable cs : list NotificationRow.

Lemma describes_wf c m : row_ok c -> describes c m -> message_wf m.
Proof.
  intros [_ Hp] Hd. unfold message_wf. rewrite (ds_priority _ _ Hd), (ds_attempt _ _ Hd). split; [done|].
  split; [unfold fits_int; lia|apply Hd].
Qed.
Lemma dead_of_wf d : dead_of cs d -> dlq_wf d.
Proof.
  intros (_ & Ha & c & _ & Hr & Hd). split; [by eapply describes_wf|]. rewrite Ha. unfold fits_int. lia.
Qed.

Lemma keeps_Publish topic key payload :
  well_queued cs (published topic key payload) -> Keeps (knows cs) (Queue.Publish topic key payload).
Proof.
  intros Hq. apply keeps_or_else, keeps_knows_external. intros ev [d k ? ? ? ? ?] [[Hr Hk Hd] Hs].
  split; [split|]; simpl in *; [done| |done|done].
  apply Forall_app. split; [done|]. constructor; [|constructor]. by eapply well_queued_mono.
Qed.

(** A message about a known notification. *)
Lemma keeps_publish_message c m pre :
  c ∈ cs -> row_ok c -> describes c m ->
  Keeps (knows cs) (data ← or_else (lift (Marshal m)) (EWrap pre);
                    Queue.Publish (TopicForChannel (m_Channel m)) (m_RecipientID m) (BJson data)).
Proof.
  intros Hc Hr Hd. destruct (Marshal m) as [j|e] eqn:Hj; [|by intros w].
  intros w Hw. apply (keeps_Publish _ _ (BJson j)); [|done]. by eapply Q_message.
Qed.

Lemma keeps_PublishDLQ d : dead_of cs d -> Keeps (knows cs) (PublishDLQ d).
Proof.
  intros Hd. unfold PublishDLQ. destruct (Marshal d) as [j|e] eqn:Hj; [|by intros w].
  intros w Hw. apply (keeps_Publish _ _ (BJson j)); [|done]. by eapply Q_dead.
Qed.

Lemma keeps_deadLetter_about deps c msg reason errMsg :
  c ∈ cs -> row_ok c -> describes c msg -> Keeps (knows cs) (deadLetter deps msg reason errMsg).
Proof.
  intros Hc Hr Hd. unfold deadLetter, now, Inc. destruct (_ || _); [apply _|].
  apply keeps_bind; [apply _|]. intros t. apply keeps_bind; [|apply _]. apply keeps_try, keeps_PublishDLQ.
  split; [done|]. split; [apply Hd|]. by exists c.
Qed.

Lemma keeps_Dispatch maxAttempts n event : fits_int maxAttempts -> Keeps (knows cs) (Dispatch maxAttempts n event).
Proof.
  intros Hm. unfold Dispatch, WebhookRepo_ListActiveForEvent, now. apply keeps_bind; [apply _|].
  intros [|ep eps]; [apply _|]. apply keeps_bind; [apply _|]. intros t. apply keeps_for_each. intros x.
  unfold dispatch_one, WebhookRepo_CreateDelivery, now. apply keeps_bind; [apply _|]. intros [delivery|e]; [|apply _].
  apply keeps_bind; [apply _|]. intros t'. destruct (Marshal _) as [j|e] eqn:Hj; [|apply _].
  apply keeps_ignore, keeps_Publish. eapply Q_webhook; [|exact Hj|done|done]. split; [unfold fits_int; simpl; lia|done].
Qed.
End Publishing.

(** ** Decoding by topic *)

Section Topics.
Context `{UuidTextLaws}.

(** The topics of valid channels do not clash. *)
Lemma topics_distinct ch ch' : IsValid ch = true -> IsValid ch' = true ->
  TopicForChannel ch <> DLQTopicForChannel ch' /\ WebhookTopic <> TopicForChannel ch /\ WebhookTopic <> DLQTopicForChannel ch /\
  (TopicForChannel ch = TopicForChannel ch' -> ch = ch') /\ (DLQTopicForChannel ch = DLQTopicForChannel ch' -> ch = ch').
Proof.
  unfold IsValid. rewrite !orb_true_iff, !bool_decide_eq_true.
  intros [[[-> | ->] | ->] | ->] [[[-> | ->] | ->] | ->]; split_and!; done.
Qed.

Lemma decode_message cs ch rec : well_queued cs rec -> IsValid ch = true -> k_Topic rec = TopicForChannel ch ->
  exists c m, c ∈ cs /\ row_ok c /\ describes c m /\ m_Channel m = ch /\ k_Key rec = m_RecipientID m /\
    Unmarshal_bytes (k_Value rec) = Ok m.
Proof.
  intros Hq Hch Ht. destruct Hq as [c m j Hc Hr Hd Hj Hv Htop Hk|d j (Ho & Ha & c & Hc & Hr & Hd) Hj Hv Htop Hk|m j Hw Hj Hv Htop].
  - exists c, m. split_and!; try done.
    + rewrite Htop in Ht. destruct (topics_distinct (m_Channel m) ch) as (_ & _ & _ & Hi & _); [|done|by apply Hi].
      rewrite (ds_channel _ _ Hd). apply Hr.
    + rewrite Hv. by eapply Message_json_roundtrip; [eapply describes_wf|].
  - exfalso. rewrite Htop in Ht. destruct (topics_distinct ch (m_Channel (q_Original d))) as [Hn _]; [done| |by apply Hn].
    rewrite (ds_channel _ _ Hd). apply Hr.
  - exfalso. rewrite Htop in Ht. by destruct (topics_distinct ch ch) as (_ & Hn & _).
Qed.

Lemma decode_dead cs ch rec : well_queued cs rec -> IsValid ch = true -> k_Topic rec = DLQTopicForChannel ch ->
  exists d j, dead_of cs d /\ m_Channel (q_Original d) = ch /\ Marshal d = Ok j /\ Unmarshal_bytes (k_Value rec) = Ok d.
Proof.
  intros Hq Hch Ht. destruct Hq as [c m j Hc Hr Hd Hj Hv Htop Hk|d j Hd Hj Hv Htop Hk|m j Hw Hj Hv Htop].
  - exfalso. rewrite Htop in Ht. destruct (topics_distinct (m_Channel m) ch) as [Hn _]; [|done|by apply Hn].
    rewrite (ds_channel _ _ Hd). apply Hr.
  - exists d, j. split_and!; try done.
    + rewrite Htop in Ht. pose proof Hd as (_ & _ & c & _ & Hr & Hds). destruct (topics_distinct (m_Channel (q_Original d)) ch) as (_ & _ & _ & _ & Hi); [|done|by apply Hi].
      rewrite (ds_channel _ _ Hds). apply Hr.
    + rewrite Hv. by eapply DLQMessage_json_roundtrip; [eapply dead_of_wf|].
  - exfalso. rewrite Htop in Ht. by destruct (topics_distinct ch ch) as (_ & _ & Hn & _).
Qed.

Lemma decode_webhook cs rec : well_queued cs rec -> k_Topic rec = WebhookTopic ->
  exists m : WebhookMessage, webhook_wf m /\ Unmarshal_bytes (k_Value rec) = Ok m.
Proof.
  intros Hq Ht. destruct Hq as [c m j Hc Hr Hd Hj Hv Htop Hk|d j (Ho & Ha & c & Hc & Hr & Hd) Hj Hv Htop Hk|m j Hw Hj Hv Htop].
  - exfalso. rewrite Htop in Ht. destruct (topics_distinct (m_Channel m) (m_Channel m)) as (_ & Hn & _); [..|by apply Hn].
    all: rewrite (ds_channel _ _ Hd); apply Hr.
  - exfalso. rewrite Htop in Ht.
    destruct (topics_distinct (m_Channel (q_Original d)) (m_Channel (q_Original d))) as (_ & _ & Hn & _); [..|by apply Hn].
    all: rewrite (ds_channel _ _ Hd); apply Hr.
  - exists m. split; [done|]. rewrite Hv. by eapply WebhookMessage_json_roundtrip.
Qed.
End Topics.

(** ** The operations that publish *)

Section Operations.
Context `{Env} `{UuidTextLaws} `{Propagator} `{RedisCommands}.
Variable maxRetries : Z.
Hypothesis maxRetries_fits : fits_int maxRetries.

Lemma message_of_describes row tenant t :
  tenant = uuid_nil \/ nr_TenantID row = Some tenant ->
  describes (core row) (message_of maxRetries tenant (dbNotificationToDomain row) t).
Proof using maxRetries_fits. intros Ht. by destruct row. Qed.

Lemma core_row_ok row : row_ok (core row) <-> row_ok row.
Proof. by destruct row. Qed.

(** *** Send *)

Lemma validated_channel req : validate_Struct (A := SendRequest) req = None -> IsValid (sr_Channel req) = true.
Proof.
  unfold validate_Struct. destruct (tag_violations req) as [|x l] eqn:E; [|done]. intros _.
  unfold tag_violations, SendRequest_tags in E. apply app_eq_nil in E as [_ E]. apply app_eq_nil in E as [E _].
  unfold field_tags in E. simpl in E. by destruct (nonempty _), (IsValid _).
Qed.

Lemma wp_Create_knows tenantID req w :
  IsValid (sr_Channel req) = true -> queue_ok w ->
  wp (NotificationRepo_Create tenantID req) (fun r w' => queue_ok w' /\
    forall n, r = Ok n -> exists row, row ∈ notifications (w_db w') /\ n = dbNotificationToDomain row /\
      nr_TenantID row = Some tenantID) w.
Proof.
  intros Hch Hq. apply wp_bind, wp_or_else, wp_sql.
  - intros dt msg. split; [|done]. apply knows_nil. eapply knows_qview; [apply timeless|by apply knows_nil].
  - intros dt u t msg. unfold insert_row. destruct (violated _).
    { assert (queue_ok (set_db (fun _ => w_db w) (advance dt w))) by (destruct w, Hq; by split).
      split; (split; [done|]); by intros. }
    set (row := notification_row _ _ _).
    assert (queue_ok (set_db (fun _ => set_notifications (fun l => l ++ [row]) (w_db w)) (advance dt w))) as Hq'.
    { destruct w as [[] k ? ? ? ? ?], Hq as [Hr Hk Hd]. split; simpl in *; rewrite fmap_app.
      - apply Forall_app. split; [done|]. constructor; [|constructor]. split; [done|].
        apply (new_row_priority tenantID req row). by do 2 eexists.
      - eapply Forall_impl; [exact Hk|]. intros x. apply well_queued_mono. set_solver.
      - eapply Forall_impl; [exact Hd|]. intros x. apply dead_ok_mono. set_solver. }
    split; [by split|]. apply wp_ret. split; [done|]. intros n [= <-]. exists row.
    split_and!; [|done|done]. destruct w as [[] ? ? ? ? ? ?]. simpl. set_solver.
Qed.

Lemma keeps_queue_Send tenantID req : Keeps queue_ok (Send maxRetries tenantID req).
Proof using All.
  intros w Hq. assert (wp (Send maxRetries tenantID req) (fun _ w' => queue_ok w') w) as H'; [|exact H'].
  unfold Send. destruct (validate_Struct req) eqn:Hval; [done|]. apply validated_channel in Hval.
  apply wp_bind. eapply wp_mono; [apply (wp_keeps queue_ok); [|exact Hq]|].
  { apply keeps_knows_nil. unfold NotificationRepo_GetByIdempotencyKey. apply _. }
  intros [[n|]|e] w1 Hq1; [done| |done]. apply wp_bind. eapply wp_mono; [by apply wp_Create_knows|].
  intros [n|e] w2 [Hq2 Hn]; [|done]. destruct (Hn n eq_refl) as (row & Hrow & -> & Hten).
  apply wp_bind, wp_gets. destruct (match sr_ScheduledAt req with Some _ => _ | None => _ end); [done|].
  eapply wp_mono; [apply (wp_keeps (knows [core row])); [|by apply knows_row]|by intros ? ? []].
  assert (row_ok (core row)) as Hr.
  { destruct Hq2 as [Hr _ _]. rewrite Forall_forall in Hr. apply Hr. by apply list_elem_of_fmap_2. }
  unfold enqueue, NotificationRepo_UpdateStatus, now, Inc. apply keeps_bind; [|apply _]. apply keeps_or_else.
  apply keeps_bind; [apply _|]. intros t.
  apply (keeps_publish_message [core row] (core row) (message_of maxRetries tenantID (dbNotificationToDomain row) t));
    [set_solver|done|by apply message_of_describes; right].
Qed.

(** *** The scheduler *)

Lemma wp_ListDueScheduled_rows batchSize w :
  wp (NotificationRepo_ListDueScheduled batchSize) (fun r w' => qview w' = qview w /\
    forall batch, r = Ok batch -> exists rows, batch = dbNotificationToDomain <$> rows /\ rows ⊆ notifications (w_db w)) w.
Proof.
  apply wp_bind, wp_or_else, wp_sql_read. intros dt t msg. split; [|split; [apply timeless|done]].
  unfold select_page. destruct (violated _); [split; [apply timeless|done]|]. apply wp_ret.
  split; [apply timeless|]. intros batch [= <-]. eexists. split; [done|].
  intros r Hr. unfold page in Hr. rewrite drop_0 in Hr.
  apply elem_of_take in Hr as (i & Hi & _). apply list_elem_of_lookup_2 in Hi.
  by apply sort_by_elem, elem_of_where in Hi as [_ ?].
Qed.

Lemma keeps_tick_one cs row : core row ∈ cs -> row_ok row ->
  Keeps (knows cs) (tick_one maxRetries (dbNotificationToDomain row)).
Proof using All.
  intros Hc Hr. unfold tick_one, Scheduler_enqueue, NotificationRepo_UpdateStatus, now.
  apply keeps_bind; [|apply _]. apply keeps_try, keeps_bind; [apply _|]. intros t.
  apply (keeps_publish_message cs (core row) (message_of maxRetries uuid_nil (dbNotificationToDomain row) t));
    [done|by apply core_row_ok|by apply message_of_describes; left].
Qed.

Lemma keeps_queue_tick batchSize : Keeps queue_ok (tick maxRetries batchSize).
Proof using All.
  intros w Hq. assert (wp (tick maxRetries batchSize) (fun _ w' => queue_ok w') w) as H'; [|exact H'].
  apply wp_bind, wp_try. eapply wp_mono; [apply wp_ListDueScheduled_rows|]. intros r w1 [Hv Hb].
  assert (queue_ok w1) as Hq1 by (apply knows_nil; eapply knows_qview; [exact Hv|by apply knows_nil]).
  destruct r as [batch|e]; [|done]. destruct (Hb batch eq_refl) as (rows & -> & Hrows).
  assert (knows (core <$> rows) w1) as Hk.
  { split; [done|]. injection Hv as -> _ _. intros c (r & -> & Hr)%list_elem_of_fmap. apply list_elem_of_fmap_2. by apply Hrows. }
  eapply wp_mono; [apply (wp_for_each _ _ (knows (core <$> rows)) w1 Hk)|by intros r w' [_ [? _]]].
  intros x w' (row & -> & Hrow)%list_elem_of_fmap Hw'. split; [|].
  { unfold wp, tick_one, mbind, ST_bind, try. destruct (Scheduler_enqueue _ _ _) as [[] ?]; [|done].
    unfold ignore. by destruct (NotificationRepo_UpdateStatus _ _ _). }
  assert (core row ∈ core <$> rows) as Hc by by apply list_elem_of_fmap_2.
  apply keeps_tick_one; [done|by apply core_row_ok, (knows_row_ok _ _ _ Hw' Hc)|done].
Qed.

(** *** The dead-letter consumer *)

Lemma keeps_dlq_handle_of cs ch rec :
  well_queued cs rec -> IsValid ch = true -> k_Topic rec = DLQTopicForChannel ch -> Keeps (knows cs) (dlq_handle rec).
Proof.
  intros Hq Hch Ht. destruct (decode_dead cs ch rec Hq Hch Ht) as (d & j & Hd & _ & Hj & Hu).
  unfold dlq_handle, DeadLetterRepo_Create, now, Inc. rewrite Hu. apply keeps_bind; [apply _|]. intros t.
  assert (mustMarshal d t = j) as Hm by (unfold mustMarshal; by rewrite Hj).
  apply keeps_bind; [|apply _]. apply keeps_try, keeps_bind; [|apply _]. apply keeps_or_else, keeps_knows_external.
  intros ev [[] k ? ? tm ? ?] [[Hr Hk Hl] Hs]. unfold insert_row. simpl w_db. destruct (violated _); [by split|].
  split; [split|]; [done|done| |done]. apply Forall_app. split; [done|]. constructor; [|constructor].
  exists d, j. split_and!; [by eapply dead_of_mono|done|].
  by rewrite <-Hm.
Qed.

(** *** Replay *)

Lemma keeps_queue_replay tenantID id : Keeps queue_ok (replay maxRetries tenantID id).
Proof using All.
  intros w Hq. assert (wp (replay maxRetries tenantID id) (fun _ w' => queue_ok w') w) as H'; [|exact H'].
  assert (forall dt, queue_ok (advance dt w)) as Ha
    by (intros dt; apply knows_nil; eapply knows_qview; [apply timeless|by apply knows_nil]).
  unfold replay, DeadLetterRepo_GetByID. apply wp_bind, wp_bind, wp_or_else, wp_sql_read. intros dt t msg. split; [|by apply Ha].
  destruct (where_ _ _) as [|row rest] eqn:E; [by apply Ha|]. apply wp_ret.
  assert (row ∈ dead_letters (w_db w)) as Hrow.
  { eapply (elem_of_where (dead_letter_key id tenantID)). rewrite E. set_solver. }
  pose proof Hq as [_ _ Hd]. rewrite Forall_forall in Hd. destruct (Hd row Hrow) as (d & j & Hdead & Hj & Hpay).
  simpl dm_Payload. rewrite Hpay. pose proof (DLQMessage_json_roundtrip _ _ (dead_of_wf _ _ Hdead) Hj) as Hu.
  rewrite Hu. apply wp_bind, wp_or_else, wp_lift. clear Hu. pose proof Hdead as (Ho & _ & c & Hc & Hr & Hds).
  assert (knows [c] (advance dt w)) as Hk.
  { split; [apply Ha|]. intros c' ->%list_elem_of_singleton. by destruct w. }
  apply wp_bind, wp_gets, wp_bind, wp_or_else, wp_lift.
  destruct (Marshal (replay_of _ _ _)) as [b|e] eqn:Hb; [|by apply Ha]. apply wp_bind, wp_or_else.
  eapply wp_mono; [apply (wp_keeps (knows [c])); [apply keeps_Publish|exact Hk]|].
  { eapply (Q_message _ _ c); [set_solver|done| |exact Hb|done|exact Ho|done]. by destruct Hds; split. }
  intros [[]|e] w2 Hk2; [|apply Hk2]. apply (wp_mono _ (fun _ => knows [c])); [|by intros ? ? []].
  apply wp_keeps; [|done]. unfold DeadLetterRepo_MarkReplayed. apply _.
Qed.
End Operations.
