(* ===== verification/Closed.v ===== *)
(** * The started processes as a closed system

    The worker's tasks take records of the topics they consume from the log that the
    program itself writes; requests come from outside.  The queue's integrity is an
    invariant of these runs, and it joins the components: what was accepted is found,
    decoded and settled by the worker in any later state. *)

From S2P Require Import Prelude Time Domain Json World Metrics Db Repository Schema Queue.
From S2P Require Import Provider RateLimit Preference Template Notification Webhook Processor Pipeline WebhookWorker Pool.
From S2P Require Import Http Config Dlq Access Requests Handlers WsToken Stream Health Router Isolation Wiring System Ledger Integrity.

Section Closed.
Context `{Floats} `{Infra} `{Env} `{UuidText} `{Propagator} `{RedisCommands} `{TimeZones} `{TextTemplate}
  `{UrlCheck} `{HttpClient} `{KeySource} `{Jwt} `{WsAccept} `{ChiMux} `{PromText}.

(** One turn of a task of the worker, on a record its consumer can fetch. *)
Inductive task_step (deps : ProcessorDeps) : task -> world -> world -> Prop :=
  | T_pool ch c n rec msg w :
      rec ∈ w_kafka w -> k_Topic rec = cs_topic c -> Unmarshal_bytes (k_Value rec) = Ok msg ->
      task_step deps (TPool ch c n) w (Process deps msg w).2
  | T_dlq ch c rec w :
      rec ∈ w_kafka w -> k_Topic rec = cs_topic c -> task_step deps (TDLQConsumer ch c) w (dlq_handle rec w).2
  | T_scheduler interval batch maxRetries w :
      task_step deps (TScheduler interval batch maxRetries) w (tick maxRetries batch w).2
  | T_webhook c retryDelay rec w :
      rec ∈ w_kafka w -> k_Topic rec = cs_topic c ->
      task_step deps (TWebhookWorker c retryDelay) w (webhook_handle retryDelay rec w).2.

(** A task, a request, the gap of a stream, or time. *)
Inductive closed_step (wk : worker) (a : api) : world -> world -> Prop :=
  | closed_task t w w' : t ∈ wk_tasks wk -> task_step (wk_deps wk) t w w' -> closed_step wk a w w'
  | closed_request order r w : closed_step wk a w (ServeHTTP (ap_deps a) order r w).2
  | closed_gap tenant recipient id w : closed_step wk a w (InAppRepo_ListSince tenant recipient id w).2
  | closed_idle dt w : closed_step wk a w (advance dt w).

(** They are runs of the open system. *)
Lemma closed_system wk a w w' : closed_step wk a w w' -> exists maxRetries batch hookDelay,
  system_step (wk_deps wk) (ap_deps a) maxRetries batch hookDelay w w'.
Proof.
  destruct 1 as [t w w' _ Ht|order r w|tenant recipient id w|dt w].
  - destruct Ht as [ch c n rec msg w _ _ _|ch c rec w _ _|interval batch maxRetries w|c d rec w _ _].
    + exists 0, 0, 0. apply step_entry, E_process.
    + exists 0, 0, 0. apply step_entry, E_dlq_turn.
    + exists maxRetries, batch, 0. apply step_entry, E_tick.
    + exists 0, 0, d. apply step_entry, E_webhook_turn.
  - exists 0, 0, 0. apply step_entry, E_request.
  - exists 0, 0, 0. apply step_entry, E_replay_gap.
  - exists 0, 0, 0. apply step_idle.
Qed.
End Closed.

(** ** What the started processes guarantee *)

Lemma load_retries `{Floats} getenv cfg : Load getenv = Ok cfg -> fits_int (c_WorkerRetryMaxAttempts cfg).
Proof.
  intros Hl. pose proof (Load_spec getenv) as Hs. rewrite Hl in Hs. destruct Hs as (_ & _ & Hi & _).
  pose proof (int_settings_fit getenv cfg Hi) as Hf. rewrite Forall_forall in Hf.
  apply (Hf ("WORKER_RETRY_MAX_ATTEMPTS", 3, c_WorkerRetryMaxAttempts)). set_solver.
Qed.
Lemma with_build_retries `{Floats} version commit cfg : c_WorkerRetryMaxAttempts (with_build version commit cfg) = c_WorkerRetryMaxAttempts cfg.
Proof. by destruct cfg. Qed.

Lemma queued_rec `{UuidText} w rec : queue_ok w -> rec ∈ w_kafka w -> well_queued (core <$> notifications (w_db w)) rec.
Proof. intros [_ Hk _] Hr. rewrite Forall_forall in Hk. by apply Hk. Qed.

Section StartedClosed.
Context `{Floats} `{Infra} `{!InfraLaws} `{Env} `{UuidTextLaws} `{Propagator} `{RedisCommands} `{TimeZones} `{TextTemplate}
  `{UrlCheck} `{HttpClient} `{KeySource} `{Jwt} `{WsAccept} `{ChiMux} `{PromText}.
Variables (version commit : string) (env_worker env_api : string -> string) (wk : worker) (a : api).
Hypothesis worker_started : worker_main version commit env_worker = Ok wk.
Hypothesis api_started : api_main version commit env_api = Ok a.

Lemma closed_keeps (I : world -> Prop) w w' : Invariant I ->
  (forall p n, ProviderContract p -> Keeps I (pv_Send p n)) -> rtc (closed_step wk a) w w' -> I w -> I w'.
Proof using All.
  intros HI Hp. induction 1 as [w|w w1 w2 Hstep _ IH]; [done|]. intros Hw. apply IH.
  destruct (closed_system _ _ _ _ Hstep) as (mr & b & hd & Hs).
  eapply (started_keeps version commit env_worker env_api wk a worker_started api_started I mr b hd w w1 HI Hp); [|done].
  by apply rtc_once.
Qed.

Lemma api_retries_fit : fits_int (rd_maxRetries (ap_deps a)).
Proof using api_started.
  revert api_started. unfold api_main. destruct (Load env_api) as [cfg|] eqn:Hl; [|done]. simpl.
  destruct (InitTracer _); [|done]. simpl. destruct (buildPool _); [|done]. simpl. destruct (buildRedis _); [|done].
  intros [= <-]. cbn [ap_deps rd_maxRetries]. rewrite with_build_retries. by eapply load_retries.
Qed.

(** The tasks consume the topics of valid channels. *)
Definition task_ok (t : task) : Prop :=
  match t with
  | TPool ch c _ => IsValid ch = true /\ cs_topic c = TopicForChannel ch
  | TDLQConsumer ch c => IsValid ch = true /\ cs_topic c = DLQTopicForChannel ch
  | TScheduler _ _ maxRetries => fits_int maxRetries
  | TWebhookWorker c _ => cs_topic c = WebhookTopic
  end.

Lemma tasks_ok t : t ∈ wk_tasks wk -> task_ok t.
Proof using All.
  destruct (worker_main_inv _ _ _ _ worker_started) as (cfg & Hl & _ & -> & _).
  pose proof (load_retries _ _ Hl) as Hr. rewrite <-(with_build_retries version commit) in Hr.
  revert t. apply Forall_forall. unfold all_tasks, startPools, startDLQConsumers, startWebhookWorker.
  destruct (c_DLQConsumerEnabled _), (c_WebhookEnabled _); simpl; rewrite ?Forall_cons; split_and!; done.
Qed.

Lemma keeps_queue_Process cs c msg : c ∈ cs -> row_ok c -> describes c msg ->
  Keeps (knows cs) (Process (wk_deps wk) msg).
Proof using All.
  intros Hc Hr Hd. destruct (started_worker version commit env_worker env_api wk a worker_started api_started) as [Hk _].
  apply keeps_Process; [apply _|..].
  - intros ch p n Hp. apply keeps_knows_frame. intros w. pose proof (deps_providers _ _ Hp) as Hcp.
    pose proof (send_frame (p := p) n w) as Hf. unfold worker_view, qview in *. congruence.
  - intros reason e. by eapply keeps_deadLetter_about.
  - intros n e. unfold dispatchWebhook.
    destruct (worker_main_inv _ _ _ _ worker_started) as (cfg & Hl & -> & _). apply keeps_ignore, keeps_Dispatch.
    destruct (with_build_fields version commit cfg) as [-> _]. by eapply load_webhook_attempts.
Qed.

(** Every step keeps the queue in order. *)
Lemma closed_queue_step w w' : closed_step wk a w w' -> queue_ok w -> queue_ok w'.
Proof using All.
  intros Hstep Hq. assert (knows (core <$> notifications (w_db w)) w) as Hall by by split.
  destruct Hstep as [t w w' Hin%tasks_ok Ht|order r w|tenant recipient id w|dt w].
  - destruct Ht as [ch c n rec msg w Hrec Htop Hu|ch c rec w Hrec Htop|interval batch maxRetries w|c d rec w Hrec Htop].
    + destruct Hin as [Hv Hc]. rewrite Hc in Htop.
      destruct (decode_message _ ch rec (queued_rec w rec Hq Hrec) Hv Htop) as (row & m & Hr & Hok & Hd & _ & _ & Hm).
      rewrite Hu in Hm. injection Hm as ->. by apply (keeps_queue_Process (core <$> notifications (w_db w)) row).
    + destruct Hin as [Hv Hc]. rewrite Hc in Htop.
      by apply (keeps_dlq_handle_of _ ch rec (queued_rec w rec Hq Hrec) Hv Htop).
    + by apply keeps_queue_tick.
    + apply keeps_knows_nil; [apply keeps_webhook_handle, _|done].
  - apply keeps_knows_nil; [|done]. apply keeps_ServeHTTP; [apply _|..].
    + apply started_probes with (version := version) (commit := commit) (env_api := env_api); [done|apply _].
    + intros. apply keeps_nil_knows, keeps_queue_Send, api_retries_fit.
    + intros. apply keeps_nil_knows, keeps_queue_replay, api_retries_fit.
  - apply keeps_knows_nil; [apply keeps_replay_gap, _|done].
  - apply (proj1 (knows_nil _)), (inv_idle (I := knows [])). by apply (proj2 (knows_nil _)).
Qed.

Lemma closed_queue w w' : rtc (closed_step wk a) w w' -> queue_ok w -> queue_ok w'.
Proof using All. induction 1 as [w|w w1 w2 Hs _ IH]; [done|]. intros Hq. by eapply IH, closed_queue_step. Qed.

Lemma closed_extends w w' : rtc (closed_step wk a) w w' -> extends (ledger_of w) (ledger_of w').
Proof using All.
  intros Hr. apply ledger_extends.
  apply (closed_keeps (from_ledger (ledger_of w)) w w'); [apply _|intros; by apply provider_keeps_ledger|done|apply rtc_refl].
Qed.

Lemma closed_schema w w' : rtc (closed_step wk a) w w' -> schema w -> schema w'.
Proof using All. apply closed_keeps; [apply _|]. intros p n Hp. apply send_schema. Qed.
End StartedClosed.

Lemma describes_core row m : describes (core row) m <-> describes row m.
Proof. split; intros [? ? ? ? ? ? ? ?]; split; by destruct row. Qed.

(** The message of a record on a channel's topic, with the row it is about. *)
Lemma queued_message `{UuidTextLaws} w ch rec : queue_ok w -> IsValid ch = true -> rec ∈ w_kafka w ->
  k_Topic rec = TopicForChannel ch ->
  exists row m, row ∈ notifications (w_db w) /\ Unmarshal_bytes (k_Value rec) = Ok m /\ describes row m /\
    message_wf m /\ m_Channel m = ch /\ k_Key rec = m_RecipientID m.
Proof.
  intros Hq Hv Hrec Ht.
  destruct (decode_message _ ch rec (queued_rec w rec Hq Hrec) Hv Ht) as (c & m & Hc & Hok & Hd & Hch & Hk & Hu).
  apply list_elem_of_fmap in Hc as (row & -> & Hrow). exists row, m. pose proof (describes_wf _ _ Hok Hd).
  rewrite describes_core in Hd. by split_and!.
Qed.

(** A pool on such a topic meets no poison pill. *)
Lemma no_poison `{UuidTextLaws} `{CommitOffset} w ch log concurrency s : queue_ok w -> IsValid ch = true ->
  (forall rec, rec ∈ log -> rec ∈ w_kafka w /\ k_Topic rec = TopicForChannel ch) ->
  rtc (pool_step concurrency log) (NewPool concurrency) s -> pl_skipped s = [].
Proof.
  intros Hq Hv Hlog. revert s. apply rtc_ind_r; [done|]. intros s1 s2 _ Hs IH. destruct Hs; simpl in *; try done.
  exfalso. match goal with Hd : decodes _ _ = Some false |- _ => rename Hd into Hdec end.
  unfold decodes in Hdec. destruct (log !! n) as [rec|] eqn:Hn; [|done].
  destruct (Hlog rec (list_elem_of_lookup_2 _ _ _ Hn)) as [Hrec Ht].
  destruct (queued_message w ch rec Hq Hv Hrec Ht) as (row & m & _ & Hu & _). simpl in Hdec. by rewrite Hu in Hdec.
Qed.

(** C6. Queue integrity.  In every run of the started processes in which the consumers take
    what the program published (in any order, any number of times, under any faults), each
    record on a channel's topic decodes to a message about a stored notification with that
    notification's recipient, content and priority, each record on a dead-letter topic to
    an envelope around such a message, each webhook record to a webhook message, and every
    stored dead letter can be decoded for its replay; so no pool ever skips a record as
    malformed. *)
Theorem queue_integrity `{Floats} `{Infra} `{!InfraLaws} `{Env} `{UuidTextLaws} `{Propagator} `{RedisCommands}
    `{TimeZones} `{TextTemplate} `{UrlCheck} `{HttpClient} `{KeySource} `{Jwt} `{WsAccept} `{ChiMux} `{PromText}
    `{CommitOffset} version commit env_worker env_api wk a w w' :
  worker_main version commit env_worker = Ok wk -> api_main version commit env_api = Ok a ->
  queue_ok w -> rtc (closed_step wk a) w w' ->
  queue_ok w' /\
  (forall ch rec, IsValid ch = true -> rec ∈ w_kafka w' -> k_Topic rec = TopicForChannel ch ->
     exists row m, row ∈ notifications (w_db w') /\ Unmarshal_bytes (k_Value rec) = Ok m /\ describes row m) /\
  (forall ch rec, IsValid ch = true -> rec ∈ w_kafka w' -> k_Topic rec = DLQTopicForChannel ch ->
     exists row d, row ∈ notifications (w_db w') /\ Unmarshal_bytes (k_Value rec) = Ok d /\ describes row (q_Original d)) /\
  (forall rec, rec ∈ w_kafka w' -> k_Topic rec = WebhookTopic ->
     exists m : WebhookMessage, Unmarshal_bytes (k_Value rec) = Ok m) /\
  (forall ch log concurrency s, IsValid ch = true ->
     (forall rec, rec ∈ log -> rec ∈ w_kafka w' /\ k_Topic rec = TopicForChannel ch) ->
     rtc (pool_step concurrency log) (NewPool concurrency) s -> pl_skipped s = []).
Proof.
  intros Hwk Ha Hq Hrun. pose proof (closed_queue version commit env_worker env_api wk a Hwk Ha w w' Hrun Hq) as Hq'.
  split; [done|]. split_and!.
  - intros ch rec Hv Hrec Ht. destruct (queued_message w' ch rec Hq' Hv Hrec Ht) as (row & m & ? & ? & ? & _). by exists row, m.
  - intros ch rec Hv Hrec Ht. destruct (decode_dead _ ch rec (queued_rec w' rec Hq' Hrec) Hv Ht) as (d & j & Hd & _ & _ & Hu).
    destruct Hd as (_ & _ & c & (row & -> & Hrow)%list_elem_of_fmap & _ & Hds). exists row, d.
    split_and!; [done..|by apply describes_core].
  - intros rec Hrec Ht. destruct (decode_webhook _ rec (queued_rec w' rec Hq' Hrec) Ht) as (m & _ & ?). by exists m.
  - intros ch log concurrency s. by apply no_poison.
Qed.

(** ** Accepted notifications settle *)

(** The stored notification [row] settles when [msg] is processed from [w]: [Process]
    returns nil, its effects are those of one verdict, and that verdict is the stored
    status. *)
Definition settles `{Env} `{UuidText} `{Propagator} `{RedisCommands} `{TimeZones} `{TextTemplate}
    (deps : ProcessorDeps) (msg : Message) (row : NotificationRow) (w : world) : Prop :=
  exists v t w', Process deps msg w = (Ok tt, w') /\
    settled deps msg (dbNotificationToDomain row) v
      (restatus (m_NotificationID msg) StatusProcessing t (notifications (w_db w)))
      (delivery_logs (w_db w)) (w_kafka w) (w_now w) w' /\
    exists row', row' ∈ notifications (w_db w') /\ core row' = core row /\ nr_Status row' = verdict_status v.

Lemma restatus_core id st t ns : core <$> restatus id st t ns = core <$> ns.
Proof. apply fmap_update_where. intros. apply core_set_status. Qed.

Lemma described_settles `{Env} `{UuidTextLaws} `{Propagator} `{RedisCommands} `{TimeZones} `{TextTemplate}
    deps msg row w :
  DepsContract deps -> faultless -> schema w -> row ∈ notifications (w_db w) -> describes row msg -> message_wf msg ->
  m_TenantID msg <> uuid_nil -> settles deps msg row w.
Proof.
  intros Hdeps Hf Hsch Hrow Hd Hwf Hten. destruct (ds_tenant _ _ Hd) as [?|Ht]; [done|].
  pose proof (wp_Process deps msg w Hwf) as Hp. unfold wp in Hp. destruct (Process deps msg w) as [[[]|e] w'] eqn:Hrun; simpl in Hp.
  2: { destruct Hp as [Hnone _]. by destruct (Hnone Hf row Hrow (eq_sym (ds_id _ _ Hd)) Ht). }
  destruct Hp as (label & row1 & v & t & Hrow1 & Hid1 & Hten1 & _ & Hs & _).
  assert (row1 = row) as ->.
  { apply (NoDup_key_unique nr_ID (notifications (w_db w))); [apply Hsch|done|done|]. by rewrite Hid1, (ds_id _ _ Hd). }
  exists v, t, w'. split; [done|]. split; [done|]. destruct Hs as (ns' & ls' & k1 & hooks & [= -> _ _] & _ & _ & _ & _ & Hns).
  destruct Hns as [[_ ?]|[t' ->]]; [done|]. exists (set_status (verdict_status v) t' (set_status StatusProcessing t row)).
  split; [|split; by destruct row]. apply elem_of_update_where. exists (set_status StatusProcessing t row).
  split; [|by rewrite bool_decide_true by (by destruct row)]. apply elem_of_update_where. exists row.
  split; [done|]. by rewrite bool_decide_true.
Qed.

(** What an unscheduled new send leaves on the queue. *)
Lemma Send_new_record `{Env} `{UuidTextLaws} `{Propagator} maxRetries tenantID req w n w' :
  fits_int maxRetries -> Send maxRetries tenantID req w = (Ok n, w') -> sr_ScheduledAt req = None ->
  n_ID n ∉ nr_ID <$> notifications (w_db w) ->
  exists rec t row, rec ∈ w_kafka w' /\ n = dbNotificationToDomain row /\ IsValid (n_Channel n) = true /\
    k_Topic rec = TopicForChannel (n_Channel n) /\ Unmarshal_bytes (k_Value rec) = Ok (message_of maxRetries tenantID n t).
Proof.
  intros Hfit Hrun Hs Hnew. pose proof (Send_outcome maxRetries tenantID req w Hfit) as Ho. rewrite Hrun in Ho.
  assert (IsValid (sr_Channel req) = true) as Hv.
  { revert Hrun. unfold Send. destruct (validate_Struct req) eqn:Hval; [done|]. intros _. by apply validated_channel. }
  destruct Ho as [(key & row & _ & _ & Hrow & _ & -> & _)|(row & s & (u & t0 & Hn) & _ & _ & [[(at_ & Hsome & _) _]|[_ (t & rec & -> & Hview & Hpub)]])].
  - destruct Hnew. by apply (list_elem_of_fmap_2 nr_ID).
  - congruence.
  - destruct Hpub as (Htop & _ & t1 & Hu). injection Hview as _ Hk. exists rec, t1, (set_status StatusQueued t row).
    rewrite Hk. split; [set_solver|]. split; [done|]. subst row. by split_and!.
Qed.

(** C5. From acceptance to verdict.  When [Send] returns a new notification that is not
    scheduled, in any state of the started processes, then in every later state, whatever
    ran, failed or was repeated in between, the queue holds a record of its channel's
    topic that decodes to a message about exactly this stored notification; and from that
    state a worker whose calls do not fail processes it to exactly one verdict, recorded
    as the notification's status. *)
Theorem accepted_notification_settles `{Floats} `{Infra} `{!InfraLaws} `{Env} `{UuidTextLaws} `{Propagator} `{RedisCommands}
    `{TimeZones} `{TextTemplate} `{UrlCheck} `{HttpClient} `{KeySource} `{Jwt} `{WsAccept} `{ChiMux} `{PromText}
    version commit env_worker env_api wk a w0 w1 w2 w3 tenantID req n :
  worker_main version commit env_worker = Ok wk -> api_main version commit env_api = Ok a ->
  queue_ok w0 -> schema w0 -> rtc (closed_step wk a) w0 w1 ->
  Send (rd_maxRetries (ap_deps a)) tenantID req w1 = (Ok n, w2) -> sr_ScheduledAt req = None ->
  n_ID n ∉ nr_ID <$> notifications (w_db w1) -> tenantID <> uuid_nil ->
  rtc (closed_step wk a) w2 w3 ->
  exists rec msg row, rec ∈ w_kafka w3 /\ k_Topic rec = TopicForChannel (n_Channel n) /\
    Unmarshal_bytes (k_Value rec) = Ok msg /\ row ∈ notifications (w_db w3) /\ nr_ID row = n_ID n /\
    nr_TenantID row = Some tenantID /\ describes row msg /\
    forall (calm_env : Env) wk', @faultless calm_env ->
      @worker_main _ _ calm_env _ _ version commit env_worker = Ok wk' ->
      @settles calm_env _ _ _ _ _ (wk_deps wk') msg row w3.
Proof.
  intros Hwk Ha Hq0 Hs0 Hrun1 Hsend Hsched Hnew Hten Hrun2.
  pose proof (api_retries_fit version commit env_api a Ha) as Hfit.
  pose proof (closed_queue version commit env_worker env_api wk a Hwk Ha _ _ Hrun1 Hq0) as Hq1.
  pose proof (closed_schema version commit env_worker env_api wk a Hwk Ha _ _ Hrun1 Hs0) as Hs1.
  pose proof (keeps_queue_Send _ Hfit tenantID req w1 Hq1) as Hq2.
  assert (Keeps schema (Send (rd_maxRetries (ap_deps a)) tenantID req)) as Hks by apply keeps_Send, _.
  pose proof (Hks w1 Hs1) as Hs2. rewrite Hsend in Hq2, Hs2. simpl in Hq2, Hs2.
  pose proof (closed_queue version commit env_worker env_api wk a Hwk Ha _ _ Hrun2 Hq2) as Hq3.
  pose proof (closed_schema version commit env_worker env_api wk a Hwk Ha _ _ Hrun2 Hs2) as Hs3.
  destruct (Send_new_record _ _ _ _ _ _ Hfit Hsend Hsched Hnew) as (rec & t & row0 & Hrec & -> & Hv & Htop & Hu).
  destruct (closed_extends version commit env_worker env_api wk a Hwk Ha _ _ Hrun2) as [_ _ [more Hk] _]. simpl in Hk.
  assert (rec ∈ w_kafka w3) as Hrec3 by (rewrite Hk; set_solver).
  destruct (queued_message w3 _ rec Hq3 Hv Hrec3 Htop) as (row & msg & Hrow & Hm & Hd & Hwf & _).
  rewrite Hu in Hm. injection Hm as <-. exists rec. eexists. exists row.
  destruct (ds_tenant _ _ Hd) as [?|Ht]; [done|]. split_and!; try done; [symmetry; apply (ds_id _ _ Hd)|].
  intros calm_env wk' Hf Hwk'. eapply (@described_settles calm_env); try done.
  destruct (worker_main_inv _ _ _ _ Hwk') as (cfg & Hl & -> & _).
  apply processor_deps_contract. destruct (with_build_fields version commit cfg) as [-> _].
  by eapply load_webhook_attempts.
Qed.

(** ** Runs, evaluated *)

Lemma demo_tenants_ok : @queue_ok bits_uuid demo_tenants /\ schema demo_tenants.
Proof.
  split; [split; simpl; constructor|]. destruct empty_db_wf. split; try done; apply NoDup_singleton.
Qed.
Lemma demo_due_ok : @queue_ok bits_uuid demo_due.
Proof.
  split; simpl; [|constructor..]. repeat constructor; simpl; try done.
Qed.

(** The scheduler publishes the two due rows; both records decode. *)
Lemma queue_integrity_witness :
  let w' := (@tick calm bits_uuid demo_trace 3 100 demo_due).2 in
  length (w_kafka w') = 2%nat /\ @queue_ok bits_uuid w' /\
  forall rec, rec ∈ w_kafka w' -> k_Topic rec = TopicForChannel ChannelSMS ->
    exists row m, row ∈ notifications (w_db w') /\ @Unmarshal_bytes _ (@Message_codec bits_uuid) (k_Value rec) = Ok m /\ describes row m.
Proof.
  assert (match demo_boot with Ok wk => wk_tasks wk !! 8%nat | Err _ => None end
    = Some (TScheduler schedulerInterval 100 3)) as Ht by (vm_compute; reflexivity).
  destruct demo_boot as [wk|e] eqn:E; [|discriminate Ht]. cbv zeta. split; [vm_compute; reflexivity|].
  destruct (@queue_integrity milli_floats demo_infra demo_infra_laws calm bits_uuid bits_uuid_laws demo_trace redis_ref
    demo_zones plain_text demo_urls demo_http demo_keys clear_jwt accept_all segment_mux (fun _ => "") kafka_commit
    "1" "c0" demo_getenv api_getenv wk _ demo_due (@tick calm bits_uuid demo_trace 3 100 demo_due).2 E eq_refl demo_due_ok)
    as (Hq & Hm & _).
  - eapply rtc_l; [|apply rtc_refl]. eapply closed_task; [by eapply list_elem_of_lookup_2|]. apply T_scheduler.
  - split; [exact Hq|]. intros rec Hrec Htop. apply (Hm ChannelSMS rec eq_refl Hrec Htop).
Defined.

(** A request is accepted, and the worker settles it. *)
Lemma accepted_notification_settles_witness :
  let sent := @Send calm bits_uuid demo_trace 3 1 (demo_request (Some "k1")) demo_tenants in
  exists wk msg row, demo_boot = Ok wk /\ row ∈ notifications (w_db sent.2) /\ describes row msg /\
    @settles calm bits_uuid demo_trace redis_ref demo_zones plain_text (wk_deps wk) msg row sent.2.
Proof.
  assert (match demo_boot with Ok wk => length (wk_tasks wk) | Err _ => 0%nat end = 10%nat) as Hn by (vm_compute; reflexivity).
  destruct demo_boot as [wk|e] eqn:E; [|discriminate Hn].
  assert (match (@Send calm bits_uuid demo_trace 3 1 (demo_request (Some "k1")) demo_tenants).1 with
          | Ok n => n_ID n | Err _ => 0%N end = 2%N) as Hid by (vm_compute; reflexivity).
  assert (match demo_api with Ok a => rd_maxRetries (ap_deps a) | Err _ => 0 end = 3) as Hr by (vm_compute; reflexivity).
  destruct demo_api as [a|e] eqn:Ea; [|discriminate Hr]. rewrite <-Hr in Hid |- *. clear Hr. intros sent.
  assert (@Send calm bits_uuid demo_trace (rd_maxRetries (ap_deps a)) 1 (demo_request (Some "k1")) demo_tenants
    = (sent.1, sent.2)) as Hs by apply surjective_pairing.
  fold sent in Hid. clearbody sent. destruct sent as [[n|e] w2]; [|discriminate Hid]. destruct demo_tenants_ok as [Hq Hsch].
  destruct (@accepted_notification_settles milli_floats demo_infra demo_infra_laws calm bits_uuid bits_uuid_laws demo_trace redis_ref
    demo_zones plain_text demo_urls demo_http demo_keys clear_jwt accept_all segment_mux (fun _ => "")
    "1" "c0" demo_getenv api_getenv wk a demo_tenants demo_tenants w2 w2 1%N (demo_request (Some "k1")) n
    E Ea Hq Hsch (rtc_refl _ _) Hs eq_refl) as (rec & msg & row & _ & _ & _ & Hrow & _ & _ & Hd & Hset).
  - intros Hin. simpl in Hin. inversion Hin.
  - discriminate.
  - apply rtc_refl.
  - exists wk, msg, row. split; [reflexivity|]. split; [exact Hrow|]. split; [exact Hd|].
    apply Hset; [intros i; reflexivity|exact E].
Defined.
