(* ===== verification/Consumers.v ===== *)
(** * The sequential consumers ([internal/worker/dlq_consumer.go], [webhook_worker.go])

    [Run] of the dead-letter consumer and of the webhook worker: fetch a record, handle
    it, commit its offset unless the handler failed, until the context is cancelled.  Both
    are one loop over an interface, a handler that always answers whether to commit. *)

From S2P Require Import Prelude Time Domain Json World Db Repository Schema Queue Webhook Processor WebhookWorker Pool Dlq.

(** ** The loop *)

Record consumer := MkLoop {
  cn_next : nat;                  (* the next offset to fetch *)
  cn_committed : nat;             (* where the group resumes *)
  cn_done : list (nat * bool);    (* handled, and whether a commit was asked for *)
  cn_returned : bool;             (* the reader is closed and [Run] returned *)
}.
Definition NewLoop : consumer := MkLoop 0 0 [] false.

Section Loop.
Context `{CommitOffset} {W : Type}.
(** Handling a record leads from one state of the world to another and asks for a commit
    or not. *)
Variable handle : KafkaRecord -> W -> bool -> W -> Prop.
Variables (log : list KafkaRecord) (cancelled : bool).

(** One turn.  A fetch that fails before the context is cancelled is tried again. *)
Inductive loop_step : consumer * W -> consumer * W -> Prop :=
  | turn_commit n c c' d rec w w' :
      log !! n = Some rec -> handle rec w true w' -> commits n c c' ->
      loop_step (MkLoop n c d false, w) (MkLoop (S n) c' (d ++ [(n, true)]) false, w')
  | turn_leave n c d rec w w' :
      log !! n = Some rec -> handle rec w false w' ->
      loop_step (MkLoop n c d false, w) (MkLoop (S n) c (d ++ [(n, false)]) false, w')
  | loop_stop n c d w :
      cancelled = true -> loop_step (MkLoop n c d false, w) (MkLoop n c d true, w).

(** Every fetched record is handled once, in order; the position is justified. *)
Record loop_inv (s : consumer) : Prop := MkLoopInv {
  li_order : (cn_done s).*1 = seq 0 (cn_next s);
  li_fetched : (cn_next s <= length log)%nat;
  li_commit : (cn_committed s <= cn_next s)%nat;
  li_reason : cn_committed s = 0%nat \/ exists o, cn_committed s = S o /\ (o, true) ∈ cn_done s;
}.

Lemma loop_inv_init : loop_inv NewLoop.
Proof. split; simpl; try done; [lia|by left]. Qed.

Context `{!CommitLaws}.
#[local] Arguments seq : simpl never.

Lemma loop_inv_step s s' : loop_step s s' -> loop_inv s.1 -> loop_inv s'.1.
Proof using All.
  intros Hs [Ho Hf Hc Hr]. destruct Hs as [n c c' d rec w w' Hl _ Hcm|n c d rec w w' Hl _|n c d w _]; simpl in *; [| |by split].
  all: pose proof (lookup_lt_Some _ _ _ Hl); split; simpl; [by rewrite fmap_app, Ho, seq_S|lia|..].
  - by eapply (commits_bound n c); [done|lia|lia].
  - eapply (commits_reason (fun k => (k, true) ∈ d ++ [(n, true)])); [done|set_solver|].
    destruct Hr as [|(k & ? & ?)]; [by left|right; exists k; set_solver].
  - lia.
  - destruct Hr as [|(k & ? & ?)]; [by left|right; exists k; set_solver].
Qed.

Lemma loop_inv_reach x y : rtc loop_step x y -> loop_inv x.1 -> loop_inv y.1.
Proof using All. induction 1 as [|x y z Hs _ IH]; [done|]. intros Hi. by apply IH, (loop_inv_step _ _ Hs). Qed.

(** Turns left: the records of the log, and returning. *)
Definition loop_measure (s : consumer) : nat :=
  (length log - cn_next s + if cn_returned s then 0 else 1)%nat.
Lemma loop_measure_step s s' : loop_step s s' -> (loop_measure s'.1 < loop_measure s.1)%nat.
Proof.
  destruct 1 as [n c c' d rec w w' Hl _ _|n c d rec w w' Hl _|n c d w _]; unfold loop_measure; simpl;
    try (pose proof (lookup_lt_Some _ _ _ Hl)); lia.
Qed.
End Loop.

(** ** Handlers of records *)

(** What [Run] relies on: handling a record ends in a decision, whatever fails. *)
Class Handler `{Env} (handle : KafkaRecord -> M bool) : Prop := handler_total :: forall rec, Total (handle rec).

#[global] Instance dlq_Handler `{Env} `{UuidText} : Handler dlq_handle.
Proof. intros rec. unfold dlq_handle. destruct (Unmarshal_bytes _); unfold now, Inc; apply _. Qed.
#[global] Instance webhook_Handler `{Env} `{UuidText} `{HttpClient} retryDelay : Handler (webhook_handle retryDelay).
Proof. intros rec. unfold webhook_handle. destruct (Unmarshal_bytes _); apply _. Qed.

(** A handler as a step of the world. *)
Definition handles (handle : KafkaRecord -> M bool) (rec : KafkaRecord) (w : world) (b : bool) (w' : world) : Prop :=
  handle rec w = (Ok b, w').

(** [DLQConsumer.Run] *)
Definition dlq_Run `{Env} `{UuidText} `{CommitOffset} := loop_step (handles dlq_handle).
(** [WebhookWorker.Run] *)
Definition webhook_Run `{Env} `{UuidText} `{HttpClient} `{CommitOffset} (retryDelay : Z) :=
  loop_step (handles (webhook_handle retryDelay)).

(** The records handled one after the other, as a program. *)
Fixpoint consume (handle : KafkaRecord -> M bool) (recs : list KafkaRecord) : M (list bool) :=
  match recs with
  | [] => mret []
  | rec :: recs' => b ← handle rec; bs ← consume handle recs'; mret (b :: bs)
  end.

Lemma consume_snoc handle recs rec bs b w w1 w2 :
  consume handle recs w = (Ok bs, w1) -> handle rec w1 = (Ok b, w2) -> consume handle (recs ++ [rec]) w = (Ok (bs ++ [b]), w2).
Proof.
  revert bs w. induction recs as [|r recs IH]; intros bs w; simpl.
  - intros [= <- <-] Hb. unfold mbind, ST_bind. by rewrite Hb.
  - unfold mbind, ST_bind. destruct (handle r w) as [[b1|e] w0]; [|done].
    destruct (consume handle recs w0) as [[bs1|e] w3] eqn:E; [|done]. intros [= <- <-] Hb.
    by rewrite (IH bs1 w0 E Hb).
Qed.

Section Handled.
Context `{Env} `{CommitLaws}.
Variables (handle : KafkaRecord -> M bool) (log : list KafkaRecord) (cancelled : bool) (w0 : world).

Definition consumed_so_far (x : consumer * world) : Prop :=
  consume handle (take (cn_next x.1) log) w0 = (Ok (cn_done x.1).*2, x.2).

Lemma consumed_step x y : loop_step (handles handle) log cancelled x y -> consumed_so_far x -> consumed_so_far y.
Proof.
  unfold consumed_so_far. destruct 1 as [n c c' d rec w w' Hl Hh _|n c d rec w w' Hl Hh|n c d w _]; simpl; [| |done].
  all: intros Hc; rewrite (take_S_r _ _ _ Hl), fmap_app; by eapply consume_snoc.
Qed.

Lemma consumed_reach s w : rtc (loop_step (handles handle) log cancelled) (NewLoop, w0) (s, w) -> consumed_so_far (s, w).
Proof.
  intros Hr. assert (consumed_so_far (NewLoop, w0)) as Hi by done. revert Hr Hi.
  generalize (NewLoop, w0) (s, w). induction 1 as [|x y z Hs _ IH]; [done|]. intros Hi. by eapply IH, consumed_step.
Qed.

(** The loop is never stuck. *)
Lemma loop_progress `{!Handler handle} s w :
  cn_returned s = false -> cancelled = true \/ (cn_next s < length log)%nat ->
  exists s' w', loop_step (handles handle) log cancelled (s, w) (s', w').
Proof.
  destruct s as [n c d r]; simpl. intros -> [Hc|Hn]; [do 2 eexists; by apply loop_stop|].
  destruct (lookup_lt_is_Some_2 log n Hn) as [rec Hl]. destruct (total_run (handle rec) w _) as (b & w' & Hb).
  destruct b; do 2 eexists; [eapply turn_commit; [done|exact Hb|by left]|by eapply turn_leave].
Qed.
End Handled.

(** A record that is left can be passed: the next turn may commit a later offset, and the
    group then resumes after both. *)
Lemma left_record_is_passed `{CommitLaws} {W} (handle : KafkaRecord -> W -> bool -> W -> Prop) log cancelled c n d r1 r2 w w1 w2 :
  log !! n = Some r1 -> log !! S n = Some r2 -> handle r1 w false w1 -> handle r2 w1 true w2 ->
  exists s, rtc (loop_step handle log cancelled) (MkLoop n c d false, w) (s, w2) /\
    (n, false) ∈ cn_done s /\ (n < cn_committed s)%nat.
Proof.
  intros H1 H2 Hl Hc. exists (MkLoop (S (S n)) (commit_offset c (S n)) ((d ++ [(n, false)]) ++ [(S n, true)]) false).
  split; [|split; [simpl; set_solver|simpl; destruct (commit_resumes c (S n)) as [-> | ->]; lia]].
  eapply rtc_l; [by eapply turn_leave|]. eapply rtc_l; [by eapply turn_commit; [..|left]|apply rtc_refl].
Qed.

(** What a loop over [handle] guarantees. *)
Definition runs_in_order (handle : KafkaRecord -> M bool)
    (step : list KafkaRecord -> bool -> consumer * world -> consumer * world -> Prop) : Prop :=
  forall log cancelled w0 s w, rtc (step log cancelled) (NewLoop, w0) (s, w) ->
  (cn_done s).*1 = seq 0 (cn_next s) /\
  consume handle (take (cn_next s) log) w0 = (Ok (cn_done s).*2, w) /\
  (cn_committed s <= cn_next s <= length log)%nat /\
  (cn_committed s = 0%nat \/ exists o, cn_committed s = S o /\ (o, true) ∈ cn_done s) /\
  (cn_returned s = false -> cancelled = true \/ (cn_next s < length log)%nat ->
     exists s' w', step log cancelled (s, w) (s', w')) /\
  (forall s' w', step log cancelled (s, w) (s', w') -> (loop_measure log s' < loop_measure log s)%nat).

Lemma loop_in_order `{Env} `{CommitLaws} handle : Handler handle -> runs_in_order handle (loop_step (handles handle)).
Proof.
  intros Hh log cancelled w0 s w Hrun.
  destruct (loop_inv_reach _ _ _ _ _ Hrun (loop_inv_init _)) as [Ho Hf Hc Hr]. split_and!; try done.
  - by eapply (consumed_reach handle log cancelled w0 s w).
  - intros Hret Hnext. by apply loop_progress.
  - intros s' w' Hs. apply (loop_measure_step _ _ _ _ _ Hs).
Qed.

(** C17. The dead-letter consumer and the webhook worker handle every record they fetch
    exactly once and in log order: after any number of turns the world is what running the
    handler on the fetched prefix, one record after the other, leaves, with the same
    decisions.  The group's position is 0 or just after a record whose handler asked for
    the commit, and never beyond what was fetched; the loop is never stuck while records
    are left or once the context is cancelled, and each turn brings it closer to
    returning. *)
Theorem consumers_run_in_order `{Env} `{UuidText} `{HttpClient} `{CommitLaws} retryDelay :
  runs_in_order dlq_handle dlq_Run /\ runs_in_order (webhook_handle retryDelay) (webhook_Run retryDelay).
Proof. split; apply loop_in_order, _. Qed.

(** An endpoint that accepts everything. *)
Definition quiet_http : HttpClient :=
  {| http_NewRequest := fun _ => Ok tt; http_Do := fun _ _ => Ok 200; computeHMAC := fun _ _ => "00" |}.

(** A dead letter of a stored tenant, one of an unknown tenant, and bytes that are not
    JSON: stored and committed, left, skipped. *)
Definition lost_dlq_record : KafkaRecord :=
  {| k_Topic := DLQTopicForChannel ChannelEmail; k_Key := "u1";
     k_Value := match @Marshal _ (@DLQMessage_codec bits_uuid)
                  {| q_Original := demo_message; q_OriginalTopic := TopicForChannel ChannelEmail;
                     q_FailureReason := DLQReasonPermanent; q_ErrorMessage := "bounced"; q_LastAttempt := 1;
                     q_DeadLetteredAt := 0 |} with Ok j => BJson j | Err _ => BRaw "" end;
     k_Headers := [] |}.
Definition demo_dlq_log : list KafkaRecord :=
  [demo_dlq_record; lost_dlq_record; MkKafkaRecord (DLQTopicForChannel ChannelEmail) "" (BRaw "x") []].

Lemma consumers_run_in_order_witness :
  exists s w, (cn_done s) = [(0%nat, true); (1%nat, false); (2%nat, true)] /\ cn_committed s = 3%nat /\
    length (dead_letters (w_db w)) = 1%nat /\
    @consume (@dlq_handle calm bits_uuid) demo_dlq_log demo_tenants = (Ok [true; false; true], w).
Proof.
  set (w1 := (@dlq_handle calm bits_uuid demo_dlq_record demo_tenants).2).
  set (w2 := (@dlq_handle calm bits_uuid lost_dlq_record w1).2).
  exists (MkLoop 3 3 [(0%nat, true); (1%nat, false); (2%nat, true)] false), w2.
  split; [reflexivity|]. split; [reflexivity|]. split; [vm_compute; reflexivity|].
  destruct (proj1 (@consumers_run_in_order calm bits_uuid quiet_http kafka_commit kafka_commit_laws Second) demo_dlq_log false
    demo_tenants (MkLoop 3 3 [(0%nat, true); (1%nat, false); (2%nat, true)] false) w2) as (_ & Hc & _).
  - eapply rtc_l; [apply (turn_commit _ _ _ 0 0 1 [] demo_dlq_record demo_tenants w1); [reflexivity|vm_compute; reflexivity|by left]|].
    eapply rtc_l; [apply (turn_leave _ _ _ 1 1 [(0%nat, true)] lost_dlq_record w1 w2); [reflexivity|vm_compute; reflexivity]|].
    eapply rtc_l; [eapply (turn_commit _ _ _ 2 1 3 [(0%nat, true); (1%nat, false)] _ w2 w2);
      [reflexivity|vm_compute; reflexivity|by left]|]. apply rtc_refl.
  - exact Hc.
Defined.
