(* ===== verification/Shutdown.v ===== *)
(** * Running and stopping the two processes ([cmd/worker/main.go], [cmd/api/main.go])

    The worker's goroutines beside [main]: the pools, the sequential consumers and the
    scheduler's ticker loop, each a step machine, and [main] waiting for the signal, for
    the wait group, and then shutting down in order.  The API's server with its requests
    in flight and its hijacked streams.  Inputs (records of the partitions, ticks of the
    clock) are finite in a run, so that shutting down can be shown to end. *)

From S2P Require Import Prelude Domain Json World Queue Config Pool Consumers Wiring.

(** ** The worker's tasks *)

Inductive tstate :=
  | SPool (concurrency : nat) (log : list KafkaRecord) (s : pool)
  | SLoop (log : list KafkaRecord) (s : consumer)
  | SScheduler (fires : nat) (pending stopped : bool).   (* ticks to come, [ticker.C] *)

(** What [startPools], [startDLQConsumers], [startScheduler] and [startWebhookWorker] start,
    on the partitions as given. *)
Definition launch (logs : string -> list KafkaRecord) (fires : nat) (t : task) : tstate :=
  match t with
  | TPool _ c n => SPool (Z.to_nat n) (logs (cs_topic c)) (NewPool (Z.to_nat n))
  | TDLQConsumer _ c | TWebhookWorker c _ => SLoop (logs (cs_topic c)) NewLoop
  | TScheduler _ _ _ => SScheduler fires false false
  end.

(** The task called [wg.Done]. *)
Definition finished (t : tstate) : bool :=
  match t with
  | SPool concurrency _ s => pl_closed s && (pl_exited s =? concurrency)%nat
  | SLoop _ s => cn_returned s
  | SScheduler _ _ stopped => stopped
  end.

Section Tasks.
Context `{UuidText} `{CommitOffset}.

(** [fetchLoop] ends only when the context is cancelled. *)
Definition pool_turn (cancelled : bool) (concurrency : nat) (log : list KafkaRecord) (s s' : pool) : Prop :=
  pool_step concurrency log s s' /\ (pl_closed s' = true -> pl_closed s = true \/ cancelled = true).

Inductive task_turn (cancelled : bool) : tstate -> tstate -> Prop :=
  | turn_pool concurrency log s s' :
      pool_turn cancelled concurrency log s s' -> task_turn cancelled (SPool concurrency log s) (SPool concurrency log s')
  | turn_loop log s s' :      (* what the handler answers is left open *)
      loop_step (fun _ _ _ _ => True) log cancelled (s, tt) (s', tt) -> task_turn cancelled (SLoop log s) (SLoop log s')
  | ticker_fires n p :        (* a tick that finds the channel full is dropped *)
      task_turn cancelled (SScheduler (S n) p false) (SScheduler n true false)
  | scheduler_ticks n : task_turn cancelled (SScheduler n true false) (SScheduler n false false)
  | scheduler_stops n p : cancelled = true -> task_turn cancelled (SScheduler n p false) (SScheduler n p true).
End Tasks.

(** ** The worker's [main] *)

(** Where [main] is: at [<-ctx.Done()], at [wg.Wait()], or with these calls left. *)
Inductive main_pc := AtSignal | AtWait | Tail (rest : list string).

(** The deferred calls in the order [main] registers them; they run in reverse. *)
Definition worker_defers : list string :=
  ["pool.Close"; "redisClient.Close"; "sqlDB.Close"; "producer.Close"; "stop"; "cancel"; "tracerCancel"].
Definition worker_tail : list string := ["adminSrv.Shutdown"; "shutdownTracer"] ++ reverse worker_defers.

Record process := MkProcess {
  pr_cancelled : bool;          (* SIGTERM or SIGINT arrived: the root context is done *)
  pr_tasks : list tstate;
  pr_main : main_pc;
  pr_done : list string;        (* the calls [main] has made since the tasks stopped *)
}.

Section Process.
Context `{UuidText} `{CommitOffset}.

Inductive process_step : process -> process -> Prop :=
  | P_signal ts m d : process_step (MkProcess false ts m d) (MkProcess true ts m d)
  | P_task c ts m d i t t' :
      ts !! i = Some t -> task_turn c t t' -> process_step (MkProcess c ts m d) (MkProcess c (<[i := t']> ts) m d)
  | P_woken ts d : process_step (MkProcess true ts AtSignal d) (MkProcess true ts AtWait d)
  | P_drained c ts d :
      Forall (fun t => finished t = true) ts -> process_step (MkProcess c ts AtWait d) (MkProcess c ts (Tail worker_tail) d)
  | P_call c ts x rest d :
      process_step (MkProcess c ts (Tail (x :: rest)) d) (MkProcess c ts (Tail rest) (d ++ [x])).

Definition worker_process (logs : string -> list KafkaRecord) (fires : nat) (tasks : list task) : process :=
  MkProcess false (launch logs fires <$> tasks) AtSignal [].
End Process.

(** ** Task by task *)

Section TaskLemmas.
Context `{UuidText} `{CommitLaws}.

Definition task_inv (t : tstate) : Prop :=
  match t with
  | SPool concurrency log s => (0 < concurrency)%nat /\ pool_inv concurrency s /\ (pl_next s <= length log)%nat
  | SLoop log s => loop_inv log s
  | SScheduler _ _ _ => True
  end.

Lemma pool_next_bound concurrency log s s' :
  pool_step concurrency log s s' -> (pl_next s <= length log)%nat -> (pl_next s' <= length log)%nat.
Proof.
  assert (forall n b, decodes log n = Some b -> (S n <= length log)%nat) as Hd.
  { intros n b. unfold decodes. destruct (log !! n) eqn:E; [|done]. intros _. apply lookup_lt_Some in E. lia. }
  destruct 1; simpl; try done; eauto.
Qed.

Lemma task_inv_turn c t t' : task_turn c t t' -> task_inv t -> task_inv t'.
Proof.
  destruct 1 as [conc log s s' [Hs _]|log s s' Hs| | |]; simpl; try done.
  - intros (? & Hi & ?). split_and!; [done|by eapply pool_inv_step|by eapply pool_next_bound].
  - intros Hi. by apply (loop_inv_step _ _ _ _ _ Hs).
Qed.

(** Turns left. *)
Definition pool_measure (log : list KafkaRecord) (s : pool) : nat :=
  (5 * (length log - pl_next s) + 4 * length (option_list (pl_hand s)) + 3 * length (pl_queue s) + 2 * length (pl_busy s)
   + pl_idle s + if pl_closed s then 0 else 1)%nat.
Definition task_measure (t : tstate) : nat :=
  match t with
  | SPool _ log s => pool_measure log s
  | SLoop log s => loop_measure log s
  | SScheduler n p stopped => (2 * n + (if p then 1 else 0) + if stopped then 0 else 1)%nat
  end.

Lemma pool_measure_step concurrency log s s' :
  pool_step concurrency log s s' -> (pl_next s <= length log)%nat -> (pool_measure log s' < pool_measure log s)%nat.
Proof.
  intros Hs. pose proof (pool_next_bound concurrency log s s' Hs) as Hb. revert Hb.
  destruct Hs; unfold pool_measure; simpl; rewrite ?length_app; simpl; intros Hb Hn; specialize (Hb Hn); lia.
Qed.

Lemma task_measure_turn c t t' : task_turn c t t' -> task_inv t -> (task_measure t' < task_measure t)%nat.
Proof.
  destruct 1 as [conc log s s' [Hs _]|log s s' Hs|n p|n|n p _]; simpl; intros Hi.
  - eapply pool_measure_step; [done|apply Hi].
  - apply (loop_measure_step _ _ _ _ _ Hs).
  - destruct p; lia.
  - lia.
  - lia.
Qed.

Lemma finished_stays c t t' : finished t = true -> task_inv t -> ~ task_turn c t t'.
Proof.
  intros Hf Hi Ht. destruct Ht as [conc log s s' [Hs _]|log s s' Hs|n p|n|n p _]; simpl in *; try done.
  - apply andb_true_iff in Hf as [Hc Hx%Nat.eqb_eq]. destruct Hi as (Hpos & [_ _ Hw _ _ Hh He] & _).
    destruct (He ltac:(lia)) as [_ Hq]. specialize (Hh Hc). destruct Hs; simpl in *; try done; try lia;
      rewrite ?length_app in Hw; simpl in Hw; lia.
  - inversion Hs; subst; done.
Qed.

(** Once the context is done, a task that has not finished can go on. *)
Lemma pool_live concurrency log s : (0 < concurrency)%nat -> pool_inv concurrency s ->
  pl_closed s && (pl_exited s =? concurrency)%nat = false -> exists s', pool_turn true concurrency log s s'.
Proof.
  intros Hpos [_ Hq Hw _ _ Hh He] Hf. destruct s as [n h q b i x d p c f]; simpl in *. unfold pool_turn.
  destruct b as [|o b]; [|eexists; split; [apply (worker_skip _ _ n h o q [] b)|by right]].
  destruct q as [|o q].
  - destruct f.
    + rewrite (Hh eq_refl) in *. destruct i as [|i]; [|eexists; split; [apply worker_return|by right]].
      simpl in Hf. apply Nat.eqb_neq in Hf. simpl in Hw. lia.
    + destruct h as [o|]; eexists; (split; [|by right]); [by apply work_send|apply fetch_done].
  - destruct i as [|i]; [|eexists; split; [apply work_receive|by right]].
    simpl in Hw. destruct (He ltac:(lia)) as [_ ?]. done.
Qed.

Lemma task_live t : task_inv t -> finished t = false -> exists t', task_turn true t t'.
Proof.
  destruct t as [conc log s|log s|n p st]; simpl; intros Hi Hf.
  - destruct Hi as (? & ? & _). destruct (pool_live conc log s) as [s' ?]; [done..|]. eexists. by apply turn_pool.
  - destruct s as [n c d r]. simpl in Hf. subst r. eexists. by apply turn_loop, loop_stop.
  - subst st. eexists. by apply scheduler_stops.
Qed.
End TaskLemmas.

(** ** The process *)

Definition total_measure (ts : list tstate) : nat := sum_list (task_measure <$> ts).
Definition main_measure (m : main_pc) : nat :=
  match m with
  | AtSignal => (2 + length worker_tail)%nat
  | AtWait => (1 + length worker_tail)%nat
  | Tail rest => length rest
  end.
Definition process_measure (p : process) : nat :=
  ((if pr_cancelled p then 0 else 1) + main_measure (pr_main p) + total_measure (pr_tasks p))%nat.

Lemma total_measure_insert ts i t t' : ts !! i = Some t -> (task_measure t' < task_measure t)%nat ->
  (total_measure (<[i := t']> ts) < total_measure ts)%nat.
Proof.
  revert i. induction ts as [|x ts IH]; intros [|i] Hi Hm; try done.
  - injection Hi as ->. unfold total_measure. simpl. lia.
  - specialize (IH i Hi Hm). unfold total_measure in *. rewrite !fmap_cons. simpl. apply Nat.add_lt_mono_l, IH.
Qed.

(** The calls made so far, and the stopped tasks before them. *)
Record process_inv (p : process) : Prop := MkProcessInv {
  pi_tasks : Forall task_inv (pr_tasks p);
  pi_cancelled : pr_main p <> AtSignal -> pr_cancelled p = true;
  pi_main : match pr_main p with
            | Tail rest => pr_done p ++ rest = worker_tail /\ Forall (fun t => finished t = true) (pr_tasks p)
            | _ => pr_done p = []
            end;
}.

Section ProcessLemmas.
Context `{UuidText} `{CommitLaws}.

Lemma process_inv_step p p' : process_step p p' -> process_inv p -> process_inv p'.
Proof.
  intros Hs [Ht Hc Hm]. destruct Hs as [ts m d|c ts m d i t t' Hi Hturn|ts d|c ts d Hf|c ts x rest d]; simpl in *.
  - by split.
  - assert (task_inv t) as Hit by by eapply (Forall_lookup_1 _ _ _ _ Ht).
    split; simpl; [apply Forall_insert; [done|by eapply task_inv_turn]|done|].
    destruct m as [| |rest]; try done. destruct Hm as [_ Hf].
    by destruct (finished_stays c t t' (Forall_lookup_1 _ _ _ _ Hf Hi) Hit).
  - by split.
  - split; simpl; [done| |by rewrite Hm]. intros _. by apply Hc.
  - split; simpl; [done|intros _; by apply Hc|]. by rewrite <-app_assoc.
Qed.

Lemma launched logs fires tasks : (forall ch c n, TPool ch c n ∈ tasks -> 0 < n) ->
  process_inv (worker_process logs fires tasks).
Proof.
  intros Hpos. split; simpl; [|done|done]. apply Forall_fmap, Forall_forall. intros t Ht.
  destruct t as [ch c n|ch c|i b m|c d]; simpl; [|apply loop_inv_init|done|apply loop_inv_init].
  split_and!; [pose proof (Hpos _ _ _ Ht); lia|apply pool_inv_init|lia].
Qed.

Lemma process_inv_reach p q : rtc process_step p q -> process_inv p -> process_inv q.
Proof. induction 1 as [|p1 p2 p3 Hs _ IH]; [done|]. intros Hi. by apply IH, (process_inv_step _ _ Hs). Qed.

Lemma process_measure_step p p' : process_step p p' -> process_inv p -> (process_measure p' < process_measure p)%nat.
Proof.
  intros Hs [Ht _ _]. destruct Hs as [ts m d|c ts m d i t t' Hi Hturn|ts d|c ts d Hf|c ts x rest d];
    unfold process_measure; simpl in *; try lia.
  pose proof (task_measure_turn _ _ _ Hturn (Forall_lookup_1 _ _ _ _ Ht Hi)) as Hm.
  pose proof (total_measure_insert ts i t t' Hi Hm). lia.
Qed.

Lemma process_live p : process_inv p -> pr_cancelled p = true -> pr_main p = Tail [] \/ exists p', process_step p p'.
Proof.
  intros [Ht _ _] Hc. destruct p as [c ts m d]; simpl in *. subst c.
  destruct m as [| |[|x rest]]; [right; eexists; apply P_woken| |by left|right; eexists; apply P_call].
  right. destruct (decide (Forall (fun t => finished t = true) ts)) as [Hf|Hf]; [eexists; by apply P_drained|].
  apply not_Forall_Exists, Exists_exists in Hf as (t & Hin & Hnf); [|intros t; apply _].
  apply list_elem_of_lookup in Hin as [i Hi]. apply not_true_is_false in Hnf.
  destruct (task_live t (Forall_lookup_1 _ _ _ _ Ht Hi) Hnf) as [t' Ht']. eexists. by eapply P_task.
Qed.

(** A finished task has handled what it fetched. *)
Definition nothing_lost (t : tstate) : Prop :=
  match t with
  | SPool _ _ s => (pl_done s).*1 ++ pl_skipped s ≡ₚ seq 0 (pl_next s)
  | SLoop _ s => (cn_done s).*1 = seq 0 (cn_next s)
  | SScheduler _ _ _ => True
  end.

Lemma finished_lost_nothing t : task_inv t -> finished t = true -> nothing_lost t.
Proof.
  destruct t as [conc log s|log s|n p st]; simpl; [|by intros []|done].
  intros (Hpos & [Hp _ Hw _ _ Hh He] & _) [Hc Hx%Nat.eqb_eq]%andb_true_iff. rewrite <-Hp. unfold places.
  rewrite (Hh Hc). destruct (He ltac:(lia)) as [_ ->]. by destruct (pl_busy s); [|simpl in Hw; lia].
Qed.
End ProcessLemmas.

(** C14. When every pool has at least one worker, the worker process shuts down in order
    and completely.  In every reachable state [main] has
    made a prefix of its shutdown calls (admin server, tracer, then the deferred calls in
    reverse: producer, database, Redis, connection pool), and none before every pool,
    consumer and the scheduler has finished and can do nothing more; so nothing is closed
    under a running task.  Every step, for given partitions and ticks, brings the process
    closer to its end, after the signal it can always take one until all calls are made,
    and then every record any task fetched was processed, skipped or handled, none lost.
    Without the condition the shutdown can hang: see [workerless_pool_hangs]. *)
Theorem worker_shuts_down `{UuidText} `{CommitLaws} logs fires tasks p :
  (forall ch c n, TPool ch c n ∈ tasks -> 0 < n) ->
  rtc process_step (worker_process logs fires tasks) p ->
  pr_done p `prefix_of` worker_tail /\
  (pr_done p <> [] -> forall i t, pr_tasks p !! i = Some t ->
     finished t = true /\ forall t', ~ task_turn (pr_cancelled p) t t') /\
  (forall p', process_step p p' -> (process_measure p' < process_measure p)%nat) /\
  (pr_cancelled p = true -> pr_main p = Tail [] \/ exists p', process_step p p') /\
  (pr_main p = Tail [] -> pr_done p = worker_tail /\ Forall nothing_lost (pr_tasks p)).
Proof.
  intros Hpos Hrun. pose proof (process_inv_reach _ _ Hrun (launched logs fires tasks Hpos)) as Hi.
  pose proof Hi as [Ht _ Hm]. split_and!.
  - destruct (pr_main p); [rewrite Hm; apply prefix_nil..|]. destruct Hm as [<- _]. by eexists.
  - intros Hd i t Hit. destruct (pr_main p) as [| |rest]; [done..|]. destruct Hm as [_ Hf].
    pose proof (Forall_lookup_1 _ _ _ _ Hf Hit) as Hfin. split; [done|]. intros t'.
    apply finished_stays; [done|]. by apply (Forall_lookup_1 _ _ _ _ Ht Hit).
  - intros p' Hs. by apply process_measure_step.
  - by apply process_live.
  - intros Hend. rewrite Hend in Hm. destruct Hm as [Hd Hf]. rewrite app_nil_r in Hd. split; [done|].
    apply Forall_forall. intros t Hin. rewrite Forall_forall in Ht, Hf. apply finished_lost_nothing; auto.
Qed.

(** A pool with one record and the scheduler, stopped after the record is processed. *)
Definition demo_tasks : list task :=
  [TPool ChannelEmail (MkConsumer [] "t" "g") 1; TScheduler 0 100 3].
Definition demo_partition (topic : string) : list KafkaRecord := take 1 demo_log.
Definition demo_stopped : process :=
  MkProcess true [SPool 1 (take 1 demo_log) demo_end; SScheduler 0 false true] (Tail []) worker_tail.

Lemma demo_stopped_reach :
  rtc (@process_step bits_uuid kafka_commit) (worker_process demo_partition 0 demo_tasks) demo_stopped.
Proof.
  unfold worker_process, demo_stopped, demo_end. simpl. unfold NewPool, demo_partition.
  assert (forall c ts m d i t t' q, ts !! i = Some t -> @task_turn bits_uuid kafka_commit c t t' ->
    rtc (@process_step bits_uuid kafka_commit) (MkProcess c (<[i := t']> ts) m d) q ->
    rtc process_step (MkProcess c ts m d) q) as Hstep by (intros; eapply rtc_l; [by eapply P_task|done]).
  eapply (Hstep _ _ _ _ 0%nat); [reflexivity|apply turn_pool; split; [apply fetch_ok; vm_compute; reflexivity|discriminate]|].
  eapply (Hstep _ _ _ _ 0%nat); [reflexivity|apply turn_pool; split; [apply work_send; simpl; lia|discriminate]|].
  eapply (Hstep _ _ _ _ 0%nat); [reflexivity|apply turn_pool; split; [apply work_receive|discriminate]|].
  eapply (Hstep _ _ _ _ 0%nat); [reflexivity|apply turn_pool; split;
    [apply (worker_commit 1 _ 1 None 0 [] [] [] 0 0 [] [] 0 1); by left|discriminate]|].
  eapply rtc_l; [apply P_signal|]. eapply rtc_l; [apply P_woken|].
  eapply (Hstep _ _ _ _ 0%nat); [reflexivity|apply turn_pool; split; [apply fetch_done|by right]|].
  eapply (Hstep _ _ _ _ 0%nat); [reflexivity|apply turn_pool; split; [apply worker_return|by right]|].
  eapply (Hstep _ _ _ _ 1%nat); [reflexivity|by apply scheduler_stops|]. simpl.
  eapply rtc_l; [apply P_drained; repeat constructor|]. unfold worker_tail. simpl.
  repeat (eapply rtc_l; [apply P_call|]; simpl). apply rtc_refl.
Qed.

Lemma worker_shuts_down_witness :
  pr_done demo_stopped = worker_tail /\ Forall nothing_lost (pr_tasks demo_stopped) /\
  ~ exists p', @process_step bits_uuid kafka_commit demo_stopped p' /\ (process_measure demo_stopped <= process_measure p')%nat.
Proof.
  destruct (@worker_shuts_down bits_uuid kafka_commit kafka_commit_laws demo_partition 0 demo_tasks demo_stopped)
    as (_ & _ & Hm & _ & He).
  - intros ch c n Hin. unfold demo_tasks in Hin. set_solver by lia.
  - exact demo_stopped_reach.
  - destruct (He eq_refl) as [Hd Hl]. split; [exact Hd|]. split; [exact Hl|].
    intros (p' & Hs & Hle). specialize (Hm p' Hs). lia.
Defined.

(** A pool without workers keeps the process from stopping: once its fetch loop holds a
    record, nothing takes it, and [wg.Wait] waits for good. *)
Lemma workerless_pool_hangs `{UuidText} `{CommitOffset} rec :
  is_ok (Unmarshal_bytes (A := Message) (k_Value rec)) = true ->
  exists p, rtc process_step (worker_process (fun _ => [rec]) 0 [TPool ChannelEmail (MkConsumer [] "t" "g") 0]) p /\
    pr_cancelled p = true /\ pr_main p = AtWait /\ forall p', ~ process_step p p'.
Proof.
  intros Hok. exists (MkProcess true [SPool 0 [rec] (MkPool 1 (Some 0%nat) [] [] 0 0 [] [] 0 false)] AtWait []). split_and!; try done.
  - unfold worker_process. simpl. unfold NewPool.
    eapply rtc_l; [eapply (P_task _ _ _ _ 0); [reflexivity|]; apply turn_pool; split; [apply fetch_ok|discriminate]|].
    { unfold decodes. simpl. by rewrite Hok. }
    eapply rtc_l; [apply P_signal|]. eapply rtc_l; [apply P_woken|]. apply rtc_refl.
  - intros p' Hs. inversion Hs as [|? ? ? ? i t t' Hi Ht| |? ? ? Hf|]; subst.
    + destruct i; [|done]. injection Hi as <-. inversion Ht as [? ? ? ? [Hp _]| | | |]; subst.
      inversion Hp; simpl in *; try lia; by destruct b1.
    + by apply Forall_cons in Hf as [? _].
Qed.

(** ** The API's [main] *)

(** At [<-quit], in [srv.Shutdown], with these calls left, or dead because
    [ListenAndServe] failed ([os.Exit] runs no deferred call). *)
Inductive api_pc := Serving | ShuttingDown | ApiTail (rest : list string) | Exited1.

Definition api_defers : list string :=
  ["pool.Close"; "redisClient.Close"; "sqlDB.Close"; "publisher.Close"; "cancel"; "tracerCancel"].
Definition api_tail : list string := "shutdownTracer" :: reverse api_defers.

Record api_process := MkApiProcess {
  as_listening : bool;
  as_inflight : nat;            (* requests being served *)
  as_streams : nat;             (* hijacked connections, which [Shutdown] does not track *)
  as_late : bool;               (* [Shutdown] gave up after its 30 seconds *)
  as_main : api_pc;
  as_done : list string;
}.
Definition api_started : api_process := MkApiProcess true 0 0 false Serving [].

(** A handler runs while the process does. *)
Definition alive (m : api_pc) : bool := match m with ApiTail [] | Exited1 => false | _ => true end.

Inductive api_step : api_process -> api_process -> Prop :=
  | A_accept n k l m d : api_step (MkApiProcess true n k l m d) (MkApiProcess true (S n) k l m d)
  | A_answer ls n k l m d : alive m = true -> api_step (MkApiProcess ls (S n) k l m d) (MkApiProcess ls n k l m d)
  | A_hijack ls n k l m d : alive m = true -> api_step (MkApiProcess ls (S n) k l m d) (MkApiProcess ls n (S k) l m d)
  | A_stream_ends ls n k l m d : alive m = true -> api_step (MkApiProcess ls n (S k) l m d) (MkApiProcess ls n k l m d)
  | A_listen_fails n k l d : api_step (MkApiProcess true n k l Serving d) (MkApiProcess false n k l Exited1 d)
  | A_quit n k l d : api_step (MkApiProcess true n k l Serving d) (MkApiProcess false n k l ShuttingDown d)
  | A_drained k l d : api_step (MkApiProcess false 0 k l ShuttingDown d) (MkApiProcess false 0 k l (ApiTail api_tail) d)
  | A_timeout n k l d : api_step (MkApiProcess false n k l ShuttingDown d) (MkApiProcess false n k true (ApiTail api_tail) d)
  | A_call n k l x rest d :
      api_step (MkApiProcess false n k l (ApiTail (x :: rest)) d) (MkApiProcess false n k l (ApiTail rest) (d ++ [x])).

Record api_inv (p : api_process) : Prop := MkApiInv {
  ai_listening : as_listening p = match as_main p with Serving => true | _ => false end;
  ai_main : match as_main p with
            | ApiTail rest => as_done p ++ rest = api_tail /\ (as_late p = false -> as_inflight p = 0%nat)
            | _ => as_done p = []
            end;
}.
Lemma api_inv_step p p' : api_step p p' -> api_inv p -> api_inv p'.
Proof.
  intros Hs [Hl Hm].
  destruct Hs as [n k l m d|ls n k l m d _|ls n k l m d _|ls n k l m d _|n k l d|n k l d|k l d|n k l d|n k l x rest d];
    split; simpl in *; try done.
  - by destruct m.
  - destruct m as [| |rest|]; try done. destruct Hm as [? Hi]. split; [done|]. intros Hf. specialize (Hi Hf). lia.
  - destruct m as [| |rest|]; try done. destruct Hm as [? Hi]. split; [done|]. intros Hf. specialize (Hi Hf). lia.
  - by rewrite Hm.
  - by rewrite Hm.
  - by rewrite <-app_assoc.
Qed.

(** Steps left once the server stops. *)
Definition api_measure (p : api_process) : nat :=
  (2 * as_inflight p + as_streams p +
   match as_main p with Serving | Exited1 => 0 | ShuttingDown => 1 + length api_tail | ApiTail rest => length rest end)%nat.

(** The API shuts down in order: after the signal no request is accepted; the producer,
    the database handle, Redis and the connection pool are closed last and in that order,
    and only when no request is in flight, unless [Shutdown] gave up on requests after
    its time-out; every step then brings the process closer to its end and one is always
    possible until all calls are made.  When the listener fails the process exits without
    closing anything.  WebSocket streams are not waited for: a stream can still be open
    when everything is closed. *)
Theorem api_shuts_down p : rtc api_step api_started p ->
  as_done p `prefix_of` api_tail /\
  (as_main p <> Serving -> as_listening p = false /\
     (forall p', api_step p p' -> (api_measure p' < api_measure p)%nat /\ as_main p' <> Serving)) /\
  (as_done p <> [] -> as_late p = false -> as_inflight p = 0%nat) /\
  match as_main p with
  | Serving => True
  | ShuttingDown | ApiTail (_ :: _) => exists p', api_step p p'
  | ApiTail [] => as_done p = api_tail
  | Exited1 => as_done p = []
  end /\
  exists q, rtc api_step api_started q /\ as_done q = api_tail /\ as_streams q = 1%nat /\ as_late q = false.
Proof.
  intros Hrun. assert (api_inv p) as [Hl Hm].
  { assert (api_inv api_started) as Hi by done. revert Hrun Hi. generalize api_started. intros q Hrun.
    induction Hrun as [|p1 p2 p3 Hs _ IH]; [done|]. intros Hi. by apply IH, (api_inv_step _ _ Hs). }
  split_and!.
  - destruct (as_main p); [rewrite Hm; apply prefix_nil..| |rewrite Hm; apply prefix_nil]. destruct Hm as [<- _]. by eexists.
  - intros Hns. assert (as_listening p = false) as Hoff by (rewrite Hl; by destruct (as_main p)). split; [done|].
    intros p' Hs. destruct Hs; simpl in *; try done; (split; [unfold api_measure; simpl; lia|done]).
  - intros Hd Hlate. destruct (as_main p); [done..| |done]. by apply Hm.
  - destruct p as [ls n k l [| |[|x rest]|] d]; simpl in *; try done.
    + subst ls. eexists. apply A_timeout.
    + destruct Hm as [Hm _]. by rewrite app_nil_r in Hm.
    + subst ls. eexists. apply A_call.
  - exists (MkApiProcess false 0 1 false (ApiTail []) api_tail). split; [|done]. unfold api_started.
    eapply rtc_l; [apply A_accept|]. eapply rtc_l; [by apply A_hijack|]. eapply rtc_l; [apply A_quit|].
    eapply rtc_l; [apply A_drained|]. unfold api_tail. simpl. repeat (eapply rtc_l; [apply A_call|]; simpl). apply rtc_refl.
Qed.

Lemma api_shuts_down_witness :
  let p := MkApiProcess false 1 0 false ShuttingDown [] in
  rtc api_step api_started p /\ exists p', api_step p p'.
Proof.
  assert (rtc api_step api_started (MkApiProcess false 1 0 false ShuttingDown [])) as Hr.
  { eapply rtc_l; [apply A_accept|]. eapply rtc_l; [apply A_quit|apply rtc_refl]. }
  split; [exact Hr|]. destruct (api_shuts_down _ Hr) as (_ & _ & _ & Hp & _). exact Hp.
Defined.
