(* ===== verification/Keyed.v ===== *)
(** * Tables as keyed stores

    The contract of a resource a client manages over HTTP: the tenant's part of a table is a
    finite map from keys to documents, and every repository method is one command on it.
    The table is an interface ([Table], [TableLaws]) over its row, key and document types;
    the lemmas of [Methods] take the statement forms of [internal/db] (one row by key,
    [INSERT .. RETURNING], [UPDATE .. RETURNING], [ON CONFLICT .. DO UPDATE], [UPDATE] and
    [DELETE] without [RETURNING]) to the commands they implement. *)

From S2P Require Import Prelude Time Domain Json World Db Repository Schema Http.

(** Selections by equal predicates, and of permuted tables. *)
Lemma where_ext {A} (P Q : A -> bool) t : (forall x, P x = Q x) -> where_ P t = where_ Q t.
Proof. intros HPQ. unfold where_. apply List.filter_ext, HPQ. Qed.
Lemma where_sublist {A} (P : A -> bool) t : where_ P t `sublist_of` t.
Proof. unfold where_. induction t as [|x t IH]; simpl; [done|]. destruct (P x); by constructor. Qed.
#[global] Instance where_Permutation {A} (P : A -> bool) : Proper ((≡ₚ) ==> (≡ₚ)) (where_ P).
Proof.
  unfold where_. induction 1 as [|x l l' _ IH|x y l|l1 l2 l3 _ IH1 _ IH2]; simpl; [done| | |by rewrite IH1].
  - destruct (P x); by rewrite IH.
  - destruct (P x), (P y); try done. constructor.
Qed.

(** ** The abstract store *)

Inductive command (K A : Type) :=
  | Create (key : uuid -> K) (make : uuid -> gotime -> A)
  | Read (k : K)
  | Select (sel : A -> bool) (leb : A -> A -> bool) (win : option (Z * Z))
  | Update (k : K) (f : gotime -> A -> A)
  | Put (k : K) (f : option A -> uuid -> gotime -> A)
  | Touch (k : K) (f : gotime -> A -> A)
  | Remove (k : K).
Arguments Create {K A} key make.
Arguments Read {K A} k.
Arguments Select {K A} sel leb win.
Arguments Update {K A} k f.
Arguments Put {K A} k f.
Arguments Touch {K A} k f.
Arguments Remove {K A} k.

Inductive outcome (A : Type) := Answered (a : A) | Listed (l : list A) (total : Z) | Removed | Missing | Failed.
Arguments Answered {A} a.
Arguments Listed {A} l total.
Arguments Removed {A}.
Arguments Missing {A}.
Arguments Failed {A}.

(** The documents a query selects, and the part of them a page shows ([LIMIT] and
    [OFFSET]). *)
Definition selected {K A} `{Countable K} (sel : A -> bool) (s : gmap K A) : list A :=
  where_ sel (snd <$> map_to_list s).
Definition window {A} (win : option (Z * Z)) (l : list A) : list A :=
  match win with Some (limit, offset) => page limit offset l | None => l end.

(** A command on a store.  Where it may fail, it fails without its effect or, when only
    the answer is lost, with it. *)
Inductive served {K A} `{Countable K} (may_fail : Prop) (s : gmap K A) : command K A -> outcome A -> gmap K A -> Prop :=
  | S_created key make u t :
      s !! key u = None -> served may_fail s (Create key make) (Answered (make u t)) (<[key u := make u t]> s)
  | S_found k a : s !! k = Some a -> served may_fail s (Read k) (Answered a) s
  | S_listed sel leb win l :
      l ≡ₚ selected sel s -> Sorted (fun a b => leb a b = true) l ->
      served may_fail s (Select sel leb win) (Listed (window win l) (Z.of_nat (length l))) s
  | S_updated k f a t :
      s !! k = Some a -> served may_fail s (Update k f) (Answered (f t a)) (<[k := f t a]> s)
  | S_put k f u t : served may_fail s (Put k f) (Answered (f (s !! k) u t)) (<[k := f (s !! k) u t]> s)
  | S_touched k f t : served may_fail s (Touch k f) Removed (alter (f t) k s)
  | S_removed k : served may_fail s (Remove k) Removed (delete k s)
  | S_not_found k : s !! k = None -> served may_fail s (Read k) Missing s
  | S_not_updated k f : s !! k = None -> served may_fail s (Update k f) Missing s
  | S_failed c : may_fail -> served may_fail s c Failed s
  | S_lost c o s' : may_fail -> served may_fail s c o s' -> served may_fail s c Failed s'.

(** ** Tables *)

Class Table (K Row A : Type) := {
  tb_rows : db -> list Row;
  tb_set : (list Row -> list Row) -> db -> db;
  tb_key : Row -> K;
  tb_owned : uuid -> Row -> bool;
  tb_conv : Row -> A;
}.
Class TableLaws (K Row A : Type) `{Table K Row A} : Prop := {
  tb_rows_set : forall f d, tb_rows (tb_set f d) = f (tb_rows d);
}.

Section Store.
Context {K Row A : Type} `{Countable K} `{TableLaws K Row A}.
Implicit Types (t : list Row) (r : Row).
Variable tenant : uuid.

Definition store (t : list Row) : gmap K A :=
  list_to_map ((fun r => (tb_key r, tb_conv r)) <$> where_ (tb_owned tenant) t).
Definition store_of (w : world) : gmap K A := store (tb_rows (w_db w)).

(** No key of the tenant twice. *)
Definition keys_unique (t : list Row) : Prop := NoDup (tb_key <$> where_ (tb_owned tenant) t).

Definition keyed (k : K) (r : Row) : bool := bool_decide (tb_key r = k) && tb_owned tenant r.

(** A unique column of the whole table is one of the tenant's part. *)
Lemma unique_keys t : unique tb_key t -> keys_unique t.
Proof. intros Hu. apply (sublist_NoDup _ _ Hu), fmap_sublist, where_sublist. Qed.

Lemma fresh_owned k t : k ∉ tb_key <$> t -> k ∉ tb_key <$> where_ (tb_owned tenant) t.
Proof. rewrite !list_elem_of_fmap. setoid_rewrite elem_of_where. naive_solver. Qed.

Lemma keyed_true k r : keyed k r = true <-> tb_key r = k /\ tb_owned tenant r = true.
Proof. unfold keyed. by rewrite andb_true_iff, bool_decide_eq_true. Qed.

Lemma store_lookup t k a : keys_unique t ->
  store t !! k = Some a <-> exists r, r ∈ t /\ keyed k r = true /\ tb_conv r = a.
Proof.
  intros Hnd. unfold store. rewrite <-elem_of_list_to_map.
  - rewrite list_elem_of_fmap. setoid_rewrite elem_of_where. setoid_rewrite keyed_true. naive_solver.
  - rewrite <-list_fmap_compose. exact Hnd.
Qed.

Lemma store_row t k r : keys_unique t -> r ∈ t -> keyed k r = true -> store t !! k = Some (tb_conv r).
Proof. intros. apply store_lookup; eauto. Qed.

Lemma store_none t k : keys_unique t -> store t !! k = None <-> where_ (keyed k) t = [].
Proof.
  intros Hnd. rewrite where_nil, eq_None_not_Some. split.
  - intros Hn r Hr. apply not_true_is_false. intros Hk. apply Hn. eexists. by apply store_row.
  - intros Hn [a (r & Hr & Hk & _)%store_lookup]; [|done]. by rewrite Hn in Hk.
Qed.

Lemma keyed_same t k r r' : keys_unique t -> r ∈ t -> r' ∈ t -> keyed k r = true -> keyed k r' = true -> r = r'.
Proof.
  intros Hnd Hr Hr' [Hk Ho]%keyed_true [Hk' Ho']%keyed_true. apply (NoDup_key_unique tb_key (where_ (tb_owned tenant) t));
    [done|by apply elem_of_where..|congruence].
Qed.

Lemma where_keyed t k : where_ (keyed k) t = where_ (fun r => bool_decide (tb_key r = k)) (where_ (tb_owned tenant) t).
Proof.
  induction t as [|r t IH]; [done|]. unfold where_ in *. simpl. unfold keyed at 1. rewrite IH.
  destruct (tb_owned tenant r); simpl; [by rewrite andb_true_r|by rewrite andb_false_r].
Qed.

(** The row a keyed query returns. *)
Lemma keyed_one t k : keys_unique t ->
  match one (where_ (keyed k) t) with
  | Ok r => r ∈ t /\ keyed k r = true /\ where_ (keyed k) t = [r] /\ store t !! k = Some (tb_conv r)
  | Err e => e = ENoRows /\ where_ (keyed k) t = [] /\ store t !! k = None
  end.
Proof.
  intros Hnd. destruct (where_ (keyed k) t) as [|r l] eqn:E; simpl; [by rewrite store_none|].
  assert (r ∈ where_ (keyed k) t) as [Hk Hr]%elem_of_where by (rewrite E; set_solver).
  split_and!; [done..| |by apply store_row]. rewrite <-E, where_keyed. pose proof Hk as [Hk1 Hk2]%keyed_true.
  apply (where_key_unique tb_key); [done|by apply elem_of_where|by apply bool_decide_eq_true|].
  intros y _ ->%bool_decide_eq_true. done.
Qed.

(** The rows of a query. *)
Lemma selected_store t sel : keys_unique t ->
  selected sel (store t) ≡ₚ tb_conv <$> where_ (fun r => tb_owned tenant r && sel (tb_conv r)) t.
Proof.
  intros Hnd. unfold selected, store. rewrite map_to_list_to_map by by rewrite <-list_fmap_compose.
  clear Hnd. induction t as [|r t IH]; [done|]. unfold where_ in *. simpl.
  destruct (tb_owned tenant r); simpl; [|exact IH]. destruct (sel (tb_conv r)); simpl; [by constructor|exact IH].
Qed.

Lemma served_listed F t sel (leb : A -> A -> bool) win (rleb : Row -> Row -> bool) P :
  keys_unique t -> (forall r, P r = tb_owned tenant r && sel (tb_conv r)) ->
  (forall a b, rleb a b = leb (tb_conv a) (tb_conv b)) -> (forall a b, rleb a b = false -> rleb b a = true) ->
  served F (store t) (Select sel leb win)
    (Listed (tb_conv <$> window win (sort_by rleb (where_ P t))) (Z.of_nat (length (where_ P t)))) (store t).
Proof.
  intros Hnd HP Hleb Htot. set (l := sort_by rleb (where_ P t)).
  replace (length (where_ P t)) with (length (tb_conv <$> l)) by (unfold l; by rewrite length_fmap, sort_by_perm).
  assert (tb_conv <$> window win l = window win (tb_conv <$> l)) as ->.
  { destruct win as [[]|]; [|done]. simpl. unfold page. by rewrite fmap_take, fmap_drop. }
  apply S_listed.
  - unfold l. by rewrite sort_by_perm, (where_ext P _ _ HP), selected_store.
  - pose proof (sort_by_sorted rleb Htot (where_ P t)) as Hs. fold l in Hs. clearbody l.
    induction Hs as [|r l' Hs IH Hr]; simpl; constructor; [done|].
    destruct Hr as [|r' l'' Hr]; simpl; constructor. by rewrite <-Hleb.
Qed.

(** Adding, changing and deleting a row. *)
Lemma store_snoc t r : keys_unique t -> tb_key r ∉ tb_key <$> where_ (tb_owned tenant) t -> tb_owned tenant r = true ->
  store t !! tb_key r = None /\ store (t ++ [r]) = <[tb_key r := tb_conv r]> (store t).
Proof.
  intros Hnd Hf Ho. assert (store t !! tb_key r = None) as Hn.
  { apply store_none; [done|]. apply where_nil. intros y Hy. apply not_true_is_false. intros [Hk Hoy]%keyed_true.
    apply Hf. rewrite <-Hk. by apply list_elem_of_fmap_2, elem_of_where. }
  split; [done|]. unfold store in *. rewrite where_app, fmap_app. unfold where_ at 2. simpl. rewrite Ho. simpl.
  by rewrite list_to_map_snoc by by apply not_elem_of_list_to_map_2.
Qed.

Lemma where_owned_update t P f :
  (forall x, tb_owned tenant (f x) = tb_owned tenant x) ->
  where_ (tb_owned tenant) (update_where P f t) = update_where P f (where_ (tb_owned tenant) t).
Proof.
  intros Hf. induction t as [|r t IH]; [done|]. unfold where_, update_where in *. simpl.
  assert (tb_owned tenant (if P r then f r else r) = tb_owned tenant r) as -> by by destruct (P r).
  destruct (tb_owned tenant r); simpl; [f_equal|]; exact IH.
Qed.

Lemma store_update t k f r : keys_unique t -> r ∈ t -> keyed k r = true ->
  (forall x, tb_key (f x) = tb_key x /\ tb_owned tenant (f x) = tb_owned tenant x) ->
  store (update_where (keyed k) f t) = <[k := tb_conv (f r)]> (store t).
Proof.
  intros Hnd Hr Hk Hf. assert (keys_unique (update_where (keyed k) f t)) as Hnd'.
  { unfold keys_unique. rewrite where_owned_update by apply Hf. rewrite fmap_update_where; [done|]. intros x _. apply Hf. }
  apply map_eq. intros k'. apply option_eq. intros a. rewrite store_lookup by done.
  assert (forall x, keyed k' (f x) = keyed k' x) as Hkf.
  { intros x. unfold keyed. by destruct (Hf x) as [-> ->]. }
  destruct (decide (k' = k)) as [->|Hne].
  - rewrite lookup_insert_eq. split.
    + intros (x & (y & Hy & ->)%elem_of_update_where & Hx & <-). destruct (keyed k y) eqn:E; [|congruence].
      by rewrite (keyed_same t k r y).
    + intros [= <-]. exists (f r). rewrite Hkf. split_and!; [|done..].
      apply elem_of_update_where. exists r. by rewrite Hk.
  - rewrite lookup_insert_ne by done. rewrite store_lookup by done. split.
    + intros (x & (y & Hy & ->)%elem_of_update_where & Hx & <-). destruct (keyed k y) eqn:E; [|by eauto].
      rewrite Hkf in Hx. apply keyed_true in E as [? _], Hx as [? _]. congruence.
    + intros (x & Hx & Hk' & <-). exists x. split_and!; [|done..]. apply elem_of_update_where. exists x. split; [done|].
      destruct (keyed k x) eqn:E; [|done]. apply keyed_true in E as [? _], Hk' as [? _]. congruence.
Qed.

Lemma update_none t k f : where_ (keyed k) t = [] -> update_where (keyed k) f t = t.
Proof.
  intros Hn. rewrite where_nil in Hn. unfold update_where. rewrite <-(list_fmap_id t) at 2.
  apply list_fmap_ext. intros i r Hi. by rewrite (Hn r (list_elem_of_lookup_2 _ _ _ Hi)).
Qed.

Lemma store_delete t k : keys_unique t -> store (delete_where (keyed k) t) = delete k (store t).
Proof.
  intros Hnd. assert (keys_unique (delete_where (keyed k) t)) as Hnd'.
  { apply (sublist_NoDup _ _ Hnd), fmap_sublist. unfold where_, delete_where. clear Hnd.
    induction t as [|r t IH]; simpl; [done|].
    destruct (keyed k r), (tb_owned tenant r) eqn:Eo; simpl; rewrite ?Eo; first [by apply sublist_skip|by apply sublist_cons|done]. }
  apply map_eq. intros k'. apply option_eq. intros a.
  rewrite store_lookup by done. setoid_rewrite elem_of_delete_where.
  destruct (decide (k' = k)) as [->|Hne].
  - rewrite lookup_delete_eq. split; [|done]. intros (r & [Hn _] & Hk & _). congruence.
  - rewrite lookup_delete_ne by done. rewrite store_lookup by done. split; [naive_solver|].
    intros (r & Hr & Hk & <-). exists r. split_and!; [|done..]. apply not_true_is_false. intros [Hk1 _]%keyed_true.
    apply keyed_true in Hk as [Hk2 _]. congruence.
Qed.
End Store.

(** ** Repository methods as commands *)

Section Methods.
Context `{Env} {K Row A : Type} `{Countable K} `{TableLaws K Row A}.
Variable tenant : uuid.

(** What a method's result says about the command. *)
Definition replies {B} (ans : B -> outcome A) (r : result B) (o : outcome A) : Prop :=
  match r with
  | Ok b => o = ans b
  | Err e => o = Missing /\ (exists msg, e = NewNotFoundError msg)
             \/ o = Failed /\ exists msg cause, toAppError e = NewInternalError msg cause
  end.

Definition implements {B} (m : M B) (may_fail : world -> Prop) (c : command K A) (ans : B -> outcome A) : Prop :=
  forall w, keys_unique tenant (tb_rows (w_db w)) ->
    wp m (fun r w' => exists o, served (may_fail w) (store_of tenant w) c o (store_of tenant w') /\ replies ans r o) w.

(** A method that may fail in fewer worlds. *)
Lemma implements_mono {B} (m : M B) F F' (c : command K A) ans :
  (forall w, F w -> F' w) -> implements m F c ans -> implements m F' c ans.
Proof.
  intros HF Hm w Hnd. eapply wp_mono; [exact (Hm w Hnd)|]. simpl. intros r w' (o & Hs & Hr). exists o. split; [|done].
  clear Hr. generalize (HF w). generalize (F' w). intros G HG. induction Hs; by eauto using @served.
Qed.

Lemma store_of_advance dt w : store_of tenant (advance dt w) = store_of tenant w.
Proof. by destruct w. Qed.
Lemma store_of_set_db dt d w : store_of tenant (set_db (fun _ => d) (advance dt w)) = store tenant (tb_rows d).
Proof. by destruct w. Qed.

(** Internal errors answer 500. *)
Class Internal (h : error -> error) : Prop :=
  internal : forall m, exists msg cause, toAppError (h (EPlain m)) = NewInternalError msg cause.
#[local] Instance internal_error msg : Internal (NewInternalError msg).
Proof. intros m. by exists msg, (EPlain m). Qed.
#[local] Instance internal_row nf msg : Internal (row_error nf msg).
Proof. intros m. by exists msg, (EPlain m). Qed.

Lemma failed_unchanged {B} (ans : B -> outcome A) (F : Prop) c dt w h `{!Internal h} m : F ->
  exists o, served F (store_of tenant w) c o (store_of tenant (advance dt w)) /\ replies ans (Err (h (EPlain m))) o.
Proof. intros HF. exists Failed. rewrite store_of_advance. split; [by apply S_failed|right; split; [done|apply internal]]. Qed.

(** A statement whose effect on the store is that of the command. *)
Lemma served_sql {B} (q : uuid -> gotime -> db -> result B * db) (F : Prop) h `{!Internal h} c (ans : B -> outcome A) w :
  (~ faultless -> F) ->
  (forall t, let '(r, d) := q (ev_uuid (env_event (w_tick w))) t (w_db w) in
     match r with
     | Ok b => forall G : Prop, served G (store_of tenant w) c (ans b) (store tenant (tb_rows d))
     | Err e => (exists m, e = EPlain m) /\ F /\ store tenant (tb_rows d) = store_of tenant w
     end) ->
  wp (or_else (sql q) h) (fun r w' => exists o, served F (store_of tenant w) c o (store_of tenant w') /\ replies ans r o) w.
Proof.
  intros HF Hq. apply wp_or_else, wp_sql_env; [intros dt m Hf; apply failed_unchanged; [done|auto]|].
  intros dt t m. specialize (Hq t). destruct (q _ _ _) as [[b|e] d]; rewrite !store_of_set_db.
  - split; [|by exists (ans b)]. intros Hf. exists Failed. split; [eapply S_lost; [auto|apply Hq]|right; split; [done|apply internal]].
  - destruct Hq as ([m' ->] & Hfail & ->).
    split; intros; (exists Failed; split; [by apply S_failed|right; split; [done|apply internal]]).
Qed.

(** [GetX]: one row by key. *)
Lemma implements_read k nf msg :
  implements (row ← or_else (sql_read (fun _ d => one (where_ (keyed tenant k) (tb_rows d)))) (row_error (NewNotFoundError nf) msg);
              mret (tb_conv row)) (fun _ => ~ faultless) (Read k) Answered.
Proof.
  intros w Hnd. apply wp_bind, wp_or_else, wp_sql_read_env. intros dt t m. split; [|intros Hf; by apply failed_unchanged; [apply _|]].
  pose proof (keyed_one tenant (tb_rows (w_db w)) k Hnd) as Ho.
  destruct (one _) as [r|e]; simpl.
  - destruct Ho as (_ & _ & _ & Hs). apply wp_ret. rewrite store_of_advance. exists (Answered (tb_conv r)). split; [by apply S_found|done].
  - destruct Ho as (-> & _ & Hs). rewrite store_of_advance. exists Missing. split; [by apply S_not_found|left; eauto].
Qed.

(** [ListX]: the selected rows in the order of the query. *)
Lemma implements_select sel (leb : A -> A -> bool) (rleb : Row -> Row -> bool) P msg :
  (forall r, P r = tb_owned tenant r && sel (tb_conv r)) -> (forall a b, rleb a b = leb (tb_conv a) (tb_conv b)) ->
  (forall a b, rleb a b = false -> rleb b a = true) ->
  implements (rows ← or_else (sql_read (fun _ d => Ok (sort_by rleb (where_ P (tb_rows d))))) (NewInternalError msg);
              mret (tb_conv <$> rows)) (fun _ => ~ faultless) (Select sel leb None) (fun l => Listed l (Z.of_nat (length l))).
Proof.
  intros HP Hleb Htot w Hnd. apply wp_bind, wp_or_else, wp_sql_read_env. intros dt t m.
  split; [|intros Hf; by apply failed_unchanged; [apply _|]]. apply wp_ret. rewrite store_of_advance. eexists. split; [|reflexivity].
  rewrite length_fmap, (Permutation_length (sort_by_perm _ _)). by apply (served_listed tenant _ (tb_rows (w_db w)) sel leb None rleb).
Qed.

(** The conversion of a returned row. *)
Lemma replied_row (m : M Row) (F : Prop) c w :
  wp m (fun r w' => exists o, served F (store_of tenant w) c o (store_of tenant w') /\ replies (fun row => Answered (tb_conv row)) r o) w ->
  wp (row ← m; mret (tb_conv row))
    (fun r w' => exists o, served F (store_of tenant w) c o (store_of tenant w') /\ replies Answered r o) w.
Proof. intros Hm. apply wp_bind. eapply wp_mono; [exact Hm|]. by intros [row|e] w' Ho. Qed.

(** [InsertX]: a row under a new key. *)
Lemma implements_insert (cs : uuid -> db -> list (bool * string)) (row : uuid -> gotime -> Row) key make msg :
  (forall u d, Forall (fun c => c.1 = true) (cs u d) -> key u ∉ tb_key <$> where_ (tb_owned tenant) (tb_rows d)) ->
  (forall u t, tb_key (row u t) = key u /\ tb_owned tenant (row u t) = true /\ tb_conv (row u t) = make u t) ->
  implements (row ← or_else (sql (fun u t d => insert_row (cs u d) (row u t) tb_set d)) (NewInternalError msg);
              mret (tb_conv row))
    (fun w => ~ (faultless /\ Forall (fun c => c.1 = true) (cs (ev_uuid (env_event (w_tick w))) (w_db w))))
    (Create key make) Answered.
Proof.
  intros Hcs Hrow w Hnd. apply replied_row, served_sql; [apply _|tauto|].
  intros t. set (u := ev_uuid _). unfold insert_row. destruct (violated (cs u (w_db w))) eqn:Ev.
  - split; [by eexists|]. split; [|done]. intros [_ Hall%violated_all]. fold u in Hall. congruence.
  - apply violated_none in Ev. destruct (Hrow u t) as (Hid & Ho & Hc).
    destruct (store_snoc tenant (tb_rows (w_db w)) (row u t) Hnd) as [Hn Hs]; [by rewrite Hid; apply Hcs|done|].
    intros G. rewrite tb_rows_set, Hs, Hid, Hc. apply S_created. by rewrite Hid in Hn.
Qed.

(** [UpdateX]: a change of one row, which the table finds by key and owner. *)
Lemma wp_update k (g : gotime -> Row -> Row) f nf msg w :
  keys_unique tenant (tb_rows (w_db w)) ->
  (forall t x, tb_key (g t x) = tb_key x /\ tb_owned tenant (g t x) = tb_owned tenant x) ->
  (forall r, one (where_ (keyed tenant k) (tb_rows (w_db w))) = Ok r -> forall t, tb_conv (g t r) = f t (tb_conv r)) ->
  wp (row ← or_else (sql (fun _ t => update_returning (keyed tenant k) (g t) tb_rows tb_set)) (row_error (NewNotFoundError nf) msg);
      mret (tb_conv row))
    (fun r w' => exists o, served (~ faultless) (store_of tenant w) (Update k f) o (store_of tenant w') /\ replies Answered r o) w.
Proof.
  intros Hnd Hg Hf. pose proof (keyed_one tenant (tb_rows (w_db w)) k Hnd) as Ho.
  destruct (one (where_ (keyed tenant k) (tb_rows (w_db w)))) as [r|e] eqn:E.
  - destruct Ho as (Hr & Hk & Hw & Hs). apply replied_row, served_sql; [apply _|done|].
    intros t. unfold update_returning. rewrite Hw. simpl. intros G.
    rewrite tb_rows_set, (store_update tenant _ k (g t) r), (Hf r) by done. by apply S_updated.
  - destruct Ho as (-> & Hw & Hs). apply wp_bind, wp_or_else, wp_sql_env; [intros dt m Hfl; by apply failed_unchanged; [apply _|]|].
    intros dt t m. unfold update_returning. rewrite Hw. simpl. rewrite !store_of_set_db, tb_rows_set, update_none by done.
    split; [intros Hfl; exists Failed; split; [by apply S_failed|right; split; [done|by exists msg, (EPlain m)]]|].
    exists Missing. split; [by apply S_not_updated|left; eauto].
Qed.

(** [ON CONFLICT .. DO UPDATE]: a new row, or the old one changed. *)
Lemma served_upsert k P (cs : db -> list (bool * string)) (idcol : Row -> uuid) (row : uuid -> gotime -> Row) (g : gotime -> Row -> Row)
    (f : option A -> uuid -> gotime -> A) w (F : Prop) h `{!Internal h} :
  keys_unique tenant (tb_rows (w_db w)) -> (forall r, P r = keyed tenant k r) -> (~ faultless -> F) ->
  (~ (Forall (fun c => c.1 = true) (cs (w_db w)) /\ ev_uuid (env_event (w_tick w)) ∉ idcol <$> tb_rows (w_db w)) -> F) ->
  (forall u t, keyed tenant k (row u t) = true /\ tb_conv (row u t) = f None u t) ->
  (forall t x, keyed tenant k x = true -> tb_key (g t x) = tb_key x /\ tb_owned tenant (g t x) = tb_owned tenant x) ->
  (forall t x u, keyed tenant k x = true -> tb_conv (g t x) = f (Some (tb_conv x)) u t) ->
  wp (or_else (sql (fun u t d =>
        match violated (cs d) with
        | Some msg => (Err (EPlain msg), d)
        | None =>
            match where_ P (tb_rows d) with
            | [] => insert_row [fresh_id idcol (tb_rows d) u] (row u t) tb_set d
            | _ :: _ => update_returning P (g t) tb_rows tb_set d
            end
        end)) h)
    (fun r w' => exists o, served F (store_of tenant w) (Put k f) o (store_of tenant w')
       /\ replies (fun row => Answered (tb_conv row)) r o) w.
Proof.
  intros Hnd HP HF Hfit Hrow Hkey Hconv. apply served_sql; [done|done|]. intros t. set (u := ev_uuid _) in *.
  unfold update_returning. rewrite !(where_ext P _ _ HP).
  destruct (violated (cs (w_db w))) as [e|] eqn:Ev.
  { split; [by eexists|]. split; [|done]. apply Hfit. intros [Hall%violated_all _]. congruence. }
  apply violated_none in Ev. pose proof (keyed_one tenant (tb_rows (w_db w)) k Hnd) as Ho.
  destruct (where_ (keyed tenant k) (tb_rows (w_db w))) as [|r l] eqn:E; simpl in Ho.
  - destruct Ho as (_ & _ & Hs). unfold insert_row, fresh_id. simpl. case_bool_decide as Hfresh; simpl.
    + intros G. destruct (Hrow u t) as [[Hk Ho]%keyed_true Hc].
      destruct (store_snoc tenant (tb_rows (w_db w)) (row u t) Hnd) as [_ Hst]; [|done|].
      { rewrite Hk. intros (y & Hky & [Hoy Hy]%elem_of_where)%list_elem_of_fmap. rewrite where_nil in E.
        pose proof (E y Hy) as Hn. rewrite (proj2 (keyed_true tenant k y)) in Hn; done. }
      rewrite tb_rows_set, Hst, Hk, Hc. fold (store_of tenant w) in *. rewrite <-Hs at 1 2. apply S_put.
    + split; [by eexists|]. split; [|done]. apply Hfit. by intros [_ ?].
  - destruct Ho as (Hr & Hk & [= ->] & Hs). simpl. intros G.
    rewrite tb_rows_set.
    assert (update_where P (g t) (tb_rows (w_db w)) =
      update_where (keyed tenant k) (fun x => if keyed tenant k x then g t x else x) (tb_rows (w_db w))) as ->.
    { apply list_fmap_ext. intros i x _. rewrite HP. by destruct (keyed tenant k x). }
    rewrite (store_update tenant _ k _ r); [|done..|].
    + rewrite Hk, (Hconv t r u Hk). fold (store_of tenant w) in *. rewrite <-Hs at 1 2. apply S_put.
    + intros x. destruct (keyed tenant k x) eqn:Ex; [by apply Hkey|done].
Qed.

(** [UPDATE] without [RETURNING]: the row may be there or not. *)
Lemma implements_touch k (g : gotime -> Row -> Row) f h `{!Internal h} (q : gotime -> db -> db) :
  (forall t d, tb_rows (q t d) = update_where (keyed tenant k) (g t) (tb_rows d)) ->
  (forall t x, tb_key (g t x) = tb_key x /\ tb_owned tenant (g t x) = tb_owned tenant x /\ tb_conv (g t x) = f t (tb_conv x)) ->
  implements (or_else (sql (fun _ t d => (Ok tt, q t d))) h) (fun _ => ~ faultless) (Touch k f) (fun _ : unit => Removed).
Proof.
  intros Hq Hg w Hnd. apply served_sql; [done|done|]. intros t G. rewrite Hq.
  pose proof (keyed_one tenant (tb_rows (w_db w)) k Hnd) as Ho.
  assert (store tenant (update_where (keyed tenant k) (g t) (tb_rows (w_db w))) = alter (f t) k (store_of tenant w)) as ->; [|apply S_touched].
  destruct (one _) as [r|e].
  - destruct Ho as (Hr & Hk & _ & Hs). rewrite (store_update tenant _ k (g t) r), (proj2 (proj2 (Hg t r))) by (done || (intros; split; apply Hg)).
    symmetry. apply map_eq. intros k'. destruct (decide (k' = k)) as [->|Hne].
    + unfold store_of. by rewrite lookup_alter_eq, lookup_insert_eq, Hs.
    + by rewrite lookup_alter_ne, lookup_insert_ne by done.
  - destruct Ho as (_ & Hw & Hs). rewrite update_none by done. symmetry. apply map_eq. intros k'.
    destruct (decide (k' = k)) as [->|Hne]; [by unfold store_of; rewrite lookup_alter_eq, Hs|by rewrite lookup_alter_ne by done].
Qed.

(** [DeleteX]: gone, whether it was there or not. *)
Lemma implements_remove k (q : db -> db) msg :
  (forall d, tb_rows (q d) = delete_where (keyed tenant k) (tb_rows d)) ->
  implements (or_else (sql (fun _ _ d => (Ok tt, q d))) (NewInternalError msg)) (fun _ => ~ faultless) (Remove k) (fun _ : unit => Removed).
Proof.
  intros Hq w Hnd. apply served_sql; [apply _|done|]. intros t G. rewrite Hq, store_delete by done. apply S_removed.
Qed.
End Methods.

#[global] Existing Instance internal_error.
#[global] Existing Instance internal_row.

