(* ===== verification/Resources.v ===== *)
(** * The resources clients manage over HTTP

    Templates, webhook endpoints, preferences and device tokens
    ([internal/api/handler/template.go], [webhook_admin.go], [preference.go],
    [device_token.go] with their services and repositories) as instances of the keyed
    store, and every request for one of them as one command on it. *)

From S2P Require Import Prelude Time Domain Json World Db Repository Schema Queue Template Preference Webhook.
From S2P Require Import Http Access Requests Handlers Keyed.

(** ** Templates *)

#[global] Instance template_table : Table uuid TemplateRow Template := {|
  tb_rows := templates; tb_set := set_templates; tb_key := tr_ID;
  tb_owned := fun tenant r => null_eq (tr_TenantID r) tenant; tb_conv := dbTemplateToDomain |}.
#[global] Instance template_table_laws : TableLaws uuid TemplateRow Template.
Proof. split. by intros f []. Qed.

(** The documents the commands make: of a new template, of a changed one (the version goes
    up), of one that is switched off. *)
Definition new_template (req : CreateTemplateRequest) (k : uuid) (t : gotime) : Template :=
  {| t_ID := k; t_Name := ct_Name req; t_Channel := ct_Channel req; t_SubjectTemplate := ct_SubjectTemplate req;
     t_BodyTemplate := ct_BodyTemplate req; t_Metadata := ct_Metadata req; t_Version := 1; t_IsActive := true;
     t_CreatedAt := t; t_UpdatedAt := t |}.
Definition revised (req : UpdateTemplateRequest) (t : gotime) (tm : Template) : Template :=
  {| t_ID := t_ID tm; t_Name := t_Name tm; t_Channel := t_Channel tm;
     t_SubjectTemplate := match ut_SubjectTemplate req with Some s => Some s | None => t_SubjectTemplate tm end;
     t_BodyTemplate := default (t_BodyTemplate tm) (ut_BodyTemplate req);
     t_Metadata := match ut_Metadata req with Some m => Some m | None => t_Metadata tm end;
     t_Version := t_Version tm + 1; t_IsActive := default (t_IsActive tm) (ut_IsActive req);
     t_CreatedAt := t_CreatedAt tm; t_UpdatedAt := t |}.
Definition switched_off (t : gotime) (tm : Template) : Template :=
  {| t_ID := t_ID tm; t_Name := t_Name tm; t_Channel := t_Channel tm; t_SubjectTemplate := t_SubjectTemplate tm;
     t_BodyTemplate := t_BodyTemplate tm; t_Metadata := t_Metadata tm; t_Version := t_Version tm; t_IsActive := false;
     t_CreatedAt := t_CreatedAt tm; t_UpdatedAt := t |}.

(** What a new template must satisfy: a free id and name, lengths, an existing tenant. *)
Definition template_fits `{Env} (tenant : uuid) (tm : Template) (w : world) : Prop :=
  ev_uuid (env_event (w_tick w)) ∉ tr_ID <$> templates (w_db w) /\ rune_count (t_Name tm) <= 255 /\
  rune_count (t_Channel tm) <= 50 /\ t_Name tm ∉ tr_Name <$> templates (w_db w) /\ tenant ∈ xr_ID <$> tenants (w_db w).
(** When a command on the templates may fail. *)
Definition template_fails `{Env} (tenant : uuid) (w : world) (c : command uuid Template) : Prop :=
  match c with
  | Create _ make => ~ (faultless /\ template_fits tenant (make uuid_nil 0) w)
  | Select _ _ (Some (limit, offset)) => ~ (faultless /\ 0 <= limit /\ 0 <= offset)
  | _ => ~ faultless
  end.

(** The list of templates: of one channel or of all, by name. *)
Definition in_channel (channel : string) (tm : Template) : bool :=
  bool_decide (channel = "") || bool_decide (t_Channel tm = channel).
Definition by_name (a b : Template) : bool := String.leb (t_Name a) (t_Name b).
Definition page_window (r : Request) : Z * Z :=
  (int32 (per_page_of r), int32 (int64 (int64 (page_of r - 1) * per_page_of r))).

Lemma metadata_roundtrip m : fromNullRawMessage (toNullRawMessage m) = m.
Proof. destruct m as [m|]; [|done]. simpl. unfold decode_map. simpl. by rewrite map_of_obj_sorted. Qed.

Section TemplateMethods.
Context `{Env}.
Variable tenant : uuid.

Lemma template_Create req :
  implements tenant (TemplateRepo_Create tenant req) (fun w => template_fails tenant w (Create (fun u => u) (new_template req)))
    (Create (fun u => u) (new_template req)) Answered.
Proof.
  eapply implements_mono; [|refine (implements_insert tenant (fun u d =>
      [ fresh_id tr_ID (templates d) u; (varchar 255 (ct_Name req), too_long); (varchar 50 (ct_Channel req), too_long);
        (bool_decide (ct_Name req ∉ tr_Name <$> templates d), dup_key); (opt_fk (Some tenant) (tenant_exists d), fk_violation) ])
      (fun u t => {| tr_ID := u; tr_Name := ct_Name req; tr_Channel := ct_Channel req;
         tr_SubjectTemplate := toNullString (ct_SubjectTemplate req); tr_BodyTemplate := ct_BodyTemplate req;
         tr_Metadata := toNullRawMessage (ct_Metadata req); tr_Version := 1; tr_IsActive := true; tr_CreatedAt := t;
         tr_UpdatedAt := t; tr_TenantID := Some tenant |}) (fun u => u) _ _ _ _)].
  - intros w Hn [Hf (Hid & Hname & Hch & Hfree & Hten)]. apply Hn. split; [done|].
    unfold fresh_id, varchar, opt_fk, tenant_exists. repeat constructor; first [by apply bool_decide_eq_true | by apply Z.leb_le].
  - intros u d [Hid _]%Forall_cons. apply bool_decide_eq_true in Hid. by apply fresh_owned.
  - intros u t. split_and!; [done|by apply bool_decide_eq_true|]. unfold new_template. simpl. unfold dbTemplateToDomain. simpl.
    by rewrite metadata_roundtrip.
Qed.

Lemma template_GetByID id : implements tenant (TemplateRepo_GetByID tenant id) (fun _ => ~ faultless) (Read id) Answered.
Proof. exact (implements_read tenant id errTemplateNotFound "failed to get template"). Qed.

Lemma page_of_pos r : (page_of r <? 1) = false /\ (per_page_of r <? 1) = false.
Proof. unfold page_of, per_page_of. split; destruct (Z.ltb_spec (Atoi_value (rq_Query r "page")) 1), (Z.ltb_spec (Atoi_value (rq_Query r "per_page")) 1); lia. Qed.

Lemma template_List r :
  implements tenant (TemplateRepo_List tenant (rq_Query r "channel") (page_of r) (per_page_of r))
    (fun w => template_fails tenant w (Select (in_channel (rq_Query r "channel")) by_name (Some (page_window r))))
    (Select (in_channel (rq_Query r "channel")) by_name (Some (page_window r))) (fun out => Listed out.1 out.2).
Proof.
  intros w Hnd. unfold TemplateRepo_List. destruct (page_of_pos r) as [-> ->]. unfold page_window. cbn [template_fails].
  set (limit := int32 (per_page_of r)). set (offset := int32 (int64 _)).
  apply wp_bind, wp_or_else, wp_sql_read_env. intros dt t m. split; [|intros Hf; apply failed_unchanged; [apply _|tauto]].
  unfold select_page, nonneg_page. cbn [violated].
  destruct (Z.leb_spec 0 limit); [|apply failed_unchanged; [apply _|lia]].
  destruct (Z.leb_spec 0 offset); [|apply failed_unchanged; [apply _|lia]].
  apply wp_bind, wp_or_else, wp_sql_read_env. intros dt' t' m'. rewrite <-(store_of_advance tenant dt w).
  split; [|intros Hf; apply failed_unchanged; [apply _|tauto]]. apply wp_ret. rewrite store_of_advance. eexists. split; [|reflexivity].
  replace (w_db (advance dt w)) with (w_db w) by by destruct w. rewrite !store_of_advance.
  refine (served_listed tenant _ (templates (w_db w)) _ by_name (Some (limit, offset)) _ _ Hnd _ _ _); [done|done|].
  intros a b Hab. destruct (String.leb_total (tr_Name a) (tr_Name b)) as [E|E]; [congruence|done].
Qed.

Lemma template_Delete id :
  implements tenant (TemplateRepo_Delete tenant id) (fun _ => ~ faultless) (Update id switched_off) Answered.
Proof. intros w Hnd. refine (wp_update tenant id _ switched_off errTemplateNotFound "failed to delete template" w Hnd _ _); done. Qed.

Lemma template_Update id req :
  implements tenant (TemplateRepo_Update tenant id req) (fun _ => ~ faultless) (Update id (revised req)) Answered.
Proof.
  intros w Hnd. unfold TemplateRepo_Update. apply wp_bind. unfold TemplateRepo_GetByID.
  apply wp_bind, wp_or_else, wp_sql_read_env. intros dt t m. split; [|intros Hf; by apply failed_unchanged; [apply _|]].
  pose proof (keyed_one tenant (templates (w_db w)) id Hnd) as Ho. change (template_by_id id (Some tenant)) with (keyed tenant id).
  destruct (one _) as [r|e]; simpl.
  - apply wp_ret. rewrite <-(store_of_advance tenant dt w). destruct Ho as (_ & _ & Hw & _).
    refine (wp_update tenant id _ (revised req) errTemplateNotFound "failed to update template" (advance dt w) _ _ _);
      [by destruct w|done|].
    assert (w_db (advance dt w) = w_db w) as -> by by destruct w. simpl. rewrite Hw. intros r' [= <-] t'.
    unfold revised, dbTemplateToDomain. simpl. f_equal.
    + by destruct (ut_SubjectTemplate req); [|destruct (tr_SubjectTemplate r)].
    + destruct (ut_Metadata req) as [md|]; simpl; [exact (metadata_roundtrip (Some md))|].
      destruct (fromNullRawMessage (tr_Metadata r)) as [md|] eqn:Em; simpl; [exact (metadata_roundtrip (Some md))|done].
  - destruct Ho as (-> & _ & Hs). simpl. rewrite store_of_advance. exists Missing. split; [by apply S_not_updated|left; eauto].
Qed.
End TemplateMethods.

(** ** Webhook endpoints *)

#[global] Instance endpoint_table : Table uuid WebhookEndpointRow WebhookEndpoint := {|
  tb_rows := webhook_endpoints; tb_set := set_endpoints; tb_key := er_ID;
  tb_owned := fun tenant r => bool_decide (er_TenantID r = tenant); tb_conv := dbWebhookEndpointToDomain |}.
#[global] Instance endpoint_table_laws : TableLaws uuid WebhookEndpointRow WebhookEndpoint.
Proof. split. by intros f []. Qed.

(** A new endpoint is active; a changed one keeps its secret. *)
Definition new_endpoint (tenant : uuid) (req : CreateWebhookEndpointRequest) (k : uuid) (t : gotime) : WebhookEndpoint :=
  {| we_ID := k; we_TenantID := tenant; we_URL := cw_URL req; we_Secret := cw_Secret req; we_Events := cw_Events req;
     we_IsActive := true; we_CreatedAt := t; we_UpdatedAt := t |}.
Definition redirected (req : UpdateWebhookEndpointRequest) (t : gotime) (e : WebhookEndpoint) : WebhookEndpoint :=
  {| we_ID := we_ID e; we_TenantID := we_TenantID e; we_URL := uw_URL req; we_Secret := we_Secret e;
     we_Events := uw_Events req; we_IsActive := uw_IsActive req; we_CreatedAt := we_CreatedAt e; we_UpdatedAt := t |}.

(** The list of endpoints: latest first. *)
Definition latest (a b : WebhookEndpoint) : bool := we_CreatedAt b <=? we_CreatedAt a.

Definition endpoint_fits `{Env} (tenant : uuid) (w : world) : Prop :=
  ev_uuid (env_event (w_tick w)) ∉ er_ID <$> webhook_endpoints (w_db w) /\ tenant ∈ xr_ID <$> tenants (w_db w).
Definition endpoint_fails `{Env} (tenant : uuid) (w : world) (c : command uuid WebhookEndpoint) : Prop :=
  match c with Create _ _ => ~ (faultless /\ endpoint_fits tenant w) | _ => ~ faultless end.

Lemma events_roundtrip l : decode_strings (json_strings l) = l.
Proof. simpl. rewrite <-list_fmap_compose. apply list_fmap_id. Qed.

Section EndpointMethods.
Context `{Env} `{UrlCheck}.
Variable tenant : uuid.

Lemma endpoint_Create req : validate_Struct req = None -> validateEvents (cw_Events req) = None ->
  implements tenant (WebhookService_Create tenant req) (fun w => endpoint_fails tenant w (Create (fun u => u) (new_endpoint tenant req)))
    (Create (fun u => u) (new_endpoint tenant req)) Answered.
Proof.
  intros Hv He. unfold WebhookService_Create. rewrite Hv, He.
  eapply implements_mono; [|refine (implements_insert tenant (fun u d =>
      [ fresh_id er_ID (webhook_endpoints d) u; (tenant_exists d tenant, fk_violation) ])
      (fun u t => {| er_ID := u; er_TenantID := tenant; er_Url := cw_URL req; er_Secret := cw_Secret req;
         er_Events := json_strings (cw_Events req); er_IsActive := true; er_CreatedAt := t; er_UpdatedAt := t |}) (fun u => u) _ _ _ _)].
  - intros w Hn [Hf [Hid Hten]]. apply Hn. split; [done|].
    unfold fresh_id, tenant_exists. repeat constructor; by apply bool_decide_eq_true.
  - intros u d [Hid _]%Forall_cons. apply bool_decide_eq_true in Hid. by apply fresh_owned.
  - intros u t. split_and!; [done|by apply bool_decide_eq_true|]. unfold new_endpoint. simpl. unfold dbWebhookEndpointToDomain.
    f_equal. apply events_roundtrip.
Qed.

Lemma endpoint_GetByID id : implements tenant (WebhookService_GetByID tenant id) (fun _ => ~ faultless) (Read id) Answered.
Proof. exact (implements_read tenant id "webhook endpoint not found" "get webhook endpoint"). Qed.

Lemma endpoint_List :
  implements tenant (WebhookService_List tenant) (fun _ => ~ faultless) (Select (fun _ => true) latest None)
    (fun l => Listed l (Z.of_nat (length l))).
Proof.
  refine (implements_select tenant (fun _ => true) latest _ _ "list webhook endpoints" _ _ _);
    [intros e; by rewrite andb_true_r|done|lia].
Qed.

Lemma endpoint_Update id req : validate_Struct req = None -> validateEvents (uw_Events req) = None ->
  implements tenant (WebhookService_Update tenant id req) (fun _ => ~ faultless) (Update id (redirected req)) Answered.
Proof.
  intros Hv He w Hnd. unfold WebhookService_Update. rewrite Hv, He.
  refine (wp_update tenant id _ (redirected req) "webhook endpoint not found" "update webhook endpoint" w Hnd _ _); [done|].
  intros r _ t. unfold redirected. simpl. unfold dbWebhookEndpointToDomain. f_equal. apply events_roundtrip.
Qed.

Lemma endpoint_Delete id :
  implements tenant (WebhookService_Delete tenant id) (fun _ => ~ faultless) (Remove id) (fun _ => Removed).
Proof. refine (implements_remove tenant id (fun d => _) "delete webhook endpoint" _). by intros []. Qed.
End EndpointMethods.

(** ** Preferences *)

#[global] Instance preference_table : Table (string * string) PreferenceRow Preference := {|
  tb_rows := preferences; tb_set := set_preferences; tb_key := fun r => (pr_UserID r, pr_Channel r);
  tb_owned := fun tenant r => null_eq (pr_TenantID r) tenant; tb_conv := dbPreferenceToDomain |}.
#[global] Instance preference_table_laws : TableLaws (string * string) PreferenceRow Preference.
Proof. split. by intros f []. Qed.

(** The document of a user and channel: what the request says, times of day as HH:MM,
    numbers at the width of their columns, the id and the first time of an older one. *)
Definition clock (s : option string) : option string := format_15_04 <$> (s ≫= parse_15_04).
Definition saved_preference (user channel : string) (req : UpsertPreferenceRequest) (old : option Preference) (u : uuid)
    (t : gotime) : Preference :=
  {| p_ID := from_option p_ID u old; p_UserID := user; p_Channel := channel; p_Enabled := up_Enabled req;
     p_QuietHoursStart := clock (up_QuietHoursStart req); p_QuietHoursEnd := clock (up_QuietHoursEnd req);
     p_FrequencyCap := int32 <$> up_FrequencyCap req;
     p_FrequencyWindowMinutes := from_option int32 0 (up_FrequencyWindowMinutes req);
     p_Timezone := default "UTC" (up_Timezone req); p_CreatedAt := from_option p_CreatedAt t old; p_UpdatedAt := t |}.

Definition preference_fits `{Env} (tenant : uuid) (pref : Preference) (w : world) : Prop :=
  ev_uuid (env_event (w_tick w)) ∉ pr_ID <$> preferences (w_db w) /\ rune_count (p_UserID pref) <= 255 /\
  rune_count (p_Channel pref) <= 50 /\ rune_count (p_Timezone pref) <= 100 /\ tenant ∈ xr_ID <$> tenants (w_db w).
Definition preference_fails `{Env} (tenant : uuid) (w : world) (c : command (string * string) Preference) : Prop :=
  match c with Put _ f => ~ (faultless /\ preference_fits tenant (f None uuid_nil 0) w) | _ => ~ faultless end.

(** The list of a user's preferences: by channel. *)
Definition of_user (user : string) (pref : Preference) : bool := bool_decide (p_UserID pref = user).
Definition by_channel (a b : Preference) : bool := String.leb (p_Channel a) (p_Channel b).

Section PreferenceMethods.
Context `{Env}.
Variable tenant : uuid.

Lemma pref_key_keyed user channel r : pref_key (Some tenant) user channel r = keyed tenant (user, channel) r.
Proof.
  apply Bool.eq_true_iff_eq. unfold pref_key, keyed. simpl. rewrite !andb_true_iff, !bool_decide_eq_true, pair_equal_spec. tauto.
Qed.

Lemma preference_keys t :
  unique_opt (fun r => (fun x => (x, pr_UserID r, pr_Channel r)) <$> pr_TenantID r) t -> keys_unique tenant t.
Proof.
  unfold unique_opt, keys_unique. intros Hnd. apply (NoDup_fmap_1 (fun k => (tenant, k.1, k.2))).
  apply (sublist_NoDup _ _ Hnd). clear Hnd. induction t as [|r t IH]; [done|]. unfold where_ in *. simpl. unfold null_eq.
  destruct (pr_TenantID r) as [x|]; simpl; [|exact IH].
  destruct (decide (x = tenant)) as [->|]; [rewrite bool_decide_true by done|rewrite bool_decide_false by congruence];
    simpl; by constructor.
Qed.

Lemma preference_Upsert user channel req :
  implements tenant (PreferenceRepo_Upsert tenant user channel req)
    (fun w => preference_fails tenant w (Put (user, channel) (saved_preference user channel req)))
    (Put (user, channel) (saved_preference user channel req)) Answered.
Proof.
  intros w Hnd. refine (replied_row tenant _ _ _ w _). unfold UpsertPreference. cbn [iu_TenantID iu_UserID iu_Channel iu_Timezone].
  refine (served_upsert tenant (user, channel) (pref_key (Some tenant) user channel) _ pr_ID _
    (fun t r => pref_row _ (pr_ID r) (pr_CreatedAt r) t) (saved_preference user channel req) w _ _ Hnd _ _ _ _ _ _).
  - apply pref_key_keyed.
  - cbn [preference_fails]. tauto.
  - cbn [preference_fails]. intros Hn [Hf (Hid & Hu & Hc & Hz & Hten)]. apply Hn. split; [|done].
    unfold varchar, opt_fk, tenant_exists. simpl in *.
    repeat constructor; simpl; [by apply Z.leb_le..| |by apply bool_decide_eq_true].
    destruct (up_Timezone req); [by apply Z.leb_le|done].
  - intros u t. split; [by rewrite <-pref_key_keyed; unfold pref_key, null_eq; simpl; rewrite !bool_decide_true|].
    unfold saved_preference, clock. simpl. unfold dbPreferenceToDomain. simpl.
    by destruct (up_QuietHoursStart req), (up_QuietHoursEnd req), (up_FrequencyWindowMinutes req).
  - intros t x [Hk Ho]%keyed_true. simpl in *. split; [by injection Hk as -> ->|]. by rewrite Ho; apply bool_decide_eq_true.
  - intros t x u _. unfold saved_preference, clock. simpl. unfold dbPreferenceToDomain. simpl.
    by destruct (up_QuietHoursStart req), (up_QuietHoursEnd req), (up_FrequencyWindowMinutes req).
Qed.

Lemma preference_Delete user channel :
  implements tenant (PreferenceRepo_Delete tenant user channel) (fun _ => ~ faultless) (Remove (user, channel)) (fun _ => Removed).
Proof.
  refine (implements_remove tenant (user, channel) (fun d => _) "failed to delete preference" _). intros [].
  apply List.filter_ext. intros r. simpl. by rewrite <-pref_key_keyed.
Qed.

Lemma preference_List user :
  implements tenant (PreferenceRepo_ListByUser tenant user) (fun _ => ~ faultless) (Select (of_user user) by_channel None)
    (fun l => Listed l (Z.of_nat (length l))).
Proof.
  refine (implements_select tenant (of_user user) by_channel _ _ "failed to list preferences" _ _ _); [done|done|].
  intros a b Hab. destruct (String.leb_total (pr_Channel a) (pr_Channel b)) as [E|E]; [congruence|done].
Qed.
End PreferenceMethods.

(** ** Device tokens *)

#[global] Instance token_table : Table string DeviceTokenRow DeviceToken := {|
  tb_rows := device_tokens; tb_set := set_device_tokens; tb_key := kr_Token;
  tb_owned := fun tenant r => bool_decide (kr_TenantID r = tenant); tb_conv := toDeviceToken |}.
#[global] Instance token_table_laws : TableLaws string DeviceTokenRow DeviceToken.
Proof. split. by intros f []. Qed.

(** A registered token is active and belongs to the user who registered it last. *)
Definition saved_token (tenant : uuid) (req : RegisterDeviceTokenRequest) (old : option DeviceToken) (u : uuid) (t : gotime)
    : DeviceToken :=
  {| dt_ID := from_option dt_ID u old; dt_TenantID := tenant; dt_UserID := rd_UserID req; dt_Token := rd_Token req;
     dt_Platform := rd_Platform req; dt_IsActive := true; dt_CreatedAt := from_option dt_CreatedAt t old; dt_UpdatedAt := t |}.
Definition deactivated (t : gotime) (d : DeviceToken) : DeviceToken :=
  {| dt_ID := dt_ID d; dt_TenantID := dt_TenantID d; dt_UserID := dt_UserID d; dt_Token := dt_Token d;
     dt_Platform := dt_Platform d; dt_IsActive := false; dt_CreatedAt := dt_CreatedAt d; dt_UpdatedAt := t |}.

Definition token_fits `{Env} (tenant : uuid) (d : DeviceToken) (w : world) : Prop :=
  ev_uuid (env_event (w_tick w)) ∉ kr_ID <$> device_tokens (w_db w) /\ rune_count (dt_UserID d) <= 255 /\
  tenant ∈ xr_ID <$> tenants (w_db w).
Definition token_fails `{Env} (tenant : uuid) (w : world) (c : command string DeviceToken) : Prop :=
  match c with Put _ f => ~ (faultless /\ token_fits tenant (f None uuid_nil 0) w) | _ => ~ faultless end.

Lemma validate_platform (req : RegisterDeviceTokenRequest) :
  validate_Struct req = None -> rd_Platform req = "ios" \/ rd_Platform req = "android" \/ rd_Platform req = "web".
Proof.
  unfold validate_Struct. destruct (tag_violations req) as [|x l] eqn:E; [|done]. intros _.
  unfold tag_violations, RegisterDeviceTokenRequest_tags in E. apply app_eq_nil in E as [_ E]. apply app_eq_nil in E as [_ E].
  unfold field_tags in E. simpl in E. destruct (nonempty _); [|done]. simpl in E. repeat case_bool_decide; auto. done.
Qed.

Section TokenMethods.
Context `{Env}.
Variable tenant : uuid.

Lemma token_key_keyed token r : token_key tenant token r = keyed tenant token r.
Proof. apply andb_comm. Qed.

Lemma token_keys t : unique (fun r => (kr_TenantID r, kr_Token r)) t -> keys_unique tenant t.
Proof.
  intros Hnd. apply (NoDup_fmap_1 (fun k => (tenant, k))). apply (sublist_NoDup _ _ Hnd). clear Hnd.
  induction t as [|r t IH]; [done|]. unfold where_ in *. simpl.
  case_bool_decide as Ht; simpl; [rewrite Ht|]; by constructor.
Qed.

#[local] Instance internal_deactivate nf : Internal (fun e => if errors_Is_NoRows e then NewNotFoundError nf else e).
Proof. intros m. by do 2 eexists. Qed.

(** An error wrapped around the conversion of a row. *)
Lemma or_else_convert {B C} (m : M B) (f : B -> C) h w :
  or_else (b ← m; mret (f b)) h w = (b ← or_else m h; mret (f b)) w.
Proof. unfold or_else, mbind, ST_bind, mret, ST_ret. by destruct (m w) as [[]]. Qed.

Lemma token_Register req : validate_Struct req = None ->
  implements tenant (DeviceTokenService_Register tenant req)
    (fun w => token_fails tenant w (Put (rd_Token req) (saved_token tenant req)))
    (Put (rd_Token req) (saved_token tenant req)) Answered.
Proof.
  intros Hv w Hnd. unfold wp, DeviceTokenService_Register, DeviceTokenRepo_Upsert. rewrite Hv, or_else_convert.
  refine (replied_row tenant _ _ _ w _). unfold UpsertDeviceToken.
  refine (served_upsert tenant (rd_Token req) (token_key tenant (rd_Token req)) _ kr_ID _
    (fun t => set_token (Some (rd_UserID req)) (Some (rd_Platform req)) true t) (saved_token tenant req) w _ _ Hnd _ _ _ _ _ _).
  - apply token_key_keyed.
  - cbn [token_fails]. tauto.
  - cbn [token_fails]. intros Hn [Hf (Hid & Hu & Hten)]. apply Hn. split; [|done].
    pose proof (validate_platform req Hv) as Hp. unfold varchar, tenant_exists.
    repeat constructor; simpl; [by apply Z.leb_le|..].
    + by destruct Hp as [->|[->| ->]].
    + apply bool_decide_eq_true. destruct Hp as [->|[->| ->]]; set_solver.
    + by apply bool_decide_eq_true.
  - intros u t. split; [|done]. apply keyed_true. split; [done|]. by apply bool_decide_eq_true.
  - done.
  - intros t x u [Hk Ho%bool_decide_eq_true]%keyed_true. simpl in Hk. unfold saved_token. simpl. unfold toDeviceToken. simpl. congruence.
Qed.

Lemma token_Deregister token : token <> "" ->
  implements tenant (DeviceTokenService_Deregister tenant token) (fun _ => ~ faultless) (Touch token deactivated) (fun _ => Removed).
Proof.
  intros Hne. unfold DeviceTokenService_Deregister. rewrite decide_False by done.
  refine (implements_touch tenant token (fun t => set_token None None false t) deactivated
    (fun e => if errors_Is_NoRows e then NewNotFoundError "device token not found" else e) (fun t d => _) _ _); [|by intros].
  intros t []. apply list_fmap_ext. intros i r _. simpl. by rewrite token_key_keyed.
Qed.
End TokenMethods.

(** ** Requests *)

(** What a client can ask of a resource; [LIST] is the GET of the collection. *)
Inductive verb := POST | GET | LIST | PUT | DELETE.

(** A resource: its routes, the command a well-formed request asks for, when a command may
    fail, and how documents and lists of them are shown. *)
Record resource (K A : Type) := MkResource {
  re_handler : verb -> option (Request -> M Response);
  re_command : uuid -> Request -> verb -> option (command K A);
  re_fails : uuid -> world -> command K A -> Prop;
  re_view : A -> result any;
  re_list : Request -> list A -> Z -> Response;
}.
Arguments re_handler {K A}.
Arguments re_command {K A}.
Arguments re_fails {K A}.
Arguments re_view {K A}.
Arguments re_list {K A}.

Section Requests.
Context `{Env} `{UuidText} `{UrlCheck}.

(** A list with its page, and a whole one. *)
Definition paged {A} (view : A -> result any) (r : Request) (l : list A) (total : Z) : Response :=
  JSONList StatusOK (marshal_list view l) (page_of r) (per_page_of r) total (rq_ID r).
Definition whole {A} (view : A -> result any) (r : Request) (l : list A) (_ : Z) : Response :=
  JSON StatusOK (marshal_list view l) (rq_ID r).

Definition template_resource : resource uuid Template := {|
  re_handler v := Some
    match v with
    | POST => TemplateHandler_Create | GET => TemplateHandler_GetByID | LIST => TemplateHandler_List
    | PUT => TemplateHandler_Update | DELETE => TemplateHandler_Delete
    end;
  re_command _ r v :=
    match v with
    | POST =>
        match DecodeJSON r with
        | Ok req => match validate_Struct req with None => Some (Create (fun u => u) (new_template req)) | Some _ => None end
        | Err _ => None
        end
    | GET => Read <$> uuid_Parse (rq_Param r "id")
    | LIST => Some (Select (in_channel (rq_Query r "channel")) by_name (Some (page_window r)))
    | PUT => id ← uuid_Parse (rq_Param r "id"); match DecodeJSON r with Ok req => Some (Update id (revised req)) | Err _ => None end
    | DELETE => (fun id => Update id switched_off) <$> uuid_Parse (rq_Param r "id")
    end;
  re_fails := template_fails; re_view := marshal_Template; re_list := paged marshal_Template |}.

Definition endpoint_resource : resource uuid WebhookEndpoint := {|
  re_handler v := Some
    match v with
    | POST => WebhookHandler_Create | GET => WebhookHandler_GetByID | LIST => WebhookHandler_List
    | PUT => WebhookHandler_Update | DELETE => WebhookHandler_Delete
    end;
  re_command tenant r v :=
    match v with
    | POST =>
        match DecodeJSON r with
        | Ok req => match validate_Struct req, validateEvents (cw_Events req) with
                    | None, None => Some (Create (fun u => u) (new_endpoint tenant req)) | _, _ => None end
        | Err _ => None
        end
    | GET => Read <$> uuid_Parse (rq_Param r "id")
    | LIST => Some (Select (fun _ => true) latest None)
    | PUT => id ← uuid_Parse (rq_Param r "id");
        match DecodeJSON r with
        | Ok req => match validate_Struct req, validateEvents (uw_Events req) with
                    | None, None => Some (Update id (redirected req)) | _, _ => None end
        | Err _ => None
        end
    | DELETE => Remove <$> uuid_Parse (rq_Param r "id")
    end;
  re_fails := endpoint_fails; re_view := marshal_WebhookEndpoint; re_list := whole marshal_WebhookEndpoint |}.

Definition channel_param (r : Request) : option Channel :=
  if IsValid (rq_Param r "channel") then Some (rq_Param r "channel") else None.

Definition preference_resource : resource (string * string) Preference := {|
  re_handler v :=
    match v with
    | LIST => Some PreferenceHandler_ListByUser | PUT => Some PreferenceHandler_Upsert
    | DELETE => Some PreferenceHandler_Delete | POST | GET => None
    end;
  re_command _ r v :=
    let user := rq_Param r "user_id" in
    match v with
    | PUT => channel ← channel_param r;
        match DecodeJSON r with
        | Ok req => match validate_Struct req with
                    | None => Some (Put (user, channel) (saved_preference user channel req)) | Some _ => None end
        | Err _ => None
        end
    | DELETE => (fun channel => Remove (user, channel)) <$> channel_param r
    | _ => Some (Select (of_user user) by_channel None)
    end;
  re_fails := preference_fails; re_view := marshal_Preference; re_list := whole marshal_Preference |}.

Definition token_resource : resource string DeviceToken := {|
  re_handler v :=
    match v with
    | POST => Some DeviceTokenHandler_Register | DELETE => Some DeviceTokenHandler_Deregister | GET | LIST | PUT => None
    end;
  re_command tenant r v :=
    match v with
    | POST =>
        match DecodeJSON r with
        | Ok req => match validate_Struct req with None => Some (Put (rd_Token req) (saved_token tenant req)) | Some _ => None end
        | Err _ => None
        end
    | _ => if decide (rq_Param r "token" = "") then None else Some (Touch (rq_Param r "token") deactivated)
    end;
  re_fails := token_fails; re_view := marshal_DeviceToken; re_list := whole marshal_DeviceToken |}.

(** The answer to an outcome. *)
Definition answered {K A} (R : resource K A) (r : Request) (v : verb) (o : outcome A) (resp : Response) : Prop :=
  match o with
  | Answered a => resp = JSON (match v with POST => StatusCreated | _ => StatusOK end) (re_view R a) (rq_ID r)
  | Listed l total => resp = re_list R r l total
  | Removed => resp = NoContent
  | Missing => rs_Status resp = 404
  | Failed => rs_Status resp = 500
  end.

(** A request of the tenant did what its command does, or was refused for its form. *)
Definition did {K Row A} `{Countable K} `{Table K Row A} (R : resource K A) (tenant : uuid) (r : Request) (v : verb)
    (c : option (command K A)) (w : world) (out : result Response * world) : Prop :=
  exists resp, out.1 = Ok resp /\
    match c with
    | Some c => exists o, served (re_fails R tenant w c) (store_of tenant w) c o (store_of tenant out.2) /\ answered R r v o resp
    | None => rs_Status resp = 422 /\ out.2 = w
    end.
Definition resource_request {K Row A} `{Countable K} `{Table K Row A} (R : resource K A) (tenant : uuid) (r : Request) (w : world)
    : Prop :=
  forall v h, re_handler R v = Some h -> did R tenant r v (re_command R tenant r v) w (h r w).

Lemma respond_implements {K Row A B} `{Countable K} `{TableLaws K Row A} R tenant r v (m : M B) (c : command K A) ans okf w :
  implements (Row := Row) tenant m (fun w => re_fails R tenant w c) c ans -> (forall b, answered R r v (ans b) (okf b)) ->
  keys_unique (Row := Row) tenant (tb_rows (w_db w)) ->
  did (Row := Row) R tenant r v (Some c) w (respond m (rq_ID r) okf w).
Proof.
  intros Hm Hok Hnd. specialize (Hm w Hnd). unfold wp in Hm. destruct Hm as (o & Hs & Hr).
  unfold did, respond, mbind, ST_bind, try. destruct (m w) as [[b|e] w'].
  - exists (okf b). split; [done|]. exists o. split; [done|]. simpl in Hr. subst o. apply Hok.
  - eexists. split; [reflexivity|]. exists o. split; [done|].
    destruct Hr as [[-> [msg ->]]|[-> (msg & cause & ->)]]; reflexivity.
Qed.

(** A validation error of the service, an unreadable body, a bad id. *)
Lemma respond_refused {K Row A B} `{Countable K} `{Table K Row A} R tenant r v (m : M B) okf w msg d :
  m w = (Err (NewValidationError msg d), w) ->
  did (Row := Row) (A := A) R tenant r v None w (respond m (rq_ID r) okf w).
Proof. intros Hm. unfold did, respond, mbind, ST_bind, try. rewrite Hm. by eexists. Qed.
Lemma refused {K Row A} `{Countable K} `{Table K Row A} R tenant r v w msg d :
  did (Row := Row) (A := A) R tenant r v None w (Ok (JSONError (NewValidationError msg d) (rq_ID r)), w).
Proof. by eexists. Qed.

Lemma toValidationError_form e : exists msg d, toValidationError e = NewValidationError msg d.
Proof. destruct e; simpl; eauto. Qed.
Lemma validateEvents_form l e : validateEvents l = Some e -> exists msg d, e = NewValidationError msg d.
Proof. unfold validateEvents. destruct (List.find _ _); intros [= <-]; eauto. Qed.
End Requests.

Section RequestLemmas.
Context `{Env} `{UuidText} `{UrlCheck}.
Variables (r : Request) (client : APIClient) (w : world).
Hypothesis from_client : rq_Client r = Some client.
Hypothesis schema_w : schema w.

(** Past the client, the parameters and the body of a request. *)
Ltac enter := unfold with_tenant, ClientFromContext; rewrite from_client; unfold with_id_param, with_channel, with_body, channel_param.
Ltac bad_body E := apply DecodeJSON_error in E as [? ->]; apply refused.
Ltac bad_field e := destruct (toValidationError_form e) as (? & ? & ->); by eapply respond_refused.
Ltac serve L := eapply respond_implements; [by apply L|done|done].

Lemma template_request : resource_request template_resource (ac_TenantID client) r w.
Proof using All.
  assert (keys_unique (ac_TenantID client) (templates (w_db w))) as Hnd by (apply unique_keys, schema_w).
  intros v h [= <-]. destruct v; cbn [re_command template_resource].
  - unfold TemplateHandler_Create. enter. destruct (DecodeJSON r) as [req|e] eqn:E; [|bad_body E].
    unfold TemplateService_Create. destruct (validate_Struct req) as [e|]; [bad_field e|serve template_Create].
  - unfold TemplateHandler_GetByID. enter. destruct (uuid_Parse _) as [id|]; [serve template_GetByID|apply refused].
  - unfold TemplateHandler_List. enter. serve template_List.
  - unfold TemplateHandler_Update. enter. destruct (uuid_Parse _) as [id|]; [|apply refused]. simpl.
    destruct (DecodeJSON r) as [req|e] eqn:E; [serve template_Update|bad_body E].
  - unfold TemplateHandler_Delete. enter. destruct (uuid_Parse _) as [id|]; [serve template_Delete|apply refused].
Qed.

(** The two validations of an endpoint's request. *)
Ltac bad_endpoint Hv He :=
  try unfold WebhookService_Create; try unfold WebhookService_Update; rewrite Hv; rewrite ?He; try apply validateEvents_form in He as (? & ? & ->); by eapply respond_refused.

Lemma endpoint_request : resource_request endpoint_resource (ac_TenantID client) r w.
Proof using All.
  assert (keys_unique (ac_TenantID client) (webhook_endpoints (w_db w))) as Hnd by (apply unique_keys, schema_w).
  intros v h [= <-]. destruct v; cbn [re_command endpoint_resource].
  - unfold WebhookHandler_Create. enter. destruct (DecodeJSON r) as [req|e] eqn:E; [|bad_body E].
    destruct (validate_Struct req) as [e|] eqn:Hv; [|destruct (validateEvents _) as [e|] eqn:He].
    + bad_endpoint Hv Hv.
    + bad_endpoint Hv He.
    + serve endpoint_Create.
  - unfold WebhookHandler_GetByID. enter. destruct (uuid_Parse _) as [id|]; [serve endpoint_GetByID|apply refused].
  - unfold WebhookHandler_List. enter. serve endpoint_List.
  - unfold WebhookHandler_Update. enter. destruct (uuid_Parse _) as [id|]; [|apply refused]. simpl.
    destruct (DecodeJSON r) as [req|e] eqn:E; [|bad_body E].
    destruct (validate_Struct req) as [e|] eqn:Hv; [|destruct (validateEvents _) as [e|] eqn:He].
    + bad_endpoint Hv Hv.
    + bad_endpoint Hv He.
    + serve endpoint_Update.
  - unfold WebhookHandler_Delete. enter. destruct (uuid_Parse _) as [id|]; [serve endpoint_Delete|apply refused].
Qed.

Lemma preference_request : resource_request preference_resource (ac_TenantID client) r w.
Proof using All.
  assert (keys_unique (ac_TenantID client) (preferences (w_db w))) as Hnd by (apply preference_keys, schema_w).
  intros v h Hv. destruct v; try done; injection Hv as <-; cbn [re_command preference_resource].
  - unfold PreferenceHandler_ListByUser. enter. serve preference_List.
  - unfold PreferenceHandler_Upsert. enter. destruct (IsValid _); [|apply refused]. simpl.
    destruct (DecodeJSON r) as [req|e] eqn:E; [|bad_body E].
    unfold PreferenceService_Upsert. destruct (validate_Struct req) as [e|]; [bad_field e|serve preference_Upsert].
  - unfold PreferenceHandler_Delete. enter. destruct (IsValid _); [serve preference_Delete|apply refused].
Qed.

Lemma token_request : resource_request token_resource (ac_TenantID client) r w.
Proof using All.
  assert (keys_unique (ac_TenantID client) (device_tokens (w_db w))) as Hnd by (apply token_keys, schema_w).
  intros v h Hv. destruct v; try done; injection Hv as <-; cbn [re_command token_resource].
  - unfold DeviceTokenHandler_Register. enter. destruct (DecodeJSON r) as [req|e] eqn:E; [|bad_body E].
    destruct (validate_Struct req) as [e|] eqn:Hv; [|serve token_Register].
    unfold DeviceTokenService_Register. rewrite Hv. bad_field e.
  - unfold DeviceTokenHandler_Deregister. enter. destruct (decide _) as [Ht|Ht]; [|serve token_Deregister].
    unfold DeviceTokenService_Deregister. rewrite decide_True by done. by eapply respond_refused.
Qed.
End RequestLemmas.

(** C25. Templates, webhook endpoints, preferences and device tokens are keyed stores: by id, by
    id, by user and channel, and by token.  Every request a client sends to a route of one of
    them is answered, and is exactly one command on its tenant's store: a well-formed
    creation adds the document written under an unused id (201), a read answers the stored
    document, a list answers the selected documents in their order (templates by name, of
    one channel and one page with the whole count; endpoints latest first; a user's
    preferences by channel), an update changes the given members, raises a template's
    version and keeps an endpoint's secret, a put of a preference or token writes the
    document under its key, keeping the id and first time of an older one, a delete switches
    a template or a token off and removes an endpoint or a preference, an absent id is 404,
    and a failed call is 500 with the store unchanged or, when only the answer was lost,
    changed as the command does; nothing fails when no call fails, a new document fits and
    the page is in range.  A request with a bad id, channel, token, body or field is answered
    422 and does nothing. *)
Theorem resources_refine_stores `{Env} `{UuidText} `{UrlCheck} r client w :
  rq_Client r = Some client -> schema w ->
  resource_request template_resource (ac_TenantID client) r w /\
  resource_request endpoint_resource (ac_TenantID client) r w /\
  resource_request preference_resource (ac_TenantID client) r w /\
  resource_request token_resource (ac_TenantID client) r w.
Proof.
  intros Hc Hs. split_and!; [by apply template_request|by apply endpoint_request|by apply preference_request|by apply token_request].
Qed.

(** Tenant 1 posts a template. *)
Definition template_post : Request :=
  {| rq_Method := "POST"; rq_Path := "/api/v1/templates/"; rq_Header := fun _ => ""; rq_Query := fun _ => "";
     rq_Param := fun _ => "";
     rq_Body := BodyJson 80 (AObj [("name", AStr "hi"); ("channel", AStr "email"); ("body_template", AStr "Hello")]);
     rq_ID := "r1"; rq_Client := Some {| ac_ID := 3; ac_TenantID := 1; ac_Name := "ci"; ac_IsActive := true |} |}.
Definition template_posted : result Response * world := @TemplateHandler_Create calm bits_uuid template_post demo_tenants.

Lemma resources_refine_stores_witness :
  exists tm : Template, store_of 1 template_posted.2 = {[t_ID tm := tm]} /\ t_Name tm = "hi" /\ t_Version tm = 1 /\
    template_posted.1 = Ok (JSON 201 (@marshal_Template bits_uuid tm) "r1").
Proof.
  assert (schema demo_tenants) as Hs by (destruct empty_db_wf; split; try done; apply NoDup_singleton).
  assert (match template_posted.1 with Ok resp => rs_Status resp | Err _ => 0 end = 201) as Hst by (vm_compute; reflexivity).
  destruct (@resources_refine_stores calm bits_uuid (fun _ => true) template_post _ demo_tenants eq_refl Hs) as [Ht _].
  destruct (Ht POST _ eq_refl) as (resp & Hout & o & Hserved & Hans). cbn beta iota in Hout, Hserved.
  change (TemplateHandler_Create template_post demo_tenants) with template_posted in Hout, Hserved. rewrite Hout in Hst |- *.
  cbn [ac_TenantID] in Hserved. remember (store_of 1 template_posted.2) as s eqn:Hstore.
  clear Hstore.
  inversion Hserved as [key make k t Hk Hc| | | | | | | | | |]; subst; [|simpl in Hans; lia..].
  exists (new_template (MkCreateTemplateRequest "hi" "email" None "Hello" None) k t).
  split_and!; [reflexivity..|by rewrite Hans].
Defined.
